(** * Vulkan2D: sprite batching, camera zoom clamp and text layout

    A shallow embedding of the parts of the Vulkan2D engine that the
    specification's testable properties talk about:

    - [Camera2D]        src/src/Graphics/Camera2D.cpp
    - [SpriteBatch]     src/src/Renderer/SpriteBatch.cpp (the implementation
                        with sorting, batches and instance records)
    - [LegacySpriteBatch]  the older implementation kept in the same file
    - [TextRenderer]    the text layout of src/src/Graphics/Sprite.cpp

    and, beyond them,

    - [Color]           src/include/Vulkan2D/Graphics/Color.h
    - [Font]            the glyph atlas of src/src/Graphics/Font.cpp
    - [InputManager]    Input/InputManager.cpp, and its use in the loop of
                        src/src/Core/Engine.cpp ([Engine])
    - [AudioManager]    the book-keeping of src/src/Audio/AudioManager.cpp

    Conventions.  A [uint32_t] is a [Z] reduced with [u32] wherever the
    source computes in 32 bits.  A [float] is an IEEE-754 binary32 value of
    the Standard Library's [SpecFloat] (precision 24, emax 128).  A pointer
    is its address as a [Z], [nullptr] being [0].  A [std::vector] is a list
    and [push_back] appends at the end.  An exception carries the state the
    object is left in when it is thrown.  Where the behaviour of a call is
    undefined (a cast out of range, a copy past the end of a buffer) the
    call has no result, [None]. *)

From Stdlib Require Import ZArith List Bool Lia Ascii String SpecFloat Permutation Sorted.
From stdpp Require Import base list gmap.
Import ListNotations.
Local Open Scope Z_scope.

(** ** Machine integers and pointers *)

Definition u32 (x : Z) : Z := x mod 2 ^ 32.

Definition nullptr : Z := 0.

(** ** binary32 arithmetic *)

Definition float : Type := spec_float.

Module F32.

Definition prec : Z := 24.
Definition emax : Z := 128.

Definition add : float -> float -> float := SFadd prec emax.
Definition sub : float -> float -> float := SFsub prec emax.
Definition mul : float -> float -> float := SFmul prec emax.
Definition div : float -> float -> float := SFdiv prec emax.
Definition neg : float -> float := SFopp.
Definition ltb : float -> float -> bool := SFltb.
Definition leb : float -> float -> bool := SFleb.

(** [static_cast<float>(n)] of an integer. *)
Definition of_Z (n : Z) : float := binary_normalize prec emax n 0 false.

Definition zero : float := S754_zero false.
Definition one : float := S754_finite false 8388608 (-23).
Definition two : float := S754_finite false 8388608 (-22).
Definition half : float := S754_finite false 8388608 (-24).
(** The literal [0.1f], bit pattern 0x3DCCCCCD. *)
Definition tenth : float := S754_finite false 13421773 (-27).

End F32.

Record vec2 := Vec2 { vx : float; vy : float }.
Record vec3 := Vec3 { v3x : float; v3y : float; v3z : float }.
Record vec4 := Vec4 { v4x : float; v4y : float; v4z : float; v4w : float }.
Record ivec2 := IVec2 { ivx : Z; ivy : Z }.

Definition vec2_add (a b : vec2) : vec2 :=
  Vec2 (F32.add (vx a) (vx b)) (F32.add (vy a) (vy b)).

Definition vec2_neg (a : vec2) : vec2 := Vec2 (F32.neg (vx a)) (F32.neg (vy a)).

(** ** What the engine takes from libm and glm

    [std::cos], [std::sin] and the glm matrix constructors are external
    to the repository; the embedding takes them as an interface. *)

Class ExternMath := {
  mat4 : Type;
  cosf : float -> float;
  sinf : float -> float;
  glm_identity : mat4;
  glm_scale : mat4 -> vec3 -> mat4;
  glm_rotate : mat4 -> float -> vec3 -> mat4;
  glm_translate : mat4 -> vec3 -> mat4;
  glm_ortho : float -> float -> float -> float -> float -> float -> mat4;
  mat4_mul : mat4 -> mat4 -> mat4
}.

(** ** Exceptions *)

Inductive result (A : Type) : Type :=
| Ok (s : A)
| Throw (what : string) (s : A).
Arguments Ok {A} s.
Arguments Throw {A} what s.

Definition state_of {A} (r : result A) : A :=
  match r with Ok s => s | Throw _ s => s end.

Definition threw {A} (r : result A) : bool :=
  match r with Ok _ => false | Throw _ _ => true end.

Definition and_then {A} (r : result A) (f : A -> result A) : result A :=
  match r with Ok s => f s | Throw w s => Throw w s end.

(** ** Camera2D *)

Module Camera2D.
Section Camera.
Context `{ExternMath}.

Record t := Mk {
  m_Position : vec2;
  m_Rotation : float;
  m_Zoom : float;
  m_ViewportWidth : float;
  m_ViewportHeight : float;
  m_ViewMatrix : mat4;
  m_ProjectionMatrix : mat4;
  m_ViewDirty : bool;
  m_ProjectionDirty : bool
}.

(** The matrix [UpdateViewMatrix] builds: scale by the zoom, rotate about
    z, translate by the negated position. *)
Definition view_transform (zoom rotation : float) (position : vec2) : mat4 :=
  let transform := glm_identity in
  let transform := glm_scale transform (Vec3 zoom zoom F32.one) in
  let transform := glm_rotate transform rotation (Vec3 F32.zero F32.zero F32.one) in
  glm_translate transform
    (Vec3 (vx (vec2_neg position)) (vy (vec2_neg position)) F32.zero).

Definition UpdateViewMatrix (c : t) : t :=
  Mk (m_Position c) (m_Rotation c) (m_Zoom c) (m_ViewportWidth c)
     (m_ViewportHeight c)
     (view_transform (m_Zoom c) (m_Rotation c) (m_Position c))
     (m_ProjectionMatrix c) false (m_ProjectionDirty c).

Definition UpdateProjectionMatrix (c : t) : t :=
  Mk (m_Position c) (m_Rotation c) (m_Zoom c) (m_ViewportWidth c)
     (m_ViewportHeight c) (m_ViewMatrix c)
     (glm_ortho F32.zero (m_ViewportWidth c) F32.zero (m_ViewportHeight c)
                (F32.neg F32.one) F32.one)
     (m_ViewDirty c) false.

Definition set_zoom (z : float) (c : t) : t :=
  Mk (m_Position c) (m_Rotation c) z (m_ViewportWidth c) (m_ViewportHeight c)
     (m_ViewMatrix c) (m_ProjectionMatrix c) (m_ViewDirty c)
     (m_ProjectionDirty c).

Definition set_view_dirty (c : t) : t :=
  Mk (m_Position c) (m_Rotation c) (m_Zoom c) (m_ViewportWidth c)
     (m_ViewportHeight c) (m_ViewMatrix c) (m_ProjectionMatrix c) true
     (m_ProjectionDirty c).

Definition SetPosition (position : vec2) (c : t) : t :=
  Mk position (m_Rotation c) (m_Zoom c) (m_ViewportWidth c)
     (m_ViewportHeight c) (m_ViewMatrix c) (m_ProjectionMatrix c) true
     (m_ProjectionDirty c).

Definition SetRotation (rotation : float) (c : t) : t :=
  Mk (m_Position c) rotation (m_Zoom c) (m_ViewportWidth c)
     (m_ViewportHeight c) (m_ViewMatrix c) (m_ProjectionMatrix c) true
     (m_ProjectionDirty c).

(** [m_Zoom = zoom; if (m_Zoom < 0.1f) m_Zoom = 0.1f; m_ViewDirty = true;] *)
Definition SetZoom (zoom : float) (c : t) : t :=
  let c := set_zoom zoom c in
  let c := if F32.ltb (m_Zoom c) F32.tenth then set_zoom F32.tenth c else c in
  set_view_dirty c.

(** [m_Zoom += delta; if (m_Zoom < 0.1f) m_Zoom = 0.1f; m_ViewDirty = true;] *)
Definition Zoom (delta : float) (c : t) : t :=
  let c := set_zoom (F32.add (m_Zoom c) delta) c in
  let c := if F32.ltb (m_Zoom c) F32.tenth then set_zoom F32.tenth c else c in
  set_view_dirty c.

Definition SetViewport (width height : float) (c : t) : t :=
  Mk (m_Position c) (m_Rotation c) (m_Zoom c) width height
     (m_ViewMatrix c) (m_ProjectionMatrix c) (m_ViewDirty c) true.

(** The getters are [const] but recompute through a [const_cast]: they
    return the camera they leave behind together with the matrix. *)
Definition GetViewMatrix (c : t) : t * mat4 :=
  let c := if m_ViewDirty c then UpdateViewMatrix c else c in
  (c, m_ViewMatrix c).

Definition GetProjectionMatrix (c : t) : t * mat4 :=
  let c := if m_ProjectionDirty c then UpdateProjectionMatrix c else c in
  (c, m_ProjectionMatrix c).

Definition GetViewProjectionMatrix (c : t) : t * mat4 :=
  let '(c, p) := GetProjectionMatrix c in
  let '(c, v) := GetViewMatrix c in
  (c, mat4_mul p v).

(** The constructor: both matrices are computed once. *)
Definition create (width height : float) : t :=
  UpdateProjectionMatrix
    (UpdateViewMatrix
       (Mk (Vec2 F32.zero F32.zero) F32.zero F32.one width height
           glm_identity glm_identity true true)).

(** [m_Position += delta; m_ViewDirty = true;] *)
Definition Move (delta : vec2) (c : t) : t :=
  Mk (vec2_add (m_Position c) delta) (m_Rotation c) (m_Zoom c)
     (m_ViewportWidth c) (m_ViewportHeight c) (m_ViewMatrix c)
     (m_ProjectionMatrix c) true (m_ProjectionDirty c).

(** [m_Rotation += delta; m_ViewDirty = true;] *)
Definition Rotate (delta : float) (c : t) : t :=
  Mk (m_Position c) (F32.add (m_Rotation c) delta) (m_Zoom c)
     (m_ViewportWidth c) (m_ViewportHeight c) (m_ViewMatrix c)
     (m_ProjectionMatrix c) true (m_ProjectionDirty c).

End Camera.
End Camera2D.

(** ** SpriteBatch: data *)

Record Vertex2D := MkVertex2D {
  position : vec3;
  color : vec4;
  texCoord : vec2
}.

Module SpriteBatch.

Definition DEFAULT_MAX_SPRITES : Z := 65536.
Definition FRAME_BUFFER_COUNT : Z := 2.
(** [poolInfo.maxSets] of [CreateDescriptorPool]. *)
Definition DESCRIPTOR_POOL_MAX_SETS : Z := 2048.

Record SpriteInstance := MkInstance {
  i_position : vec2;
  i_size : vec2;
  i_origin : vec2;
  i_rotation : float;
  i_padding : float;
  i_color : vec4;
  i_uvRect : vec4
}.

Record BatchStatistics := MkStatistics {
  spriteCount : Z;
  drawCallCount : Z;
  instancedBatches : Z;
  textureBindCount : Z;
  cpuTimeMs : float
}.

Record BatchInfo := MkBatch {
  b_texture : Z;
  startInstance : Z;
  instanceCount : Z
}.

Record SpriteData := MkSpriteData {
  texture : Z;
  instance : SpriteInstance
}.

Record FrameData := MkFrameData {
  instanceStagingBuffer : list SpriteInstance;
  needsUpload : bool
}.

(** The arguments of the eight-parameter [Draw]. *)
Record DrawArgs := MkDraw {
  d_texture : Z;
  d_position : vec2;
  d_size : vec2;
  d_uvMin : vec2;
  d_uvMax : vec2;
  d_color : vec4;
  d_rotation : float;
  d_origin : vec2
}.

Record t := Mk {
  m_Vertices : list Vertex2D;
  m_Indices : list Z;
  m_VertexBuffer : list Vertex2D;
  m_IndexBuffer : list Z;
  m_FrameData : list FrameData;
  m_CurrentFrameIndex : Z;
  m_SpriteDataList : list SpriteData;
  m_Instances : list SpriteInstance;
  m_Batches : list BatchInfo;
  m_DescriptorPool : Z;
  m_DescriptorSets : gmap Z Z;
  m_CurrentCamera : Z;
  m_MaxSprites : Z;
  m_IsBatching : bool;
  m_EnableTextureSorting : bool;
  m_UseInstancing : bool;
  m_Statistics : BatchStatistics;
  m_WhiteTexture : Z
}.

(** [memcpy(dst, src.data(), src.size() * sizeof(T))] into a mapped buffer:
    the first [src.size()] slots are overwritten, the rest keep what an
    earlier frame left there. *)
Definition memcpy {A} (dst src : list A) : list A :=
  src ++ drop (length src) dst.

(** The command stream [Render] records. *)
Inductive VkCmd {M : Type} : Type :=
| CmdBindPipeline
| CmdSetViewport (width height : float)
| CmdSetScissor (width height : Z)
| CmdPushConstants (viewProj : M)
| CmdBindVertexBuffers
| CmdBindIndexBuffer
| CmdBindDescriptorSets (descriptorSet : Z)
| CmdDrawIndexed (indexCount instanceCount firstIndex vertexOffset firstInstance : Z).
Arguments VkCmd M : clear implicits.

(** std::stable_sort, which the C++ standard specifies as a sort that keeps
    the order of equivalent elements: a stable insertion sort.  [lt x y] is
    the comparator [comp(x, y)]. *)
Fixpoint stable_insert {A} (lt : A -> A -> bool) (x : A) (l : list A) : list A :=
  match l with
  | [] => [x]
  | y :: l' => if lt y x then y :: stable_insert lt x l' else x :: y :: l'
  end.

Fixpoint stable_sort {A} (lt : A -> A -> bool) (l : list A) : list A :=
  match l with
  | [] => []
  | x :: l' => stable_insert lt x (stable_sort lt l')
  end.

(** ** SpriteBatch: operations *)

(** The constructor, as far as the batching state goes.  [whiteTexture]
    is the address [Texture::CreateWhiteTexture] returns. *)
Definition create (maxSprites whiteTexture : Z) : t :=
  {| m_Vertices := []; m_Indices := [];
     m_VertexBuffer := []; m_IndexBuffer := [];
     m_FrameData := [MkFrameData [] false; MkFrameData [] false];
     m_CurrentFrameIndex := 0;
     m_SpriteDataList := []; m_Instances := []; m_Batches := [];
     m_DescriptorPool := 0; m_DescriptorSets := ∅;
     m_CurrentCamera := nullptr;
     m_MaxSprites := u32 maxSprites;
     m_IsBatching := false;
     m_EnableTextureSorting := true;
     m_UseInstancing := false;
     m_Statistics := MkStatistics 0 0 0 0 F32.zero;
     m_WhiteTexture := whiteTexture |}.

Definition SetTextureSortingEnabled (enabled : bool) (s : t) : t :=
  {| m_Vertices := m_Vertices s; m_Indices := m_Indices s;
     m_VertexBuffer := m_VertexBuffer s; m_IndexBuffer := m_IndexBuffer s;
     m_FrameData := m_FrameData s;
     m_CurrentFrameIndex := m_CurrentFrameIndex s;
     m_SpriteDataList := m_SpriteDataList s; m_Instances := m_Instances s;
     m_Batches := m_Batches s;
     m_DescriptorPool := m_DescriptorPool s;
     m_DescriptorSets := m_DescriptorSets s;
     m_CurrentCamera := m_CurrentCamera s;
     m_MaxSprites := m_MaxSprites s;
     m_IsBatching := m_IsBatching s;
     m_EnableTextureSorting := enabled;
     m_UseInstancing := m_UseInstancing s;
     m_Statistics := m_Statistics s;
     m_WhiteTexture := m_WhiteTexture s |}.

Definition Begin (camera : Z) (s : t) : result t :=
  if m_IsBatching s then
    Throw "SpriteBatch::Begin called without ending previous batch" s
  else
    Ok {| m_Vertices := []; m_Indices := [];
          m_VertexBuffer := m_VertexBuffer s; m_IndexBuffer := m_IndexBuffer s;
          m_FrameData := m_FrameData s;
          m_CurrentFrameIndex := m_CurrentFrameIndex s;
          m_SpriteDataList := []; m_Instances := []; m_Batches := [];
          m_DescriptorPool := m_DescriptorPool s;
          m_DescriptorSets := m_DescriptorSets s;
          m_CurrentCamera := camera;
          m_MaxSprites := m_MaxSprites s;
          m_IsBatching := true;
          m_EnableTextureSorting := m_EnableTextureSorting s;
          m_UseInstancing := m_UseInstancing s;
          m_Statistics := MkStatistics 0 0 0 0 F32.zero;
          m_WhiteTexture := m_WhiteTexture s |}.

Definition set_SpriteDataList (l : list SpriteData) (s : t) : t :=
  {| m_Vertices := m_Vertices s; m_Indices := m_Indices s;
     m_VertexBuffer := m_VertexBuffer s; m_IndexBuffer := m_IndexBuffer s;
     m_FrameData := m_FrameData s;
     m_CurrentFrameIndex := m_CurrentFrameIndex s;
     m_SpriteDataList := l; m_Instances := m_Instances s;
     m_Batches := m_Batches s;
     m_DescriptorPool := m_DescriptorPool s;
     m_DescriptorSets := m_DescriptorSets s;
     m_CurrentCamera := m_CurrentCamera s;
     m_MaxSprites := m_MaxSprites s;
     m_IsBatching := m_IsBatching s;
     m_EnableTextureSorting := m_EnableTextureSorting s;
     m_UseInstancing := m_UseInstancing s;
     m_Statistics := m_Statistics s;
     m_WhiteTexture := m_WhiteTexture s |}.

Definition make_SpriteData (white : Z) (a : DrawArgs) : SpriteData :=
  let texture := if d_texture a =? nullptr then white else d_texture a in
  MkSpriteData texture
    (MkInstance (d_position a) (d_size a) (d_origin a) (d_rotation a)
       F32.zero (d_color a)
       (Vec4 (vx (d_uvMin a)) (vy (d_uvMin a)) (vx (d_uvMax a)) (vy (d_uvMax a)))).

Definition Draw (a : DrawArgs) (s : t) : result t :=
  if negb (m_IsBatching s) then
    Throw "SpriteBatch::Draw called without Begin" s
  else if m_MaxSprites s <=? Z.of_nat (length (m_SpriteDataList s)) then
    Ok s
  else
    Ok (set_SpriteDataList
          (m_SpriteDataList s ++ [make_SpriteData (m_WhiteTexture s) a]) s).

(** [Draw(texture, position, size, color, rotation, origin)]: the whole
    texture, UV from (0,0) to (1,1). *)
Definition Draw_whole_texture (texture : Z) (position size : vec2) (color : vec4)
    (rotation : float) (origin : vec2) (s : t) : result t :=
  Draw (MkDraw texture position size (Vec2 F32.zero F32.zero)
          (Vec2 F32.one F32.one) color rotation origin) s.

Definition texture_lt (a b : SpriteData) : bool := texture a <? texture b.

Definition SortBatches (s : t) : t :=
  if negb (m_EnableTextureSorting s) || bool_decide (m_SpriteDataList s = []) then s
  else set_SpriteDataList (stable_sort texture_lt (m_SpriteDataList s)) s.

(** The loop of [BuildBatches]: [i] is the loop index, the two locals are
    [currentTexture] and [batchStartIndex]. *)
Fixpoint BuildBatches_loop (l : list SpriteData) (i : Z)
    (currentTexture batchStartIndex : Z)
    (batches : list BatchInfo) (instances : list SpriteInstance)
    : Z * Z * list BatchInfo * list SpriteInstance :=
  match l with
  | [] => (currentTexture, batchStartIndex, batches, instances)
  | spriteData :: rest =>
      let '(cur, start, batches) :=
        if negb (texture spriteData =? currentTexture) then
          let batches :=
            if negb (currentTexture =? nullptr) && (batchStartIndex <? i) then
              batches ++ [MkBatch currentTexture batchStartIndex
                                  (u32 (u32 i - batchStartIndex))]
            else batches in
          (texture spriteData, u32 i, batches)
        else (currentTexture, batchStartIndex, batches) in
      BuildBatches_loop rest (i + 1) cur start batches
        (instances ++ [instance spriteData])
  end.

Definition set_Batches_Instances (b : list BatchInfo)
    (ins : list SpriteInstance) (s : t) : t :=
  {| m_Vertices := m_Vertices s; m_Indices := m_Indices s;
     m_VertexBuffer := m_VertexBuffer s; m_IndexBuffer := m_IndexBuffer s;
     m_FrameData := m_FrameData s;
     m_CurrentFrameIndex := m_CurrentFrameIndex s;
     m_SpriteDataList := m_SpriteDataList s; m_Instances := ins;
     m_Batches := b;
     m_DescriptorPool := m_DescriptorPool s;
     m_DescriptorSets := m_DescriptorSets s;
     m_CurrentCamera := m_CurrentCamera s;
     m_MaxSprites := m_MaxSprites s;
     m_IsBatching := m_IsBatching s;
     m_EnableTextureSorting := m_EnableTextureSorting s;
     m_UseInstancing := m_UseInstancing s;
     m_Statistics := m_Statistics s;
     m_WhiteTexture := m_WhiteTexture s |}.

Definition BuildBatches (s : t) : t :=
  match m_SpriteDataList s with
  | [] => s
  | _ =>
      let '(currentTexture, batchStartIndex, batches, instances) :=
        BuildBatches_loop (m_SpriteDataList s) 0 nullptr 0
                          (m_Batches s) (m_Instances s) in
      let batches :=
        if negb (currentTexture =? nullptr) then
          batches ++ [MkBatch currentTexture batchStartIndex
                        (u32 (u32 (Z.of_nat (length (m_SpriteDataList s)))
                              - batchStartIndex))]
        else batches in
      set_Batches_Instances batches instances s
  end.

Definition set_FrameData (fd : list FrameData) (s : t) : t :=
  {| m_Vertices := m_Vertices s; m_Indices := m_Indices s;
     m_VertexBuffer := m_VertexBuffer s; m_IndexBuffer := m_IndexBuffer s;
     m_FrameData := fd;
     m_CurrentFrameIndex := m_CurrentFrameIndex s;
     m_SpriteDataList := m_SpriteDataList s; m_Instances := m_Instances s;
     m_Batches := m_Batches s;
     m_DescriptorPool := m_DescriptorPool s;
     m_DescriptorSets := m_DescriptorSets s;
     m_CurrentCamera := m_CurrentCamera s;
     m_MaxSprites := m_MaxSprites s;
     m_IsBatching := m_IsBatching s;
     m_EnableTextureSorting := m_EnableTextureSorting s;
     m_UseInstancing := m_UseInstancing s;
     m_Statistics := m_Statistics s;
     m_WhiteTexture := m_WhiteTexture s |}.

Definition UploadInstanceData (s : t) : t :=
  match m_Instances s with
  | [] => s
  | _ =>
      let slot := Z.to_nat (m_CurrentFrameIndex s) in
      match m_FrameData s !! slot with
      | Some frameData =>
          set_FrameData
            (<[slot := MkFrameData
                         (memcpy (instanceStagingBuffer frameData) (m_Instances s))
                         true]> (m_FrameData s)) s
      | None => s
      end
  end.

Section WithMath.
Context `{ExternMath}.

(** The four corners of one sprite, rotated about its origin on the CPU
    and moved to its position: the body of the vertex loop of [End]. *)
Definition rotate_corner (cos_r sin_r : float) (pos corner : vec2) : vec2 :=
  let x := F32.sub (F32.mul (vx corner) cos_r) (F32.mul (vy corner) sin_r) in
  let y := F32.add (F32.mul (vx corner) sin_r) (F32.mul (vy corner) cos_r) in
  vec2_add (Vec2 x y) pos.

Definition quad_corners (inst : SpriteInstance) : list vec2 :=
  let ox := vx (i_origin inst) in
  let oy := vy (i_origin inst) in
  let sx := vx (i_size inst) in
  let sy := vy (i_size inst) in
  let corners :=
    [ Vec2 (F32.neg ox) (F32.neg oy);
      Vec2 (F32.sub sx ox) (F32.neg oy);
      Vec2 (F32.sub sx ox) (F32.sub sy oy);
      Vec2 (F32.neg ox) (F32.sub sy oy) ] in
  let cos_r := cosf (i_rotation inst) in
  let sin_r := sinf (i_rotation inst) in
  map (rotate_corner cos_r sin_r (i_position inst)) corners.

Definition quad_vertices (inst : SpriteInstance) : list Vertex2D :=
  let uv := i_uvRect inst in
  let uvMin := Vec2 (v4x uv) (v4y uv) in
  let uvMax := Vec2 (v4z uv) (v4w uv) in
  let texCoords :=
    [ Vec2 (vx uvMin) (vy uvMin); Vec2 (vx uvMax) (vy uvMin);
      Vec2 (vx uvMax) (vy uvMax); Vec2 (vx uvMin) (vy uvMax) ] in
  zip_with (fun c uv => MkVertex2D (Vec3 (vx c) (vy c) F32.zero) (i_color inst) uv)
    (quad_corners inst) texCoords.

Definition quad_indices (baseVertex : Z) : list Z :=
  [ u32 (baseVertex + 0); u32 (baseVertex + 1); u32 (baseVertex + 2);
    u32 (baseVertex + 2); u32 (baseVertex + 3); u32 (baseVertex + 0) ].

(** The loop of [End] that fills [m_Vertices] and [m_Indices]. *)
Fixpoint generate_vertices (l : list SpriteData)
    (vertices : list Vertex2D) (indices : list Z)
    : list Vertex2D * list Z :=
  match l with
  | [] => (vertices, indices)
  | spriteData :: rest =>
      let baseVertex := u32 (Z.of_nat (length vertices)) in
      generate_vertices rest
        (vertices ++ quad_vertices (instance spriteData))
        (indices ++ quad_indices baseVertex)
  end.

(** [End]; [elapsed] is what the two clock readings of the call differ by. *)
Definition End (elapsed : float) (s : t) : result t :=
  if negb (m_IsBatching s) then
    Throw "SpriteBatch::End called without Begin" s
  else
    let s := SortBatches s in
    let s := BuildBatches s in
    let s := UploadInstanceData s in
    let '(vertices, indices) :=
      generate_vertices (m_SpriteDataList s) (m_Vertices s) (m_Indices s) in
    Ok {| m_Vertices := vertices; m_Indices := indices;
          m_VertexBuffer :=
            match vertices with
            | [] => m_VertexBuffer s
            | _ => memcpy (m_VertexBuffer s) vertices
            end;
          m_IndexBuffer :=
            match indices with
            | [] => m_IndexBuffer s
            | _ => memcpy (m_IndexBuffer s) indices
            end;
          m_FrameData := m_FrameData s;
          m_CurrentFrameIndex :=
            u32 (m_CurrentFrameIndex s + 1) mod FRAME_BUFFER_COUNT;
          m_SpriteDataList := m_SpriteDataList s;
          m_Instances := m_Instances s;
          m_Batches := m_Batches s;
          m_DescriptorPool := m_DescriptorPool s;
          m_DescriptorSets := m_DescriptorSets s;
          m_CurrentCamera := m_CurrentCamera s;
          m_MaxSprites := m_MaxSprites s;
          m_IsBatching := false;
          m_EnableTextureSorting := m_EnableTextureSorting s;
          m_UseInstancing := m_UseInstancing s;
          m_Statistics :=
            MkStatistics (u32 (Z.of_nat (length (m_SpriteDataList s))))
                         (u32 (Z.of_nat (length (m_Batches s))))
                         0
                         (u32 (Z.of_nat (length (m_Batches s))))
                         elapsed;
          m_WhiteTexture := m_WhiteTexture s |}.

Definition GetSpriteCount (s : t) : Z := spriteCount (m_Statistics s).
Definition GetDrawCallCount (s : t) : Z := drawCallCount (m_Statistics s).

Definition set_Descriptors (pool : Z) (sets : gmap Z Z) (s : t) : t :=
  {| m_Vertices := m_Vertices s; m_Indices := m_Indices s;
     m_VertexBuffer := m_VertexBuffer s; m_IndexBuffer := m_IndexBuffer s;
     m_FrameData := m_FrameData s;
     m_CurrentFrameIndex := m_CurrentFrameIndex s;
     m_SpriteDataList := m_SpriteDataList s; m_Instances := m_Instances s;
     m_Batches := m_Batches s;
     m_DescriptorPool := pool;
     m_DescriptorSets := sets;
     m_CurrentCamera := m_CurrentCamera s;
     m_MaxSprites := m_MaxSprites s;
     m_IsBatching := m_IsBatching s;
     m_EnableTextureSorting := m_EnableTextureSorting s;
     m_UseInstancing := m_UseInstancing s;
     m_Statistics := m_Statistics s;
     m_WhiteTexture := m_WhiteTexture s |}.

(** [vkAllocateDescriptorSets] on the engine's pool: the pool counts the
    sets it has handed out, the handle of the n-th set is [n], and the
    call fails once [maxSets] are out. *)
Definition vkAllocateDescriptorSets (pool : Z) : option (Z * Z) :=
  if pool <? DESCRIPTOR_POOL_MAX_SETS then Some (pool + 1, pool + 1) else None.

(** [GetOrCreateDescriptorSet] on the two members it touches. *)
Definition GetOrCreateDescriptorSet (texture : Z) (pool : Z) (sets : gmap Z Z)
    : result (Z * gmap Z Z) * option Z :=
  match sets !! texture with
  | Some descriptorSet => (Ok (pool, sets), Some descriptorSet)
  | None =>
      match vkAllocateDescriptorSets pool with
      | None => (Throw "Failed to allocate descriptor set" (pool, sets), None)
      | Some (pool', descriptorSet) =>
          (Ok (pool', <[texture := descriptorSet]> sets), Some descriptorSet)
      end
  end.

(** The batch loop of [Render]: the descriptor state it leaves, the
    commands it records, and the exception that cut it short, if any. *)
Fixpoint render_batches (batches : list BatchInfo) (indexOffset : Z)
    (pool : Z) (sets : gmap Z Z)
    : result (Z * gmap Z Z) * list (VkCmd mat4) :=
  match batches with
  | [] => (Ok (pool, sets), [])
  | batch :: rest =>
      match GetOrCreateDescriptorSet (b_texture batch) pool sets with
      | (Ok (pool, sets), Some descriptorSet) =>
          let indexCount := u32 (instanceCount batch * 6) in
          let '(r, cmds) :=
            render_batches rest (u32 (indexOffset + indexCount)) pool sets in
          (r, CmdBindDescriptorSets descriptorSet
                :: CmdDrawIndexed indexCount 1 indexOffset 0 0 :: cmds)
      | (r, _) => (r, [])
      end
  end.

(** [Render].  [extent] is the swap-chain extent of the context and
    [camera] the object [m_CurrentCamera] points to. *)
Definition Render (extent : Z * Z) (camera : Camera2D.t) (s : t)
    : result t * Camera2D.t * list (VkCmd mat4) :=
  match m_Batches s with
  | [] => (Ok s, camera, [])
  | _ =>
      let '(camera, viewProj) := Camera2D.GetViewProjectionMatrix camera in
      let prologue :=
        [ CmdBindPipeline;
          CmdSetViewport (F32.of_Z (fst extent)) (F32.of_Z (snd extent));
          CmdSetScissor (fst extent) (snd extent);
          CmdPushConstants viewProj;
          CmdBindVertexBuffers;
          CmdBindIndexBuffer ] in
      let '(r, cmds) :=
        render_batches (m_Batches s) 0 (m_DescriptorPool s) (m_DescriptorSets s) in
      let s' := set_Descriptors (fst (state_of r)) (snd (state_of r)) s in
      (match r with Ok _ => Ok s' | Throw w _ => Throw w s' end,
       camera, prologue ++ cmds)
  end.

(** One frame: [Begin], the draws in order, [End]. *)
Fixpoint draw_all (ds : list DrawArgs) (s : t) : result t :=
  match ds with
  | [] => Ok s
  | a :: rest => and_then (Draw a s) (draw_all rest)
  end.

Definition frame (camera : Z) (ds : list DrawArgs) (elapsed : float) (s : t)
    : result t :=
  and_then (and_then (Begin camera s) (draw_all ds)) (End elapsed).

End WithMath.
End SpriteBatch.

(** ** The older SpriteBatch

    The first implementation in SpriteBatch.cpp, declared by
    include/Vulkan2D/Renderer/SpriteBatch.h: vertices are produced in
    [Draw] itself and a batch is a range of indices. *)

Module LegacySpriteBatch.

Record BatchInfo := MkBatch {
  b_texture : Z;
  startIndex : Z;
  indexCount : Z
}.

(** [m_VertexBuffer] and [m_IndexBuffer] hold what has been written to
    the mapped memory of the two buffers, from the first slot on. *)
Record t := Mk {
  m_Vertices : list Vertex2D;
  m_Indices : list Z;
  m_Batches : list BatchInfo;
  m_CurrentTexture : Z;
  m_CurrentCamera : Z;
  m_MaxSprites : Z;
  m_SpriteCount : Z;
  m_DrawCallCount : Z;
  m_IsBatching : bool;
  m_WhiteTexture : Z;
  m_VertexBuffer : list Vertex2D;
  m_IndexBuffer : list Z
}.

Definition create (maxSprites whiteTexture : Z) : t :=
  Mk [] [] [] nullptr nullptr (u32 maxSprites) 0 0 false whiteTexture [] [].

(** Slots of the two mapped buffers the constructor allocates:
    [sizeof(Vertex2D) * maxSprites * 4] and
    [sizeof(uint32_t) * maxSprites * 6] bytes, computed as [VkDeviceSize]. *)
Definition vertex_buffer_slots (s : t) : Z := m_MaxSprites s * 4.
Definition index_buffer_slots (s : t) : Z := m_MaxSprites s * 6.

(** [if (!src.empty()) memcpy(buffer->GetMappedData(), src.data(),
    src.size() * sizeof(T))] into a mapped buffer of [slots] elements.
    A copy of more than [slots] elements writes past the end of the
    buffer: the behaviour is undefined, [None]. *)
Definition upload {A} (slots : Z) (dst src : list A) : option (list A) :=
  match src with
  | [] => Some dst
  | _ =>
      if Z.of_nat (length src) <=? slots
      then Some (SpriteBatch.memcpy dst src)
      else None
  end.

Definition Begin (camera : Z) (s : t) : result t :=
  if m_IsBatching s then
    Throw "SpriteBatch::Begin called without ending previous batch" s
  else
    Ok (Mk [] [] [] nullptr camera (m_MaxSprites s) 0 0 true (m_WhiteTexture s)
           (m_VertexBuffer s) (m_IndexBuffer s)).

(** "This would be called during drawing if we exceed max sprites.
    For now, we just prevent overflow": the body is empty. *)
Definition Flush (s : t) : t := s.

(** The batch that closes the run of [m_CurrentTexture], appended when it
    has at least one index. *)
Definition record_batch (s : t) : list BatchInfo :=
  let startIndex :=
    match last (m_Batches s) with
    | None => 0
    | Some back => u32 (startIndex back + indexCount back)
    end in
  let indexCount := u32 (u32 (Z.of_nat (length (m_Indices s))) - startIndex) in
  if 0 <? indexCount then
    m_Batches s ++ [MkBatch (m_CurrentTexture s) startIndex indexCount]
  else m_Batches s.

Section WithMath.
Context `{ExternMath}.

Definition Draw (a : SpriteBatch.DrawArgs) (s : t) : result t :=
  if negb (m_IsBatching s) then
    Throw "SpriteBatch::Draw called without Begin" s
  else
    let s := if m_MaxSprites s <=? m_SpriteCount s then Flush s else s in
    let texture :=
      if SpriteBatch.d_texture a =? nullptr then m_WhiteTexture s
      else SpriteBatch.d_texture a in
    let batches :=
      if negb (texture =? m_CurrentTexture s) then
        if negb (m_CurrentTexture s =? nullptr) then record_batch s
        else m_Batches s
      else m_Batches s in
    let baseVertex := u32 (Z.of_nat (length (m_Vertices s))) in
    Ok (Mk (m_Vertices s ++
              SpriteBatch.quad_vertices
                (SpriteBatch.instance
                   (SpriteBatch.make_SpriteData (m_WhiteTexture s) a)))
           (m_Indices s ++ SpriteBatch.quad_indices baseVertex)
           batches
           texture
           (m_CurrentCamera s) (m_MaxSprites s)
           (u32 (m_SpriteCount s + 1))
           (m_DrawCallCount s) (m_IsBatching s) (m_WhiteTexture s)
           (m_VertexBuffer s) (m_IndexBuffer s)).

(** [End]: the exception, the state it leaves, or [None] when one of the
    two copies runs past its mapped buffer. *)
Definition End (s : t) : option (result t) :=
  if negb (m_IsBatching s) then
    Some (Throw "SpriteBatch::End called without Begin" s)
  else
    let batches :=
      if negb (m_CurrentTexture s =? nullptr)
         && negb (bool_decide (m_Vertices s = [])) then record_batch s
      else m_Batches s in
    match upload (vertex_buffer_slots s) (m_VertexBuffer s) (m_Vertices s) with
    | None => None
    | Some vertexBuffer =>
        match upload (index_buffer_slots s) (m_IndexBuffer s) (m_Indices s) with
        | None => None
        | Some indexBuffer =>
            Some (Ok (Mk (m_Vertices s) (m_Indices s) batches
                         (m_CurrentTexture s) (m_CurrentCamera s)
                         (m_MaxSprites s) (m_SpriteCount s)
                         (u32 (Z.of_nat (length batches))) false
                         (m_WhiteTexture s) vertexBuffer indexBuffer))
        end
    end.

Definition GetSpriteCount (s : t) : Z := m_SpriteCount s.

Fixpoint draw_all (ds : list SpriteBatch.DrawArgs) (s : t) : result t :=
  match ds with
  | [] => Ok s
  | a :: rest => and_then (Draw a s) (draw_all rest)
  end.

(** [Begin] and the draws in order, before [End]. *)
Definition drawn (camera : Z) (ds : list SpriteBatch.DrawArgs) (s : t)
    : result t :=
  and_then (Begin camera s) (draw_all ds).

(** One frame: [Begin], the draws in order, [End]. *)
Definition frame (camera : Z) (ds : list SpriteBatch.DrawArgs) (s : t)
    : option (result t) :=
  match drawn camera ds s with
  | Ok s => End s
  | Throw what s => Some (Throw what s)
  end.

End WithMath.
End LegacySpriteBatch.

(** ** Text layout *)

Module TextRenderer.

Record GlyphInfo := MkGlyph {
  g_size : ivec2;
  g_bearing : ivec2;
  g_advance : Z;
  g_uvMin : vec2;
  g_uvMax : vec2
}.

(** A font.  [m_Ascent] is what [GetAscent()] returns: the getter is
    called by the text renderer but declared in a revision of Font.h that
    is not among the sources, so its value is a field here. *)
Record Font := MkFont {
  m_Glyphs : gmap Z GlyphInfo;
  m_AtlasTexture : Z;
  m_FontSize : Z;
  m_Ascent : float
}.

Inductive TextAlign := Left | Center | Right.

Definition GetGlyph (font : Font) (codepoint : Z) : option GlyphInfo :=
  m_Glyphs font !! codepoint.

(** The bytes of a [std::string], each read as a [uint8_t]. *)
Fixpoint bytes_of (s : string) : list Z :=
  match s with
  | EmptyString => []
  | String c rest => Z.of_N (Ascii.N_of_ascii c) :: bytes_of rest
  end.

(** [if (codepoint > 0) codepoints.push_back(codepoint);] *)
Definition push_codepoint (codepoint : Z) (codepoints : list Z) : list Z :=
  if 0 <? codepoint then codepoint :: codepoints else codepoints.

(** [Utf8ToCodepoints]: the list is the part of the string from index [i]
    on, and the result the code points pushed from there. *)
Fixpoint decode_utf8 (s : list Z) : list Z :=
  match s with
  | [] => []
  | c :: rest =>
      if Z.land c 0x80 =? 0 then
        push_codepoint c (decode_utf8 rest)
      else if Z.land c 0xE0 =? 0xC0 then
        match rest with
        | b1 :: rest1 =>
            push_codepoint
              (Z.lor (Z.shiftl (Z.land c 0x1F) 6) (Z.land b1 0x3F))
              (decode_utf8 rest1)
        | _ => decode_utf8 rest
        end
      else if Z.land c 0xF0 =? 0xE0 then
        match rest with
        | b1 :: b2 :: rest2 =>
            push_codepoint
              (Z.lor (Z.lor (Z.shiftl (Z.land c 0x0F) 12)
                            (Z.shiftl (Z.land b1 0x3F) 6))
                     (Z.land b2 0x3F))
              (decode_utf8 rest2)
        | _ => decode_utf8 rest
        end
      else if Z.land c 0xF8 =? 0xF0 then
        match rest with
        | b1 :: b2 :: b3 :: rest3 =>
            push_codepoint
              (Z.lor (Z.lor (Z.lor (Z.shiftl (Z.land c 0x07) 18)
                                   (Z.shiftl (Z.land b1 0x3F) 12))
                            (Z.shiftl (Z.land b2 0x3F) 6))
                     (Z.land b3 0x3F))
              (decode_utf8 rest3)
        | _ => decode_utf8 rest
        end
      else decode_utf8 rest
  end.

Definition Utf8ToCodepoints (utf8String : string) : list Z :=
  decode_utf8 (bytes_of utf8String).

(** The first loop of [DrawText]: the width of the line. *)
Fixpoint measure_width (font : Font) (scale : float) (codepoints : list Z)
    (textWidth : float) : float :=
  match codepoints with
  | [] => textWidth
  | codepoint :: rest =>
      measure_width font scale rest
        (match GetGlyph font codepoint with
         | Some glyph => F32.add textWidth (F32.mul (F32.of_Z (g_advance glyph)) scale)
         | None =>
             F32.add textWidth
               (F32.mul (F32.mul (F32.of_Z (m_FontSize font)) scale) F32.half)
         end)
  end.

(** Is a quad drawn for this code point: the font has the glyph and its
    bitmap is not empty. *)
Definition draws_quad (font : Font) (codepoint : Z) : bool :=
  match GetGlyph font codepoint with
  | Some glyph => (0 <? ivx (g_size glyph)) && (0 <? ivy (g_size glyph))
  | None => false
  end.

(** The second loop of [DrawText]: the [Draw] calls it makes, in order.
    [x] is the pen position. *)
Fixpoint layout_glyphs (font : Font) (atlas : Z) (color : vec4)
    (scale y : float) (codepoints : list Z) (x : float)
    : list SpriteBatch.DrawArgs :=
  match codepoints with
  | [] => []
  | codepoint :: rest =>
      match GetGlyph font codepoint with
      | None =>
          layout_glyphs font atlas color scale y rest
            (F32.add x (F32.mul (F32.mul (F32.of_Z (m_FontSize font)) scale) F32.half))
      | Some glyph =>
          let x' := F32.add x (F32.mul (F32.of_Z (g_advance glyph)) scale) in
          if (0 <? ivx (g_size glyph)) && (0 <? ivy (g_size glyph)) then
            let xpos := F32.add x (F32.mul (F32.of_Z (ivx (g_bearing glyph))) scale) in
            let ypos := F32.sub y (F32.mul (F32.of_Z (ivy (g_bearing glyph))) scale) in
            let w := F32.mul (F32.of_Z (ivx (g_size glyph))) scale in
            let h := F32.mul (F32.of_Z (ivy (g_size glyph))) scale in
            SpriteBatch.MkDraw atlas (Vec2 xpos ypos) (Vec2 w h)
              (g_uvMin glyph) (g_uvMax glyph) color F32.zero
              (Vec2 F32.zero F32.zero)
            :: layout_glyphs font atlas color scale y rest x'
          else layout_glyphs font atlas color scale y rest x'
      end
  end.

(** The draw requests [DrawText] submits; [font] is [None] for a null
    pointer. *)
Definition DrawText_requests (font : option Font) (text : string)
    (position : vec2) (color : vec4) (scale : float) (align : TextAlign)
    : list SpriteBatch.DrawArgs :=
  match font with
  | None => []
  | Some font =>
      if bool_decide (text = EmptyString) then []
      else
        let codepoints := Utf8ToCodepoints text in
        let textWidth := measure_width font scale codepoints F32.zero in
        let offsetX :=
          match align with
          | Center => F32.div (F32.neg textWidth) F32.two
          | Right => F32.neg textWidth
          | Left => F32.zero
          end in
        let atlas := m_AtlasTexture font in
        let x := F32.add (vx position) offsetX in
        let y := F32.add (vy position) (F32.mul (m_Ascent font) scale) in
        layout_glyphs font atlas color scale y codepoints x
  end.

(** [DrawText]: every request goes through [SpriteBatch::Draw]. *)
Definition DrawText (batch : SpriteBatch.t) (font : option Font) (text : string)
    (position : vec2) (color : vec4) (scale : float) (align : TextAlign)
    : result SpriteBatch.t :=
  SpriteBatch.draw_all
    (DrawText_requests font text position color scale align) batch.

(** [DrawTextWithShadow]: the shadow first, moved by [shadowOffset], then
    the text over it. *)
Definition DrawTextWithShadow (batch : SpriteBatch.t) (font : option Font)
    (text : string) (position : vec2) (color shadowColor : vec4)
    (shadowOffset : vec2) (scale : float) (align : TextAlign)
    : result SpriteBatch.t :=
  and_then
    (DrawText batch font text (vec2_add position shadowOffset) shadowColor
       scale align)
    (fun batch => DrawText batch font text position color scale align).

End TextRenderer.

(** ** Color

    include/Vulkan2D/Graphics/Color.h.  A colour is the [glm::vec4] it
    wraps.  [uint8_t] arguments are integers from 0 to 255. *)

Module Color.

(** [static_cast<uint8_t>(n)] of an [int]. *)
Definition u8 (n : Z) : Z := n mod 256.

(** [std::clamp(v, lo, hi)]. *)
Definition clamp (v lo hi : Z) : Z :=
  if v <? lo then lo else if hi <? v then hi else v.

(** [std::min(a, b)] and [std::max(a, b)] of floats. *)
Definition fmin (a b : float) : float := if F32.ltb b a then b else a.
Definition fmax (a b : float) : float := if F32.ltb a b then b else a.

(** [n / 255.0f] for a [uint8_t] n. *)
Definition unit_of_byte (n : Z) : float :=
  F32.div (F32.of_Z n) (F32.of_Z 255).

Definition RGBA (r g b a : Z) : vec4 :=
  Vec4 (unit_of_byte r) (unit_of_byte g) (unit_of_byte b) (unit_of_byte a).

Definition RGB (r g b : Z) : vec4 :=
  Vec4 (unit_of_byte r) (unit_of_byte g) (unit_of_byte b) F32.one.

(** The overloads on [int]. *)
Definition RGBA_int (r g b a : Z) : vec4 :=
  RGBA (u8 (clamp r 0 255)) (u8 (clamp g 0 255)) (u8 (clamp b 0 255))
       (u8 (clamp a 0 255)).

Definition RGB_int (r g b : Z) : vec4 :=
  RGB (u8 (clamp r 0 255)) (u8 (clamp g 0 255)) (u8 (clamp b 0 255)).

Definition RGBAlpha (r g b : Z) (alpha : float) : vec4 :=
  Vec4 (unit_of_byte r) (unit_of_byte g) (unit_of_byte b) alpha.

Definition WithAlpha (alpha : float) (c : vec4) : vec4 :=
  Vec4 (v4x c) (v4y c) (v4z c) alpha.

Definition Lighten (amount : float) (c : vec4) : vec4 :=
  Vec4 (fmin (F32.add (v4x c) amount) F32.one)
       (fmin (F32.add (v4y c) amount) F32.one)
       (fmin (F32.add (v4z c) amount) F32.one)
       (v4w c).

Definition Darken (amount : float) (c : vec4) : vec4 :=
  Vec4 (fmax (F32.sub (v4x c) amount) F32.zero)
       (fmax (F32.sub (v4y c) amount) F32.zero)
       (fmax (F32.sub (v4z c) amount) F32.zero)
       (v4w c).

(** A float cut to an integer, towards zero; none for an infinity or a
    NaN. *)
Definition truncate (f : float) : option Z :=
  match f with
  | S754_zero _ => Some 0
  | S754_finite sign m e =>
      let magnitude :=
        if 0 <=? e then Z.pos m * 2 ^ e else Z.pos m / 2 ^ (- e) in
      Some (if sign then - magnitude else magnitude)
  | _ => None
  end.

(** [static_cast<uint8_t>(f)] of a float: defined when the truncated
    value is a [uint8_t], and undefined behaviour ([None]) otherwise. *)
Definition to_uint8 (f : float) : option Z :=
  match truncate f with
  | Some n => if (0 <=? n) && (n <=? 255) then Some n else None
  | None => None
  end.

Definition R255 (c : vec4) : option Z := to_uint8 (F32.mul (v4x c) (F32.of_Z 255)).
Definition G255 (c : vec4) : option Z := to_uint8 (F32.mul (v4y c) (F32.of_Z 255)).
Definition B255 (c : vec4) : option Z := to_uint8 (F32.mul (v4z c) (F32.of_Z 255)).
Definition A255 (c : vec4) : option Z := to_uint8 (F32.mul (v4w c) (F32.of_Z 255)).

(** The value of a hexadecimal digit. *)
Definition hex_value (c : Ascii.ascii) : option Z :=
  let n := Z.of_N (Ascii.N_of_ascii c) in
  if (48 <=? n) && (n <=? 57) then Some (n - 48)
  else if (65 <=? n) && (n <=? 70) then Some (n - 55)
  else if (97 <=? n) && (n <=? 102) then Some (n - 87)
  else None.

(** [isspace] in the C locale. *)
Definition isspace (c : Ascii.ascii) : bool :=
  let n := Z.of_N (Ascii.N_of_ascii c) in
  (n =? 32) || ((9 <=? n) && (n <=? 13)).

Fixpoint skip_space (s : string) : string :=
  match s with
  | String c rest => if isspace c then skip_space rest else s
  | EmptyString => s
  end.

(** The digits [strtol] reads; [acc] is [None] until the first one. *)
Fixpoint read_hex (s : string) (acc : option Z) : option Z :=
  match s with
  | String c rest =>
      match hex_value c with
      | Some v => read_hex rest (Some (16 * default 0 acc + v))
      | None => acc
      end
  | EmptyString => acc
  end.

Definition starts_with_hex (s : string) : bool :=
  match s with
  | String c _ => bool_decide (is_Some (hex_value c))
  | EmptyString => false
  end.

(** [std::stoi(s, nullptr, 16)]: white space, an optional sign, an
    optional [0x] before a digit, then the digits.  [None] is an
    exception: [std::invalid_argument] when there is no digit,
    [std::out_of_range] when the value is no [int]. *)
Definition stoi16 (s : string) : option Z :=
  let s := skip_space s in
  let '(negative, s) :=
    match s with
    | String c rest =>
        if Ascii.eqb c "+"%char then (false, rest)
        else if Ascii.eqb c "-"%char then (true, rest)
        else (false, s)
    | EmptyString => (false, s)
    end in
  let s :=
    match s with
    | String z (String x rest) =>
        if Ascii.eqb z "0"%char && (Ascii.eqb x "x"%char || Ascii.eqb x "X"%char)
           && starts_with_hex rest
        then rest else s
    | _ => s
    end in
  match read_hex s None with
  | None => None
  | Some v =>
      let v := if negative then - v else v in
      if (- 2 ^ 31 <=? v) && (v <? 2 ^ 31) then Some v else None
  end.

(** [Hex]: an optional [#], then [RRGGBB] or [RRGGBBAA]; shorter strings
    give white.  [None] when [std::stoi] throws. *)
Definition Hex (hex : string) : option vec4 :=
  let h :=
    match hex with
    | String c rest => if Ascii.eqb c "#"%char then rest else hex
    | EmptyString => hex
    end in
  let rgb :=
    if (6 <=? String.length h)%nat then
      match stoi16 (substring 0 2 h) with
      | None => None
      | Some r =>
          match stoi16 (substring 2 2 h) with
          | None => None
          | Some g =>
              match stoi16 (substring 4 2 h) with
              | None => None
              | Some b => Some (u8 r, u8 g, u8 b)
              end
          end
      end
    else Some (255, 255, 255) in
  match rgb with
  | None => None
  | Some (r, g, b) =>
      if (8 <=? String.length h)%nat then
        match stoi16 (substring 6 2 h) with
        | None => None
        | Some a => Some (RGBA r g b (u8 a))
        end
      else Some (RGBA r g b 255)
  end.

(** The digit [%X] prints for a value below 16. *)
Definition hex_digit (n : Z) : Ascii.ascii :=
  Ascii.ascii_of_N (Z.to_N (if n <? 10 then 48 + n else 55 + n)).

(** [%02X] of a [uint8_t]. *)
Definition format_02X (n : Z) : string :=
  String (hex_digit (n / 16)) (String (hex_digit (n mod 16)) EmptyString).

(** [ToHex]; [None] when a component cannot be cast to [uint8_t]. *)
Definition ToHex (includeAlpha : bool) (c : vec4) : option string :=
  match R255 c, G255 c, B255 c with
  | Some r, Some g, Some b =>
      let rgb :=
        String "#"%char
          (String.append (format_02X r)
             (String.append (format_02X g) (format_02X b))) in
      if includeAlpha then
        match A255 c with
        | Some a => Some (String.append rgb (format_02X a))
        | None => None
        end
      else Some rgb
  | _, _, _ => None
  end.

End Color.

(** ** Font: the glyph atlas

    src/Graphics/Font.cpp.  FreeType is external: [FT_Load_Char] is a
    function from the character to the rendered glyph slot, [None] when
    FreeType reports an error. *)

Module Font.

(** The fields of [FT_GlyphSlot] the font reads.  [buffer i] is the byte
    [bitmap.buffer[i]]; [advance_x] is [advance.x >> 6]. *)
Record GlyphSlot := MkSlot {
  bitmap_width : Z;
  bitmap_rows : Z;
  bitmap_left : Z;
  bitmap_top : Z;
  advance_x : Z;
  bitmap_buffer : Z -> Z
}.

(** [for (uint32_t c = first; c <= last; c++) characters.push_back(c);] *)
Definition char_range (first last : Z) : list Z :=
  map (fun i => first + Z.of_nat i) (seq 0 (Z.to_nat (last + 1 - first))).

(** The characters both [LoadGlyphs] and [CreateAtlas] go through: ASCII
    32..126, Hiragana, Katakana and the first kanji. *)
Definition characters : list Z :=
  char_range 32 126 ++ char_range 0x3040 0x309F ++ char_range 0x30A0 0x30FF
  ++ char_range 0x4E00 0x4FFF.

Section WithFreeType.
Variable FT_Load_Char : Z -> option GlyphSlot.

(** The first loop of [LoadGlyphs]: [totalWidth] and [maxHeight]. *)
Fixpoint measure_glyphs (cs : list Z) (totalWidth maxHeight : Z) : Z * Z :=
  match cs with
  | [] => (totalWidth, maxHeight)
  | c :: rest =>
      match FT_Load_Char c with
      | None => measure_glyphs rest totalWidth maxHeight
      | Some g =>
          measure_glyphs rest
            (u32 (totalWidth + u32 (bitmap_width g + 2)))
            (Z.max maxHeight (bitmap_rows g))
      end
  end.

(** [while (atlasSize * atlasSize < need) atlasSize *= 2;] in [uint32_t]
    arithmetic; [None] when the fuel does not reach the exit. *)
Fixpoint atlas_size_loop (fuel : nat) (atlasSize need : Z) : option Z :=
  match fuel with
  | O => None
  | S fuel =>
      if u32 (atlasSize * atlasSize) <? need
      then atlas_size_loop fuel (u32 (atlasSize * 2)) need
      else Some atlasSize
  end.

(** The right-hand side of the loop condition,
    [totalWidth * (maxHeight + 2)]. *)
Definition atlas_need : Z :=
  let '(totalWidth, maxHeight) := measure_glyphs characters 0 0 in
  u32 (totalWidth * u32 (maxHeight + 2)).

(** [LoadGlyphs]: the pair [(m_AtlasWidth, m_AtlasHeight)]. *)
Definition LoadGlyphs (fuel : nat) : option (Z * Z) :=
  match atlas_size_loop fuel 512 atlas_need with
  | Some atlasSize => Some (atlasSize, atlasSize)
  | None => None
  end.

(** The size of [atlasData], [m_AtlasWidth * m_AtlasHeight * 4]. *)
Definition atlas_bytes (W H : Z) : Z := u32 (u32 (W * H) * 4).

(** The values 0, 1, ..., n-1 of a loop counter. *)
Definition upto (n : Z) : list Z := map Z.of_nat (seq 0 (Z.to_nat n)).

(** The stores of the two copy loops of [CreateAtlas], in order, each an
    index into [atlasData] and the byte stored there. *)
Definition pixel_stores (W penX penY : Z) (g : GlyphSlot) : list (Z * Z) :=
  flat_map
    (fun y =>
       flat_map
         (fun x =>
            let atlasIdx :=
              u32 (u32 (u32 (u32 (penY + y) * W) + u32 (penX + x)) * 4) in
            let value := bitmap_buffer g (u32 (u32 (y * bitmap_width g) + x)) in
            [(u32 (atlasIdx + 0), 255); (u32 (atlasIdx + 1), 255);
             (u32 (atlasIdx + 2), 255); (u32 (atlasIdx + 3), value)])
         (upto (bitmap_width g)))
    (upto (bitmap_rows g)).

(** [atlasData[index] = byte].  The vector starts as zeros; the map holds
    the bytes stored since. *)
Definition store (data : gmap Z Z) (s : Z * Z) : gmap Z Z :=
  <[fst s := snd s]> data.

(** The locals of [CreateAtlas] and the members it fills. *)
Record AtlasState := MkAtlas {
  penX : Z;
  penY : Z;
  rowHeight : Z;
  m_Glyphs : gmap Z TextRenderer.GlyphInfo;
  atlasData : gmap Z Z
}.

(** The [GlyphInfo] stored for a glyph copied at the pen position. *)
Definition glyph_info (W H penX penY : Z) (g : GlyphSlot)
    : TextRenderer.GlyphInfo :=
  TextRenderer.MkGlyph
    (IVec2 (bitmap_width g) (bitmap_rows g))
    (IVec2 (bitmap_left g) (bitmap_top g))
    (u32 (advance_x g))
    (Vec2 (F32.div (F32.of_Z penX) (F32.of_Z W))
          (F32.div (F32.of_Z penY) (F32.of_Z H)))
    (Vec2 (F32.div (F32.of_Z (u32 (penX + bitmap_width g))) (F32.of_Z W))
          (F32.div (F32.of_Z (u32 (penY + bitmap_rows g))) (F32.of_Z H))).

(** The loop of [CreateAtlas] over the characters: a character FreeType
    cannot load is skipped, a glyph that does not fit the row starts a new
    one, and the loop is left when the atlas is full. *)
Fixpoint pack (W H : Z) (cs : list Z) (st : AtlasState) : AtlasState :=
  match cs with
  | [] => st
  | c :: rest =>
      match FT_Load_Char c with
      | None => pack W H rest st
      | Some g =>
          let st :=
            if W <=? u32 (u32 (penX st + bitmap_width g) + 2)
            then MkAtlas 0 (u32 (penY st + u32 (rowHeight st + 2))) 0
                   (m_Glyphs st) (atlasData st)
            else st in
          if H <=? u32 (penY st + bitmap_rows g) then st
          else
            pack W H rest
              (MkAtlas (u32 (penX st + u32 (bitmap_width g + 2))) (penY st)
                 (Z.max (rowHeight st) (bitmap_rows g))
                 (<[c := glyph_info W H (penX st) (penY st) g]> (m_Glyphs st))
                 (fold_left store (pixel_stores W (penX st) (penY st) g)
                    (atlasData st)))
      end
  end.

(** [CreateAtlas] for an atlas of [W] by [H] pixels, up to the creation
    of the texture. *)
Definition CreateAtlas (W H : Z) : AtlasState :=
  pack W H characters (MkAtlas 0 0 0 ∅ ∅).

End WithFreeType.
End Font.

(** ** InputManager

    Input/InputManager.h and InputManager.cpp.  GLFW delivers the events
    by calling the four static callbacks; [Update] is called once a
    frame. *)

Module InputManager.

Definition GLFW_KEY_LAST : Z := 348.
Definition GLFW_MOUSE_BUTTON_LAST : Z := 7.
Definition GLFW_RELEASE : Z := 0.
Definition GLFW_PRESS : Z := 1.
Definition GLFW_REPEAT : Z := 2.

(** A [double], and [static_cast<float>] of it. *)
Definition double : Type := spec_float.

Definition float_of_double (d : double) : float :=
  match d with
  | S754_finite sign m e =>
      binary_normalize F32.prec F32.emax (cond_Zopp sign (Z.pos m)) e sign
  | _ => d
  end.

(** A call of one of the user's callbacks. *)
Inductive UserCall :=
| KeyCall (key : Z) (pressed : bool)
| MouseCall (button : Z) (pressed : bool)
| ScrollCall (offset : float).

(** The [std::array]s are lists of their length; the three
    [std::function]s are whether one is set, and the calls made are kept
    in [calls]. *)
Record t := Mk {
  m_CurrentKeys : list bool;
  m_PreviousKeys : list bool;
  m_CurrentMouseButtons : list bool;
  m_PreviousMouseButtons : list bool;
  m_MousePosition : vec2;
  m_PreviousMousePosition : vec2;
  m_ScrollDelta : float;
  m_KeyCallback : bool;
  m_MouseCallback : bool;
  m_ScrollCallback : bool;
  calls : list UserCall
}.

(** The constructor; [x] and [y] are what [glfwGetCursorPos] returns. *)
Definition create (x y : double) : t :=
  let position := Vec2 (float_of_double x) (float_of_double y) in
  Mk (replicate (Z.to_nat (GLFW_KEY_LAST + 1)) false)
     (replicate (Z.to_nat (GLFW_KEY_LAST + 1)) false)
     (replicate (Z.to_nat (GLFW_MOUSE_BUTTON_LAST + 1)) false)
     (replicate (Z.to_nat (GLFW_MOUSE_BUTTON_LAST + 1)) false)
     position position F32.zero false false false [].

Definition Update (s : t) : t :=
  Mk (m_CurrentKeys s) (m_CurrentKeys s)
     (m_CurrentMouseButtons s) (m_CurrentMouseButtons s)
     (m_MousePosition s) (m_MousePosition s) F32.zero
     (m_KeyCallback s) (m_MouseCallback s) (m_ScrollCallback s) (calls s).

(** [array[index]] for an index inside the array. *)
Definition at_index (array : list bool) (index : Z) : bool :=
  default false (array !! Z.to_nat index).

Definition IsKeyDown (key : Z) (s : t) : bool := at_index (m_CurrentKeys s) key.

Definition IsKeyPressed (key : Z) (s : t) : bool :=
  at_index (m_CurrentKeys s) key && negb (at_index (m_PreviousKeys s) key).

Definition IsKeyReleased (key : Z) (s : t) : bool :=
  negb (at_index (m_CurrentKeys s) key) && at_index (m_PreviousKeys s) key.

Definition IsMouseButtonDown (button : Z) (s : t) : bool :=
  at_index (m_CurrentMouseButtons s) button.

Definition IsMouseButtonPressed (button : Z) (s : t) : bool :=
  at_index (m_CurrentMouseButtons s) button
  && negb (at_index (m_PreviousMouseButtons s) button).

Definition IsMouseButtonReleased (button : Z) (s : t) : bool :=
  negb (at_index (m_CurrentMouseButtons s) button)
  && at_index (m_PreviousMouseButtons s) button.

Definition GetMousePosition (s : t) : vec2 := m_MousePosition s.

Definition GetMouseDelta (s : t) : vec2 :=
  Vec2 (F32.sub (vx (m_MousePosition s)) (vx (m_PreviousMousePosition s)))
       (F32.sub (vy (m_MousePosition s)) (vy (m_PreviousMousePosition s))).

Definition GetScrollDelta (s : t) : float := m_ScrollDelta s.

Definition SetKeyCallback (s : t) : t :=
  Mk (m_CurrentKeys s) (m_PreviousKeys s) (m_CurrentMouseButtons s)
     (m_PreviousMouseButtons s) (m_MousePosition s)
     (m_PreviousMousePosition s) (m_ScrollDelta s)
     true (m_MouseCallback s) (m_ScrollCallback s) (calls s).

Definition KeyCallbackGLFW (key action : Z) (s : t) : t :=
  if (0 <=? key) && (key <=? GLFW_KEY_LAST) then
    let pressed := (action =? GLFW_PRESS) || (action =? GLFW_REPEAT) in
    Mk (<[Z.to_nat key := pressed]> (m_CurrentKeys s)) (m_PreviousKeys s)
       (m_CurrentMouseButtons s) (m_PreviousMouseButtons s)
       (m_MousePosition s) (m_PreviousMousePosition s) (m_ScrollDelta s)
       (m_KeyCallback s) (m_MouseCallback s) (m_ScrollCallback s)
       (if m_KeyCallback s then calls s ++ [KeyCall key pressed]
        else calls s)
  else s.

Definition MouseButtonCallbackGLFW (button action : Z) (s : t) : t :=
  if (0 <=? button) && (button <=? GLFW_MOUSE_BUTTON_LAST) then
    let pressed := action =? GLFW_PRESS in
    Mk (m_CurrentKeys s) (m_PreviousKeys s)
       (<[Z.to_nat button := pressed]> (m_CurrentMouseButtons s))
       (m_PreviousMouseButtons s)
       (m_MousePosition s) (m_PreviousMousePosition s) (m_ScrollDelta s)
       (m_KeyCallback s) (m_MouseCallback s) (m_ScrollCallback s)
       (if m_MouseCallback s then calls s ++ [MouseCall button pressed]
        else calls s)
  else s.

Definition ScrollCallbackGLFW (xoffset yoffset : double) (s : t) : t :=
  Mk (m_CurrentKeys s) (m_PreviousKeys s) (m_CurrentMouseButtons s)
     (m_PreviousMouseButtons s) (m_MousePosition s)
     (m_PreviousMousePosition s) (float_of_double yoffset)
     (m_KeyCallback s) (m_MouseCallback s) (m_ScrollCallback s)
     (if m_ScrollCallback s
      then calls s ++ [ScrollCall (float_of_double yoffset)]
      else calls s).

Definition CursorPosCallbackGLFW (xpos ypos : double) (s : t) : t :=
  Mk (m_CurrentKeys s) (m_PreviousKeys s) (m_CurrentMouseButtons s)
     (m_PreviousMouseButtons s)
     (Vec2 (float_of_double xpos) (float_of_double ypos))
     (m_PreviousMousePosition s) (m_ScrollDelta s)
     (m_KeyCallback s) (m_MouseCallback s) (m_ScrollCallback s) (calls s).

(** An event GLFW has pending for the window. *)
Inductive Event :=
| EvKey (key action : Z)
| EvMouseButton (button action : Z)
| EvScroll (xoffset yoffset : double)
| EvCursorPos (xpos ypos : double).

(** GLFW calls the callback of the event. *)
Definition deliver (s : t) (ev : Event) : t :=
  match ev with
  | EvKey key action => KeyCallbackGLFW key action s
  | EvMouseButton button action => MouseButtonCallbackGLFW button action s
  | EvScroll x y => ScrollCallbackGLFW x y s
  | EvCursorPos x y => CursorPosCallbackGLFW x y s
  end.

(** [glfwPollEvents()]: the callbacks of the pending events, in order. *)
Definition deliver_all (evs : list Event) (s : t) : t :=
  fold_left deliver evs s.

End InputManager.

(** ** Engine: the input in one round of Run

    src/Core/Engine.cpp.  Of one round of the loop of [Run], what
    concerns the input manager: [m_Window->PollEvents()], which is
    [glfwPollEvents()], then [m_Input->Update()]; the user's [onUpdate]
    is called with the input manager in the state this leaves. *)

Module Engine.

Definition poll_and_update (pending : list InputManager.Event)
    (m_Input : InputManager.t) : InputManager.t :=
  InputManager.Update (InputManager.deliver_all pending m_Input).

End Engine.

(** ** AudioManager: the sounds being played

    src/Audio/AudioManager.cpp, the member functions that run under
    [m_Mutex] and the device callback [ProcessAudio], each as run on its
    own.  A [Sound*] is an address; [IsLoaded] is [Sound::IsLoaded] of the
    object there. *)

Module AudioManager.

Definition u64 (x : Z) : Z := x mod 2 ^ 64.

Definition four : float := S754_finite false 8388608 (-21).

(** [std::clamp(v, lo, hi)] of floats. *)
Definition fclamp (v lo hi : float) : float :=
  if F32.ltb v lo then lo else if F32.ltb hi v then hi else v.

Record PlayOptions := MkOptions {
  o_volume : float;
  o_pitch : float;
  o_pan : float;
  o_loop : bool;
  o_fadeIn : bool;
  o_fadeInTime : float
}.

Definition default_options : PlayOptions :=
  MkOptions F32.one F32.one F32.zero false false F32.zero.

Record PlayingSound := MkPlaying {
  sound : Z;
  id : Z;
  volume : float;
  pitch : float;
  pan : float;
  loop : bool;
  paused : bool;
  isBGM : bool;
  fadeVolume : float;
  fadeTarget : float;
  fadeSpeed : float;
  fadeOutStop : bool;
  currentFrame : Z
}.

Definition IsActive (p : PlayingSound) : bool := negb (sound p =? nullptr).

Definition set_fade (fv ft fs : float) (stop : bool) (p : PlayingSound)
    : PlayingSound :=
  MkPlaying (sound p) (id p) (volume p) (pitch p) (pan p) (loop p) (paused p)
    (isBGM p) fv ft fs stop (currentFrame p).

Definition set_paused (b : bool) (p : PlayingSound) : PlayingSound :=
  MkPlaying (sound p) (id p) (volume p) (pitch p) (pan p) (loop p) b
    (isBGM p) (fadeVolume p) (fadeTarget p) (fadeSpeed p) (fadeOutStop p)
    (currentFrame p).

Definition set_volume (v : float) (p : PlayingSound) : PlayingSound :=
  MkPlaying (sound p) (id p) v (pitch p) (pan p) (loop p) (paused p)
    (isBGM p) (fadeVolume p) (fadeTarget p) (fadeSpeed p) (fadeOutStop p)
    (currentFrame p).

Definition set_pitch (v : float) (p : PlayingSound) : PlayingSound :=
  MkPlaying (sound p) (id p) (volume p) v (pan p) (loop p) (paused p)
    (isBGM p) (fadeVolume p) (fadeTarget p) (fadeSpeed p) (fadeOutStop p)
    (currentFrame p).

Definition set_pan (v : float) (p : PlayingSound) : PlayingSound :=
  MkPlaying (sound p) (id p) (volume p) (pitch p) v (loop p) (paused p)
    (isBGM p) (fadeVolume p) (fadeTarget p) (fadeSpeed p) (fadeOutStop p)
    (currentFrame p).

(** The manager: [m_Impl->playingSounds], [m_Impl->nextInstanceId], the
    three volumes and the id of [m_CurrentBGM] (0 when it is not
    valid). *)
Record t := Mk {
  playingSounds : gmap Z PlayingSound;
  nextInstanceId : Z;
  m_MasterVolume : float;
  m_SFXVolume : float;
  m_BGMVolume : float;
  m_CurrentBGM : Z
}.

Definition set_playingSounds (m : gmap Z PlayingSound) (s : t) : t :=
  Mk m (nextInstanceId s) (m_MasterVolume s) (m_SFXVolume s) (m_BGMVolume s)
     (m_CurrentBGM s).

Definition set_CurrentBGM (instance : Z) (s : t) : t :=
  Mk (playingSounds s) (nextInstanceId s) (m_MasterVolume s) (m_SFXVolume s)
     (m_BGMVolume s) instance.

(** The constructor, as far as these members go. *)
Definition create (masterVolume sfxVolume bgmVolume : float) : t :=
  Mk ∅ 1 masterVolume sfxVolume bgmVolume 0.

Section WithSounds.
Variable IsLoaded : Z -> bool.

(** [Play(sound, options)]: the manager and the id of the instance
    returned. *)
Definition Play (sound : Z) (options : PlayOptions) (s : t) : t * Z :=
  if (sound =? nullptr) || negb (IsLoaded sound) then (s, 0)
  else
    let id := nextInstanceId s in
    let playing :=
      MkPlaying sound id
        (F32.mul (F32.mul (o_volume options) (m_MasterVolume s)) (m_SFXVolume s))
        (o_pitch options) (o_pan options) (o_loop options) false false
        F32.one F32.one F32.zero false 0 in
    let playing :=
      if o_fadeIn options && F32.ltb F32.zero (o_fadeInTime options)
      then set_fade F32.zero F32.one (F32.div F32.one (o_fadeInTime options))
             false playing
      else playing in
    (Mk (<[id := playing]> (playingSounds s)) (u64 (id + 1))
        (m_MasterVolume s) (m_SFXVolume s) (m_BGMVolume s) (m_CurrentBGM s),
     id).

(** [Play(sound, volume, loop)]. *)
Definition Play_volume (sound : Z) (volume : float) (loop : bool) (s : t)
    : t * Z :=
  Play sound (MkOptions volume F32.one F32.zero loop false F32.zero) s.

Definition Stop (instance : Z) (fadeOutTime : float) (s : t) : t :=
  if instance =? 0 then s
  else
    match playingSounds s !! instance with
    | Some p =>
        if F32.ltb F32.zero fadeOutTime
        then set_playingSounds
               (<[instance := set_fade (fadeVolume p) F32.zero
                                (F32.div F32.one fadeOutTime) true p]>
                  (playingSounds s)) s
        else set_playingSounds (delete instance (playingSounds s)) s
    | None => s
    end.

Definition StopBGM (fadeOutTime : float) (s : t) : t :=
  if m_CurrentBGM s =? 0 then s
  else set_CurrentBGM 0 (Stop (m_CurrentBGM s) fadeOutTime s).

Definition PlayBGM (sound : Z) (volume fadeInTime : float) (s : t) : t * Z :=
  let s := StopBGM F32.half s in
  if (sound =? nullptr) || negb (IsLoaded sound) then (s, 0)
  else
    let id := nextInstanceId s in
    let playing :=
      MkPlaying sound id
        (F32.mul (F32.mul volume (m_MasterVolume s)) (m_BGMVolume s))
        F32.one F32.zero true false true
        F32.one F32.one F32.zero false 0 in
    let playing :=
      if F32.ltb F32.zero fadeInTime
      then set_fade F32.zero F32.one (F32.div F32.one fadeInTime) false playing
      else playing in
    (Mk (<[id := playing]> (playingSounds s)) (u64 (id + 1))
        (m_MasterVolume s) (m_SFXVolume s) (m_BGMVolume s) id,
     id).

(** What [Pause], [Resume], [SetVolume], [SetPitch] and [SetPan] do to
    the sound of a valid instance that is found. *)
Definition modify (instance : Z) (f : PlayingSound -> PlayingSound) (s : t)
    : t :=
  if instance =? 0 then s
  else
    match playingSounds s !! instance with
    | Some p => set_playingSounds (<[instance := f p]> (playingSounds s)) s
    | None => s
    end.

Definition Pause (instance : Z) (s : t) : t := modify instance (set_paused true) s.
Definition Resume (instance : Z) (s : t) : t := modify instance (set_paused false) s.

Definition StopAll (fadeOutTime : float) (s : t) : t :=
  set_CurrentBGM 0
    (if F32.ltb F32.zero fadeOutTime
     then set_playingSounds
            (fmap (fun p => set_fade (fadeVolume p) F32.zero
                              (F32.div F32.one fadeOutTime) true p)
               (playingSounds s)) s
     else set_playingSounds ∅ s).

Definition PauseAll (s : t) : t :=
  set_playingSounds (fmap (set_paused true) (playingSounds s)) s.

Definition ResumeAll (s : t) : t :=
  set_playingSounds (fmap (set_paused false) (playingSounds s)) s.

Definition SetVolume (instance : Z) (volume : float) (s : t) : t :=
  modify instance
    (fun p =>
       let baseVolume := if isBGM p then m_BGMVolume s else m_SFXVolume s in
       set_volume (F32.mul (F32.mul volume (m_MasterVolume s)) baseVolume) p)
    s.

(** The loop over the sounds in [SetMasterVolume] computes a value and
    stores nothing. *)
Definition SetMasterVolume (volume : float) (s : t) : t :=
  Mk (playingSounds s) (nextInstanceId s) (fclamp volume F32.zero F32.one)
     (m_SFXVolume s) (m_BGMVolume s) (m_CurrentBGM s).

Definition SetSFXVolume (volume : float) (s : t) : t :=
  Mk (playingSounds s) (nextInstanceId s) (m_MasterVolume s)
     (fclamp volume F32.zero F32.one) (m_BGMVolume s) (m_CurrentBGM s).

Definition SetBGMVolume (volume : float) (s : t) : t :=
  Mk (playingSounds s) (nextInstanceId s) (m_MasterVolume s) (m_SFXVolume s)
     (fclamp volume F32.zero F32.one) (m_CurrentBGM s).

Definition SetPitch (instance : Z) (pitch : float) (s : t) : t :=
  modify instance (set_pitch (fclamp pitch F32.tenth four)) s.

Definition SetPan (instance : Z) (pan : float) (s : t) : t :=
  modify instance (set_pan (fclamp pan (F32.neg F32.one) F32.one)) s.

Definition IsPlaying (instance : Z) (s : t) : bool :=
  if instance =? 0 then false
  else
    match playingSounds s !! instance with
    | Some p => IsActive p && negb (paused p)
    | None => false
    end.

Definition IsPaused (instance : Z) (s : t) : bool :=
  if instance =? 0 then false
  else
    match playingSounds s !! instance with
    | Some p => paused p
    | None => false
    end.

Definition IsBGMPlaying (s : t) : bool :=
  negb (m_CurrentBGM s =? 0) && IsPlaying (m_CurrentBGM s) s.

(** The body of the loop of [Update] for one sound: [None] when its id is
    pushed to [toRemove], the sound as it is left otherwise. *)
Definition update_sound (deltaTime : float) (p : PlayingSound)
    : option PlayingSound :=
  if negb (IsActive p) then None
  else if F32.ltb F32.zero (fadeSpeed p) then
    if F32.ltb (fadeVolume p) (fadeTarget p) then
      let fv := F32.add (fadeVolume p) (F32.mul (fadeSpeed p) deltaTime) in
      if F32.leb (fadeTarget p) fv
      then Some (set_fade (fadeTarget p) (fadeTarget p) F32.zero
                   (fadeOutStop p) p)
      else Some (set_fade fv (fadeTarget p) (fadeSpeed p) (fadeOutStop p) p)
    else if F32.ltb (fadeTarget p) (fadeVolume p) then
      let fv := F32.sub (fadeVolume p) (F32.mul (fadeSpeed p) deltaTime) in
      if F32.leb fv (fadeTarget p) then
        if fadeOutStop p && SFeqb (fadeTarget p) F32.zero then None
        else Some (set_fade (fadeTarget p) (fadeTarget p) F32.zero
                     (fadeOutStop p) p)
      else Some (set_fade fv (fadeTarget p) (fadeSpeed p) (fadeOutStop p) p)
    else Some p
  else Some p.

Definition Update (deltaTime : float) (s : t) : t :=
  set_playingSounds (omap (update_sound deltaTime) (playingSounds s)) s.

End WithSounds.
(** *** The device callback

    [ProcessAudio] mixes the sounds into the output buffer of the device.
    [GetData] is [Sound::GetData] of the object at the address, [None]
    for a null pointer; [channels] is [config.channels].  The sounds are
    visited in the order the [std::unordered_map] gives, which is an
    argument here. *)

Record SoundData := MkData {
  pcmData : list float;
  d_channels : Z;
  totalFrames : Z
}.

Definition set_sound (ptr : Z) (p : PlayingSound) : PlayingSound :=
  MkPlaying ptr (id p) (volume p) (pitch p) (pan p) (loop p) (paused p)
    (isBGM p) (fadeVolume p) (fadeTarget p) (fadeSpeed p) (fadeOutStop p)
    (currentFrame p).

Definition set_currentFrame (frame : Z) (p : PlayingSound) : PlayingSound :=
  MkPlaying (sound p) (id p) (volume p) (pitch p) (pan p) (loop p) (paused p)
    (isBGM p) (fadeVolume p) (fadeTarget p) (fadeSpeed p) (fadeOutStop p)
    frame.

(** [static_cast<size_t>(f)] of a float: the value cut towards zero when
    that is a [size_t], undefined ([None]) otherwise. *)
Definition size_t_of_float (f : float) : option Z :=
  match Color.truncate f with
  | Some n => if (0 <=? n) && (n <? 2 ^ 64) then Some n else None
  | None => None
  end.

(** The values 0, 1, ..., n-1 of a loop counter. *)
Definition counter (n : Z) : list Z := map Z.of_nat (seq 0 (Z.to_nat n)).

(** [pOutput[dstIndex] += sample], for an index inside the buffer. *)
Definition add_sample (out : list float) (dstIndex : Z) (sample : float)
    : list float :=
  match out !! Z.to_nat dstIndex with
  | Some v => <[Z.to_nat dstIndex := F32.add v sample]> out
  | None => out
  end.

Section WithData.
Variable GetData : Z -> option SoundData.
Variable channels : Z.

(** The loop over the channels for one frame of one sound. *)
Definition mix_frame (data : SoundData) (p : PlayingSound)
    (effectiveVolume : float) (frame srcFrame : Z) (out : list float)
    : list float :=
  fold_left
    (fun out ch =>
       let srcIndex := u64 (u64 (srcFrame * d_channels data) + ch) in
       let dstIndex := u32 (u32 (frame * channels) + ch) in
       if srcIndex <? Z.of_nat (length (pcmData data)) then
         let sample :=
           F32.mul (nth (Z.to_nat srcIndex) (pcmData data) F32.zero)
             effectiveVolume in
         let sample :=
           if channels =? 2 then
             let panL := if F32.leb (pan p) F32.zero then F32.one
                         else F32.sub F32.one (pan p) in
             let panR := if F32.leb F32.zero (pan p) then F32.one
                         else F32.add F32.one (pan p) in
             F32.mul sample (if ch =? 0 then panL else panR)
           else sample in
         add_sample out dstIndex sample
       else out)
    (counter (Z.min channels (d_channels data))) out.

(** The loop over the frames for one sound; it is left by [break] when a
    sound that does not loop is over.  [None] when the cast of the pitch
    is undefined. *)
Fixpoint mix_frames (data : SoundData) (effectiveVolume : float)
    (frames : list Z) (p : PlayingSound) (out : list float)
    : option (PlayingSound * list float) :=
  match frames with
  | [] => Some (p, out)
  | frame :: rest =>
      let over := totalFrames data <=? currentFrame p in
      if over && negb (loop p) then Some (set_sound nullptr p, out)
      else
        let p := if over then set_currentFrame 0 p else p in
        let srcFrame := currentFrame p in
        let out :=
          if srcFrame <? totalFrames data
          then mix_frame data p effectiveVolume frame srcFrame out
          else out in
        match size_t_of_float (pitch p) with
        | None => None
        | Some step =>
            mix_frames data effectiveVolume rest
              (set_currentFrame (u64 (currentFrame p + step)) p) out
        end
  end.

(** The body of the loop over the sounds. *)
Definition process_sound (frameCount : Z) (p : PlayingSound)
    (out : list float) : option (PlayingSound * list float) :=
  if negb (IsActive p) || paused p then Some (p, out)
  else
    match GetData (sound p) with
    | None => Some (p, out)
    | Some data =>
        if bool_decide (pcmData data = []) then Some (p, out)
        else
          mix_frames data (F32.mul (volume p) (fadeVolume p))
            (counter frameCount) p out
    end.

(** The loop over the sounds, in the given order. *)
Fixpoint process_sounds (order : list Z) (frameCount : Z)
    (sounds : gmap Z PlayingSound) (out : list float)
    : option (gmap Z PlayingSound * list float) :=
  match order with
  | [] => Some (sounds, out)
  | i :: rest =>
      match sounds !! i with
      | None => process_sounds rest frameCount sounds out
      | Some p =>
          match process_sound frameCount p out with
          | None => None
          | Some (p, out) =>
              process_sounds rest frameCount (<[i := p]> sounds) out
          end
      end
  end.

(** [ProcessAudio]: the manager it leaves and the part of the buffer it
    has written, [frameCount * config.channels] samples. *)
Definition ProcessAudio (order : list Z) (frameCount : Z) (s : t)
    : option (t * list float) :=
  let out := replicate (Z.to_nat (u32 (frameCount * channels))) F32.zero in
  match process_sounds order frameCount (playingSounds s) out with
  | None => None
  | Some (sounds, out) =>
      Some (set_playingSounds sounds s,
            map (fun v => fclamp v (F32.neg F32.one) F32.one) out)
  end.

End WithData.
End AudioManager.

(** * Vocabulary of the properties *)

Module Spec.
Import SpriteBatch.

(** The engine's invariants outside the per-frame data: the capacity is a
    [uint32_t] and the white texture exists. *)
Definition wf (s : SpriteBatch.t) : Prop :=
  0 <= m_MaxSprites s < 2 ^ 32 /\ m_WhiteTexture s <> nullptr.

(** What a run of [Draw] calls leaves in [m_SpriteDataList]. *)
Fixpoint accept (max white : Z) (l : list SpriteData) (ds : list DrawArgs)
    : list SpriteData :=
  match ds with
  | [] => l
  | a :: rest =>
      accept max white
        (if max <=? Z.of_nat (length l) then l
         else l ++ [make_SpriteData white a]) rest
  end.

(** A recorded request refers to a texture. *)
Definition nonnull (d : SpriteData) : Prop := texture d <> nullptr.

(** A draw request with its texture argument replaced. *)
Definition with_texture (texture : Z) (a : DrawArgs) : DrawArgs :=
  MkDraw texture (d_position a) (d_size a) (d_uvMin a) (d_uvMax a)
         (d_color a) (d_rotation a) (d_origin a).

(** The texture identity a request refers to. *)
Definition resolve (white : Z) (a : DrawArgs) : DrawArgs :=
  if d_texture a =? nullptr then with_texture white a else a.

(** Instance [i] lies in the range of batch [b]. *)
Definition covers (b : BatchInfo) (i : Z) : Prop :=
  startInstance b <= i < startInstance b + instanceCount b.

(** The batches lie one after the other from [a] to [b], none empty. *)
Fixpoint tiles (a : Z) (bs : list BatchInfo) (b : Z) : Prop :=
  match bs with
  | [] => a = b
  | x :: rest =>
      startInstance x = a /\ 0 < instanceCount x /\
      tiles (a + instanceCount x) rest b
  end.

(** Every request in the range of a batch has the texture of the batch. *)
Definition labelled (l : list SpriteData) (bs : list BatchInfo) : Prop :=
  forall (n : nat) (b : BatchInfo) (k : nat),
    bs !! n = Some b -> covers b (Z.of_nat k) ->
    texture <$> l !! k = Some (b_texture b).

(** The requests from [start] on, as far as the list goes, all have the
    texture [cur]: the run that is still open. *)
Definition run_open (l : list SpriteData) (start cur : Z) : Prop :=
  forall k : nat,
    start <= Z.of_nat k < Z.of_nat (length l) ->
    texture <$> l !! k = Some cur.

(** The batches partition the instances [0 .. n-1]: every range lies
    inside, every instance is in a range, no instance is in two, and each
    range starts where the one before it ends. *)
Definition partitions (bs : list BatchInfo) (n : Z) : Prop :=
  (forall k b, bs !! k = Some b ->
     0 <= startInstance b /\ 0 < instanceCount b /\
     startInstance b + instanceCount b <= n) /\
  (forall i, 0 <= i < n -> exists k b, bs !! k = Some b /\ covers b i) /\
  (forall k1 k2 b1 b2 i, bs !! k1 = Some b1 -> bs !! k2 = Some b2 ->
     covers b1 i -> covers b2 i -> k1 = k2) /\
  (forall k b b', bs !! k = Some b -> bs !! S k = Some b' ->
     startInstance b' = startInstance b + instanceCount b).

(** An indexed draw stays within the first [bound] slots of the index
    buffer; other commands read none. *)
Definition draw_within (bound : Z) {M : Type} (c : VkCmd M) : Prop :=
  match c with
  | CmdDrawIndexed indexCount _ firstIndex _ _ =>
      0 <= firstIndex /\ 0 <= indexCount /\ firstIndex + indexCount <= bound
  | _ => True
  end.

(** The instances all batches hold together. *)
Definition total_instances (bs : list BatchInfo) : Z :=
  fold_right Z.add 0 (map instanceCount bs).

(** The number of maximal runs of equal neighbours. *)
Fixpoint runs (l : list Z) : nat :=
  match l with
  | [] => O
  | x :: rest =>
      match rest with
      | [] => 1%nat
      | y :: _ => if x =? y then runs rest else S (runs rest)
      end
  end.

(** The number of distinct textures among the requests. *)
Definition distinct_textures (white : Z) (ds : list DrawArgs) : nat :=
  length (remove_dups (map (fun a => d_texture (resolve white a)) ds)).

(** [x] occurs in the list at a position before an occurrence of [y]. *)
Inductive before {A} (x y : A) : list A -> Prop :=
| before_here l : y ∈ l -> before x y (x :: l)
| before_later z l : before x y l -> before x y (z :: l).

(** The requests paired with their submission index. *)
Definition tagged {A} (l : list A) : list (A * nat) :=
  zip l (seq 0 (length l)).

(** The submission indices in the order the stable sort leaves them. *)
Definition sorted_order {A} (lt : A -> A -> bool) (l : list A) : list nat :=
  (stable_sort (fun x y => lt (fst x) (fst y)) (tagged l)).*2.

(** What [m_SpriteDataList] holds after [End] for the draws [ds]. *)
Definition sorted_requests (s : SpriteBatch.t) (ds : list DrawArgs)
    : list SpriteData :=
  let l := accept (m_MaxSprites s) (m_WhiteTexture s) [] ds in
  if m_EnableTextureSorting s then stable_sort texture_lt l else l.

(** The order of the submission indices after [End]. *)
Definition frame_order (s : SpriteBatch.t) (ds : list DrawArgs) : list nat :=
  let l := accept (m_MaxSprites s) (m_WhiteTexture s) [] ds in
  if m_EnableTextureSorting s then sorted_order texture_lt l
  else seq 0 (length l).

(** Claim C3 read for every request submitted: any two requests of one
    frame with the same texture identity, the first submitted earlier,
    have their records at two positions of the instance list in that
    order. *)
Definition records_in_order (white : Z) (ds : list DrawArgs)
    (instances : list SpriteInstance) : Prop :=
  forall (i j : nat) (a b : DrawArgs),
    (i < j)%nat -> ds !! i = Some a -> ds !! j = Some b ->
    d_texture (resolve white a) = d_texture (resolve white b) ->
    exists p q : nat,
      (p < q)%nat /\
      instances !! p = Some (instance (make_SpriteData white a)) /\
      instances !! q = Some (instance (make_SpriteData white b)).

(** The batches of a texture sequence read from position [i] on, with
    the run of [cur] open since [start]: one batch per maximal run. *)
Fixpoint runs_from (cur start i : Z) (l : list Z) : list BatchInfo :=
  match l with
  | [] => [MkBatch cur start (i - start)]
  | t :: rest =>
      if t =? cur then runs_from cur start (i + 1) rest
      else MkBatch cur start (i - start) :: runs_from t i (i + 1) rest
  end.

(** The run-length grouping of a texture sequence. *)
Definition group_runs (l : list Z) : list BatchInfo :=
  match l with
  | [] => []
  | t :: rest => runs_from t 0 1 rest
  end.

(** A batch of instances as the older implementation records it: a
    range of indices, six per instance. *)
Definition as_index_batch (b : BatchInfo) : LegacySpriteBatch.BatchInfo :=
  LegacySpriteBatch.MkBatch (b_texture b) (6 * startInstance b)
    (6 * instanceCount b).

(** What a frame produces: the data [Begin] clears and [End] fills. *)
Definition frame_data (s : SpriteBatch.t)
    : list SpriteData * list SpriteInstance * list BatchInfo
      * list Vertex2D * list Z * BatchStatistics :=
  (m_SpriteDataList s, m_Instances s, m_Batches s, m_Vertices s,
   m_Indices s, m_Statistics s).

(** The two staging slots exist and the frame index names one of them,
    as the constructor leaves them. *)
Definition wf_slots (s : SpriteBatch.t) : Prop :=
  length (m_FrameData s) = 2%nat /\
  (m_CurrentFrameIndex s = 0 \/ m_CurrentFrameIndex s = 1).

(** The six indices of the quad of instance [i]. *)
Definition quad_index_pattern (i : nat) : list Z :=
  let base := 4 * Z.of_nat i in
  [base; base + 1; base + 2; base + 2; base + 3; base].

(** The two commands [Render] records for a batch, given the descriptor
    cache it ends with. *)
Definition batch_commands {M : Type} (sets : gmap Z Z) (b : BatchInfo)
    : list (VkCmd M) :=
  [ CmdBindDescriptorSets (default 0 (sets !! b_texture b));
    CmdDrawIndexed (6 * instanceCount b) 1 (6 * startInstance b) 0 0 ].

(** The same two commands with the index count and the first index as
    the [uint32_t] values [Render] computes them to. *)
Definition wrapped_batch_commands {M : Type} (sets : gmap Z Z) (b : BatchInfo)
    : list (VkCmd M) :=
  [ CmdBindDescriptorSets (default 0 (sets !! b_texture b));
    CmdDrawIndexed (u32 (6 * instanceCount b)) 1 (u32 (6 * startInstance b))
      0 0 ].

(** Where the index ranges recorded so far end, in the older
    implementation. *)
Definition index_end (bs : list LegacySpriteBatch.BatchInfo) : Z :=
  match last bs with
  | None => 0
  | Some back =>
      LegacySpriteBatch.startIndex back + LegacySpriteBatch.indexCount back
  end.

(** A call of the camera's public interface that may change the object
    (the matrix getters write the cached matrices). *)
Inductive CameraCall :=
| CallSetPosition (position : vec2)
| CallSetRotation (rotation : float)
| CallSetZoom (zoom : float)
| CallSetViewport (width height : float)
| CallMove (delta : vec2)
| CallRotate (delta : float)
| CallZoom (delta : float)
| CallGetViewMatrix
| CallGetProjectionMatrix
| CallGetViewProjectionMatrix.

Definition camera_call `{ExternMath} (c : Camera2D.t) (call : CameraCall)
    : Camera2D.t :=
  match call with
  | CallSetPosition p => Camera2D.SetPosition p c
  | CallSetRotation r => Camera2D.SetRotation r c
  | CallSetZoom z => Camera2D.SetZoom z c
  | CallSetViewport w h => Camera2D.SetViewport w h c
  | CallMove d => Camera2D.Move d c
  | CallRotate d => Camera2D.Rotate d c
  | CallZoom d => Camera2D.Zoom d c
  | CallGetViewMatrix => fst (Camera2D.GetViewMatrix c)
  | CallGetProjectionMatrix => fst (Camera2D.GetProjectionMatrix c)
  | CallGetViewProjectionMatrix => fst (Camera2D.GetViewProjectionMatrix c)
  end.

(** A camera after a sequence of calls. *)
Definition camera_calls `{ExternMath} (calls : list CameraCall)
    (c : Camera2D.t) : Camera2D.t :=
  fold_left camera_call calls c.

(** A cached matrix that is not marked dirty is the matrix of the
    current position, rotation, zoom and viewport. *)
Definition camera_cache_valid `{ExternMath} (c : Camera2D.t) : Prop :=
  (Camera2D.m_ViewDirty c = false ->
   Camera2D.m_ViewMatrix c
   = Camera2D.view_transform (Camera2D.m_Zoom c) (Camera2D.m_Rotation c)
       (Camera2D.m_Position c)) /\
  (Camera2D.m_ProjectionDirty c = false ->
   Camera2D.m_ProjectionMatrix c
   = glm_ortho F32.zero (Camera2D.m_ViewportWidth c) F32.zero
       (Camera2D.m_ViewportHeight c) (F32.neg F32.one) F32.one).

(** UTF-8 as RFC 3629 writes a code point: one to four bytes. *)
Definition utf8_encode (c : Z) : list Z :=
  if c <? 0x80 then [c]
  else if c <? 0x800 then [0xC0 + c / 64; 0x80 + c mod 64]
  else if c <? 0x10000 then
    [0xE0 + c / 4096; 0x80 + (c / 64) mod 64; 0x80 + c mod 64]
  else
    [0xF0 + c / 262144; 0x80 + (c / 4096) mod 64; 0x80 + (c / 64) mod 64;
     0x80 + c mod 64].

(** The string with the given bytes. *)
Definition string_of_bytes (bytes : list Z) : string :=
  string_of_list_ascii (map (fun b => Ascii.ascii_of_N (Z.to_N b)) bytes).

(** A hexadecimal digit in upper case. *)
Definition hex_upper (c : ascii) : ascii :=
  match Color.hex_value c with
  | Some v => Color.hex_digit v
  | None => c
  end.

Fixpoint string_map (f : ascii -> ascii) (s : string) : string :=
  match s with
  | EmptyString => EmptyString
  | String c rest => String (f c) (string_map f rest)
  end.

(** Every character of the string is a hexadecimal digit. *)
Fixpoint all_hex (s : string) : bool :=
  match s with
  | EmptyString => true
  | String c rest => bool_decide (is_Some (Color.hex_value c)) && all_hex rest
  end.

(** The 256 characters. *)
Definition all_ascii : list ascii := map ascii_of_nat (seq 0 256).

(** Whether the key is held after the events, from what GLFW said about
    this key alone: the last event of the key decides. *)
Definition key_held_after (key : Z) (evs : list InputManager.Event) (held : bool)
    : bool :=
  fold_left
    (fun held ev =>
       match ev with
       | InputManager.EvKey k action =>
           if k =? key
           then (action =? InputManager.GLFW_PRESS)
                || (action =? InputManager.GLFW_REPEAT)
           else held
       | _ => held
       end) evs held.

Definition button_held_after (button : Z) (evs : list InputManager.Event)
    (held : bool) : bool :=
  fold_left
    (fun held ev =>
       match ev with
       | InputManager.EvMouseButton b action =>
           if b =? button then action =? InputManager.GLFW_PRESS else held
       | _ => held
       end) evs held.

(** The arrays have the lengths their types give them. *)
Definition input_wf (s : InputManager.t) : Prop :=
  length (InputManager.m_CurrentKeys s)
  = Z.to_nat (InputManager.GLFW_KEY_LAST + 1) /\
  length (InputManager.m_CurrentMouseButtons s)
  = Z.to_nat (InputManager.GLFW_MOUSE_BUTTON_LAST + 1).

(** The index in [atlasData] of channel [ch] of the pixel in column [col]
    of row [row]. *)
Definition pixel_index (W col row ch : Z) : Z := 4 * (row * W + col) + ch.

(** The atlas holds the bitmap of the glyph with its corner at
    ([px], [py]): white, with the coverage as alpha. *)
Definition glyph_in_atlas (W : Z) (data : gmap Z Z) (px py : Z)
    (g : Font.GlyphSlot) : Prop :=
  forall x y : Z,
    0 <= x < Font.bitmap_width g -> 0 <= y < Font.bitmap_rows g ->
    data !! pixel_index W (px + x) (py + y) 0 = Some 255 /\
    data !! pixel_index W (px + x) (py + y) 1 = Some 255 /\
    data !! pixel_index W (px + x) (py + y) 2 = Some 255 /\
    data !! pixel_index W (px + x) (py + y) 3
    = Some (Font.bitmap_buffer g (y * Font.bitmap_width g + x)).

(** Two glyph rectangles have no pixel in common. *)
Definition rect_disjoint (p1 : Z * Z) (g1 : Font.GlyphSlot) (p2 : Z * Z)
    (g2 : Font.GlyphSlot) : Prop :=
  fst p1 + Font.bitmap_width g1 <= fst p2 \/
  fst p2 + Font.bitmap_width g2 <= fst p1 \/
  snd p1 + Font.bitmap_rows g1 <= snd p2 \/
  snd p2 + Font.bitmap_rows g2 <= snd p1.

(** What [CreateAtlas] guarantees of the glyphs it stored, given where it
    put each: the glyph is what FreeType rendered for the character, its
    rectangle lies inside the atlas, its [GlyphInfo] names that
    rectangle, and the atlas holds its bitmap there. *)
Definition glyph_stored (FT_Load_Char : Z -> option Font.GlyphSlot)
    (W H : Z) (st : Font.AtlasState) (place : gmap Z (Z * Z)) (c : Z)
    : Prop :=
  exists (g : Font.GlyphSlot) (px py : Z),
    place !! c = Some (px, py) /\
    FT_Load_Char c = Some g /\
    Font.m_Glyphs st !! c = Some (Font.glyph_info W H px py g) /\
    0 <= px /\ px + Font.bitmap_width g < W /\
    0 <= py /\ py + Font.bitmap_rows g < H /\
    glyph_in_atlas W (Font.atlasData st) px py g.

(** The rectangle lies behind the pen: in an earlier row, or in the
    current row left of the pen. *)
Definition behind_pen (st : Font.AtlasState) (px py : Z)
    (g : Font.GlyphSlot) : Prop :=
  py + Font.bitmap_rows g + 2 <= Font.penY st \/
  (py = Font.penY st /\
   px + Font.bitmap_width g + 2 <= Font.penX st /\
   Font.bitmap_rows g <= Font.rowHeight st).

(** The stored glyphs are all in order and pairwise apart, and every
    byte stored lies inside the vector. *)
Definition atlas_ok (FT_Load_Char : Z -> option Font.GlyphSlot) (W H : Z)
    (st : Font.AtlasState) (place : gmap Z (Z * Z)) : Prop :=
  (forall i : Z, is_Some (Font.atlasData st !! i) ->
     0 <= i < Font.atlas_bytes W H) /\
  (forall c : Z, is_Some (Font.m_Glyphs st !! c) ->
     glyph_stored FT_Load_Char W H st place c) /\
  (forall (c1 c2 : Z) (p1 p2 : Z * Z) (g1 g2 : Font.GlyphSlot),
     c1 <> c2 ->
     is_Some (Font.m_Glyphs st !! c1) -> is_Some (Font.m_Glyphs st !! c2) ->
     place !! c1 = Some p1 -> place !! c2 = Some p2 ->
     FT_Load_Char c1 = Some g1 -> FT_Load_Char c2 = Some g2 ->
     rect_disjoint p1 g1 p2 g2).

(** The invariant of the loop: the above, the pen inside the atlas, and
    every stored glyph behind the pen. *)
Definition atlas_inv (FT_Load_Char : Z -> option Font.GlyphSlot) (W H : Z)
    (st : Font.AtlasState) (place : gmap Z (Z * Z)) : Prop :=
  atlas_ok FT_Load_Char W H st place /\
  0 <= Font.penX st < W /\ 0 <= Font.penY st /\ 0 <= Font.rowHeight st /\
  Font.penY st + Font.rowHeight st < H /\
  (forall (c : Z) (g : Font.GlyphSlot) (px py : Z),
     is_Some (Font.m_Glyphs st !! c) ->
     place !! c = Some (px, py) -> FT_Load_Char c = Some g ->
     behind_pen st px py g).

(** A call of the audio manager's interface. *)
Inductive AudioCall :=
| CallPlay (sound : Z) (options : AudioManager.PlayOptions)
| CallPlayVolume (sound : Z) (volume : float) (loop : bool)
| CallPlayBGM (sound : Z) (volume fadeInTime : float)
| CallStop (instance : Z) (fadeOutTime : float)
| CallPause (instance : Z)
| CallResume (instance : Z)
| CallStopAll (fadeOutTime : float)
| CallStopBGM (fadeOutTime : float)
| CallPauseAll
| CallResumeAll
| CallSetVolume (instance : Z) (volume : float)
| CallSetMasterVolume (volume : float)
| CallSetSFXVolume (volume : float)
| CallSetBGMVolume (volume : float)
| CallSetPitch (instance : Z) (pitch : float)
| CallSetPan (instance : Z) (pan : float)
| CallUpdate (deltaTime : float).

(** The manager after the call, and the instance id the call returned, if
    it returns one. *)
Definition audio_call (IsLoaded : Z -> bool) (s : AudioManager.t)
    (call : AudioCall) : AudioManager.t * option Z :=
  match call with
  | CallPlay sound options =>
      let '(s, h) := AudioManager.Play IsLoaded sound options s in (s, Some h)
  | CallPlayVolume sound volume loop =>
      let '(s, h) := AudioManager.Play_volume IsLoaded sound volume loop s in
      (s, Some h)
  | CallPlayBGM sound volume fadeInTime =>
      let '(s, h) := AudioManager.PlayBGM IsLoaded sound volume fadeInTime s in
      (s, Some h)
  | CallStop i t => (AudioManager.Stop i t s, None)
  | CallPause i => (AudioManager.Pause i s, None)
  | CallResume i => (AudioManager.Resume i s, None)
  | CallStopAll t => (AudioManager.StopAll t s, None)
  | CallStopBGM t => (AudioManager.StopBGM t s, None)
  | CallPauseAll => (AudioManager.PauseAll s, None)
  | CallResumeAll => (AudioManager.ResumeAll s, None)
  | CallSetVolume i v => (AudioManager.SetVolume i v s, None)
  | CallSetMasterVolume v => (AudioManager.SetMasterVolume v s, None)
  | CallSetSFXVolume v => (AudioManager.SetSFXVolume v s, None)
  | CallSetBGMVolume v => (AudioManager.SetBGMVolume v s, None)
  | CallSetPitch i p => (AudioManager.SetPitch i p s, None)
  | CallSetPan i p => (AudioManager.SetPan i p s, None)
  | CallUpdate dt => (AudioManager.Update dt s, None)
  end.

(** The manager after the calls, and the valid instance ids they
    returned, in order. *)
Fixpoint audio_calls (IsLoaded : Z -> bool) (calls : list AudioCall)
    (s : AudioManager.t) : AudioManager.t * list Z :=
  match calls with
  | [] => (s, [])
  | call :: rest =>
      let '(s1, h) := audio_call IsLoaded s call in
      let '(s2, hs) := audio_calls IsLoaded rest s1 in
      (s2,
       match h with
       | Some id => if id =? 0 then hs else id :: hs
       | None => hs
       end)
  end.

(** The ids in use are those handed out so far, 1 to [n]. *)
Definition audio_inv (s : AudioManager.t) (n : Z) : Prop :=
  0 <= n /\
  AudioManager.nextInstanceId s = 1 + n /\
  (forall id : Z, is_Some (AudioManager.playingSounds s !! id) -> 1 <= id <= n) /\
  (AudioManager.m_CurrentBGM s = 0 \/ 1 <= AudioManager.m_CurrentBGM s <= n).

(** A value of the type [float]: a binary32 number in its canonical
    form, an infinity or a NaN. *)
Definition binary32 (f : float) : Prop :=
  valid_binary F32.prec F32.emax f = true.

(** The cast of the pitch to [size_t] is defined for every sound. *)
Definition pitches_defined (sounds : gmap Z AudioManager.PlayingSound) : Prop :=
  forall (i : Z) (p : AudioManager.PlayingSound),
    sounds !! i = Some p ->
    is_Some (AudioManager.size_t_of_float (AudioManager.pitch p)).

(** What runs by itself while sounds play: the device callback and the
    [Update] of the frame loop, in any order. *)
Inductive DeviceStep :=
| StepProcessAudio (order : list Z) (frameCount : Z)
| StepUpdate (deltaTime : float).

Fixpoint device_steps (GetData : Z -> option AudioManager.SoundData)
    (channels : Z) (steps : list DeviceStep) (s : AudioManager.t)
    : option AudioManager.t :=
  match steps with
  | [] => Some s
  | StepProcessAudio order frameCount :: rest =>
      match AudioManager.ProcessAudio GetData channels order frameCount s with
      | None => None
      | Some (s', _) => device_steps GetData channels rest s'
      end
  | StepUpdate deltaTime :: rest =>
      device_steps GetData channels rest (AudioManager.Update deltaTime s)
  end.

(** Instance [i] plays the sound at [sound] from its first frame and was
    not asked to stop; the cast of the pitch is defined for every other
    sound. *)
Definition waiting (sound i : Z) (s : AudioManager.t) : Prop :=
  pitches_defined (delete i (AudioManager.playingSounds s)) /\
  exists p : AudioManager.PlayingSound,
    AudioManager.playingSounds s !! i = Some p /\
    AudioManager.sound p = sound /\
    AudioManager.paused p = false /\
    AudioManager.fadeOutStop p = false /\
    AudioManager.currentFrame p = 0.

End Spec.

(** * Sample data

    Concrete values on which the definitions are run. *)

Module Samples.

(** Matrices as the list of the numbers that built them; the angle 0 is
    the only one the samples rotate by. *)
Definition symbolic_math : ExternMath :=
  {| mat4 := list float;
     cosf := fun _ => F32.one;
     sinf := fun _ => F32.zero;
     glm_identity := [];
     glm_scale := fun m v => m ++ [v3x v; v3y v; v3z v];
     glm_rotate := fun m angle v => m ++ [angle; v3x v; v3y v; v3z v];
     glm_translate := fun m v => m ++ [v3x v; v3y v; v3z v];
     glm_ortho := fun l r b t n f => [l; r; b; t; n; f];
     mat4_mul := fun a b => a ++ b |}.

(** A unit quad of the given texture at the origin, untinted. *)
Definition quad (texture : Z) : SpriteBatch.DrawArgs :=
  SpriteBatch.MkDraw texture (Vec2 F32.zero F32.zero) (Vec2 F32.one F32.one)
    (Vec2 F32.zero F32.zero) (Vec2 F32.one F32.one)
    (Vec4 F32.one F32.one F32.one F32.one) F32.zero (Vec2 F32.zero F32.zero).

(** Three requests on the textures at 1, 2 and 1, and the same requests
    in another order. *)
Definition aba : list SpriteBatch.DrawArgs := [quad 1; quad 2; quad 1].
Definition baa : list SpriteBatch.DrawArgs := [quad 2; quad 1; quad 1].

(** An engine for four sprites whose white texture lives at address 7. *)
Definition engine : SpriteBatch.t := SpriteBatch.create 4 7.

(** An engine for one sprite, and six requests for the engine for four. *)
Definition small_engine : SpriteBatch.t := SpriteBatch.create 1 7.
Definition six : list SpriteBatch.DrawArgs :=
  [quad 1; quad 2; quad 1; quad 2; quad 1; quad 2].

(** The older engine with room for four sprites. *)
Definition roomy_legacy_engine : LegacySpriteBatch.t :=
  LegacySpriteBatch.create 4 7.

(** The older engine with room for one sprite. *)
Definition legacy_engine : LegacySpriteBatch.t := LegacySpriteBatch.create 1 7.

Definition camera : @Camera2D.t symbolic_math :=
  @Camera2D.create symbolic_math (F32.of_Z 1280) (F32.of_Z 720).

(** A font with the letter A (a 10 by 12 bitmap) and the space, whose
    bitmap is empty, as FreeType renders it; atlas at address 9. *)
Definition font : TextRenderer.Font :=
  TextRenderer.MkFont
    (<[65 := TextRenderer.MkGlyph (IVec2 10 12) (IVec2 1 12) 11
               (Vec2 F32.zero F32.zero) (Vec2 F32.half F32.half)]>
       (<[32 := TextRenderer.MkGlyph (IVec2 0 0) (IVec2 0 0) 5
                  (Vec2 F32.zero F32.zero) (Vec2 F32.zero F32.zero)]> ∅))
    9 16 (F32.of_Z 13).

(** The engine with texture sorting switched off. *)
Definition unsorted_engine : SpriteBatch.t :=
  SpriteBatch.SetTextureSortingEnabled false engine.

Definition white : vec4 := Vec4 F32.one F32.one F32.one F32.one.
Definition black : vec4 := Vec4 F32.zero F32.zero F32.zero F32.one.
Definition origin : vec2 := Vec2 F32.zero F32.zero.

(** The unit quad of [quad], tinted black. *)
Definition black_quad (texture : Z) : SpriteBatch.DrawArgs :=
  SpriteBatch.MkDraw texture origin (Vec2 F32.one F32.one) origin
    (Vec2 F32.one F32.one) black F32.zero origin.

(** The code points of A, e with acute accent, the euro sign and a
    smiley: one, two, three and four bytes. *)
Definition codepoints : list Z := [65; 233; 0x20AC; 0x1F600].

Definition utf8_text : string :=
  Spec.string_of_bytes (concat (map Spec.utf8_encode codepoints)).

(** A face all of whose glyphs are 10 by 12 and opaque, and a face whose
    glyphs are 4000 by 400. *)
Definition small_face (c : Z) : option Font.GlyphSlot :=
  Some (Font.MkSlot 10 12 1 12 11 (fun _ => 255)).

Definition huge_face (c : Z) : option Font.GlyphSlot :=
  Some (Font.MkSlot 4000 400 1 400 4001 (fun _ => 255)).

(** An input manager with the cursor at the origin; A is pressed and
    released, B is pressed, a key outside the array is pressed, and the
    left mouse button is pressed. *)
Definition input : InputManager.t :=
  InputManager.create (S754_zero false) (S754_zero false).

Definition events : list InputManager.Event :=
  [InputManager.EvKey 65 1; InputManager.EvKey 66 1;
   InputManager.EvKey 65 0; InputManager.EvKey (-1) 1;
   InputManager.EvMouseButton 0 1].

(** An audio manager at full volume, every sound loaded, and some calls:
    a sound effect, a background music, the effect stopped, a second of
    time, the effect again. *)
Definition loaded (sound : Z) : bool := true.

Definition audio : AudioManager.t :=
  AudioManager.create F32.one F32.one F32.one.

Definition audio_session : list Spec.AudioCall :=
  [Spec.CallPlay 100 AudioManager.default_options;
   Spec.CallPlayBGM 200 F32.one F32.one;
   Spec.CallStop 1 F32.zero;
   Spec.CallUpdate F32.one;
   Spec.CallPlayVolume 100 F32.one false].

(** Every sound is two frames of stereo; the device is stereo.  An effect
    played at half pitch, and the sound the manager then holds. *)
Definition stereo_clip : AudioManager.SoundData :=
  AudioManager.MkData [F32.half; F32.half; F32.half; F32.half] 2 2.

Definition sound_data (sound : Z) : option AudioManager.SoundData :=
  Some stereo_clip.

Definition slow_options : AudioManager.PlayOptions :=
  AudioManager.MkOptions F32.one F32.half F32.zero false false F32.zero.

Definition slow_audio : AudioManager.t :=
  fst (AudioManager.Play loaded 100 slow_options audio).

Definition slow_sound : AudioManager.PlayingSound :=
  AudioManager.MkPlaying 100 1 (F32.mul (F32.mul F32.one F32.one) F32.one)
    F32.half F32.zero false false false F32.one F32.one F32.zero false 0.

(** A sound of two frames of stereo kept for streaming, with no samples
    in memory, and two rounds of the device callback with an [Update] in
    between. *)
Definition streaming_clip : AudioManager.SoundData :=
  AudioManager.MkData [] 2 2.

Definition streaming_data (sound : Z) : option AudioManager.SoundData :=
  Some streaming_clip.

Definition two_rounds : list Spec.DeviceStep :=
  [Spec.StepProcessAudio [1] 8; Spec.StepUpdate F32.one;
   Spec.StepProcessAudio [1] 8].

End Samples.

(** * Properties *)

(** ** Camera zoom *)

Section CameraFacts.
Context `{ExternMath}.

Lemma tenth_leb_not_ltb (z : float) :
  F32.leb F32.tenth z = true -> F32.ltb z F32.tenth = false.
Proof.
  unfold F32.leb, F32.ltb, SFleb, SFltb, F32.tenth, SFcompare.
  destruct z as [[] | [] | | [] m e]; try congruence.
  rewrite (Z.compare_antisym e (-27)).
  destruct (e ?= -27)%Z eqn:He; cbn [CompOpp]; try congruence.
  rewrite (ZC4 13421773 m).
  destruct (Pos.compare_cont Eq m 13421773); cbn [CompOpp]; congruence.
Qed.

Lemma SetZoom_zoom (z : float) (c : Camera2D.t) :
  Camera2D.m_Zoom (Camera2D.SetZoom z c)
  = if F32.ltb z F32.tenth then F32.tenth else z.
Proof. unfold Camera2D.SetZoom. simpl. destruct (F32.ltb z F32.tenth); reflexivity. Qed.

Lemma Zoom_zoom (delta : float) (c : Camera2D.t) :
  Camera2D.m_Zoom (Camera2D.Zoom delta c)
  = let z := F32.add (Camera2D.m_Zoom c) delta in
    if F32.ltb z F32.tenth then F32.tenth else z.
Proof.
  unfold Camera2D.Zoom. simpl.
  destruct (F32.ltb (F32.add (Camera2D.m_Zoom c) delta) F32.tenth); reflexivity.
Qed.

Lemma SetZoom_keeps (z : float) (c : Camera2D.t) :
  Camera2D.m_Rotation (Camera2D.SetZoom z c) = Camera2D.m_Rotation c /\
  Camera2D.m_Position (Camera2D.SetZoom z c) = Camera2D.m_Position c /\
  Camera2D.m_ViewDirty (Camera2D.SetZoom z c) = true.
Proof.
  unfold Camera2D.SetZoom. simpl.
  destruct (F32.ltb z F32.tenth); repeat split.
Qed.

Lemma Zoom_keeps (delta : float) (c : Camera2D.t) :
  Camera2D.m_Rotation (Camera2D.Zoom delta c) = Camera2D.m_Rotation c /\
  Camera2D.m_Position (Camera2D.Zoom delta c) = Camera2D.m_Position c /\
  Camera2D.m_ViewDirty (Camera2D.Zoom delta c) = true.
Proof.
  unfold Camera2D.Zoom. simpl.
  destruct (F32.ltb (F32.add (Camera2D.m_Zoom c) delta) F32.tenth); repeat split.
Qed.

Lemma clamped_not_below (z : float) :
  F32.ltb (if F32.ltb z F32.tenth then F32.tenth else z) F32.tenth = false.
Proof. destruct (F32.ltb z F32.tenth) eqn:E; [reflexivity | exact E]. Qed.

Lemma GetViewMatrix_dirty (c : Camera2D.t) :
  Camera2D.m_ViewDirty c = true ->
  snd (Camera2D.GetViewMatrix c)
  = Camera2D.view_transform (Camera2D.m_Zoom c) (Camera2D.m_Rotation c)
      (Camera2D.m_Position c).
Proof. intros Hd. unfold Camera2D.GetViewMatrix. rewrite Hd. reflexivity. Qed.

End CameraFacts.

Example SetZoom_zero `{ExternMath} (c : Camera2D.t) :
  Camera2D.m_Zoom (Camera2D.SetZoom F32.zero c) = F32.tenth.
Proof. reflexivity. Qed.

Example SetZoom_minus_one `{ExternMath} (c : Camera2D.t) :
  Camera2D.m_Zoom (Camera2D.SetZoom (F32.neg F32.one) c) = F32.tenth.
Proof. reflexivity. Qed.

Example SetZoom_two `{ExternMath} (c : Camera2D.t) :
  Camera2D.m_Zoom (Camera2D.SetZoom F32.two c) = F32.two.
Proof. reflexivity. Qed.

Example tenth_is_one_over_ten :
  F32.div F32.one (F32.of_Z 10) = F32.tenth.
Proof. vm_compute. reflexivity. Qed.

(** C8. [SetZoom z] and [Zoom delta] store the floor 0.1f when the zoom
    they are about to store compares below 0.1f (zero and the negative
    values among them), and store it unchanged when it is at or above
    0.1f.  Both mark the view matrix dirty, so the next view matrix that
    is handed out is computed from the stored, clamped zoom, which is
    never below the floor. *)
Theorem C8_zoom_floor `{ExternMath} (c : Camera2D.t) (z delta : float) :
  let set := Camera2D.SetZoom z c in
  let rel := Camera2D.Zoom delta c in
  let sum := F32.add (Camera2D.m_Zoom c) delta in
  (F32.ltb z F32.tenth = true -> Camera2D.m_Zoom set = F32.tenth) /\
  (F32.leb F32.tenth z = true -> Camera2D.m_Zoom set = z) /\
  (F32.ltb sum F32.tenth = true -> Camera2D.m_Zoom rel = F32.tenth) /\
  (F32.leb F32.tenth sum = true -> Camera2D.m_Zoom rel = sum) /\
  F32.ltb (Camera2D.m_Zoom set) F32.tenth = false /\
  F32.ltb (Camera2D.m_Zoom rel) F32.tenth = false /\
  snd (Camera2D.GetViewMatrix set)
  = Camera2D.view_transform (Camera2D.m_Zoom set) (Camera2D.m_Rotation c)
      (Camera2D.m_Position c) /\
  snd (Camera2D.GetViewMatrix rel)
  = Camera2D.view_transform (Camera2D.m_Zoom rel) (Camera2D.m_Rotation c)
      (Camera2D.m_Position c).
Proof.
  cbv zeta. rewrite SetZoom_zoom, Zoom_zoom. cbv zeta.
  repeat split.
  - intros ->. reflexivity.
  - intros Hle. rewrite (tenth_leb_not_ltb _ Hle). reflexivity.
  - intros ->. reflexivity.
  - intros Hle. rewrite (tenth_leb_not_ltb _ Hle). reflexivity.
  - apply clamped_not_below.
  - apply clamped_not_below.
  - destruct (SetZoom_keeps z c) as (Hr & Hp & Hd).
    rewrite GetViewMatrix_dirty by exact Hd.
    rewrite SetZoom_zoom, Hr, Hp. reflexivity.
  - destruct (Zoom_keeps delta c) as (Hr & Hp & Hd).
    rewrite GetViewMatrix_dirty by exact Hd.
    rewrite Zoom_zoom, Hr, Hp. reflexivity.
Qed.

(** ** Machine integers *)

Lemma u32_small (x : Z) : 0 <= x < 2 ^ 32 -> u32 x = x.
Proof. intros Hx. unfold u32. apply Z.mod_small. exact Hx. Qed.

Lemma u32_range (x : Z) : 0 <= u32 x < 2 ^ 32.
Proof. unfold u32. apply Z.mod_pos_bound. lia. Qed.

Lemma u32_le (x : Z) : 0 <= x -> u32 x <= x.
Proof. intros Hx. unfold u32. apply Z.mod_le; lia. Qed.

(** ** The state machine of Begin, Draw and End *)

Section BatchFacts.
Context `{ExternMath}.
Import SpriteBatch Spec.

Lemma set_SpriteDataList_same (s : SpriteBatch.t) :
  set_SpriteDataList (m_SpriteDataList s) s = s.
Proof. destruct s; reflexivity. Qed.

Lemma draw_all_idle (ds : list DrawArgs) (s : SpriteBatch.t) :
  m_IsBatching s = false ->
  draw_all ds s =
  match ds with
  | [] => Ok s
  | _ => Throw "SpriteBatch::Draw called without Begin" s
  end.
Proof.
  intros Hidle. destruct ds as [| a ds]; [reflexivity |].
  simpl. unfold Draw. rewrite Hidle. reflexivity.
Qed.

Lemma draw_all_batching (ds : list DrawArgs) (s : SpriteBatch.t) :
  m_IsBatching s = true ->
  draw_all ds s =
  Ok (set_SpriteDataList
        (accept (m_MaxSprites s) (m_WhiteTexture s) (m_SpriteDataList s) ds) s).
Proof.
  revert s. induction ds as [| a ds IH]; intros s Hb; simpl.
  - rewrite set_SpriteDataList_same. reflexivity.
  - unfold Draw. rewrite Hb. simpl.
    destruct (m_MaxSprites s <=? Z.of_nat (length (m_SpriteDataList s))).
    + simpl. apply IH. exact Hb.
    + simpl. rewrite IH by exact Hb. reflexivity.
Qed.

Lemma accept_fits max white l ds :
  Z.of_nat (length l + length ds) <= max ->
  accept max white l ds = l ++ map (make_SpriteData white) ds.
Proof.
  revert l. induction ds as [| a ds IH]; intros l Hlen; simpl.
  - rewrite app_nil_r. reflexivity.
  - simpl in Hlen.
    destruct (max <=? Z.of_nat (length l)) eqn:E.
    + apply Z.leb_le in E. lia.
    + rewrite IH.
      * rewrite <- app_assoc. reflexivity.
      * rewrite length_app. simpl. lia.
Qed.

Lemma accept_full max white l ds :
  max <= Z.of_nat (length l) -> accept max white l ds = l.
Proof.
  revert l. induction ds as [| a ds IH]; intros l Hlen; simpl; [reflexivity |].
  destruct (max <=? Z.of_nat (length l)) eqn:E.
  - apply IH. exact Hlen.
  - apply Z.leb_gt in E. lia.
Qed.

Lemma accept_length max white l ds :
  Z.of_nat (length l) <= max ->
  Z.of_nat (length (accept max white l ds))
  = Z.min (Z.of_nat (length l + length ds)) max.
Proof.
  revert l. induction ds as [| a ds IH]; intros l Hlen; simpl.
  - rewrite Nat.add_0_r. lia.
  - destruct (max <=? Z.of_nat (length l)) eqn:E.
    + apply Z.leb_le in E. rewrite accept_full by exact E. lia.
    + apply Z.leb_gt in E. rewrite IH.
      * rewrite length_app. simpl. lia.
      * rewrite length_app. simpl. lia.
Qed.

Lemma accept_nonnull max white l ds :
  white <> nullptr ->
  Forall (fun d => texture d <> nullptr) l ->
  Forall (fun d => texture d <> nullptr) (accept max white l ds).
Proof.
  intros Hw. revert l. induction ds as [| a ds IH]; intros l Hl; simpl; [exact Hl |].
  apply IH. destruct (max <=? Z.of_nat (length l)); [exact Hl |].
  apply Forall_app. split; [exact Hl |].
  constructor; [| constructor].
  unfold make_SpriteData. simpl.
  destruct (d_texture a =? nullptr) eqn:E; [exact Hw |].
  apply Z.eqb_neq in E. exact E.
Qed.

(** C5. [Begin] while batching, and [Draw] or [End] while idle, throw and
    leave the object exactly as it was; called in the right state, none
    of the three throws. *)
Theorem C5_state_errors (s : SpriteBatch.t) (camera : Z) (a : DrawArgs)
    (elapsed : float) :
  (m_IsBatching s = true ->
     Begin camera s
     = Throw "SpriteBatch::Begin called without ending previous batch" s) /\
  (m_IsBatching s = false ->
     Draw a s = Throw "SpriteBatch::Draw called without Begin" s /\
     End elapsed s = Throw "SpriteBatch::End called without Begin" s) /\
  (m_IsBatching s = false ->
     threw (Begin camera s) = false /\
     m_IsBatching (state_of (Begin camera s)) = true) /\
  (m_IsBatching s = true ->
     threw (Draw a s) = false /\
     m_IsBatching (state_of (Draw a s)) = true /\
     threw (End elapsed s) = false /\
     m_IsBatching (state_of (End elapsed s)) = false).
Proof.
  split; [| split; [| split]].
  - intros Hb. unfold Begin. rewrite Hb. reflexivity.
  - intros Hidle. unfold Draw, End. rewrite Hidle. split; reflexivity.
  - intros Hidle. unfold Begin. rewrite Hidle. split; reflexivity.
  - intros Hb. unfold Draw, End. rewrite Hb. cbn [negb].
    destruct (generate_vertices _ _ _).
    destruct (m_MaxSprites s <=? Z.of_nat (length (m_SpriteDataList s)));
      repeat split; try reflexivity; exact Hb.
Qed.

End BatchFacts.

(** ** The stable sort *)

Section SortFacts.
Context {A : Type} (lt : A -> A -> bool).
Import SpriteBatch Spec.

Lemma stable_insert_perm (x : A) (l : list A) :
  stable_insert lt x l ≡ₚ x :: l.
Proof.
  induction l as [| y l IH]; simpl; [reflexivity |].
  destruct (lt y x); [| reflexivity].
  rewrite IH. apply Permutation_swap.
Qed.

Lemma stable_sort_perm (l : list A) : stable_sort lt l ≡ₚ l.
Proof.
  induction l as [| x l IH]; simpl; [reflexivity |].
  rewrite stable_insert_perm, IH. reflexivity.
Qed.

Lemma stable_sort_length (l : list A) : length (stable_sort lt l) = length l.
Proof. apply Permutation_length, stable_sort_perm. Qed.

Lemma before_insert_keep (x y z : A) (s : list A) :
  before x y s -> before x y (stable_insert lt z s).
Proof.
  induction 1 as [l Hy | w l Hb IH]; simpl.
  - destruct (lt x z).
    + apply before_here. rewrite stable_insert_perm. right. exact Hy.
    + apply before_later, before_here. exact Hy.
  - destruct (lt w z).
    + apply before_later. exact IH.
    + apply before_later, before_later. exact Hb.
Qed.

Lemma before_insert_new (x y : A) (s : list A) :
  y ∈ s -> lt y x = false -> before x y (stable_insert lt x s).
Proof.
  intros Hy Hlt. induction s as [| w l IH]; simpl.
  - inversion Hy.
  - destruct (lt w x) eqn:E.
    + apply before_later, IH.
      apply elem_of_cons in Hy as [-> | Hy]; [congruence | exact Hy].
    + apply before_here. exact Hy.
Qed.

Lemma before_sort (x y : A) (l : list A) :
  before x y l -> lt y x = false -> before x y (stable_sort lt l).
Proof.
  intros Hb Hlt. induction Hb as [l Hy | z l Hb IH]; simpl.
  - apply before_insert_new; [| exact Hlt].
    rewrite stable_sort_perm. exact Hy.
  - apply before_insert_keep, IH.
Qed.

Lemma before_positions (x y : A) (l : list A) :
  before x y l ->
  exists p q : nat, (p < q)%nat /\ l !! p = Some x /\ l !! q = Some y.
Proof.
  induction 1 as [l Hy | z l Hb IH].
  - apply list_elem_of_lookup in Hy as [q Hq].
    exists O, (S q). split; [lia |]. split; [reflexivity | exact Hq].
  - destruct IH as (p & q & Hpq & Hp & Hq).
    exists (S p), (S q). split; [lia |]. split; assumption.
Qed.

Lemma positions_before (x y : A) (l : list A) (i j : nat) :
  (i < j)%nat -> l !! i = Some x -> l !! j = Some y -> before x y l.
Proof.
  revert i j. induction l as [| z l IH]; intros i j Hij Hi Hj.
  - rewrite lookup_nil in Hi. discriminate.
  - destruct j as [| j]; [lia |]. destruct i as [| i]; simpl in *.
    + injection Hi as ->. apply before_here.
      apply list_elem_of_lookup. exists j. exact Hj.
    + apply before_later. apply (IH i j); [lia | assumption | assumption].
Qed.

End SortFacts.

Section SortMap.
Context {A B : Type} (ltA : A -> A -> bool) (ltB : B -> B -> bool) (f : A -> B).
Hypothesis lt_f : forall x y, ltB (f x) (f y) = ltA x y.
Import SpriteBatch.

Lemma stable_insert_map (x : A) (l : list A) :
  stable_insert ltB (f x) (map f l) = map f (stable_insert ltA x l).
Proof using lt_f.
  induction l as [| y l IH]; simpl; [reflexivity |].
  rewrite lt_f. destruct (ltA y x); simpl; [| reflexivity].
  rewrite IH. reflexivity.
Qed.

Lemma stable_sort_map (l : list A) :
  stable_sort ltB (map f l) = map f (stable_sort ltA l).
Proof using lt_f.
  induction l as [| x l IH]; simpl; [reflexivity |].
  rewrite IH. apply stable_insert_map.
Qed.

End SortMap.

Section OrderFacts.
Context {A : Type} (lt : A -> A -> bool).
Import SpriteBatch Spec.

Lemma tagged_lookup (l : list A) (i : nat) (x : A) :
  l !! i = Some x -> tagged l !! i = Some (x, i).
Proof.
  intros Hi. unfold tagged. apply lookup_zip_with_Some.
  exists x, i. split; [reflexivity |]. split; [exact Hi |].
  apply lookup_seq. split; [reflexivity |].
  apply lookup_lt_Some in Hi. exact Hi.
Qed.

Lemma tagged_elem (l : list A) (x : A) (k : nat) :
  (x, k) ∈ tagged l -> l !! k = Some x.
Proof.
  intros Hin. apply list_elem_of_lookup in Hin as [i Hi].
  unfold tagged in Hi. apply lookup_zip_with_Some in Hi
    as (x' & k' & Heq & Hx & Hk).
  injection Heq as -> ->. apply lookup_seq in Hk as [-> _]. exact Hx.
Qed.

Lemma sorted_order_perm (l : list A) :
  sorted_order lt l ≡ₚ seq 0 (length l).
Proof.
  unfold sorted_order. rewrite stable_sort_perm. unfold tagged.
  rewrite snd_zip; [reflexivity |]. rewrite length_seq. lia.
Qed.

Lemma sorted_fst_tagged (l : list A) :
  (stable_sort (fun x y => lt (fst x) (fst y)) (tagged l)).*1 = stable_sort lt l.
Proof.
  rewrite <- (stable_sort_map (fun x y => lt (fst x) (fst y)) lt fst)
    by reflexivity.
  unfold tagged. f_equal. apply fst_zip. rewrite length_seq. lia.
Qed.

(** Position [pos] of the sorted list holds the request whose submission
    index the order lists at [pos]. *)
Lemma sorted_order_lookup (l : list A) (pos : nat) :
  stable_sort lt l !! pos = sorted_order lt l !! pos ≫= (fun k => l !! k).
Proof.
  rewrite <- sorted_fst_tagged. unfold sorted_order.
  rewrite !list_lookup_fmap.
  destruct (stable_sort _ (tagged l) !! pos) as [[x k] |] eqn:E; simpl;
    [| reflexivity].
  symmetry. apply tagged_elem.
  rewrite <- (stable_sort_perm (fun x y => lt (fst x) (fst y)) (tagged l)).
  apply list_elem_of_lookup. exists pos. exact E.
Qed.

(** Stability: two requests of which the later one does not compare
    below the earlier one keep their relative order. *)
Lemma sorted_order_stable (l : list A) (i j : nat) (a b : A) :
  (i < j)%nat -> l !! i = Some a -> l !! j = Some b -> lt b a = false ->
  exists p q : nat,
    (p < q)%nat /\ sorted_order lt l !! p = Some i /\
    sorted_order lt l !! q = Some j.
Proof.
  intros Hij Hi Hj Hlt.
  assert (Hb : before (a, i) (b, j) (tagged l)).
  { apply (positions_before _ _ _ i j Hij); apply tagged_lookup; assumption. }
  apply (before_sort (fun x y => lt (fst x) (fst y))) in Hb; [| exact Hlt].
  apply before_positions in Hb as (p & q & Hpq & Hp & Hq).
  exists p, q. split; [exact Hpq |]. unfold sorted_order.
  rewrite !list_lookup_fmap, Hp, Hq. split; reflexivity.
Qed.

End OrderFacts.

(** ** Runs of a sorted list *)

Section RunFacts.
Import SpriteBatch Spec.

Lemma stable_insert_sorted (x : Z) (l : list Z) :
  StronglySorted Z.le l -> StronglySorted Z.le (stable_insert Z.ltb x l).
Proof.
  induction 1 as [| y l Hs IH Hy]; simpl.
  - constructor; constructor.
  - destruct (y <? x) eqn:E.
    + constructor; [exact IH |].
      rewrite stable_insert_perm. constructor; [| exact Hy].
      apply Z.ltb_lt in E. lia.
    + apply Z.ltb_ge in E. constructor.
      * constructor; assumption.
      * constructor; [exact E |].
        eapply Forall_impl; [exact Hy |]. intros z Hz. simpl in Hz. lia.
Qed.

Lemma stable_sort_sorted (l : list Z) :
  StronglySorted Z.le (stable_sort Z.ltb l).
Proof.
  induction l as [| x l IH]; simpl; [constructor |].
  apply stable_insert_sorted, IH.
Qed.

Lemma runs_le_distinct (l : list Z) :
  (length (remove_dups l) <= runs l)%nat.
Proof.
  induction l as [| x l IH]; [reflexivity |].
  cbn [remove_dups]. destruct l as [| y l].
  - simpl. destruct (decide_rel elem_of x []) as [Hin | _]; [inversion Hin | simpl; lia].
  - change (runs (x :: y :: l)) with (if x =? y then runs (y :: l) else S (runs (y :: l))).
    destruct (decide_rel elem_of x (y :: l)) as [Hin | Hnin].
    + destruct (x =? y); lia.
    + destruct (x =? y) eqn:E.
      * apply Z.eqb_eq in E. subst. exfalso. apply Hnin. left.
      * cbn [length]. lia.
Qed.

Lemma runs_sorted (l : list Z) :
  StronglySorted Z.le l -> runs l = length (remove_dups l).
Proof.
  induction 1 as [| x l Hs IH Hx]; [reflexivity |].
  cbn [remove_dups]. destruct l as [| y l].
  - simpl. destruct (decide_rel elem_of x []) as [Hin | _]; [inversion Hin | reflexivity].
  - change (runs (x :: y :: l)) with (if x =? y then runs (y :: l) else S (runs (y :: l))).
    destruct (x =? y) eqn:E.
    + apply Z.eqb_eq in E. subst y.
      destruct (decide_rel elem_of x (x :: l)) as [_ | Hnin]; [exact IH |].
      exfalso. apply Hnin. left.
    + apply Z.eqb_neq in E.
      destruct (decide_rel elem_of x (y :: l)) as [Hin | _].
      * exfalso. inversion Hs as [| ? ? Hs' Hy]; subst.
        inversion Hx as [| ? ? Hxy Hxl]; subst.
        apply elem_of_cons in Hin as [-> | Hin]; [congruence |].
        rewrite Forall_forall in Hy. specialize (Hy x Hin). lia.
      * cbn [length]. rewrite IH. reflexivity.
Qed.

Lemma distinct_perm (l l' : list Z) :
  l ≡ₚ l' -> length (remove_dups l) = length (remove_dups l').
Proof.
  intros Hp. apply Permutation_length. apply NoDup_Permutation.
  - apply NoDup_remove_dups.
  - apply NoDup_remove_dups.
  - intros x. rewrite !elem_of_remove_dups. rewrite Hp. reflexivity.
Qed.

Lemma texture_sort_map (l : list SpriteData) :
  map texture (stable_sort texture_lt l) = stable_sort Z.ltb (map texture l).
Proof.
  symmetry. apply stable_sort_map. reflexivity.
Qed.

(** The runs of the sorted requests are as many as their distinct
    textures. *)
Lemma runs_sorted_textures (l : list SpriteData) :
  runs (map texture (stable_sort texture_lt l))
  = length (remove_dups (map texture l)).
Proof.
  rewrite texture_sort_map.
  rewrite runs_sorted by apply stable_sort_sorted.
  apply distinct_perm. apply stable_sort_perm.
Qed.

End RunFacts.

(** ** Tilings *)

Section TileFacts.
Import SpriteBatch Spec.

Lemma tiles_snoc (a b : Z) (bs : list BatchInfo) (x : BatchInfo) :
  tiles a bs b -> startInstance x = b -> 0 < instanceCount x ->
  tiles a (bs ++ [x]) (b + instanceCount x).
Proof.
  revert a. induction bs as [| y bs IH]; intros a Ht Hs Hc; simpl in *.
  - split; [lia |]. split; [exact Hc | lia].
  - destruct Ht as (Hy & Hyc & Ht). split; [exact Hy |]. split; [exact Hyc |].
    apply IH; assumption.
Qed.

Lemma tiles_le (a b : Z) (bs : list BatchInfo) : tiles a bs b -> a <= b.
Proof.
  revert a. induction bs as [| y bs IH]; intros a Ht; simpl in *; [lia |].
  destruct Ht as (_ & Hc & Ht). apply IH in Ht. lia.
Qed.

Lemma tiles_inside (a b : Z) (bs : list BatchInfo) (k : nat) (x : BatchInfo) :
  tiles a bs b -> bs !! k = Some x ->
  a <= startInstance x /\ 0 < instanceCount x /\
  startInstance x + instanceCount x <= b.
Proof.
  revert a k. induction bs as [| y bs IH]; intros a k Ht Hk.
  - rewrite lookup_nil in Hk. discriminate.
  - simpl in Ht. destruct Ht as (Hy & Hc & Ht). destruct k as [| k]; simpl in Hk.
    + injection Hk as ->. apply tiles_le in Ht. lia.
    + destruct (IH _ _ Ht Hk) as (? & ? & ?). lia.
Qed.

Lemma tiles_cover (a b : Z) (bs : list BatchInfo) (i : Z) :
  tiles a bs b -> a <= i < b ->
  exists k x, bs !! k = Some x /\ covers x i.
Proof.
  revert a. induction bs as [| y bs IH]; intros a Ht Hi; simpl in Ht.
  - lia.
  - destruct Ht as (Hy & Hc & Ht).
    destruct (Z_lt_dec i (a + instanceCount y)) as [Hlt | Hge].
    + exists O, y. split; [reflexivity |]. unfold covers. lia.
    + destruct (IH _ Ht) as (k & x & Hk & Hx); [lia |].
      exists (S k), x. split; assumption.
Qed.

Lemma tiles_order (a b : Z) (bs : list BatchInfo) (k1 k2 : nat)
    (x1 x2 : BatchInfo) :
  tiles a bs b -> (k1 < k2)%nat -> bs !! k1 = Some x1 -> bs !! k2 = Some x2 ->
  startInstance x1 + instanceCount x1 <= startInstance x2.
Proof.
  revert a k1 k2. induction bs as [| y bs IH]; intros a k1 k2 Ht Hlt H1 H2.
  - rewrite lookup_nil in H1. discriminate.
  - simpl in Ht. destruct Ht as (Hy & Hc & Ht).
    destruct k2 as [| k2]; [lia |]. simpl in H2. destruct k1 as [| k1]; simpl in H1.
    + injection H1 as ->. destruct (tiles_inside _ _ _ _ _ Ht H2). lia.
    + apply (IH _ k1 k2 Ht); [lia | assumption | assumption].
Qed.

Lemma tiles_next (a b : Z) (bs : list BatchInfo) (k : nat) (x x' : BatchInfo) :
  tiles a bs b -> bs !! k = Some x -> bs !! S k = Some x' ->
  startInstance x' = startInstance x + instanceCount x.
Proof.
  revert a k. induction bs as [| y bs IH]; intros a k Ht H1 H2.
  - rewrite lookup_nil in H1. discriminate.
  - simpl in Ht. destruct Ht as (Hy & Hc & Ht). destruct k as [| k]; simpl in *.
    + injection H1 as ->. destruct bs as [| z bs]; [discriminate |].
      simpl in H2. injection H2 as ->. simpl in Ht. lia.
    + apply (IH _ k Ht); assumption.
Qed.

Lemma tiles_partitions (bs : list BatchInfo) (n : Z) :
  tiles 0 bs n -> partitions bs n.
Proof.
  intros Ht. repeat split.
  - destruct (tiles_inside _ _ _ _ _ Ht H). lia.
  - destruct (tiles_inside _ _ _ _ _ Ht H) as (_ & ? & _). assumption.
  - destruct (tiles_inside _ _ _ _ _ Ht H) as (_ & _ & ?). assumption.
  - intros i Hi. apply (tiles_cover 0 n); assumption.
  - intros k1 k2 b1 b2 i H1 H2 Hc1 Hc2. unfold covers in *.
    destruct (Nat.lt_trichotomy k1 k2) as [Hlt | [Heq | Hgt]]; [| exact Heq |].
    + pose proof (tiles_order _ _ _ _ _ _ _ Ht Hlt H1 H2). lia.
    + pose proof (tiles_order _ _ _ _ _ _ _ Ht Hgt H2 H1). lia.
  - intros k b b' H1 H2. apply (tiles_next 0 n bs k); assumption.
Qed.

(** The instance counts of a tiling add up to its extent. *)
Lemma tiles_sum (a b : Z) (bs : list BatchInfo) :
  tiles a bs b -> a + fold_right Z.add 0 (map instanceCount bs) = b.
Proof.
  revert a. induction bs as [| y bs IH]; intros a Ht; simpl in *; [lia |].
  destruct Ht as (_ & _ & Ht). apply IH in Ht. lia.
Qed.

End TileFacts.

(** ** BuildBatches *)

Section BuildFacts.
Import SpriteBatch Spec.

Lemma labelled_app (l l' : list SpriteData) (bs : list BatchInfo) :
  labelled l bs -> labelled (l ++ l') bs.
Proof.
  intros Hl n b k Hn Hc. specialize (Hl n b k Hn Hc).
  destruct (l !! k) as [d |] eqn:E; [| discriminate].
  rewrite (lookup_app_l_Some _ _ _ _ E). exact Hl.
Qed.

Lemma labelled_snoc (l : list SpriteData) (bs : list BatchInfo)
    (cur start count : Z) :
  labelled l bs -> run_open l start cur ->
  start + count <= Z.of_nat (length l) ->
  labelled l (bs ++ [MkBatch cur start count]).
Proof.
  intros Hl Hopen Hcount n b k Hn Hc.
  apply lookup_app_Some in Hn as [Hn | [_ Hn]].
  - apply (Hl n b k Hn Hc).
  - apply list_lookup_singleton_Some in Hn as [_ <-].
    unfold covers in Hc. simpl in *. apply Hopen. lia.
Qed.

Lemma run_open_same (l : list SpriteData) (d : SpriteData) (start : Z) :
  run_open l start (texture d) -> run_open (l ++ [d]) start (texture d).
Proof.
  intros Hopen k Hk. rewrite length_app in Hk. simpl in Hk.
  destruct (decide (k < length l)%nat) as [Hlt | Hge].
  - rewrite lookup_app_l by exact Hlt. apply Hopen. lia.
  - assert (k = length l) as -> by lia.
    rewrite list_lookup_middle by reflexivity. reflexivity.
Qed.

Lemma run_open_new (l : list SpriteData) (d : SpriteData) :
  run_open (l ++ [d]) (Z.of_nat (length l)) (texture d).
Proof.
  intros k Hk. rewrite length_app in Hk. simpl in Hk.
  assert (k = length l) as -> by lia.
  rewrite list_lookup_middle by reflexivity. reflexivity.
Qed.

(** The loop, entered with a run open after the requests [done]: the
    batches recorded so far tile the instances before the open run and
    carry the textures of their requests, and so they do when the loop
    ends. *)
Lemma BuildBatches_loop_open (l : list SpriteData) :
  forall (done : list SpriteData) (cur start : Z) (bs : list BatchInfo)
         (ins : list SpriteInstance),
  cur <> nullptr -> 0 <= start < Z.of_nat (length done) ->
  Z.of_nat (length done) + Z.of_nat (length l) < 2 ^ 32 ->
  Forall nonnull l -> tiles 0 bs start ->
  labelled done bs -> run_open done start cur ->
  exists cur' start' bs',
    BuildBatches_loop l (Z.of_nat (length done)) cur start bs ins
    = (cur', start', bs', ins ++ map instance l) /\
    cur' <> nullptr /\
    0 <= start' < Z.of_nat (length done) + Z.of_nat (length l) /\
    tiles 0 bs' start' /\
    (length bs' + 1 = length bs + runs (cur :: map texture l))%nat /\
    labelled (done ++ l) bs' /\ run_open (done ++ l) start' cur'.
Proof.
  induction l as [| d l IH];
    intros done cur start bs ins Hcur Hstart Hi Hnn Ht Hlab Hopen.
  - exists cur, start, bs. simpl. rewrite !app_nil_r.
    repeat split; try assumption; lia.
  - inversion Hnn as [| ? ? Hd Hl]; subst.
    set (i := Z.of_nat (length done)) in *.
    assert (Hi1 : Z.of_nat (length (done ++ [d])) = i + 1)
      by (rewrite length_app; simpl; lia).
    cbn [BuildBatches_loop length map]. cbn [length] in Hi.
    rewrite Nat2Z.inj_succ in Hi. rewrite ?Nat2Z.inj_succ.
    change (runs (cur :: texture d :: map texture l))
      with (if cur =? texture d then runs (texture d :: map texture l)
            else S (runs (texture d :: map texture l))).
    rewrite (Z.eqb_sym cur (texture d)).
    replace (done ++ d :: l) with ((done ++ [d]) ++ l)
      by (rewrite <- app_assoc; reflexivity).
    destruct (texture d =? cur) eqn:E; cbn [negb].
    + apply Z.eqb_eq in E.
      assert (Hstart' : 0 <= start < Z.of_nat (length (done ++ [d]))) by lia.
      assert (Hi' : Z.of_nat (length (done ++ [d])) + Z.of_nat (length l) < 2 ^ 32)
        by lia.
      assert (Hopen' : run_open (done ++ [d]) start cur)
        by (rewrite <- E; apply run_open_same; rewrite E; exact Hopen).
      destruct (IH (done ++ [d]) cur start bs (ins ++ [instance d])
                  Hcur Hstart' Hi' Hl Ht (labelled_app _ _ _ Hlab) Hopen')
        as (cur' & start' & bs' & Heq & Hc' & Hs' & Ht' & Hn' & Hlab' & Ho').
      exists cur', start', bs'. rewrite Hi1 in Heq. rewrite Heq, <- app_assoc.
      rewrite E. repeat split; try assumption; lia.
    + assert (Hne : (cur =? nullptr) = false) by (apply Z.eqb_neq; exact Hcur).
      assert (Hlt : (start <? i) = true) by (apply Z.ltb_lt; lia).
      rewrite Hne, Hlt. cbn [negb andb].
      assert (Hui : u32 i = i) by (apply u32_small; lia).
      assert (Hcount : u32 (i - start) = i - start) by (apply u32_small; lia).
      rewrite Hui, Hcount.
      assert (Hstart' : 0 <= i < Z.of_nat (length (done ++ [d]))) by lia.
      assert (Hi' : Z.of_nat (length (done ++ [d])) + Z.of_nat (length l) < 2 ^ 32)
        by lia.
      assert (Ht2 : tiles 0 (bs ++ [MkBatch cur start (i - start)]) i).
      { replace i with (start + instanceCount (MkBatch cur start (i - start)))
          at 2 by (simpl; lia).
        apply tiles_snoc; simpl; [exact Ht | reflexivity | lia]. }
      assert (Hlab2 : labelled (done ++ [d]) (bs ++ [MkBatch cur start (i - start)])).
      { apply labelled_app. apply labelled_snoc; [exact Hlab | exact Hopen |].
        fold i. lia. }
      destruct (IH (done ++ [d]) (texture d) i
                  (bs ++ [MkBatch cur start (i - start)]) (ins ++ [instance d])
                  Hd Hstart' Hi' Hl Ht2 Hlab2 (run_open_new done d))
        as (cur' & start' & bs' & Heq & Hc' & Hs' & Ht' & Hn' & Hlab' & Ho').
      exists cur', start', bs'. rewrite Hi1 in Heq. rewrite Heq, <- app_assoc.
      rewrite length_app in Hn'. cbn [length] in Hn'.
      repeat split; try assumption; lia.
Qed.

(** [BuildBatches] on a fresh frame: the batches tile the instances, one
    batch per run of equal textures, each with the texture of its
    requests, and there is one instance per request. *)
Lemma BuildBatches_fresh (s : SpriteBatch.t) :
  m_Batches s = [] -> m_Instances s = [] ->
  Forall nonnull (m_SpriteDataList s) ->
  Z.of_nat (length (m_SpriteDataList s)) < 2 ^ 32 ->
  exists bs,
    BuildBatches s
    = set_Batches_Instances bs (map instance (m_SpriteDataList s)) s /\
    tiles 0 bs (Z.of_nat (length (m_SpriteDataList s))) /\
    length bs = runs (map texture (m_SpriteDataList s)) /\
    labelled (m_SpriteDataList s) bs.
Proof.
  intros Hb Hi Hnn Hlen. unfold BuildBatches. rewrite Hb, Hi.
  destruct (m_SpriteDataList s) as [| d l] eqn:El.
  - exists []. split; [| split; [reflexivity | split; [reflexivity |]]].
    + destruct s; simpl in *; subst; reflexivity.
    + intros n b k Hn. rewrite lookup_nil in Hn. discriminate.
  - inversion Hnn as [| ? ? Hd Hl]; subst.
    cbn [BuildBatches_loop]. unfold nonnull in Hd.
    assert (Hne : (texture d =? nullptr) = false) by (apply Z.eqb_neq; exact Hd).
    rewrite Hne. cbn [negb andb]. rewrite Z.eqb_refl. cbn [negb andb].
    change (u32 0) with 0. cbn [length] in *. rewrite Nat2Z.inj_succ in *.
    assert (Hstart' : 0 <= 0 < Z.of_nat (length [d])) by (simpl; lia).
    assert (Hi' : Z.of_nat (length [d]) + Z.of_nat (length l) < 2 ^ 32)
      by (simpl; lia).
    assert (Hlab0 : labelled [d] []).
    { intros n b k Hn. rewrite lookup_nil in Hn. discriminate. }
    destruct (BuildBatches_loop_open l [d] (texture d) 0 []
                ([] ++ [instance d]) Hd Hstart' Hi' Hl eq_refl Hlab0
                (run_open_new [] d))
      as (cur' & start' & bs' & Heq & Hc' & Hs' & Ht' & Hn' & Hlab' & Ho').
    change (Z.of_nat (length [d])) with (0 + 1) in Heq. rewrite Heq.
    assert (Hne' : (cur' =? nullptr) = false) by (apply Z.eqb_neq; exact Hc').
    rewrite Hne'. cbn [negb].
    assert (Hun : u32 (Z.succ (Z.of_nat (length l))) = Z.succ (Z.of_nat (length l)))
      by (apply u32_small; lia).
    rewrite Hun.
    assert (Hcount : u32 (Z.succ (Z.of_nat (length l)) - start')
                     = Z.succ (Z.of_nat (length l)) - start')
      by (apply u32_small; simpl in Hs'; lia).
    rewrite Hcount.
    eexists. split; [reflexivity |]. split; [| split].
    + replace (Z.succ (Z.of_nat (length l)))
        with (start' + instanceCount
                (MkBatch cur' start' (Z.succ (Z.of_nat (length l)) - start')))
        at 2 by (simpl; lia).
      apply tiles_snoc; simpl; [exact Ht' | reflexivity | simpl in Hs'; lia].
    + rewrite length_app. simpl in *. lia.
    + apply (labelled_snoc ([d] ++ l)); [exact Hlab' | exact Ho' |].
      simpl. lia.
Qed.

End BuildFacts.

(** ** End and whole frames *)

Section FrameFacts.
Context `{ExternMath}.
Import SpriteBatch Spec.

Lemma SortBatches_eq (s : SpriteBatch.t) :
  SortBatches s
  = set_SpriteDataList
      (if m_EnableTextureSorting s
       then stable_sort texture_lt (m_SpriteDataList s)
       else m_SpriteDataList s) s.
Proof.
  unfold SortBatches. destruct (m_EnableTextureSorting s); simpl.
  - destruct (bool_decide (m_SpriteDataList s = [])) eqn:E; [| reflexivity].
    apply bool_decide_eq_true in E. rewrite E. simpl.
    rewrite <- E. symmetry. apply set_SpriteDataList_same.
  - symmetry. apply set_SpriteDataList_same.
Qed.

Lemma set_FrameData_same (s : SpriteBatch.t) :
  set_FrameData (m_FrameData s) s = s.
Proof. destruct s; reflexivity. Qed.

Lemma UploadInstanceData_eq (s : SpriteBatch.t) :
  exists fd, UploadInstanceData s = set_FrameData fd s.
Proof.
  unfold UploadInstanceData. destruct (m_Instances s).
  - exists (m_FrameData s). symmetry. apply set_FrameData_same.
  - destruct (m_FrameData s !! Z.to_nat (m_CurrentFrameIndex s)).
    + eexists. reflexivity.
    + exists (m_FrameData s). symmetry. apply set_FrameData_same.
Qed.

Lemma generate_vertices_length (l : list SpriteData) :
  forall vertices indices,
  length (fst (generate_vertices l vertices indices))
  = (length vertices + 4 * length l)%nat /\
  length (snd (generate_vertices l vertices indices))
  = (length indices + 6 * length l)%nat.
Proof.
  induction l as [| d l IH]; intros vertices indices; simpl.
  - split; lia.
  - destruct (IH (vertices ++ quad_vertices (instance d))
                 (indices ++ quad_indices (u32 (Z.of_nat (length vertices)))))
      as [Hv Hi].
    rewrite Hv, Hi, !length_app. simpl. split; lia.
Qed.

(** Every index of a quad is one of its four vertices, reduced to 32
    bits. *)
Lemma quad_indices_bound (base bound : Z) :
  0 <= base -> base + 4 <= bound ->
  Forall (fun i => 0 <= i < bound) (quad_indices (u32 base)).
Proof.
  intros H0 Hb. unfold quad_indices.
  pose proof (u32_range base) as Hr. pose proof (u32_le base H0) as Hle.
  repeat constructor;
    try (apply u32_range);
    (eapply Z.le_lt_trans; [apply u32_le; lia | lia]).
Qed.

Lemma generate_vertices_indices (l : list SpriteData) :
  forall vertices indices (bound : Z),
  Z.of_nat (length vertices + 4 * length l) <= bound ->
  Forall (fun i => 0 <= i < bound) indices ->
  Forall (fun i => 0 <= i < bound) (snd (generate_vertices l vertices indices)).
Proof.
  induction l as [| d l IH]; intros vertices indices bound Hb Hi; simpl.
  - exact Hi.
  - apply IH.
    + rewrite length_app. simpl in *. lia.
    + apply Forall_app. split; [exact Hi |].
      apply quad_indices_bound; simpl in Hb; lia.
Qed.

(** [End] after a [Begin] and accepted draws. *)
Lemma End_fresh (elapsed : float) (s : SpriteBatch.t) :
  m_IsBatching s = true -> m_Batches s = [] -> m_Instances s = [] ->
  Forall nonnull (m_SpriteDataList s) ->
  Z.of_nat (length (m_SpriteDataList s)) < 2 ^ 32 ->
  let l' := if m_EnableTextureSorting s
            then stable_sort texture_lt (m_SpriteDataList s)
            else m_SpriteDataList s in
  exists s',
    End elapsed s = Ok s' /\
    m_SpriteDataList s' = l' /\
    m_Instances s' = map instance l' /\
    tiles 0 (m_Batches s') (Z.of_nat (length (m_SpriteDataList s))) /\
    length (m_Batches s') = runs (map texture l') /\
    labelled l' (m_Batches s') /\
    m_Statistics s'
    = MkStatistics (u32 (Z.of_nat (length l')))
        (u32 (Z.of_nat (length (m_Batches s')))) 0
        (u32 (Z.of_nat (length (m_Batches s')))) elapsed /\
    m_Vertices s' = fst (generate_vertices l' (m_Vertices s) (m_Indices s)) /\
    m_Indices s' = snd (generate_vertices l' (m_Vertices s) (m_Indices s)) /\
    m_IsBatching s' = false /\
    m_MaxSprites s' = m_MaxSprites s /\
    m_WhiteTexture s' = m_WhiteTexture s /\
    m_DescriptorPool s' = m_DescriptorPool s /\
    m_DescriptorSets s' = m_DescriptorSets s.
Proof.
  intros Hb Hbs Hins Hnn Hlen l'.
  assert (Hl'len : length l' = length (m_SpriteDataList s)).
  { unfold l'. destruct (m_EnableTextureSorting s);
      [apply stable_sort_length | reflexivity]. }
  assert (Hl'nn : Forall nonnull l').
  { unfold l'. destruct (m_EnableTextureSorting s); [| exact Hnn].
    rewrite stable_sort_perm. exact Hnn. }
  unfold End. rewrite Hb. cbn [negb]. rewrite SortBatches_eq. fold l'.
  destruct (BuildBatches_fresh (set_SpriteDataList l' s))
    as (bs & Hbuild & Htiles & Hruns & Hlab).
  { exact Hbs. } { exact Hins. } { exact Hl'nn. }
  { simpl. rewrite Hl'len. exact Hlen. }
  rewrite Hbuild.
  destruct (UploadInstanceData_eq
              (set_Batches_Instances bs
                 (map instance (m_SpriteDataList (set_SpriteDataList l' s)))
                 (set_SpriteDataList l' s))) as [fd Hup].
  rewrite Hup. cbn -[generate_vertices u32 Z.modulo].
  destruct (generate_vertices l' (m_Vertices s) (m_Indices s)) as [vs is_] eqn:Eg.
  eexists. split; [reflexivity |]. cbn -[u32].
  simpl in Htiles, Hruns, Hlab. rewrite Hl'len in Htiles.
  repeat split; assumption.
Qed.

(** A whole frame from an idle engine. *)
Lemma frame_ok (camera : Z) (ds : list DrawArgs) (elapsed : float)
    (s : SpriteBatch.t) :
  wf s -> m_IsBatching s = false ->
  let l := accept (m_MaxSprites s) (m_WhiteTexture s) [] ds in
  let l' := sorted_requests s ds in
  exists s',
    frame camera ds elapsed s = Ok s' /\
    m_SpriteDataList s' = l' /\
    m_Instances s' = map instance l' /\
    tiles 0 (m_Batches s') (Z.of_nat (length l)) /\
    length (m_Batches s') = runs (map texture l') /\
    labelled l' (m_Batches s') /\
    m_Statistics s'
    = MkStatistics (u32 (Z.of_nat (length l')))
        (u32 (Z.of_nat (length (m_Batches s')))) 0
        (u32 (Z.of_nat (length (m_Batches s')))) elapsed /\
    m_Vertices s' = fst (generate_vertices l' [] []) /\
    m_Indices s' = snd (generate_vertices l' [] []) /\
    m_IsBatching s' = false /\
    m_MaxSprites s' = m_MaxSprites s /\
    m_WhiteTexture s' = m_WhiteTexture s /\
    m_DescriptorPool s' = m_DescriptorPool s /\
    m_DescriptorSets s' = m_DescriptorSets s.
Proof.
  intros [Hmax Hwhite] Hidle l l'.
  unfold frame, Begin. rewrite Hidle. cbn [and_then].
  rewrite draw_all_batching by reflexivity. cbn [and_then].
  cbn [m_MaxSprites m_WhiteTexture m_SpriteDataList]. fold l.
  assert (Hlen : Z.of_nat (length l) <= m_MaxSprites s).
  { unfold l. rewrite accept_length by (simpl; lia). lia. }
  match goal with |- context [End elapsed ?st] =>
    destruct (End_fresh elapsed st) as (s' & HEnd & Hrest) end;
    try reflexivity.
  { simpl. apply accept_nonnull; [exact Hwhite | constructor]. }
  { simpl. fold l. lia. }
  exists s'. split; [exact HEnd |]. exact Hrest.
Qed.

End FrameFacts.

(** ** Batches, order and counts of a frame *)

Section FrameClaims.
Context `{ExternMath}.
Import SpriteBatch Spec.

Lemma sorted_requests_length (s : SpriteBatch.t) (ds : list DrawArgs) :
  length (sorted_requests s ds)
  = length (accept (m_MaxSprites s) (m_WhiteTexture s) [] ds).
Proof.
  unfold sorted_requests. destruct (m_EnableTextureSorting s);
    [apply stable_sort_length | reflexivity].
Qed.

Lemma accept_all (s : SpriteBatch.t) (ds : list DrawArgs) :
  Z.of_nat (length ds) <= m_MaxSprites s ->
  accept (m_MaxSprites s) (m_WhiteTexture s) [] ds
  = map (make_SpriteData (m_WhiteTexture s)) ds.
Proof. intros Hlen. rewrite accept_fits by (simpl; lia). reflexivity. Qed.

(** The requests [Draw] records are the first [m_MaxSprites] of those
    submitted. *)
Lemma accept_take_from max white (ds : list DrawArgs) :
  forall l : list SpriteData,
  Z.of_nat (length l) <= max ->
  accept max white l ds
  = l ++ map (make_SpriteData white) (take (Z.to_nat max - length l) ds).
Proof.
  induction ds as [| a ds IH]; intros l Hlen; simpl.
  - rewrite take_nil, app_nil_r. reflexivity.
  - destruct (max <=? Z.of_nat (length l)) eqn:E.
    + apply Z.leb_le in E. rewrite accept_full by exact E.
      replace (Z.to_nat max - length l)%nat with 0%nat by lia.
      rewrite app_nil_r. reflexivity.
    + apply Z.leb_gt in E. rewrite IH by (rewrite length_app; simpl; lia).
      rewrite length_app. simpl.
      replace (Z.to_nat max - length l)%nat
        with (S (Z.to_nat max - (length l + 1)))%nat by lia.
      simpl. rewrite <- app_assoc. reflexivity.
Qed.

Lemma accept_take (s : SpriteBatch.t) (ds : list DrawArgs) :
  0 <= m_MaxSprites s ->
  accept (m_MaxSprites s) (m_WhiteTexture s) [] ds
  = map (make_SpriteData (m_WhiteTexture s))
      (take (Z.to_nat (m_MaxSprites s)) ds).
Proof.
  intros Hmax. rewrite accept_take_from by (simpl; lia).
  simpl. rewrite Nat.sub_0_r. reflexivity.
Qed.

Lemma runs_le_length (l : list Z) : (runs l <= length l)%nat.
Proof.
  induction l as [| x l IH]; [reflexivity |].
  destruct l as [| y l]; [simpl; lia |].
  change (runs (x :: y :: l))
    with (if x =? y then runs (y :: l) else S (runs (y :: l))).
  cbn [length] in *. destruct (x =? y); lia.
Qed.

(** The constructor leaves an idle engine that meets [wf] as soon as the
    white texture was created, and a frame hands such an engine on to
    the next frame. *)
Lemma create_wf (maxSprites whiteTexture : Z) :
  whiteTexture <> nullptr ->
  wf (create maxSprites whiteTexture) /\
  m_IsBatching (create maxSprites whiteTexture) = false.
Proof.
  intros Hw. split; [| reflexivity]. split; [apply u32_range | exact Hw].
Qed.

Lemma frame_keeps_wf (camera : Z) (ds : list DrawArgs) (elapsed : float)
    (s : SpriteBatch.t) :
  wf s -> m_IsBatching s = false ->
  exists s',
    frame camera ds elapsed s = Ok s' /\ wf s' /\ m_IsBatching s' = false.
Proof.
  intros Hwf Hidle.
  destruct (frame_ok camera ds elapsed s Hwf Hidle)
    as (s' & Hf & _ & _ & _ & _ & _ & _ & _ & _ & Hb & Hm & Hw & _).
  exists s'. split; [exact Hf |]. split; [| exact Hb].
  unfold wf. rewrite Hm, Hw. exact Hwf.
Qed.

(** Every batch of a frame carries the texture of the requests in its
    range. *)
Lemma batches_carry_textures (camera : Z) (ds : list DrawArgs)
    (elapsed : float) (s : SpriteBatch.t) :
  wf s -> m_IsBatching s = false ->
  exists s',
    frame camera ds elapsed s = Ok s' /\
    labelled (m_SpriteDataList s') (m_Batches s').
Proof.
  intros Hwf Hidle.
  destruct (frame_ok camera ds elapsed s Hwf Hidle)
    as (s' & Hf & Hl & _ & _ & _ & Hlab & _).
  exists s'. split; [exact Hf |]. rewrite Hl. exact Hlab.
Qed.

(** C1. After [End] the batches partition the instance list: for [N]
    accepted requests there are [N] instances, every batch range lies
    within them, every instance is in exactly one range, and each range
    starts where the previous one ends. *)
Theorem C1_batches_partition (camera : Z) (ds : list DrawArgs)
    (elapsed : float) (s : SpriteBatch.t) :
  wf s -> m_IsBatching s = false ->
  Z.of_nat (length ds) <= m_MaxSprites s ->
  exists s',
    frame camera ds elapsed s = Ok s' /\
    length (m_Instances s') = length ds /\
    partitions (m_Batches s') (Z.of_nat (length ds)).
Proof.
  intros Hwf Hidle Hlen.
  destruct (frame_ok camera ds elapsed s Hwf Hidle)
    as (s' & Hf & _ & Hins & Ht & _ & Hlab & _).
  exists s'. split; [exact Hf |].
  rewrite accept_all in Ht by exact Hlen. rewrite length_map in Ht.
  split.
  - rewrite Hins, length_map, sorted_requests_length, accept_all by exact Hlen.
    apply length_map.
  - apply tiles_partitions. exact Ht.
Qed.

(** The capacity clamp of the implementation with instance records: of
    [n] draws the first [m_MaxSprites] are recorded and the statistics
    count exactly those. *)
Lemma capacity_clamp (camera : Z) (ds : list DrawArgs) (elapsed : float)
    (s : SpriteBatch.t) :
  wf s -> m_IsBatching s = false ->
  exists s',
    frame camera ds elapsed s = Ok s' /\
    Z.of_nat (length (m_SpriteDataList s'))
    = Z.min (Z.of_nat (length ds)) (m_MaxSprites s) /\
    Z.of_nat (length (m_Instances s'))
    = Z.min (Z.of_nat (length ds)) (m_MaxSprites s) /\
    GetSpriteCount s' = Z.min (Z.of_nat (length ds)) (m_MaxSprites s).
Proof.
  intros Hwf Hidle.
  destruct (frame_ok camera ds elapsed s Hwf Hidle)
    as (s' & Hf & Hl & Hins & _ & _ & _ & Hst & _).
  destruct Hwf as [Hmax Hwhite].
  assert (Hacc : Z.of_nat (length (sorted_requests s ds))
                 = Z.min (Z.of_nat (length ds)) (m_MaxSprites s)).
  { rewrite sorted_requests_length, accept_length by (simpl; lia).
    simpl. reflexivity. }
  exists s'. split; [exact Hf |].
  rewrite Hins, length_map, Hl. repeat split; try exact Hacc.
  unfold GetSpriteCount. rewrite Hst. simpl. rewrite Hacc.
  apply u32_small. lia.
Qed.

(** Once the list is full a further [Draw] changes nothing. *)
Lemma Draw_dropped (a : DrawArgs) (s : SpriteBatch.t) :
  m_IsBatching s = true ->
  m_MaxSprites s <= Z.of_nat (length (m_SpriteDataList s)) ->
  Draw a s = Ok s.
Proof.
  intros Hb Hfull. unfold Draw. rewrite Hb. simpl.
  apply Z.leb_le in Hfull. rewrite Hfull. reflexivity.
Qed.

Lemma frame_order_perm (s : SpriteBatch.t) (ds : list DrawArgs) :
  frame_order s ds
  ≡ₚ seq 0 (length (accept (m_MaxSprites s) (m_WhiteTexture s) [] ds)).
Proof.
  unfold frame_order. destruct (m_EnableTextureSorting s);
    [apply sorted_order_perm | reflexivity].
Qed.

Lemma seq_lookup_bind {A} (l : list A) (pos : nat) :
  l !! pos = seq 0 (length l) !! pos ≫= (fun k => l !! k).
Proof.
  destruct (l !! pos) as [x |] eqn:E.
  - rewrite (proj2 (lookup_seq 0 (length l) pos pos));
      [simpl; rewrite E; reflexivity |].
    split; [reflexivity |]. apply lookup_lt_Some in E. exact E.
  - apply lookup_ge_None in E. rewrite lookup_seq_ge by exact E. reflexivity.
Qed.

Lemma frame_order_lookup (s : SpriteBatch.t) (ds : list DrawArgs) (pos : nat) :
  sorted_requests s ds !! pos
  = frame_order s ds !! pos
    ≫= (fun k => accept (m_MaxSprites s) (m_WhiteTexture s) [] ds !! k).
Proof.
  unfold sorted_requests, frame_order. destruct (m_EnableTextureSorting s).
  - apply sorted_order_lookup.
  - apply seq_lookup_bind.
Qed.

Lemma frame_order_stable (s : SpriteBatch.t) (ds : list DrawArgs)
    (i j : nat) (a b : SpriteData) :
  (i < j)%nat ->
  accept (m_MaxSprites s) (m_WhiteTexture s) [] ds !! i = Some a ->
  accept (m_MaxSprites s) (m_WhiteTexture s) [] ds !! j = Some b ->
  texture a = texture b ->
  exists p q : nat,
    (p < q)%nat /\ frame_order s ds !! p = Some i /\
    frame_order s ds !! q = Some j.
Proof.
  intros Hij Hi Hj Htex. unfold frame_order.
  destruct (m_EnableTextureSorting s).
  - apply (sorted_order_stable texture_lt _ i j a b); try assumption.
    unfold texture_lt. rewrite Htex. apply Z.ltb_irrefl.
  - exists i, j. split; [exact Hij |].
    apply lookup_lt_Some in Hi. apply lookup_lt_Some in Hj.
    split; apply lookup_seq; split; try reflexivity; assumption.
Qed.

(** C3, as the code has it.  The instance list after [End] is the
    accepted requests, the first [m_MaxSprites] of those submitted,
    rearranged by [frame_order], a permutation of their submission
    indices: position [pos] holds the record of request [order !! pos].
    Two requests with the same texture identity, the first submitted
    earlier and both accepted, have their records in that order in the
    instance list. *)
Theorem C3_sort_stable (camera : Z) (ds : list DrawArgs) (elapsed : float)
    (s : SpriteBatch.t) :
  wf s -> m_IsBatching s = false ->
  let accepted := take (Z.to_nat (m_MaxSprites s)) ds in
  exists s',
    frame camera ds elapsed s = Ok s' /\
    frame_order s ds ≡ₚ seq 0 (length accepted) /\
    (forall pos : nat,
       m_Instances s' !! pos
       = frame_order s ds !! pos
         ≫= (fun k => (fun a => instance (make_SpriteData (m_WhiteTexture s) a))
                        <$> accepted !! k)) /\
    (forall (i j : nat) (a b : DrawArgs),
       (i < j)%nat -> ds !! i = Some a -> ds !! j = Some b ->
       Z.of_nat j < m_MaxSprites s ->
       d_texture (resolve (m_WhiteTexture s) a)
       = d_texture (resolve (m_WhiteTexture s) b) ->
       exists p q : nat,
         (p < q)%nat /\
         frame_order s ds !! p = Some i /\ frame_order s ds !! q = Some j /\
         m_Instances s' !! p
         = Some (instance (make_SpriteData (m_WhiteTexture s) a)) /\
         m_Instances s' !! q
         = Some (instance (make_SpriteData (m_WhiteTexture s) b))).
Proof.
  intros Hwf Hidle accepted.
  destruct (frame_ok camera ds elapsed s Hwf Hidle)
    as (s' & Hf & _ & Hins & _).
  pose proof (accept_take s ds ltac:(apply Hwf)) as Hacc. fold accepted in Hacc.
  assert (Hlookup : forall pos : nat,
    m_Instances s' !! pos
    = frame_order s ds !! pos
      ≫= (fun k => (fun a => instance (make_SpriteData (m_WhiteTexture s) a))
                     <$> accepted !! k)).
  { intros pos. rewrite Hins, list_lookup_fmap, frame_order_lookup, Hacc.
    destruct (frame_order s ds !! pos) as [k |]; simpl; [| reflexivity].
    rewrite list_lookup_fmap. destruct (accepted !! k); reflexivity. }
  exists s'. split; [exact Hf |]. split; [| split; [exact Hlookup |]].
  - rewrite frame_order_perm, Hacc, length_map. reflexivity.
  - intros i j a b Hij Hi Hj Hcap Htex.
    assert (Hi' : accepted !! i = Some a)
      by (unfold accepted; rewrite lookup_take_lt by lia; exact Hi).
    assert (Hj' : accepted !! j = Some b)
      by (unfold accepted; rewrite lookup_take_lt by lia; exact Hj).
    destruct (frame_order_stable s ds i j
                (make_SpriteData (m_WhiteTexture s) a)
                (make_SpriteData (m_WhiteTexture s) b) Hij)
      as (p & q & Hpq & Hp & Hq).
    + rewrite Hacc, list_lookup_fmap, Hi'. reflexivity.
    + rewrite Hacc, list_lookup_fmap, Hj'. reflexivity.
    + unfold resolve, with_texture in Htex. unfold make_SpriteData. simpl.
      destruct (d_texture a =? nullptr), (d_texture b =? nullptr);
        simpl in Htex; exact Htex.
    + exists p, q. split; [exact Hpq |]. split; [exact Hp |]. split; [exact Hq |].
      rewrite !Hlookup, Hp, Hq. simpl. rewrite Hi', Hj'. split; reflexivity.
Qed.

Lemma resolved_textures (white : Z) (ds : list DrawArgs) :
  map texture (map (make_SpriteData white) ds)
  = map (fun a => d_texture (resolve white a)) ds.
Proof.
  rewrite map_map. apply map_ext. intros a.
  unfold make_SpriteData, resolve, with_texture. simpl.
  destruct (d_texture a =? nullptr); reflexivity.
Qed.

(** The draw-call count of a frame with sorting on. *)
Lemma draw_calls_sorted (camera : Z) (ds : list DrawArgs) (elapsed : float)
    (s : SpriteBatch.t) :
  wf s -> m_IsBatching s = false -> m_EnableTextureSorting s = true ->
  Z.of_nat (length ds) <= m_MaxSprites s ->
  exists s',
    frame camera ds elapsed s = Ok s' /\
    m_SpriteDataList s'
    = stable_sort texture_lt (map (make_SpriteData (m_WhiteTexture s)) ds) /\
    length (m_Batches s') = runs (map texture (m_SpriteDataList s')) /\
    GetDrawCallCount s' = Z.of_nat (runs (map texture (m_SpriteDataList s'))) /\
    runs (map texture (m_SpriteDataList s'))
    = distinct_textures (m_WhiteTexture s) ds.
Proof.
  intros Hwf Hidle Hsort Hlen.
  destruct (frame_ok camera ds elapsed s Hwf Hidle)
    as (s' & Hf & Hl & _ & _ & Hruns & _ & Hst & _).
  rewrite <- Hl in Hruns.
  unfold sorted_requests in Hl. rewrite Hsort, accept_all in Hl by exact Hlen.
  exists s'. split; [exact Hf |]. split; [exact Hl |].
  split; [exact Hruns |]. split.
  - unfold GetDrawCallCount. rewrite Hst. simpl. rewrite Hruns.
    apply u32_small. destruct Hwf as [Hmax _].
    pose proof (runs_le_length (map texture (m_SpriteDataList s'))) as Hr.
    assert (Hn : length (map texture (m_SpriteDataList s')) = length ds)
      by (rewrite length_map, Hl, stable_sort_length, length_map; reflexivity).
    lia.
  - rewrite Hl, runs_sorted_textures, resolved_textures. reflexivity.
Qed.


End FrameClaims.

(** ** Null textures *)

Section NullTexture.
Context `{ExternMath}.
Import SpriteBatch Spec.

Lemma make_SpriteData_resolve (white : Z) (a : DrawArgs) :
  make_SpriteData white (resolve white a) = make_SpriteData white a.
Proof.
  unfold resolve, make_SpriteData, with_texture.
  destruct (d_texture a =? nullptr) eqn:E; simpl; [| rewrite E; reflexivity].
  destruct (white =? nullptr) eqn:Ew; [| reflexivity].
  apply Z.eqb_eq in Ew. rewrite Ew. reflexivity.
Qed.

Lemma Draw_resolve (a : DrawArgs) (s : SpriteBatch.t) :
  Draw (resolve (m_WhiteTexture s) a) s = Draw a s.
Proof. unfold Draw. rewrite make_SpriteData_resolve. reflexivity. Qed.

Lemma Draw_white (a : DrawArgs) (s : SpriteBatch.t) :
  m_WhiteTexture (state_of (Draw a s)) = m_WhiteTexture s.
Proof.
  unfold Draw. destruct (m_IsBatching s); simpl; [| reflexivity].
  destruct (m_MaxSprites s <=? _); reflexivity.
Qed.

Lemma draw_all_resolve (ds : list DrawArgs) :
  forall (s : SpriteBatch.t) (white : Z),
  white = m_WhiteTexture s ->
  draw_all (map (resolve white) ds) s = draw_all ds s.
Proof.
  induction ds as [| a ds IH]; intros s white Hw; simpl; [reflexivity |].
  rewrite Hw, Draw_resolve.
  pose proof (Draw_white a s) as Hwhite.
  destruct (Draw a s) as [s1 | w s1]; simpl in *; [| reflexivity].
  apply IH. symmetry. exact Hwhite.
Qed.

Lemma frame_resolve (camera : Z) (ds : list DrawArgs) (elapsed : float)
    (s : SpriteBatch.t) :
  frame camera (map (resolve (m_WhiteTexture s)) ds) elapsed s
  = frame camera ds elapsed s.
Proof.
  unfold frame, Begin. destruct (m_IsBatching s); [reflexivity |].
  cbn [and_then]. rewrite draw_all_resolve by reflexivity. reflexivity.
Qed.

Lemma resolve_null (white : Z) (a : DrawArgs) :
  resolve white (with_texture nullptr a) = with_texture white a.
Proof. reflexivity. Qed.

Lemma resolve_white (white : Z) (a : DrawArgs) :
  resolve white (with_texture white a) = with_texture white a.
Proof.
  unfold resolve. simpl. destruct (white =? nullptr); reflexivity.
Qed.

Lemma single_batch (d : SpriteData) (bs : list BatchInfo) :
  tiles 0 bs 1 -> labelled [d] bs -> bs = [MkBatch (texture d) 0 1].
Proof.
  intros Ht Hlab. destruct bs as [| b bs]; simpl in Ht; [lia |].
  destruct Ht as (Hs & Hc & Ht).
  pose proof (tiles_le _ _ _ Ht) as Hle.
  destruct bs as [| b2 bs]; simpl in Ht.
  - specialize (Hlab O b O eq_refl). unfold covers in Hlab.
    simpl in Hlab. assert (Hcov : startInstance b <= 0 < startInstance b + instanceCount b) by lia.
    specialize (Hlab Hcov). injection Hlab as Htex.
    destruct b as [t st c]; simpl in *.
    assert (c = 1) as -> by lia. subst. reflexivity.
  - destruct Ht as (Hs2 & Hc2 & Ht2). apply tiles_le in Ht2. lia.
Qed.

(** A frame with the single request [a]. *)
Lemma frame_single (camera : Z) (a : DrawArgs) (elapsed : float)
    (s : SpriteBatch.t) :
  wf s -> m_IsBatching s = false -> 1 <= m_MaxSprites s ->
  exists s',
    frame camera [a] elapsed s = Ok s' /\
    m_Batches s'
    = [MkBatch (texture (make_SpriteData (m_WhiteTexture s) a)) 0 1].
Proof.
  intros Hwf Hidle Hcap.
  destruct (frame_ok camera [a] elapsed s Hwf Hidle)
    as (s' & Hf & _ & _ & Ht & _ & Hlab & _).
  exists s'. split; [exact Hf |].
  unfold sorted_requests in Hlab.
  rewrite accept_fits in Ht, Hlab by (simpl; lia). simpl in Ht, Hlab.
  apply single_batch; [exact Ht |].
  destruct (m_EnableTextureSorting s); exact Hlab.
Qed.

(** C6. A [Draw] with a null texture does exactly what the same [Draw]
    with the engine's white texture does; so a frame with the null
    request anywhere in it ends in the same state, sorted, grouped and
    batched alike, as the frame with the white texture named instead;
    and a frame with the null request alone has one batch, keyed on the
    white texture. *)
Theorem C6_null_texture (camera : Z) (a : DrawArgs) (earlier later : list DrawArgs)
    (elapsed : float) (s : SpriteBatch.t) :
  Draw (with_texture nullptr a) s
  = Draw (with_texture (m_WhiteTexture s) a) s /\
  frame camera (earlier ++ with_texture nullptr a :: later) elapsed s
  = frame camera (earlier ++ with_texture (m_WhiteTexture s) a :: later)
      elapsed s /\
  (wf s -> m_IsBatching s = false -> 1 <= m_MaxSprites s ->
   exists s',
     frame camera [with_texture nullptr a] elapsed s = Ok s' /\
     m_Batches s' = [MkBatch (m_WhiteTexture s) 0 1]).
Proof.
  split; [| split].
  - symmetry. exact (Draw_resolve (with_texture nullptr a) s).
  - transitivity
      (frame camera
         (map (resolve (m_WhiteTexture s))
              (earlier ++ with_texture nullptr a :: later)) elapsed s).
    + symmetry. apply frame_resolve.
    + rewrite <- (frame_resolve camera
                    (earlier ++ with_texture (m_WhiteTexture s) a :: later)).
      rewrite !map_app. cbn [map]. rewrite resolve_white. reflexivity.
  - intros Hwf Hidle Hcap.
    destruct (frame_single camera (with_texture nullptr a) elapsed s Hwf Hidle Hcap)
      as (s' & Hf & Hb).
    exists s'. split; [exact Hf | exact Hb].
Qed.

End NullTexture.

(** ** Render *)

Section RenderFacts.
Context `{ExternMath}.
Import SpriteBatch Spec.

Lemma GetViewProjectionMatrix_again (c : Camera2D.t) :
  Camera2D.GetViewProjectionMatrix
    (fst (Camera2D.GetViewProjectionMatrix c))
  = Camera2D.GetViewProjectionMatrix c.
Proof.
  unfold Camera2D.GetViewProjectionMatrix, Camera2D.GetProjectionMatrix,
    Camera2D.GetViewMatrix.
  destruct c as [p r z w h vm pm vd pd]. destruct vd, pd; reflexivity.
Qed.

Lemma GetOrCreateDescriptorSet_mono (tex pool : Z) (sets : gmap Z Z) :
  sets ⊆ snd (state_of (fst (GetOrCreateDescriptorSet tex pool sets))).
Proof.
  unfold GetOrCreateDescriptorSet.
  destruct (sets !! tex) eqn:E; [reflexivity |].
  destruct (vkAllocateDescriptorSets pool) as [[pool' d] |]; [| reflexivity].
  simpl. apply insert_subseteq. exact E.
Qed.

Lemma render_batches_mono (bs : list BatchInfo) :
  forall (off pool : Z) (sets : gmap Z Z),
  sets ⊆ snd (state_of (fst (render_batches bs off pool sets))).
Proof.
  induction bs as [| b bs IH]; intros off pool sets; [reflexivity |].
  cbn [render_batches].
  pose proof (GetOrCreateDescriptorSet_mono (b_texture b) pool sets) as Hm.
  destruct (GetOrCreateDescriptorSet (b_texture b) pool sets)
    as [[[pool1 sets1] | w [pool1 sets1]] [d |]]; simpl in Hm; try exact Hm.
  specialize (IH (u32 (off + u32 (instanceCount b * 6))) pool1 sets1).
  destruct (render_batches bs _ pool1 sets1) as [r cmds]. simpl in *.
  etransitivity; [exact Hm | exact IH].
Qed.

Lemma render_batches_hit (b : BatchInfo) (bs : list BatchInfo)
    (off pool : Z) (sets : gmap Z Z) (d : Z) :
  sets !! b_texture b = Some d ->
  render_batches (b :: bs) off pool sets
  = (fst (render_batches bs (u32 (off + u32 (instanceCount b * 6))) pool sets),
     CmdBindDescriptorSets d
       :: CmdDrawIndexed (u32 (instanceCount b * 6)) 1 off 0 0
       :: snd (render_batches bs (u32 (off + u32 (instanceCount b * 6)))
                 pool sets)).
Proof.
  intros E. cbn [render_batches]. unfold GetOrCreateDescriptorSet. rewrite E.
  destruct (render_batches bs _ pool sets). reflexivity.
Qed.

Lemma render_batches_alloc (b : BatchInfo) (bs : list BatchInfo)
    (off pool : Z) (sets : gmap Z Z) :
  sets !! b_texture b = None ->
  (pool <? DESCRIPTOR_POOL_MAX_SETS) = true ->
  render_batches (b :: bs) off pool sets
  = (fst (render_batches bs (u32 (off + u32 (instanceCount b * 6))) (pool + 1)
            (<[b_texture b := pool + 1]> sets)),
     CmdBindDescriptorSets (pool + 1)
       :: CmdDrawIndexed (u32 (instanceCount b * 6)) 1 off 0 0
       :: snd (render_batches bs (u32 (off + u32 (instanceCount b * 6)))
                 (pool + 1) (<[b_texture b := pool + 1]> sets))).
Proof.
  intros E Ep. cbn [render_batches].
  unfold GetOrCreateDescriptorSet, vkAllocateDescriptorSets. rewrite E, Ep.
  destruct (render_batches bs _ (pool + 1) _). reflexivity.
Qed.

Lemma render_batches_exhausted (b : BatchInfo) (bs : list BatchInfo)
    (off pool : Z) (sets : gmap Z Z) :
  sets !! b_texture b = None ->
  (pool <? DESCRIPTOR_POOL_MAX_SETS) = false ->
  render_batches (b :: bs) off pool sets
  = (Throw "Failed to allocate descriptor set" (pool, sets), []).
Proof.
  intros E Ep. cbn [render_batches].
  unfold GetOrCreateDescriptorSet, vkAllocateDescriptorSets. rewrite E, Ep.
  reflexivity.
Qed.

(** Running the batch loop again from the descriptors it left records
    the same commands, ends the same way and leaves the same
    descriptors. *)
Lemma render_batches_replay (bs : list BatchInfo) :
  forall (off pool : Z) (sets : gmap Z Z),
  render_batches bs off
    (fst (state_of (fst (render_batches bs off pool sets))))
    (snd (state_of (fst (render_batches bs off pool sets))))
  = render_batches bs off pool sets.
Proof.
  induction bs as [| b bs IH]; intros off pool sets; [reflexivity |].
  destruct (sets !! b_texture b) as [d |] eqn:E.
  - rewrite (render_batches_hit b bs off pool sets d E). cbn [fst snd].
    pose proof (render_batches_mono bs
                  (u32 (off + u32 (instanceCount b * 6))) pool sets) as Hm.
    rewrite (render_batches_hit b bs off _ _ d (lookup_weaken _ _ _ _ E Hm)).
    rewrite IH. reflexivity.
  - destruct (pool <? DESCRIPTOR_POOL_MAX_SETS) eqn:Ep.
    + rewrite (render_batches_alloc b bs off pool sets E Ep). cbn [fst snd].
      pose proof (render_batches_mono bs
                    (u32 (off + u32 (instanceCount b * 6))) (pool + 1)
                    (<[b_texture b := pool + 1]> sets)) as Hm.
      rewrite (render_batches_hit b bs off _ _ (pool + 1)
                 (lookup_weaken _ _ _ _ (lookup_insert_eq _ _ _) Hm)).
      rewrite IH. reflexivity.
    + rewrite (render_batches_exhausted b bs off pool sets E Ep).
      cbn [fst snd state_of].
      apply (render_batches_exhausted b bs off pool sets E Ep).
Qed.

(** What [Render] leaves and records, in one equation. *)
Lemma Render_eq (extent : Z * Z) (camera : Camera2D.t) (s : SpriteBatch.t) :
  m_Batches s <> [] ->
  let out := render_batches (m_Batches s) 0 (m_DescriptorPool s)
               (m_DescriptorSets s) in
  let s' := set_Descriptors (fst (state_of (fst out)))
              (snd (state_of (fst out))) s in
  Render extent camera s
  = (match fst out with Ok _ => Ok s' | Throw w _ => Throw w s' end,
     fst (Camera2D.GetViewProjectionMatrix camera),
     [ CmdBindPipeline;
       CmdSetViewport (F32.of_Z (fst extent)) (F32.of_Z (snd extent));
       CmdSetScissor (fst extent) (snd extent);
       CmdPushConstants (snd (Camera2D.GetViewProjectionMatrix camera));
       CmdBindVertexBuffers;
       CmdBindIndexBuffer ] ++ snd out).
Proof.
  intros Hne. cbn zeta. unfold Render.
  destruct (m_Batches s) as [| b bs] eqn:Eb; [congruence |].
  destruct (Camera2D.GetViewProjectionMatrix camera) as [camera' viewProj].
  destruct (render_batches (b :: bs) 0 _ _) as [r cmds]. reflexivity.
Qed.

(** C7. A second [Render] right after the first records the identical
    command sequence, draws included, and ends the same way.  The first
    [Render] leaves the batch list, the instance data, the vertices and
    indices and the statistics as they were: it touches the descriptor
    cache and pool only, and the second [Render] finds every descriptor
    it needs in the cache and changes nothing at all. *)
Theorem C7_render_twice (extent : Z * Z) (camera : Camera2D.t)
    (s : SpriteBatch.t) :
  let first := Render extent camera s in
  let s1 := state_of (fst (fst first)) in
  let second := Render extent (snd (fst first)) s1 in
  snd second = snd first /\
  threw (fst (fst second)) = threw (fst (fst first)) /\
  state_of (fst (fst second)) = s1 /\
  snd (fst second) = snd (fst first) /\
  m_Batches s1 = m_Batches s /\
  m_Instances s1 = m_Instances s /\
  m_SpriteDataList s1 = m_SpriteDataList s /\
  m_Vertices s1 = m_Vertices s /\
  m_Indices s1 = m_Indices s /\
  m_Statistics s1 = m_Statistics s /\
  m_DescriptorSets s ⊆ m_DescriptorSets s1.
Proof.
  cbn zeta. destruct (m_Batches s) as [| b bs] eqn:Eb.
  - unfold Render. rewrite Eb. cbn [fst snd state_of]. rewrite Eb.
    repeat split; reflexivity.
  - assert (Hne : m_Batches s <> []) by (rewrite Eb; discriminate).
    rewrite (Render_eq extent camera s Hne). cbn [fst snd].
    pose proof (render_batches_replay (m_Batches s) 0 (m_DescriptorPool s)
                  (m_DescriptorSets s)) as Hreplay.
    pose proof (render_batches_mono (m_Batches s) 0 (m_DescriptorPool s)
                  (m_DescriptorSets s)) as Hmono.
    destruct (render_batches (m_Batches s) 0 (m_DescriptorPool s)
                (m_DescriptorSets s)) as [r cmds] eqn:Er.
    cbn [fst snd] in *.
    set (s1 := set_Descriptors (fst (state_of r)) (snd (state_of r)) s).
    assert (Hs1 : state_of (match r with
                            | Ok _ => Ok s1
                            | Throw w _ => Throw w s1
                            end) = s1) by (destruct r; reflexivity).
    rewrite Hs1.
    assert (Hne1 : m_Batches s1 <> []) by exact Hne.
    rewrite (Render_eq extent _ s1 Hne1). cbn [fst snd].
    change (m_Batches s1) with (m_Batches s).
    change (m_DescriptorPool s1) with (fst (state_of r)).
    change (m_DescriptorSets s1) with (snd (state_of r)).
    rewrite Hreplay. cbn [fst snd].
    rewrite GetViewProjectionMatrix_again.
    repeat split; try reflexivity;
      try exact Eb; try exact Hmono; destruct r; reflexivity.
Qed.

End RenderFacts.

(** ** The vertex and index lists of the fallback path *)

Section GeometryFacts.
Context `{ExternMath}.
Import SpriteBatch Spec.

Lemma tiles_total (a b : Z) (bs : list BatchInfo) :
  tiles a bs b -> a + total_instances bs = b.
Proof. apply tiles_sum. Qed.

Lemma tiles_counts (a b : Z) (bs : list BatchInfo) :
  tiles a bs b -> Forall (fun x => 0 <= instanceCount x) bs.
Proof.
  revert a. induction bs as [| y bs IH]; intros a Ht; [constructor |].
  simpl in Ht. destruct Ht as (_ & Hc & Ht).
  constructor; [lia | apply (IH _ Ht)].
Qed.

Lemma total_instances_nonneg (bs : list BatchInfo) :
  Forall (fun x => 0 <= instanceCount x) bs -> 0 <= total_instances bs.
Proof.
  induction 1 as [| b bs Hb Hbs IH]; unfold total_instances in *; simpl; lia.
Qed.

(** The indexed draws of the batch loop read index ranges that lie one
    after the other and end within six indices per instance. *)
Lemma render_batches_within (bs : list BatchInfo) :
  forall (off pool : Z) (sets : gmap Z Z) (bound : Z),
  0 <= off ->
  Forall (fun x => 0 <= instanceCount x) bs ->
  off + 6 * total_instances bs <= bound ->
  Forall (draw_within bound) (snd (render_batches bs off pool sets)).
Proof.
  induction bs as [| b bs IH]; intros off pool sets bound Hoff Hpos Hsum;
    [constructor |].
  inversion Hpos as [| ? ? Hb Hbs]; subst.
  unfold total_instances in Hsum. cbn [map fold_right] in Hsum.
  fold (total_instances bs) in Hsum.
  pose proof (total_instances_nonneg bs Hbs) as Htot.
  pose proof (u32_le (instanceCount b * 6) ltac:(lia)) as Hcnt.
  pose proof (u32_range (instanceCount b * 6)) as Hcnt0.
  pose proof (u32_le (off + u32 (instanceCount b * 6)) ltac:(lia)) as Hoff'.
  pose proof (u32_range (off + u32 (instanceCount b * 6))) as Hoff0.
  assert (Hstep : forall pool' sets' d,
    Forall (draw_within bound)
      (CmdBindDescriptorSets d
         :: CmdDrawIndexed (u32 (instanceCount b * 6)) 1 off 0 0
         :: snd (render_batches bs (u32 (off + u32 (instanceCount b * 6)))
                   pool' sets'))).
  { intros pool' sets' d. constructor; [exact I |]. constructor.
    - unfold draw_within. lia.
    - apply IH; [lia | exact Hbs | lia]. }
  destruct (sets !! b_texture b) as [d |] eqn:E.
  - rewrite (render_batches_hit b bs off pool sets d E). apply Hstep.
  - destruct (pool <? DESCRIPTOR_POOL_MAX_SETS) eqn:Ep.
    + rewrite (render_batches_alloc b bs off pool sets E Ep). apply Hstep.
    + rewrite (render_batches_exhausted b bs off pool sets E Ep). constructor.
Qed.

Lemma Render_within (extent : Z * Z) (camera : Camera2D.t)
    (s : SpriteBatch.t) (n : Z) :
  tiles 0 (m_Batches s) n ->
  Forall (draw_within (6 * n)) (snd (Render extent camera s)).
Proof.
  intros Ht. destruct (m_Batches s) as [| b bs] eqn:Eb.
  - unfold Render. rewrite Eb. constructor.
  - assert (Hne : m_Batches s <> []) by (rewrite Eb; discriminate).
    rewrite (Render_eq extent camera s Hne). cbn [snd]. rewrite Eb.
    apply Forall_app. split; [repeat constructor |].
    apply render_batches_within; [lia | apply (tiles_counts _ _ _ Ht) |].
    pose proof (tiles_total _ _ _ Ht). lia.
Qed.

Lemma memcpy_take {A} (dst src : list A) :
  take (length src) (memcpy dst src) = src.
Proof. unfold memcpy. apply take_app_length. Qed.

(** What [End] uploads: the mapped buffers start with this frame's
    vertices and indices. *)
Lemma End_uploads (elapsed : float) (s s' : SpriteBatch.t) :
  End elapsed s = Ok s' ->
  take (length (m_Vertices s')) (m_VertexBuffer s') = m_Vertices s' /\
  take (length (m_Indices s')) (m_IndexBuffer s') = m_Indices s'.
Proof.
  unfold End. destruct (m_IsBatching s); cbn [negb]; [| discriminate].
  destruct (generate_vertices _ _ _) as [vs is_].
  intros Heq. injection Heq as <-. cbn [m_Vertices m_Indices m_VertexBuffer m_IndexBuffer].
  split.
  - destruct vs; [reflexivity | apply memcpy_take].
  - destruct is_; [reflexivity | apply memcpy_take].
Qed.

Lemma and_then_Ok {A} (r : result A) (f : A -> result A) (s' : A) :
  and_then r f = Ok s' -> exists s1, r = Ok s1 /\ f s1 = Ok s'.
Proof.
  destruct r as [s1 | w s1]; simpl; [| discriminate].
  intros Hf. exists s1. split; [reflexivity | exact Hf].
Qed.

(** C10. After every frame, whatever the number of draws, with [N] the
    number of accepted requests (the draws submitted, at most the
    capacity), the fallback path has produced [4N] vertices and [6N]
    indices, every index names one of the [4N] vertices, the mapped
    buffers start with exactly these vertices and indices, and every
    indexed draw that [Render] records reads a range of indices that lies
    within the first [6N]. *)
Theorem C10_fallback_geometry (camera : Z) (ds : list DrawArgs)
    (elapsed : float) (extent : Z * Z) (cam : Camera2D.t)
    (s : SpriteBatch.t) :
  wf s -> m_IsBatching s = false ->
  let n := Z.min (Z.of_nat (length ds)) (m_MaxSprites s) in
  exists s',
    frame camera ds elapsed s = Ok s' /\
    Z.of_nat (length (m_SpriteDataList s')) = n /\
    GetSpriteCount s' = n /\
    Z.of_nat (length (m_Vertices s')) = 4 * n /\
    Z.of_nat (length (m_Indices s')) = 6 * n /\
    Forall (fun i => 0 <= i < 4 * n) (m_Indices s') /\
    take (length (m_Vertices s')) (m_VertexBuffer s') = m_Vertices s' /\
    take (length (m_Indices s')) (m_IndexBuffer s') = m_Indices s' /\
    Forall (draw_within (6 * n)) (snd (Render extent cam s')).
Proof.
  intros Hwf Hidle n.
  destruct (frame_ok camera ds elapsed s Hwf Hidle)
    as (s' & Hf & Hsd & _ & Ht & _ & _ & Hst & Hv & Hi & _).
  assert (Hacc : Z.of_nat (length (accept (m_MaxSprites s) (m_WhiteTexture s)
                                     [] ds)) = n).
  { rewrite accept_length by (simpl; apply Hwf). reflexivity. }
  rewrite Hacc in Ht.
  assert (Hl : Z.of_nat (length (sorted_requests s ds)) = n).
  { rewrite sorted_requests_length. exact Hacc. }
  destruct (generate_vertices_length (sorted_requests s ds) [] []) as [Hvl Hil].
  rewrite <- Hv in Hvl. rewrite <- Hi in Hil.
  simpl length in Hvl, Hil.
  pose proof Hf as Hf'. unfold frame in Hf'.
  apply and_then_Ok in Hf' as (s1 & _ & HEnd).
  destruct (End_uploads elapsed s1 s' HEnd) as [Hvb Hib].
  assert (Hn : 0 <= n < 2 ^ 32) by (destruct Hwf as [Hmax _]; unfold n; lia).
  exists s'. split; [exact Hf |].
  split; [rewrite Hsd; exact Hl |].
  split; [unfold GetSpriteCount; rewrite Hst; cbn [spriteCount]; rewrite Hl;
          apply u32_small; exact Hn |].
  split; [lia |]. split; [lia |].
  split; [| split; [exact Hvb | split; [exact Hib |]]].
  - rewrite Hi. apply generate_vertices_indices; [| constructor].
    simpl length. lia.
  - apply Render_within. exact Ht.
Qed.

End GeometryFacts.

(** ** The older SpriteBatch and the capacity *)

Section LegacyFacts.
Context `{ExternMath}.

Lemma u32_add_l (a b : Z) : u32 (u32 a + b) = u32 (a + b).
Proof. unfold u32. apply Zplus_mod_idemp_l. Qed.

(** In the older implementation [Draw] records every request, whatever
    the capacity: [Flush] does nothing and [Draw] goes on. *)
Lemma legacy_draw_all (ds : list SpriteBatch.DrawArgs) :
  forall (s : LegacySpriteBatch.t) (c : Z),
  LegacySpriteBatch.m_IsBatching s = true ->
  LegacySpriteBatch.m_SpriteCount s = u32 c ->
  exists s',
    LegacySpriteBatch.draw_all ds s = Ok s' /\
    LegacySpriteBatch.m_IsBatching s' = true /\
    LegacySpriteBatch.m_MaxSprites s' = LegacySpriteBatch.m_MaxSprites s /\
    LegacySpriteBatch.m_SpriteCount s' = u32 (c + Z.of_nat (length ds)) /\
    length (LegacySpriteBatch.m_Vertices s')
    = (length (LegacySpriteBatch.m_Vertices s) + 4 * length ds)%nat /\
    length (LegacySpriteBatch.m_Indices s')
    = (length (LegacySpriteBatch.m_Indices s) + 6 * length ds)%nat /\
    LegacySpriteBatch.m_VertexBuffer s' = LegacySpriteBatch.m_VertexBuffer s /\
    LegacySpriteBatch.m_IndexBuffer s' = LegacySpriteBatch.m_IndexBuffer s.
Proof.
  induction ds as [| a ds IH]; intros s c Hb Hc.
  - exists s. simpl. rewrite Z.add_0_r.
    repeat split; try assumption; lia.
  - cbn [LegacySpriteBatch.draw_all]. unfold LegacySpriteBatch.Draw at 1.
    rewrite Hb. cbn [negb and_then].
    assert (Hflush : (if LegacySpriteBatch.m_MaxSprites s
                           <=? LegacySpriteBatch.m_SpriteCount s
                      then LegacySpriteBatch.Flush s else s) = s)
      by (destruct (_ <=? _); reflexivity).
    rewrite Hflush.
    match goal with |- context [LegacySpriteBatch.draw_all ds ?st] =>
      destruct (IH st (c + 1))
        as (s' & Hd & Hb' & Hm' & Hc' & Hv' & Hi' & Hvb & Hib) end.
    { exact Hb. }
    { cbn [LegacySpriteBatch.m_SpriteCount]. rewrite Hc. apply u32_add_l. }
    exists s'. split; [exact Hd |]. split; [exact Hb' |].
    cbn [LegacySpriteBatch.m_MaxSprites LegacySpriteBatch.m_Vertices
         LegacySpriteBatch.m_Indices LegacySpriteBatch.m_VertexBuffer
         LegacySpriteBatch.m_IndexBuffer] in Hm', Hv', Hi', Hvb, Hib.
    split; [exact Hm' |]. split; [| split; [| split; [| split]]].
    + rewrite Hc'. f_equal. cbn [length]. lia.
    + rewrite Hv', length_app. simpl. lia.
    + rewrite Hi', length_app. simpl. lia.
    + exact Hvb.
    + exact Hib.
Qed.

(** [Begin] and the draws of the older implementation count and store
    every request they were given. *)
Lemma legacy_drawn_keeps_all (camera : Z) (ds : list SpriteBatch.DrawArgs)
    (s : LegacySpriteBatch.t) :
  LegacySpriteBatch.m_IsBatching s = false ->
  exists s',
    LegacySpriteBatch.drawn camera ds s = Ok s' /\
    LegacySpriteBatch.m_IsBatching s' = true /\
    LegacySpriteBatch.m_MaxSprites s' = LegacySpriteBatch.m_MaxSprites s /\
    LegacySpriteBatch.GetSpriteCount s' = u32 (Z.of_nat (length ds)) /\
    length (LegacySpriteBatch.m_Vertices s') = (4 * length ds)%nat /\
    length (LegacySpriteBatch.m_Indices s') = (6 * length ds)%nat /\
    LegacySpriteBatch.m_VertexBuffer s' = LegacySpriteBatch.m_VertexBuffer s /\
    LegacySpriteBatch.m_IndexBuffer s' = LegacySpriteBatch.m_IndexBuffer s.
Proof.
  intros Hidle. unfold LegacySpriteBatch.drawn, LegacySpriteBatch.Begin.
  rewrite Hidle. cbn [and_then].
  match goal with |- context [LegacySpriteBatch.draw_all ds ?st] =>
    destruct (legacy_draw_all ds st 0 eq_refl eq_refl)
      as (s1 & Hd & Hb & Hm & Hc & Hv & Hi & Hvb & Hib) end.
  exists s1. split; [exact Hd |]. split; [exact Hb |].
  split; [exact Hm |]. split; [exact Hc |].
  split; [exact Hv |]. split; [exact Hi |]. split; [exact Hvb | exact Hib].
Qed.

(** A copy that fits leaves the buffer starting with what was copied. *)
Lemma upload_fits {A} (slots : Z) (dst src : list A) :
  Z.of_nat (length src) <= slots ->
  exists buffer : list A,
    LegacySpriteBatch.upload slots dst src = Some buffer /\
    take (length src) buffer = src.
Proof.
  intros Hlen. unfold LegacySpriteBatch.upload. destruct src as [| x src].
  - exists dst. split; [reflexivity | apply take_0].
  - apply Z.leb_le in Hlen. rewrite Hlen. eexists. split; [reflexivity |].
    unfold SpriteBatch.memcpy. apply take_app_length.
Qed.

(** A copy of more elements than the buffer has slots is not defined. *)
Lemma upload_overrun {A} (slots : Z) (dst src : list A) :
  slots < Z.of_nat (length src) -> 0 <= slots ->
  LegacySpriteBatch.upload slots dst src = None.
Proof.
  intros Hlen Hslots. unfold LegacySpriteBatch.upload.
  destruct src as [| x src]; [simpl in Hlen; lia |].
  apply Z.leb_gt in Hlen. rewrite Hlen. reflexivity.
Qed.

(** With more draws than the capacity, [End] of the older implementation
    copies more vertices than the vertex buffer holds. *)
Lemma legacy_frame_overruns (camera : Z) (ds : list SpriteBatch.DrawArgs)
    (s : LegacySpriteBatch.t) :
  LegacySpriteBatch.m_IsBatching s = false ->
  0 <= LegacySpriteBatch.m_MaxSprites s < Z.of_nat (length ds) ->
  exists s',
    LegacySpriteBatch.drawn camera ds s = Ok s' /\
    LegacySpriteBatch.End s' = None /\
    LegacySpriteBatch.frame camera ds s = None.
Proof.
  intros Hidle Hover.
  destruct (legacy_drawn_keeps_all camera ds s Hidle)
    as (s' & Hd & Hb & Hm & _ & Hv & _).
  assert (HEnd : LegacySpriteBatch.End s' = None).
  { unfold LegacySpriteBatch.End. rewrite Hb. cbn [negb].
    rewrite upload_overrun; [reflexivity | |];
      unfold LegacySpriteBatch.vertex_buffer_slots; rewrite Hm; [| lia].
    rewrite Hv. lia. }
  exists s'. split; [exact Hd |]. split; [exact HEnd |].
  unfold LegacySpriteBatch.frame. rewrite Hd. exact HEnd.
Qed.

(** C2, the older implementation at capacity 1 with two requests.
    [Begin] and the two [Draw] calls raise no exception and leave the
    sprite count 2, not 1, and eight vertices: the second request was
    recorded like the first.  The check [m_SpriteCount >= m_MaxSprites] is
    there, but [Flush] is empty.  [End] then copies the eight vertices
    into the vertex buffer of four slots, past its end. *)
Theorem C2_legacy_keeps_excess :
  let r := LegacySpriteBatch.drawn 0 [Samples.quad 7; Samples.quad 7]
             Samples.legacy_engine in
  threw r = false /\
  LegacySpriteBatch.m_MaxSprites (state_of r) = 1 /\
  LegacySpriteBatch.GetSpriteCount (state_of r) = 2 /\
  length (LegacySpriteBatch.m_Vertices (state_of r)) = 8%nat /\
  LegacySpriteBatch.vertex_buffer_slots (state_of r) = 4 /\
  LegacySpriteBatch.End (state_of r) = None /\
  LegacySpriteBatch.frame 0 [Samples.quad 7; Samples.quad 7]
    Samples.legacy_engine = None.
Proof.
  cbn zeta.
  destruct (legacy_drawn_keeps_all 0 [Samples.quad 7; Samples.quad 7]
              Samples.legacy_engine eq_refl)
    as (s' & Hd & _ & Hm & Hc & Hv & _).
  destruct (legacy_frame_overruns 0 [Samples.quad 7; Samples.quad 7]
              Samples.legacy_engine eq_refl)
    as (s2 & Hd2 & HEnd & Hframe).
  { change (0 <= 1 < 2). lia. }
  rewrite Hd in Hd2. injection Hd2 as <-.
  rewrite Hd. cbn [state_of threw].
  unfold LegacySpriteBatch.vertex_buffer_slots. rewrite Hm, Hc, Hv.
  repeat split; assumption.
Qed.

End LegacyFacts.

(** ** Text layout *)

Section TextFacts.
Import TextRenderer.

Lemma layout_glyphs_length (font : Font) (atlas : Z) (color : vec4)
    (scale y : float) (codepoints : list Z) :
  forall x : float,
  length (layout_glyphs font atlas color scale y codepoints x)
  = length (List.filter (draws_quad font) codepoints).
Proof.
  induction codepoints as [| cp rest IH]; intros x; [reflexivity |].
  cbn [layout_glyphs List.filter]. unfold draws_quad at 1.
  destruct (GetGlyph font cp) as [glyph |]; [| apply IH].
  destruct ((0 <? ivx (g_size glyph)) && (0 <? ivy (g_size glyph)));
    cbn [length]; rewrite IH; reflexivity.
Qed.

Lemma layout_glyphs_atlas (font : Font) (atlas : Z) (color : vec4)
    (scale y : float) (codepoints : list Z) :
  forall x : float,
  Forall (fun a => SpriteBatch.d_texture a = atlas)
    (layout_glyphs font atlas color scale y codepoints x).
Proof.
  induction codepoints as [| cp rest IH]; intros x; [constructor |].
  cbn [layout_glyphs].
  destruct (GetGlyph font cp) as [glyph |]; [| apply IH].
  destruct ((0 <? ivx (g_size glyph)) && (0 <? ivy (g_size glyph)));
    [constructor; [reflexivity | apply IH] | apply IH].
Qed.

Lemma filter_length_le {A} (f : A -> bool) (l : list A) :
  (length (List.filter f l) <= length l)%nat.
Proof.
  induction l as [| x l IH]; [reflexivity |].
  simpl. destruct (f x); simpl; lia.
Qed.

(** C9, as the code has it.  [DrawText] submits one [Draw] request, on
    the font's atlas texture, for each decoded code point whose glyph the
    font has with a bitmap of positive width and height, and none for
    the other code points: the number of requests is the number of such
    code points, at most the number of decoded code points. *)
Theorem C9_one_request_per_drawn_glyph (font : Font) (text : string)
    (position : vec2) (color : vec4) (scale : float) (align : TextAlign)
    (batch : SpriteBatch.t) :
  let requests :=
    DrawText_requests (Some font) text position color scale align in
  length requests
  = length (List.filter (draws_quad font) (Utf8ToCodepoints text)) /\
  (length requests <= length (Utf8ToCodepoints text))%nat /\
  Forall (fun a => SpriteBatch.d_texture a = m_AtlasTexture font) requests /\
  DrawText batch (Some font) text position color scale align
  = SpriteBatch.draw_all requests batch.
Proof.
  cbn zeta. unfold DrawText, DrawText_requests.
  destruct (bool_decide (text = EmptyString)) eqn:E.
  - apply bool_decide_eq_true in E. subst text.
    repeat split; [apply Nat.le_0_l | constructor].
  - split; [apply layout_glyphs_length |]. split; [| split].
    + rewrite layout_glyphs_length. apply filter_length_le.
    + apply layout_glyphs_atlas.
    + reflexivity.
Qed.

(** C9 as the specification states it fails on the text "A A" in a font
    whose space has an empty bitmap: three code points are decoded, two
    requests are submitted.  It fails as well on "A?" in that font, which
    has no glyph for the question mark: two code points, one request. *)
Lemma C9_space_draws_nothing :
  "A A"%string <> EmptyString /\
  length (Utf8ToCodepoints "A A") = 3%nat /\
  length (DrawText_requests (Some Samples.font) "A A"
            (Vec2 F32.zero F32.zero) (Vec4 F32.one F32.one F32.one F32.one)
            F32.one Left) = 2%nat /\
  length (DrawText_requests (Some Samples.font) "A A"
            (Vec2 F32.zero F32.zero) (Vec4 F32.one F32.one F32.one F32.one)
            F32.one Left)
  <> length (Utf8ToCodepoints "A A") /\
  GetGlyph Samples.font 63 = None /\
  length (Utf8ToCodepoints "A?") = 2%nat /\
  length (DrawText_requests (Some Samples.font) "A?"
            (Vec2 F32.zero F32.zero) (Vec4 F32.one F32.one F32.one F32.one)
            F32.one Left) = 1%nat.
Proof.
  split; [discriminate |]. split; [reflexivity |].
  assert (Hlen : length (DrawText_requests (Some Samples.font) "A A"
            (Vec2 F32.zero F32.zero) (Vec4 F32.one F32.one F32.one F32.one)
            F32.one Left) = 2%nat) by (vm_compute; reflexivity).
  split; [exact Hlen |]. rewrite Hlen.
  split; [vm_compute; discriminate |].
  split; [vm_compute; reflexivity |].
  split; [reflexivity |]. vm_compute. reflexivity.
Qed.

End TextFacts.

(** ** The scenarios of the specification, run *)

Section Scenarios.
Import SpriteBatch.

(** Textures A, B, A with sorting on: two batches, A with the instances
    0 and 1, B with instance 2; two draw calls. *)
Example scenario_ABA :
  let s' := state_of (@frame Samples.symbolic_math 0
                        [Samples.quad 1; Samples.quad 2; Samples.quad 1]
                        F32.zero Samples.engine) in
  m_Batches s' = [MkBatch 1 0 2; MkBatch 2 2 1] /\
  GetDrawCallCount s' = 2 /\ GetSpriteCount s' = 3 /\
  Spec.frame_order Samples.engine
    [Samples.quad 1; Samples.quad 2; Samples.quad 1] = [0; 2; 1]%nat.
Proof. vm_compute. repeat split. Qed.

(** No sprites: [Render] records nothing. *)
Example scenario_empty :
  let s' := state_of (@frame Samples.symbolic_math 0 [] F32.zero Samples.engine) in
  m_Batches s' = [] /\
  snd (@Render Samples.symbolic_math (1280, 720) Samples.camera s') = [].
Proof. vm_compute. repeat split. Qed.

(** Six draws into an engine for four: four are kept. *)
Example scenario_overflow :
  let s' := state_of (@frame Samples.symbolic_math 0
                        (repeat (Samples.quad 1) 6) F32.zero Samples.engine) in
  GetSpriteCount s' = 4 /\ length (m_Instances s') = 4%nat /\
  length (m_Vertices s') = 16%nat /\ length (m_Indices s') = 24%nat.
Proof. vm_compute. repeat split. Qed.

(** The commands of one frame with textures A, B, A: the descriptors 1
    and 2 are created and the draws read the indices 0..11 and 12..17. *)
Example scenario_render :
  let s' := state_of (@frame Samples.symbolic_math 0
                        [Samples.quad 1; Samples.quad 2; Samples.quad 1]
                        F32.zero Samples.engine) in
  drop 6 (snd (@Render Samples.symbolic_math (1280, 720) Samples.camera s'))
  = [ CmdBindDescriptorSets 1; CmdDrawIndexed 12 1 0 0 0;
      CmdBindDescriptorSets 2; CmdDrawIndexed 6 1 12 0 0 ].
Proof. vm_compute. reflexivity. Qed.

End Scenarios.

(** ** The theorems at the sample engine *)

Section Witnesses.
Import SpriteBatch Spec.

Lemma sample_engine_wf : wf Samples.engine.
Proof.
  split; [change (0 <= 4 < 2 ^ 32) | change (7 <> 0)]; lia.
Defined.

Lemma C1_batches_partition_witness :
  wf Samples.engine /\
  m_IsBatching Samples.engine = false /\
  Z.of_nat (length Samples.aba) <= m_MaxSprites Samples.engine /\
  exists s',
    @frame Samples.symbolic_math 0 Samples.aba F32.zero Samples.engine = Ok s' /\
    length (m_Instances s') = length Samples.aba /\
    partitions (m_Batches s') (Z.of_nat (length Samples.aba)).
Proof.
  split; [exact sample_engine_wf |]. split; [reflexivity |].
  split; [vm_compute; discriminate |].
  apply (@C1_batches_partition Samples.symbolic_math 0 Samples.aba F32.zero
           Samples.engine sample_engine_wf eq_refl).
  vm_compute. discriminate.
Defined.

(** C3 as the specification states it fails at capacity 1 with two
    requests on one texture, the second tinted black: the second request
    is dropped, the instance list holds the record of the first and
    nothing else, so the record of the second is nowhere in it and no two
    positions hold the records of the two requests. *)
Lemma C3_dropped_request_has_no_record :
  let ds := [Samples.quad 1; Samples.black_quad 1] in
  let s' := state_of (@frame Samples.symbolic_math 0 ds F32.zero
                        Samples.small_engine) in
  wf Samples.small_engine /\
  m_IsBatching Samples.small_engine = false /\
  @frame Samples.symbolic_math 0 ds F32.zero Samples.small_engine = Ok s' /\
  d_texture (resolve (m_WhiteTexture Samples.small_engine) (Samples.quad 1))
  = d_texture (resolve (m_WhiteTexture Samples.small_engine)
                 (Samples.black_quad 1)) /\
  m_Instances s'
  = [instance (make_SpriteData (m_WhiteTexture Samples.small_engine)
                 (Samples.quad 1))] /\
  (instance (make_SpriteData (m_WhiteTexture Samples.small_engine)
               (Samples.black_quad 1)) ∉ m_Instances s') /\
  ~ records_in_order (m_WhiteTexture Samples.small_engine) ds (m_Instances s').
Proof.
  cbn zeta.
  split; [split; [change (0 <= 1 < 2 ^ 32) | change (7 <> 0)]; lia |].
  split; [reflexivity |]. split; [vm_compute; reflexivity |].
  split; [reflexivity |].
  assert (Hins : m_Instances
                   (state_of (@frame Samples.symbolic_math 0
                                [Samples.quad 1; Samples.black_quad 1]
                                F32.zero Samples.small_engine))
                 = [instance (make_SpriteData
                                (m_WhiteTexture Samples.small_engine)
                                (Samples.quad 1))])
    by (vm_compute; reflexivity).
  split; [exact Hins |]. rewrite Hins. split.
  - intros Hin. apply list_elem_of_singleton in Hin. vm_compute in Hin.
    discriminate.
  - intros Hclaim.
    destruct (Hclaim 0%nat 1%nat (Samples.quad 1) (Samples.black_quad 1))
      as (p & q & Hpq & _ & Hq); try reflexivity; [lia |].
    apply lookup_lt_Some in Hq. simpl in Hq. lia.
Qed.

Lemma C3_sort_stable_witness :
  let accepted := take (Z.to_nat (m_MaxSprites Samples.engine)) Samples.six in
  exists s',
    @frame Samples.symbolic_math 0 Samples.six F32.zero Samples.engine = Ok s' /\
    frame_order Samples.engine Samples.six ≡ₚ seq 0 (length accepted) /\
    (forall pos : nat,
       m_Instances s' !! pos
       = frame_order Samples.engine Samples.six !! pos
         ≫= (fun k =>
               (fun a => instance (make_SpriteData
                                     (m_WhiteTexture Samples.engine) a))
                 <$> accepted !! k)) /\
    (forall (i j : nat) (a b : DrawArgs),
       (i < j)%nat -> Samples.six !! i = Some a -> Samples.six !! j = Some b ->
       Z.of_nat j < m_MaxSprites Samples.engine ->
       d_texture (resolve (m_WhiteTexture Samples.engine) a)
       = d_texture (resolve (m_WhiteTexture Samples.engine) b) ->
       exists p q : nat,
         (p < q)%nat /\
         frame_order Samples.engine Samples.six !! p = Some i /\
         frame_order Samples.engine Samples.six !! q = Some j /\
         m_Instances s' !! p
         = Some (instance (make_SpriteData (m_WhiteTexture Samples.engine) a)) /\
         m_Instances s' !! q
         = Some (instance (make_SpriteData (m_WhiteTexture Samples.engine) b))).
Proof.
  apply (@C3_sort_stable Samples.symbolic_math 0 Samples.six F32.zero
           Samples.engine sample_engine_wf eq_refl).
Defined.


Lemma C10_fallback_geometry_witness :
  exists s',
    @frame Samples.symbolic_math 0 Samples.six F32.zero Samples.engine = Ok s' /\
    Z.of_nat (length (m_SpriteDataList s')) = 4 /\
    GetSpriteCount s' = 4 /\
    Z.of_nat (length (m_Vertices s')) = 4 * 4 /\
    Z.of_nat (length (m_Indices s')) = 6 * 4 /\
    Forall (fun i => 0 <= i < 4 * 4) (m_Indices s') /\
    take (length (m_Vertices s')) (m_VertexBuffer s') = m_Vertices s' /\
    take (length (m_Indices s')) (m_IndexBuffer s') = m_Indices s' /\
    Forall (draw_within (6 * 4))
      (snd (@Render Samples.symbolic_math (1280, 720) Samples.camera s')).
Proof.
  apply (@C10_fallback_geometry Samples.symbolic_math 0 Samples.six F32.zero
           (1280, 720) Samples.camera Samples.engine sample_engine_wf eq_refl).
Defined.

End Witnesses.

(** * Further properties of the code *)

(** ** Batches are exactly the runs *)

Section RunsExact.
Context `{ExternMath}.
Import SpriteBatch Spec.

Lemma BuildBatches_loop_exact (l : list SpriteData) :
  forall (i cur start : Z) (bs : list BatchInfo) (ins : list SpriteInstance),
  cur <> nullptr -> 0 <= start < i ->
  i + Z.of_nat (length l) < 2 ^ 32 ->
  Forall nonnull l ->
  exists cur' start' bs',
    BuildBatches_loop l i cur start bs ins
    = (cur', start', bs', ins ++ map instance l) /\
    cur' <> nullptr /\ 0 <= start' < i + Z.of_nat (length l) /\
    bs' ++ [MkBatch cur' start' (i + Z.of_nat (length l) - start')]
    = bs ++ runs_from cur start i (map texture l).
Proof.
  induction l as [| d l IH]; intros i cur start bs ins Hcur Hstart Hi Hnn.
  - exists cur, start, bs. simpl. rewrite app_nil_r, Z.add_0_r.
    repeat split; try assumption; lia.
  - inversion Hnn as [| ? ? Hd Hl]; subst.
    cbn [BuildBatches_loop length map runs_from]. cbn [length] in Hi.
    rewrite Nat2Z.inj_succ in Hi. rewrite ?Nat2Z.inj_succ.
    destruct (texture d =? cur) eqn:E; cbn [negb].
    + assert (Hstart' : 0 <= start < i + 1) by lia.
      assert (Hi' : i + 1 + Z.of_nat (length l) < 2 ^ 32) by lia.
      destruct (IH (i + 1) cur start bs (ins ++ [instance d])
                  Hcur Hstart' Hi' Hl)
        as (cur' & start' & bs' & Heq & Hc' & Hs' & Hb').
      exists cur', start', bs'. rewrite Heq, <- app_assoc.
      replace (i + Z.succ (Z.of_nat (length l)))
        with (i + 1 + Z.of_nat (length l)) by lia.
      repeat split; try assumption; lia.
    + assert (Hne : (cur =? nullptr) = false) by (apply Z.eqb_neq; exact Hcur).
      assert (Hlt : (start <? i) = true) by (apply Z.ltb_lt; lia).
      rewrite Hne, Hlt. cbn [negb andb].
      assert (Hui : u32 i = i) by (apply u32_small; lia).
      assert (Hcount : u32 (i - start) = i - start) by (apply u32_small; lia).
      rewrite Hui, Hcount.
      assert (Hstart' : 0 <= i < i + 1) by lia.
      assert (Hi' : i + 1 + Z.of_nat (length l) < 2 ^ 32) by lia.
      destruct (IH (i + 1) (texture d) i
                  (bs ++ [MkBatch cur start (i - start)]) (ins ++ [instance d])
                  Hd Hstart' Hi' Hl)
        as (cur' & start' & bs' & Heq & Hc' & Hs' & Hb').
      exists cur', start', bs'. rewrite Heq, <- !app_assoc.
      replace (i + Z.succ (Z.of_nat (length l)))
        with (i + 1 + Z.of_nat (length l)) by lia.
      rewrite <- app_assoc in Hb'.
      repeat split; try assumption; lia.
Qed.

Lemma BuildBatches_exact (s : SpriteBatch.t) :
  m_Batches s = [] -> m_Instances s = [] ->
  Forall nonnull (m_SpriteDataList s) ->
  Z.of_nat (length (m_SpriteDataList s)) < 2 ^ 32 ->
  BuildBatches s
  = set_Batches_Instances (group_runs (map texture (m_SpriteDataList s)))
      (map instance (m_SpriteDataList s)) s.
Proof.
  intros Hb Hi Hnn Hlen. unfold BuildBatches. rewrite Hb, Hi.
  destruct (m_SpriteDataList s) as [| d l] eqn:El.
  - destruct s; simpl in *; subst; reflexivity.
  - inversion Hnn as [| ? ? Hd Hl]; subst.
    cbn [BuildBatches_loop]. unfold nonnull in Hd.
    assert (Hne : (texture d =? nullptr) = false) by (apply Z.eqb_neq; exact Hd).
    rewrite Hne. cbn [negb andb]. rewrite Z.eqb_refl. cbn [negb andb].
    change (u32 0) with 0. cbn [length] in *. rewrite Nat2Z.inj_succ in *.
    assert (Hstart' : 0 <= 0 < 0 + 1) by lia.
    assert (Hi' : 0 + 1 + Z.of_nat (length l) < 2 ^ 32) by lia.
    destruct (BuildBatches_loop_exact l (0 + 1) (texture d) 0 []
                ([] ++ [instance d]) Hd Hstart' Hi' Hl)
      as (cur' & start' & bs' & Heq & Hc' & Hs' & Hb').
    rewrite Heq.
    assert (Hne' : (cur' =? nullptr) = false) by (apply Z.eqb_neq; exact Hc').
    rewrite Hne'. cbn [negb].
    assert (Hun : u32 (Z.succ (Z.of_nat (length l))) = Z.succ (Z.of_nat (length l)))
      by (apply u32_small; lia).
    rewrite Hun.
    assert (Hcount : u32 (Z.succ (Z.of_nat (length l)) - start')
                     = Z.succ (Z.of_nat (length l)) - start')
      by (apply u32_small; lia).
    rewrite Hcount.
    replace (Z.succ (Z.of_nat (length l))) with (0 + 1 + Z.of_nat (length l))
      by lia.
    rewrite Hb'. reflexivity.
Qed.

(** [BuildBatches] writes the batches and instances and nothing else. *)
Lemma BuildBatches_eq (s : SpriteBatch.t) :
  exists bs ins, BuildBatches s = set_Batches_Instances bs ins s.
Proof.
  unfold BuildBatches. destruct (m_SpriteDataList s).
  - exists (m_Batches s), (m_Instances s). destruct s; reflexivity.
  - destruct (BuildBatches_loop _ _ _ _ _ _) as [[[c st] bs] ins].
    eexists _, _. reflexivity.
Qed.

(** [End] in terms of its three steps. *)
Lemma End_fields (elapsed : float) (s : SpriteBatch.t) :
  m_IsBatching s = true ->
  let b := BuildBatches (SortBatches s) in
  exists s',
    End elapsed s = Ok s' /\
    m_SpriteDataList s' = m_SpriteDataList b /\
    m_Instances s' = m_Instances b /\
    m_Batches s' = m_Batches b /\
    m_FrameData s' = m_FrameData (UploadInstanceData b) /\
    m_CurrentFrameIndex s'
    = u32 (m_CurrentFrameIndex s + 1) mod FRAME_BUFFER_COUNT /\
    m_Vertices s'
    = fst (generate_vertices (m_SpriteDataList b) (m_Vertices s) (m_Indices s)) /\
    m_Indices s'
    = snd (generate_vertices (m_SpriteDataList b) (m_Vertices s) (m_Indices s)) /\
    m_VertexBuffer s'
    = match m_Vertices s' with
      | [] => m_VertexBuffer s
      | _ => memcpy (m_VertexBuffer s) (m_Vertices s')
      end /\
    m_IndexBuffer s'
    = match m_Indices s' with
      | [] => m_IndexBuffer s
      | _ => memcpy (m_IndexBuffer s) (m_Indices s')
      end /\
    m_Statistics s'
    = MkStatistics (u32 (Z.of_nat (length (m_SpriteDataList b))))
        (u32 (Z.of_nat (length (m_Batches b)))) 0
        (u32 (Z.of_nat (length (m_Batches b)))) elapsed /\
    m_EnableTextureSorting s' = m_EnableTextureSorting s /\
    m_CurrentCamera s' = m_CurrentCamera s.
Proof.
  intros Hb b. unfold End. rewrite Hb. cbn [negb]. fold b.
  assert (Hb_eq : exists bs ins,
            b = set_Batches_Instances bs ins (SortBatches s))
    by apply BuildBatches_eq.
  destruct Hb_eq as (bs & ins & Hb_eq).
  destruct (UploadInstanceData_eq b) as [fd Hup]. rewrite Hup.
  rewrite Hb_eq, SortBatches_eq. cbn -[generate_vertices u32 Z.modulo].
  destruct (generate_vertices _ (m_Vertices s) (m_Indices s)) as [vs is_].
  eexists. split; [reflexivity |]. cbn -[u32 Z.modulo].
  repeat split.
Qed.

(** A frame from an idle engine is [End] on the accepted requests. *)
Lemma frame_unfold (camera : Z) (ds : list DrawArgs) (elapsed : float)
    (s : SpriteBatch.t) :
  m_IsBatching s = false ->
  frame camera ds elapsed s
  = End elapsed
      (set_SpriteDataList
         (accept (m_MaxSprites s) (m_WhiteTexture s) [] ds)
         (state_of (Begin camera s))).
Proof.
  intros Hidle. unfold frame, Begin. rewrite Hidle. cbn [and_then state_of].
  rewrite draw_all_batching by reflexivity. reflexivity.
Qed.

(** The batches of a frame are the run-length grouping of the textures
    of its requests, in the order [End] leaves them. *)
Lemma frame_batches_exact (camera : Z) (ds : list DrawArgs) (elapsed : float)
    (s : SpriteBatch.t) :
  wf s -> m_IsBatching s = false ->
  exists s',
    frame camera ds elapsed s = Ok s' /\
    m_SpriteDataList s' = sorted_requests s ds /\
    m_Batches s' = group_runs (map texture (sorted_requests s ds)).
Proof.
  intros Hwf Hidle. pose proof Hwf as [Hmax Hwhite].
  rewrite (frame_unfold camera ds elapsed s Hidle).
  set (l := accept (m_MaxSprites s) (m_WhiteTexture s) [] ds).
  set (st := set_SpriteDataList l (state_of (Begin camera s))).
  assert (Hst : m_IsBatching st = true)
    by (unfold st, Begin; rewrite Hidle; reflexivity).
  destruct (End_fields elapsed st Hst) as (s' & HEnd & Hl & _ & Hbs & _).
  exists s'. split; [exact HEnd |].
  assert (Hlen : Z.of_nat (length l) <= m_MaxSprites s).
  { unfold l. rewrite accept_length by (simpl; lia). lia. }
  assert (Hsort : SortBatches st = set_SpriteDataList (sorted_requests s ds) st).
  { rewrite SortBatches_eq. unfold st, Begin. rewrite Hidle. reflexivity. }
  rewrite Hsort in Hl, Hbs.
  rewrite BuildBatches_exact in Hl, Hbs.
  - split; [exact Hl | exact Hbs].
  - unfold st, Begin. rewrite Hidle. reflexivity.
  - unfold st, Begin. rewrite Hidle. reflexivity.
  - cbn [set_SpriteDataList m_SpriteDataList]. unfold sorted_requests. fold l.
    assert (Hnn : Forall nonnull l)
      by (apply accept_nonnull; [exact Hwhite | constructor]).
    destruct (m_EnableTextureSorting s); [| exact Hnn].
    rewrite stable_sort_perm. exact Hnn.
  - cbn [set_SpriteDataList m_SpriteDataList].
    rewrite sorted_requests_length. fold l. lia.
  - unfold st, Begin. rewrite Hidle. reflexivity.
  - unfold st, Begin. rewrite Hidle. reflexivity.
  - cbn [set_SpriteDataList m_SpriteDataList]. unfold sorted_requests. fold l.
    assert (Hnn : Forall nonnull l)
      by (apply accept_nonnull; [exact Hwhite | constructor]).
    destruct (m_EnableTextureSorting s); [| exact Hnn].
    rewrite stable_sort_perm. exact Hnn.
  - cbn [set_SpriteDataList m_SpriteDataList].
    rewrite sorted_requests_length. fold l. lia.
Qed.

End RunsExact.

Section RunsClaims.
Context `{ExternMath}.
Import SpriteBatch Spec.

Lemma runs_from_head (l : list Z) :
  forall cur start i,
  exists b rest, runs_from cur start i l = b :: rest /\ b_texture b = cur.
Proof.
  induction l as [| t l IH]; intros cur start i; cbn [runs_from].
  - eexists _, _. split; reflexivity.
  - destruct (t =? cur); [apply IH |]. eexists _, _. split; reflexivity.
Qed.

Lemma runs_from_adjacent (l : list Z) :
  forall cur start i (k : nat) (b b' : BatchInfo),
  runs_from cur start i l !! k = Some b ->
  runs_from cur start i l !! S k = Some b' ->
  b_texture b <> b_texture b'.
Proof.
  induction l as [| t l IH]; intros cur start i k b b' Hk Hk'; cbn [runs_from] in *.
  - destruct k; discriminate.
  - destruct (t =? cur) eqn:E; [apply (IH _ _ _ _ _ _ Hk Hk') |].
    destruct k as [| k].
    + injection Hk as <-. cbn in Hk'.
      destruct (runs_from_head l t i (i + 1)) as (b0 & rest & Heq & Ht).
      rewrite Heq in Hk'. injection Hk' as <-. simpl. rewrite Ht.
      apply Z.eqb_neq in E. congruence.
    + apply (IH _ _ _ _ _ _ Hk Hk').
Qed.

Lemma group_runs_adjacent (l : list Z) (k : nat) (b b' : BatchInfo) :
  group_runs l !! k = Some b -> group_runs l !! S k = Some b' ->
  b_texture b <> b_texture b'.
Proof.
  destruct l as [| t l]; [discriminate |]. apply runs_from_adjacent.
Qed.

(** X1. The batches after [End] are exactly the maximal runs of equal
    textures of the request list as [End] leaves it: the run-length
    grouping of its textures; all requests in the range of a batch have
    the texture of the batch, and two batches that follow one another
    have different textures. *)
Theorem X1_batches_are_maximal_runs (camera : Z) (ds : list DrawArgs)
    (elapsed : float) (s : SpriteBatch.t) :
  wf s -> m_IsBatching s = false ->
  exists s',
    frame camera ds elapsed s = Ok s' /\
    m_Batches s' = group_runs (map texture (m_SpriteDataList s')) /\
    labelled (m_SpriteDataList s') (m_Batches s') /\
    (forall (k : nat) (b b' : BatchInfo),
       m_Batches s' !! k = Some b -> m_Batches s' !! S k = Some b' ->
       b_texture b <> b_texture b').
Proof.
  intros Hwf Hidle.
  destruct (frame_batches_exact camera ds elapsed s Hwf Hidle)
    as (s' & Hf & Hl & Hb).
  destruct (frame_ok camera ds elapsed s Hwf Hidle)
    as (s2 & Hf2 & _ & _ & _ & _ & Hlab & _).
  rewrite Hf in Hf2. injection Hf2 as <-.
  exists s'. split; [exact Hf |]. rewrite Hl.
  split; [exact Hb |]. split; [exact Hlab |].
  rewrite Hb. apply group_runs_adjacent.
Qed.

(** Every request texture is the texture of some batch, and conversely. *)
Lemma batch_textures (l : list SpriteData) (bs : list BatchInfo) :
  tiles 0 bs (Z.of_nat (length l)) -> labelled l bs ->
  forall t : Z, t ∈ map b_texture bs <-> t ∈ map texture l.
Proof.
  intros Ht Hlab t. split; intros Hin.
  - apply list_elem_of_fmap in Hin as (b & -> & Hb).
    apply list_elem_of_lookup in Hb as [n Hn].
    destruct (tiles_inside _ _ _ _ _ Ht Hn) as (H0 & Hc & Hend).
    assert (Hcov : covers b (Z.of_nat (Z.to_nat (startInstance b))))
      by (unfold covers; lia).
    specialize (Hlab n b _ Hn Hcov).
    destruct (l !! Z.to_nat (startInstance b)) as [d |] eqn:E; [| discriminate].
    injection Hlab as <-. apply list_elem_of_fmap. exists d. split; [reflexivity |].
    apply list_elem_of_lookup. eauto.
  - apply list_elem_of_fmap in Hin as (d & -> & Hd).
    apply list_elem_of_lookup in Hd as [k Hk].
    pose proof (lookup_lt_Some _ _ _ Hk) as Hlt.
    destruct (tiles_cover 0 _ bs (Z.of_nat k) Ht) as (n & b & Hn & Hcov); [lia |].
    specialize (Hlab n b k Hn Hcov). rewrite Hk in Hlab. injection Hlab as ->.
    apply list_elem_of_fmap. exists b. split; [reflexivity |].
    apply list_elem_of_lookup. eauto.
Qed.

(** X2. With sorting on, each texture is bound once per frame: the
    textures of the batches are pairwise distinct, and they are exactly
    the textures the accepted requests refer to. *)
Theorem X2_one_batch_per_texture (camera : Z) (ds : list DrawArgs)
    (elapsed : float) (s : SpriteBatch.t) :
  wf s -> m_IsBatching s = false -> m_EnableTextureSorting s = true ->
  Z.of_nat (length ds) <= m_MaxSprites s ->
  exists s',
    frame camera ds elapsed s = Ok s' /\
    NoDup (map b_texture (m_Batches s')) /\
    (forall t : Z,
       t ∈ map b_texture (m_Batches s')
       <-> t ∈ map (fun a => d_texture (resolve (m_WhiteTexture s) a)) ds).
Proof.
  intros Hwf Hidle Hsort Hlen.
  destruct (draw_calls_sorted camera ds elapsed s Hwf Hidle Hsort Hlen)
    as (s' & Hf & Hl & Hcount & _ & Hdist).
  destruct (frame_ok camera ds elapsed s Hwf Hidle)
    as (s2 & Hf2 & Hl2 & _ & Ht & _ & Hlab & _).
  rewrite Hf in Hf2. injection Hf2 as <-.
  rewrite <- Hl2 in Hlab.
  assert (Hn : length (accept (m_MaxSprites s) (m_WhiteTexture s) [] ds)
               = length (m_SpriteDataList s'))
    by (rewrite Hl2, sorted_requests_length; reflexivity).
  rewrite Hn in Ht.
  pose proof (batch_textures _ _ Ht Hlab) as Hiff.
  assert (Hsame : forall t : Z,
            t ∈ map texture (m_SpriteDataList s')
            <-> t ∈ map (fun a => d_texture (resolve (m_WhiteTexture s) a)) ds).
  { intros t. rewrite Hl, texture_sort_map, stable_sort_perm, resolved_textures.
    reflexivity. }
  exists s'. split; [exact Hf |]. split.
  - apply (NoDup_ListNoDup (map b_texture (m_Batches s'))).
    apply (@List.NoDup_incl_NoDup Z
             (remove_dups (map texture (m_SpriteDataList s')))).
    + apply NoDup_ListNoDup, NoDup_remove_dups.
    + rewrite length_map, Hcount, Hdist. unfold distinct_textures.
      rewrite Hl, texture_sort_map.
      rewrite (distinct_perm _ _ (stable_sort_perm Z.ltb _)).
      rewrite resolved_textures. reflexivity.
    + intros t Hin. apply list_elem_of_In. apply Hiff.
      apply elem_of_remove_dups. apply list_elem_of_In. exact Hin.
  - intros t. rewrite Hiff. apply Hsame.
Qed.

(** X3. With sorting switched off the instance list keeps the submission
    order, and the batches are the runs of equal textures among
    neighbouring submissions. *)
Theorem X3_unsorted_keeps_order (camera : Z) (ds : list DrawArgs)
    (elapsed : float) (s : SpriteBatch.t) :
  wf s -> m_IsBatching s = false -> m_EnableTextureSorting s = false ->
  Z.of_nat (length ds) <= m_MaxSprites s ->
  exists s',
    frame camera ds elapsed s = Ok s' /\
    m_Instances s'
    = map (fun a => instance (make_SpriteData (m_WhiteTexture s) a)) ds /\
    m_Batches s'
    = group_runs (map (fun a => d_texture (resolve (m_WhiteTexture s) a)) ds) /\
    GetDrawCallCount s'
    = Z.of_nat (runs (map (fun a => d_texture (resolve (m_WhiteTexture s) a)) ds)).
Proof.
  intros Hwf Hidle Hsort Hlen.
  destruct (frame_batches_exact camera ds elapsed s Hwf Hidle)
    as (s' & Hf & Hl & Hb).
  destruct (frame_ok camera ds elapsed s Hwf Hidle)
    as (s2 & Hf2 & _ & Hins & _ & Hruns & _ & Hst & _).
  rewrite Hf in Hf2. injection Hf2 as <-.
  assert (Hreq : sorted_requests s ds
                 = map (make_SpriteData (m_WhiteTexture s)) ds).
  { unfold sorted_requests. rewrite Hsort. apply accept_all. exact Hlen. }
  rewrite Hreq in *. rewrite resolved_textures in Hb, Hruns.
  exists s'. split; [exact Hf |]. split; [| split; [exact Hb |]].
  - rewrite Hins, map_map. reflexivity.
  - unfold GetDrawCallCount. rewrite Hst. simpl. rewrite Hruns.
    apply u32_small. destruct Hwf as [Hmax _].
    pose proof (runs_le_length
                  (map (fun a => d_texture (resolve (m_WhiteTexture s) a)) ds)) as Hr.
    rewrite length_map in Hr. lia.
Qed.

End RunsClaims.

(** ** Frames, one after the other *)

Section FrameSequence.
Context `{ExternMath}.
Import SpriteBatch Spec.

(** Everything a frame produces is a function of the capacity, the white
    texture, the sorting switch, the requests and the clock. *)
Lemma frame_data_eq (camera : Z) (ds : list DrawArgs) (elapsed : float)
    (s : SpriteBatch.t) :
  wf s -> m_IsBatching s = false ->
  let l := sorted_requests s ds in
  exists s',
    frame camera ds elapsed s = Ok s' /\
    frame_data s'
    = (l, map instance l, group_runs (map texture l),
       fst (generate_vertices l [] []), snd (generate_vertices l [] []),
       MkStatistics (u32 (Z.of_nat (length l)))
         (u32 (Z.of_nat (length (group_runs (map texture l))))) 0
         (u32 (Z.of_nat (length (group_runs (map texture l))))) elapsed) /\
    m_MaxSprites s' = m_MaxSprites s /\
    m_WhiteTexture s' = m_WhiteTexture s /\
    m_EnableTextureSorting s' = m_EnableTextureSorting s /\
    m_IsBatching s' = false.
Proof.
  intros Hwf Hidle l.
  destruct (frame_batches_exact camera ds elapsed s Hwf Hidle)
    as (s' & Hf & Hl & Hb).
  destruct (frame_ok camera ds elapsed s Hwf Hidle)
    as (s2 & Hf2 & _ & Hins & _ & _ & _ & Hst & Hv & Hi & Hidle' & Hm & Hw & _).
  rewrite Hf in Hf2. injection Hf2 as <-.
  exists s'. split; [exact Hf |]. fold l in Hl, Hb, Hins, Hst, Hv, Hi.
  split; [| split; [exact Hm | split; [exact Hw | split; [| exact Hidle']]]].
  - unfold frame_data. rewrite Hl, Hins, Hv, Hi, Hst, Hb. reflexivity.
  - rewrite (frame_unfold camera ds elapsed s Hidle) in Hf.
    match type of Hf with End _ ?st = _ =>
      destruct (End_fields elapsed st) as (s3 & HEnd & Hrest) end.
    { unfold Begin. rewrite Hidle. reflexivity. }
    rewrite Hf in HEnd. injection HEnd as <-.
    destruct Hrest as (_ & _ & _ & _ & _ & _ & _ & _ & _ & _ & Hsort & _).
    rewrite Hsort. unfold Begin. rewrite Hidle. reflexivity.
Qed.

(** X4. A frame leaves nothing behind for the next one: the requests,
    instances, batches, vertices, indices and statistics of a frame are
    the same whether it runs on the engine as it was or after another
    frame. *)
Theorem X4_frames_are_independent (camera1 camera2 : Z)
    (ds1 ds2 : list DrawArgs) (elapsed1 elapsed2 : float) (s : SpriteBatch.t) :
  wf s -> m_IsBatching s = false ->
  exists s1 s2 s2',
    frame camera1 ds1 elapsed1 s = Ok s1 /\
    frame camera2 ds2 elapsed2 s1 = Ok s2 /\
    frame camera2 ds2 elapsed2 s = Ok s2' /\
    frame_data s2 = frame_data s2'.
Proof.
  intros Hwf Hidle.
  destruct (frame_data_eq camera1 ds1 elapsed1 s Hwf Hidle)
    as (s1 & Hf1 & _ & Hm1 & Hw1 & Hs1 & Hidle1).
  assert (Hwf1 : wf s1) by (unfold wf; rewrite Hm1, Hw1; exact Hwf).
  destruct (frame_data_eq camera2 ds2 elapsed2 s1 Hwf1 Hidle1)
    as (s2 & Hf2 & Hd2 & _).
  destruct (frame_data_eq camera2 ds2 elapsed2 s Hwf Hidle)
    as (s2' & Hf2' & Hd2' & _).
  exists s1, s2, s2'. repeat split; try assumption.
  rewrite Hd2, Hd2'. unfold sorted_requests. rewrite Hm1, Hw1, Hs1.
  reflexivity.
Qed.

Lemma create_wf_slots (maxSprites whiteTexture : Z) :
  wf_slots (create maxSprites whiteTexture).
Proof. split; [reflexivity | left; reflexivity]. Qed.

(** The staging slots after a frame. *)
Lemma frame_slots (camera : Z) (ds : list DrawArgs) (elapsed : float)
    (s : SpriteBatch.t) :
  wf s -> m_IsBatching s = false ->
  exists s',
    frame camera ds elapsed s = Ok s' /\
    m_Instances s' = map instance (sorted_requests s ds) /\
    m_CurrentFrameIndex s'
    = u32 (m_CurrentFrameIndex s + 1) mod FRAME_BUFFER_COUNT /\
    m_FrameData s'
    = match sorted_requests s ds with
      | [] => m_FrameData s
      | _ =>
          match m_FrameData s !! Z.to_nat (m_CurrentFrameIndex s) with
          | Some fd =>
              <[Z.to_nat (m_CurrentFrameIndex s) :=
                  MkFrameData
                    (memcpy (instanceStagingBuffer fd)
                       (map instance (sorted_requests s ds))) true]>
                (m_FrameData s)
          | None => m_FrameData s
          end
      end.
Proof.
  intros Hwf Hidle.
  destruct (frame_ok camera ds elapsed s Hwf Hidle)
    as (s' & Hf & Hl & Hins & _).
  exists s'. split; [exact Hf |]. split; [exact Hins |].
  rewrite (frame_unfold camera ds elapsed s Hidle) in Hf.
  match type of Hf with End _ ?st = _ =>
    destruct (End_fields elapsed st) as (s3 & HEnd & Hrest) end.
  { unfold Begin. rewrite Hidle. reflexivity. }
  rewrite Hf in HEnd. injection HEnd as <-.
  destruct Hrest as (_ & Hins' & _ & Hfd & Hidx & _).
  split.
  - rewrite Hidx. unfold Begin. rewrite Hidle. reflexivity.
  - rewrite Hfd. rewrite Hins in Hins'.
    match goal with |- context [BuildBatches ?st] =>
      destruct (BuildBatches_eq st) as (bs & ins & Hbb) end.
    rewrite Hbb in *. cbn [set_Batches_Instances m_Instances] in Hins'.
    subst ins. rewrite SortBatches_eq. unfold UploadInstanceData, Begin.
    rewrite Hidle.
    cbn [state_of set_Batches_Instances set_SpriteDataList m_Instances
         m_FrameData m_CurrentFrameIndex].
    destruct (sorted_requests s ds) as [| d l]; [reflexivity |].
    cbn [map].
    destruct (m_FrameData s !! Z.to_nat (m_CurrentFrameIndex s)); reflexivity.
Qed.

(** X5. The two staging slots take turns.  A frame with at least one
    accepted request copies its instance records to the start of the slot
    the frame index names and marks it for upload, leaves the other slot
    as it was, and moves the frame index on to the other slot. *)
Theorem X5_staging_slots_alternate (camera : Z) (ds : list DrawArgs)
    (elapsed : float) (s : SpriteBatch.t) :
  wf s -> wf_slots s -> m_IsBatching s = false ->
  ds <> [] -> 1 <= m_MaxSprites s ->
  let slot := Z.to_nat (m_CurrentFrameIndex s) in
  let other := Z.to_nat (1 - m_CurrentFrameIndex s) in
  exists s' fd,
    frame camera ds elapsed s = Ok s' /\
    m_FrameData s' !! slot = Some fd /\
    needsUpload fd = true /\
    take (length (m_Instances s')) (instanceStagingBuffer fd) = m_Instances s' /\
    m_FrameData s' !! other = m_FrameData s !! other /\
    m_CurrentFrameIndex s' = 1 - m_CurrentFrameIndex s /\
    wf_slots s'.
Proof.
  intros Hwf [Hlen Hidx] Hidle Hne Hcap slot other.
  destruct (frame_slots camera ds elapsed s Hwf Hidle)
    as (s' & Hf & Hins & Hi & Hfd).
  assert (Hreq : sorted_requests s ds <> []).
  { intros Hnil. apply (f_equal length) in Hnil.
    rewrite sorted_requests_length in Hnil.
    pose proof (accept_length (m_MaxSprites s) (m_WhiteTexture s) [] ds) as Hal.
    rewrite Hnil in Hal. specialize (Hal ltac:(simpl; lia)).
    destruct ds as [| a ds]; [congruence |]. simpl in Hal. lia. }
  assert (Hslot : (slot < length (m_FrameData s))%nat)
    by (unfold slot; destruct Hidx as [-> | ->]; rewrite Hlen; simpl; lia).
  destruct (lookup_lt_is_Some_2 _ _ Hslot) as [fd0 Hfd0].
  fold slot in Hfd. rewrite Hfd0 in Hfd.
  destruct (sorted_requests s ds) as [| d l] eqn:El; [congruence |].
  exists s', (MkFrameData (memcpy (instanceStagingBuffer fd0) (map instance (d :: l))) true).
  split; [exact Hf |]. rewrite Hfd, Hins.
  split; [apply list_lookup_insert_eq; exact Hslot |].
  split; [reflexivity |].
  split; [apply memcpy_take |].
  split; [| split].
  - apply list_lookup_insert_ne. unfold slot, other.
    destruct Hidx as [-> | ->]; simpl; lia.
  - rewrite Hi. destruct Hidx as [-> | ->]; reflexivity.
  - unfold wf_slots. rewrite Hfd, length_insert, Hi.
    split; [exact Hlen |].
    destruct Hidx as [-> | ->]; [right | left]; reflexivity.
Qed.

(** X6. A frame without requests writes nothing: no batch, no instance,
    no vertex, no index, zero counts; the mapped vertex and index buffers
    and both staging slots keep their contents; and [Render] then returns
    at once, recording no command and touching neither the engine nor the
    camera. *)
Theorem X6_empty_frame (camera : Z) (elapsed : float) (extent : Z * Z)
    (cam : Camera2D.t) (s : SpriteBatch.t) :
  m_IsBatching s = false ->
  exists s',
    frame camera [] elapsed s = Ok s' /\
    frame_data s' = ([], [], [], [], [], MkStatistics 0 0 0 0 elapsed) /\
    m_VertexBuffer s' = m_VertexBuffer s /\
    m_IndexBuffer s' = m_IndexBuffer s /\
    m_FrameData s' = m_FrameData s /\
    m_DescriptorSets s' = m_DescriptorSets s /\
    Render extent cam s' = (Ok s', cam, []).
Proof.
  intros Hidle. unfold frame, Begin. rewrite Hidle.
  cbn [and_then draw_all]. unfold End. cbn [m_IsBatching negb].
  rewrite SortBatches_eq.
  cbn [m_EnableTextureSorting m_SpriteDataList stable_sort].
  assert (Hsame : (if m_EnableTextureSorting s then @nil SpriteData else [])
                  = []) by (destruct (m_EnableTextureSorting s); reflexivity).
  rewrite Hsame.
  eexists. split; [reflexivity |]. repeat split.
Qed.

End FrameSequence.

(** ** Geometry and draws, exactly *)

Section GeometryExact.
Context `{ExternMath}.
Import SpriteBatch Spec.

Lemma quad_indices_pattern (k : nat) :
  4 * Z.of_nat k + 3 < 2 ^ 32 ->
  quad_indices (u32 (4 * Z.of_nat k)) = quad_index_pattern k.
Proof.
  intros Hk. unfold quad_indices, quad_index_pattern. cbv zeta.
  rewrite (u32_small (4 * Z.of_nat k)) by lia.
  rewrite !u32_small by lia. rewrite Z.add_0_r. reflexivity.
Qed.

Lemma generate_vertices_exact (l : list SpriteData) :
  forall (vertices : list Vertex2D) (indices : list Z) (b : nat),
  length vertices = (4 * b)%nat ->
  4 * Z.of_nat (b + length l) <= 2 ^ 32 ->
  generate_vertices l vertices indices
  = (vertices ++ concat (map (fun d => quad_vertices (instance d)) l),
     indices ++ concat (map quad_index_pattern (seq b (length l)))).
Proof.
  induction l as [| d l IH]; intros vertices indices b Hv Hb.
  - simpl. rewrite !app_nil_r. reflexivity.
  - cbn [generate_vertices length map seq concat].
    rewrite (IH _ _ (S b)).
    + rewrite <- !app_assoc. rewrite Hv.
      replace (Z.of_nat (4 * b)) with (4 * Z.of_nat b) by lia.
      rewrite quad_indices_pattern by (cbn [length] in Hb; lia).
      reflexivity.
    + rewrite length_app, Hv. simpl. lia.
    + cbn [length] in Hb. lia.
Qed.

(** X7. The fallback geometry of a frame: the vertex list is the four
    rotated corners of each request in the order [End] left the requests,
    and the index list names, for the request at position [i], the
    vertices 4i, 4i+1, 4i+2, 4i+2, 4i+3, 4i: two triangles over its own
    four vertices. *)
Theorem X7_fallback_geometry_exact (camera : Z) (ds : list DrawArgs)
    (elapsed : float) (s : SpriteBatch.t) :
  wf s -> m_IsBatching s = false ->
  Z.of_nat (length ds) <= m_MaxSprites s ->
  4 * Z.of_nat (length ds) <= 2 ^ 32 ->
  exists s',
    frame camera ds elapsed s = Ok s' /\
    m_Vertices s'
    = concat (map (fun d => quad_vertices (instance d)) (m_SpriteDataList s')) /\
    m_Indices s' = concat (map quad_index_pattern (seq 0 (length ds))).
Proof.
  intros Hwf Hidle Hlen H4.
  destruct (frame_ok camera ds elapsed s Hwf Hidle)
    as (s' & Hf & Hl & _ & _ & _ & _ & _ & Hv & Hi & _).
  assert (Hn : length (sorted_requests s ds) = length ds).
  { rewrite sorted_requests_length, accept_all by exact Hlen.
    apply length_map. }
  exists s'. split; [exact Hf |].
  rewrite (generate_vertices_exact _ [] [] 0) in Hv, Hi;
    try reflexivity; try (rewrite Hn; simpl; lia).
  rewrite Hl, Hv, Hi, Hn. split; reflexivity.
Qed.

Lemma render_batches_exact (bs : list BatchInfo) :
  forall (a n pool : Z) (sets : gmap Z Z) (pool' : Z) (sets' : gmap Z Z),
  tiles a bs n -> 0 <= a -> 6 * n < 2 ^ 32 ->
  fst (render_batches bs (6 * a) pool sets) = Ok (pool', sets') ->
  snd (render_batches bs (6 * a) pool sets)
  = concat (map (batch_commands sets') bs) /\
  Forall (fun b => is_Some (sets' !! b_texture b)) bs.
Proof.
  induction bs as [| b bs IH]; intros a n pool sets pool' sets' Ht Ha Hn Hok.
  - split; [reflexivity | constructor].
  - cbn [tiles] in Ht. destruct Ht as (Hs & Hc & Ht).
    pose proof (tiles_le _ _ _ Ht) as Hle.
    assert (Hcnt : u32 (instanceCount b * 6) = 6 * instanceCount b)
      by (rewrite u32_small; lia).
    assert (Hoff : u32 (6 * a + 6 * instanceCount b)
                   = 6 * (a + instanceCount b))
      by (rewrite u32_small; lia).
    assert (Hstep : forall pool1 sets1 d,
      sets1 !! b_texture b = Some d ->
      fst (render_batches bs (6 * (a + instanceCount b)) pool1 sets1)
      = Ok (pool', sets') ->
      CmdBindDescriptorSets d
        :: CmdDrawIndexed (6 * instanceCount b) 1 (6 * a) 0 0
        :: snd (render_batches bs (6 * (a + instanceCount b)) pool1 sets1)
      = concat (map (batch_commands sets') (b :: bs)) /\
      Forall (fun b => is_Some (sets' !! b_texture b)) (b :: bs)).
    { intros pool1 sets1 d Hd Hok1.
      destruct (IH (a + instanceCount b) n pool1 sets1 pool' sets' Ht
                  ltac:(lia) Hn Hok1) as [Hcmds Hall].
      pose proof (render_batches_mono bs (6 * (a + instanceCount b)) pool1 sets1)
        as Hm.
      rewrite Hok1 in Hm. cbn [state_of snd] in Hm.
      pose proof (lookup_weaken _ _ _ _ Hd Hm) as Hd'.
      split.
      - cbn [map concat]. unfold batch_commands at 1. rewrite Hd', Hs, Hcmds.
        reflexivity.
      - constructor; [rewrite Hd'; eauto | exact Hall]. }
    destruct (sets !! b_texture b) as [d |] eqn:E.
    + rewrite (render_batches_hit b bs (6 * a) pool sets d E) in Hok |- *.
      cbn [fst snd] in Hok |- *. rewrite Hcnt, Hoff in Hok |- *.
      apply (Hstep pool sets d E Hok).
    + destruct (pool <? DESCRIPTOR_POOL_MAX_SETS) eqn:Ep.
      * rewrite (render_batches_alloc b bs (6 * a) pool sets E Ep) in Hok |- *.
        cbn [fst snd] in Hok |- *. rewrite Hcnt, Hoff in Hok |- *.
        apply (Hstep (pool + 1) (<[b_texture b := pool + 1]> sets) (pool + 1));
          [apply lookup_insert_eq | exact Hok].
      * rewrite (render_batches_exhausted b bs (6 * a) pool sets E Ep) in Hok.
        discriminate.
Qed.

(** The batch loop with its 32-bit arithmetic, for any number of
    instances. *)
Lemma render_batches_wrapped (bs : list BatchInfo) :
  forall (a n pool : Z) (sets : gmap Z Z) (pool' : Z) (sets' : gmap Z Z),
  tiles a bs n ->
  fst (render_batches bs (u32 (6 * a)) pool sets) = Ok (pool', sets') ->
  snd (render_batches bs (u32 (6 * a)) pool sets)
  = concat (map (wrapped_batch_commands sets') bs) /\
  Forall (fun b => is_Some (sets' !! b_texture b)) bs.
Proof.
  induction bs as [| b bs IH]; intros a n pool sets pool' sets' Ht Hok.
  - split; [reflexivity | constructor].
  - cbn [tiles] in Ht. destruct Ht as (Hs & Hc & Ht).
    assert (Hcnt : u32 (instanceCount b * 6) = u32 (6 * instanceCount b))
      by (f_equal; lia).
    assert (Hoff : u32 (u32 (6 * a) + u32 (6 * instanceCount b))
                   = u32 (6 * (a + instanceCount b))).
    { unfold u32. rewrite <- Zplus_mod. f_equal. lia. }
    assert (Hstep : forall pool1 sets1 d,
      sets1 !! b_texture b = Some d ->
      fst (render_batches bs (u32 (6 * (a + instanceCount b))) pool1 sets1)
      = Ok (pool', sets') ->
      CmdBindDescriptorSets d
        :: CmdDrawIndexed (u32 (6 * instanceCount b)) 1 (u32 (6 * a)) 0 0
        :: snd (render_batches bs (u32 (6 * (a + instanceCount b))) pool1 sets1)
      = concat (map (wrapped_batch_commands sets') (b :: bs)) /\
      Forall (fun b => is_Some (sets' !! b_texture b)) (b :: bs)).
    { intros pool1 sets1 d Hd Hok1.
      destruct (IH (a + instanceCount b) n pool1 sets1 pool' sets' Ht Hok1)
        as [Hcmds Hall].
      pose proof (render_batches_mono bs (u32 (6 * (a + instanceCount b)))
                    pool1 sets1) as Hm.
      rewrite Hok1 in Hm. cbn [state_of snd] in Hm.
      pose proof (lookup_weaken _ _ _ _ Hd Hm) as Hd'.
      split.
      - cbn [map concat]. unfold wrapped_batch_commands at 1.
        rewrite Hd', Hs, Hcmds. reflexivity.
      - constructor; [rewrite Hd'; eauto | exact Hall]. }
    destruct (sets !! b_texture b) as [d |] eqn:E.
    + rewrite (render_batches_hit b bs (u32 (6 * a)) pool sets d E) in Hok |- *.
      cbn [fst snd] in Hok |- *. rewrite Hcnt, Hoff in Hok |- *.
      apply (Hstep pool sets d E Hok).
    + destruct (pool <? DESCRIPTOR_POOL_MAX_SETS) eqn:Ep.
      * rewrite (render_batches_alloc b bs (u32 (6 * a)) pool sets E Ep)
          in Hok |- *.
        cbn [fst snd] in Hok |- *. rewrite Hcnt, Hoff in Hok |- *.
        apply (Hstep (pool + 1) (<[b_texture b := pool + 1]> sets) (pool + 1));
          [apply lookup_insert_eq | exact Hok].
      * rewrite (render_batches_exhausted b bs (u32 (6 * a)) pool sets E Ep)
          in Hok.
        discriminate.
Qed.

(** X8. When [Render] returns normally after a frame, whatever the number
    of draws, the commands after the six of the prologue are, batch by
    batch in order, the bind of the descriptor the cache holds for the
    texture of the batch and one indexed draw of six indices per instance
    starting at six times its first instance, both numbers reduced to 32
    bits; every batch texture has a descriptor in the cache.  When six
    times the number of instances is below 2^32 nothing is reduced: each
    draw call reads the indices of its own batch and no others. *)
Theorem X8_render_draws_each_batch (camera : Z) (ds : list DrawArgs)
    (elapsed : float) (extent : Z * Z) (cam : Camera2D.t)
    (s : SpriteBatch.t) :
  wf s -> m_IsBatching s = false ->
  exists s',
    frame camera ds elapsed s = Ok s' /\
    forall (s1 : SpriteBatch.t) (cam' : Camera2D.t) (cmds : list (VkCmd mat4)),
      Render extent cam s' = (Ok s1, cam', cmds) ->
      drop 6 cmds
      = concat (map (wrapped_batch_commands (m_DescriptorSets s1))
                  (m_Batches s')) /\
      Forall (fun b => is_Some (m_DescriptorSets s1 !! b_texture b))
        (m_Batches s') /\
      (6 * Z.of_nat (length (m_Instances s')) < 2 ^ 32 ->
       drop 6 cmds
       = concat (map (batch_commands (m_DescriptorSets s1)) (m_Batches s'))).
Proof.
  intros Hwf Hidle.
  destruct (frame_ok camera ds elapsed s Hwf Hidle)
    as (s' & Hf & _ & Hins & Ht & _).
  assert (Hn : length (m_Instances s')
               = length (accept (m_MaxSprites s) (m_WhiteTexture s) [] ds))
    by (rewrite Hins, length_map; apply sorted_requests_length).
  rewrite <- Hn in Ht.
  exists s'. split; [exact Hf |]. intros s1 cam' cmds HR.
  destruct (m_Batches s') as [| b bs] eqn:Eb.
  - unfold Render in HR. rewrite Eb in HR. injection HR as <- <- <-.
    split; [reflexivity |]. split; [constructor | reflexivity].
  - assert (Hne : m_Batches s' <> []) by (rewrite Eb; discriminate).
    rewrite (Render_eq extent cam s' Hne) in HR. rewrite Eb in HR.
    destruct (render_batches (b :: bs) 0 (m_DescriptorPool s')
                (m_DescriptorSets s')) as [r rcmds] eqn:Er.
    cbn [fst snd] in HR. destruct r as [[pool1 sets1] | w st]; [| discriminate].
    injection HR as <- <- <-. cbn [drop app state_of fst snd set_Descriptors
                                   m_DescriptorSets].
    pose proof (render_batches_wrapped (b :: bs) 0
                  (Z.of_nat (length (m_Instances s')))
                  (m_DescriptorPool s') (m_DescriptorSets s') pool1 sets1 Ht)
      as Hwr.
    change (u32 (6 * 0)) with 0 in Hwr. rewrite Er in Hwr.
    destruct (Hwr eq_refl) as [Hcmds Hall].
    split; [exact Hcmds |]. split; [exact Hall |]. intros H6.
    pose proof (render_batches_exact (b :: bs) 0
                  (Z.of_nat (length (m_Instances s')))
                  (m_DescriptorPool s') (m_DescriptorSets s') pool1 sets1
                  Ht ltac:(lia) H6) as Hex.
    change (6 * 0) with 0 in Hex. rewrite Er in Hex.
    apply Hex. reflexivity.
Qed.

End GeometryExact.

(** ** The older implementation, exactly *)

Section LegacyExact.
Context `{ExternMath}.
Import Spec.

Lemma runs_from_length (l : list Z) :
  forall cur start i, length (runs_from cur start i l) = runs (cur :: l).
Proof.
  induction l as [| t l IH]; intros cur start i; [reflexivity |].
  change (runs (cur :: t :: l))
    with (if cur =? t then runs (t :: l) else S (runs (t :: l))).
  cbn [runs_from]. rewrite (Z.eqb_sym cur t).
  destruct (t =? cur) eqn:E.
  - apply Z.eqb_eq in E. subst t. apply IH.
  - cbn [length]. rewrite IH. reflexivity.
Qed.

Lemma group_runs_length (l : list Z) : length (group_runs l) = runs l.
Proof. destruct l as [| t l]; [reflexivity | apply runs_from_length]. Qed.

Lemma legacy_record_batch (s : LegacySpriteBatch.t) (start k : nat) :
  index_end (LegacySpriteBatch.m_Batches s) = 6 * Z.of_nat start ->
  length (LegacySpriteBatch.m_Indices s) = (6 * k)%nat ->
  (start < k)%nat -> 6 * Z.of_nat k < 2 ^ 32 ->
  LegacySpriteBatch.record_batch s
  = LegacySpriteBatch.m_Batches s
    ++ [as_index_batch
          (SpriteBatch.MkBatch (LegacySpriteBatch.m_CurrentTexture s)
             (Z.of_nat start) (Z.of_nat k - Z.of_nat start))].
Proof.
  intros Hend Hlen Hlt Hk. unfold LegacySpriteBatch.record_batch.
  assert (Hstart :
    match last (LegacySpriteBatch.m_Batches s) with
    | None => 0
    | Some back =>
        u32 (LegacySpriteBatch.startIndex back
             + LegacySpriteBatch.indexCount back)
    end = 6 * Z.of_nat start).
  { unfold index_end in Hend.
    destruct (last (LegacySpriteBatch.m_Batches s)); [| exact Hend].
    rewrite Hend. apply u32_small. lia. }
  rewrite Hstart, Hlen.
  replace (Z.of_nat (6 * k)) with (6 * Z.of_nat k) by lia.
  rewrite (u32_small (6 * Z.of_nat k)) by lia.
  rewrite (u32_small (6 * Z.of_nat k - 6 * Z.of_nat start)) by lia.
  assert (Hpos : (0 <? 6 * Z.of_nat k - 6 * Z.of_nat start) = true)
    by (apply Z.ltb_lt; lia).
  rewrite Hpos. unfold as_index_batch. simpl. do 3 f_equal. lia.
Qed.

(** The draws of the older implementation from a state with a run open:
    what [End] will record, and the vertices and indices so far. *)
Lemma legacy_draw_all_exact (l : list SpriteBatch.DrawArgs) :
  forall (s : LegacySpriteBatch.t) (start k : nat),
  LegacySpriteBatch.m_IsBatching s = true ->
  LegacySpriteBatch.m_WhiteTexture s <> nullptr ->
  LegacySpriteBatch.m_CurrentTexture s <> nullptr ->
  index_end (LegacySpriteBatch.m_Batches s) = 6 * Z.of_nat start ->
  length (LegacySpriteBatch.m_Indices s) = (6 * k)%nat ->
  length (LegacySpriteBatch.m_Vertices s) = (4 * k)%nat ->
  (start < k)%nat -> 6 * Z.of_nat (k + length l) < 2 ^ 32 ->
  exists s',
    LegacySpriteBatch.draw_all l s = Ok s' /\
    LegacySpriteBatch.m_IsBatching s' = true /\
    LegacySpriteBatch.m_CurrentTexture s' <> nullptr /\
    LegacySpriteBatch.m_Vertices s' <> [] /\
    LegacySpriteBatch.record_batch s'
    = LegacySpriteBatch.m_Batches s
      ++ map as_index_batch
           (runs_from (LegacySpriteBatch.m_CurrentTexture s)
              (Z.of_nat start) (Z.of_nat k)
              (map (fun a => SpriteBatch.d_texture
                               (resolve (LegacySpriteBatch.m_WhiteTexture s) a)) l)) /\
    LegacySpriteBatch.m_Vertices s'
    = LegacySpriteBatch.m_Vertices s
      ++ concat (map (fun a => SpriteBatch.quad_vertices
                                 (SpriteBatch.instance
                                    (SpriteBatch.make_SpriteData
                                       (LegacySpriteBatch.m_WhiteTexture s) a))) l) /\
    LegacySpriteBatch.m_Indices s'
    = LegacySpriteBatch.m_Indices s
      ++ concat (map quad_index_pattern (seq k (length l))).
Proof.
  induction l as [| a l IH];
    intros s start k Hb Hw Hcur Hend Hi Hv Hlt Hk.
  - exists s. cbn [LegacySpriteBatch.draw_all map concat seq length].
    rewrite !app_nil_r. cbn [length] in Hk. rewrite Nat.add_0_r in Hk.
    split; [reflexivity |]. split; [exact Hb |]. split; [exact Hcur |].
    split; [| split; [| split; reflexivity]].
    + intros Hnil. rewrite Hnil in Hv. simpl in Hv. lia.
    + rewrite (legacy_record_batch s start k Hend Hi Hlt Hk). reflexivity.
  - cbn [LegacySpriteBatch.draw_all]. unfold LegacySpriteBatch.Draw at 1.
    rewrite Hb. cbn [negb and_then].
    assert (Hflush : (if LegacySpriteBatch.m_MaxSprites s
                           <=? LegacySpriteBatch.m_SpriteCount s
                      then LegacySpriteBatch.Flush s else s) = s)
      by (destruct (_ <=? _); reflexivity).
    rewrite Hflush.
    set (w := LegacySpriteBatch.m_WhiteTexture s) in *.
    set (tex := if SpriteBatch.d_texture a =? nullptr then w
                else SpriteBatch.d_texture a).
    assert (Htex : tex = SpriteBatch.d_texture (resolve w a)).
    { unfold tex, resolve, with_texture.
      destruct (SpriteBatch.d_texture a =? nullptr); reflexivity. }
    assert (Htexnn : tex <> nullptr).
    { unfold tex. destruct (SpriteBatch.d_texture a =? nullptr) eqn:E;
        [exact Hw | apply Z.eqb_neq; exact E]. }
    cbn [length] in Hk.
    assert (Hbase : u32 (Z.of_nat (length (LegacySpriteBatch.m_Vertices s)))
                    = 4 * Z.of_nat k).
    { rewrite Hv. rewrite u32_small; lia. }
    rewrite Hbase.
    assert (Hpat : SpriteBatch.quad_indices (4 * Z.of_nat k)
                   = quad_index_pattern k).
    { rewrite <- (quad_indices_pattern k) by lia.
      rewrite (u32_small (4 * Z.of_nat k)) by lia. reflexivity. }
    rewrite Hpat.
    cbn [map concat seq length runs_from]. rewrite <- Htex.
    assert (Hne : (LegacySpriteBatch.m_CurrentTexture s =? nullptr) = false)
      by (apply Z.eqb_neq; exact Hcur).
    rewrite Hne. cbn [negb].
    destruct (tex =? LegacySpriteBatch.m_CurrentTexture s) eqn:E; cbn [negb].
    + apply Z.eqb_eq in E.
      match goal with |- context [LegacySpriteBatch.draw_all l ?st] =>
        set (st1 := st) end.
      assert (Hi1 : length (LegacySpriteBatch.m_Indices st1) = (6 * S k)%nat)
        by (unfold st1; cbn [LegacySpriteBatch.m_Indices];
            rewrite length_app, Hi; simpl; lia).
      assert (Hv1 : length (LegacySpriteBatch.m_Vertices st1) = (4 * S k)%nat)
        by (unfold st1; cbn [LegacySpriteBatch.m_Vertices];
            rewrite length_app, Hv; simpl; lia).
      destruct (IH st1 start (S k) Hb Hw Htexnn Hend Hi1 Hv1 ltac:(lia) ltac:(lia))
        as (s' & Hd & Hb' & Hc' & Hv' & Hr' & Hvs & His).
      exists s'. split; [exact Hd |]. split; [exact Hb' |].
      split; [exact Hc' |]. split; [exact Hv' |].
      unfold st1 in Hr', Hvs, His.
      cbn [LegacySpriteBatch.m_Batches LegacySpriteBatch.m_CurrentTexture
           LegacySpriteBatch.m_WhiteTexture LegacySpriteBatch.m_Vertices
           LegacySpriteBatch.m_Indices] in Hr', Hvs, His.
      fold w in Hr', Hvs. rewrite E in Hr'.
      replace (Z.of_nat k + 1) with (Z.of_nat (S k)) by lia.
      split; [exact Hr' |].
      rewrite Hvs, His, <- !app_assoc. split; reflexivity.
    + rewrite (legacy_record_batch s start k Hend Hi Hlt ltac:(lia)).
      match goal with |- context [LegacySpriteBatch.draw_all l ?st] =>
        set (st1 := st) end.
      assert (Hend1 : index_end (LegacySpriteBatch.m_Batches st1)
                      = 6 * Z.of_nat k).
      { unfold st1. cbn [LegacySpriteBatch.m_Batches]. unfold index_end.
        rewrite last_snoc. unfold as_index_batch. simpl. lia. }
      assert (Hi1 : length (LegacySpriteBatch.m_Indices st1) = (6 * S k)%nat)
        by (unfold st1; cbn [LegacySpriteBatch.m_Indices];
            rewrite length_app, Hi; simpl; lia).
      assert (Hv1 : length (LegacySpriteBatch.m_Vertices st1) = (4 * S k)%nat)
        by (unfold st1; cbn [LegacySpriteBatch.m_Vertices];
            rewrite length_app, Hv; simpl; lia).
      destruct (IH st1 k (S k) Hb Hw Htexnn Hend1 Hi1 Hv1 ltac:(lia) ltac:(lia))
        as (s' & Hd & Hb' & Hc' & Hv' & Hr' & Hvs & His).
      exists s'. split; [exact Hd |]. split; [exact Hb' |].
      split; [exact Hc' |]. split; [exact Hv' |].
      unfold st1 in Hr', Hvs, His.
      cbn [LegacySpriteBatch.m_Batches LegacySpriteBatch.m_CurrentTexture
           LegacySpriteBatch.m_WhiteTexture LegacySpriteBatch.m_Vertices
           LegacySpriteBatch.m_Indices] in Hr', Hvs, His.
      fold w in Hr', Hvs.
      replace (Z.of_nat k + 1) with (Z.of_nat (S k)) by lia.
      rewrite Hr', Hvs, His, <- !app_assoc. repeat split.
Qed.

End LegacyExact.

Section LegacyClaims.
Context `{ExternMath}.
Import Spec.

Lemma legacy_frame_exact (camera : Z) (ds : list SpriteBatch.DrawArgs)
    (t : LegacySpriteBatch.t) :
  LegacySpriteBatch.m_IsBatching t = false ->
  LegacySpriteBatch.m_WhiteTexture t <> nullptr ->
  Z.of_nat (length ds) <= LegacySpriteBatch.m_MaxSprites t ->
  6 * Z.of_nat (length ds) < 2 ^ 32 ->
  let w := LegacySpriteBatch.m_WhiteTexture t in
  let textures := map (fun a => SpriteBatch.d_texture (resolve w a)) ds in
  exists t',
    LegacySpriteBatch.frame camera ds t = Some (Ok t') /\
    LegacySpriteBatch.m_IsBatching t' = false /\
    LegacySpriteBatch.m_Batches t' = map as_index_batch (group_runs textures) /\
    LegacySpriteBatch.m_DrawCallCount t' = Z.of_nat (runs textures) /\
    LegacySpriteBatch.m_Vertices t'
    = concat (map (fun a => SpriteBatch.quad_vertices
                              (SpriteBatch.instance
                                 (SpriteBatch.make_SpriteData w a))) ds) /\
    LegacySpriteBatch.m_Indices t'
    = concat (map quad_index_pattern (seq 0 (length ds))) /\
    take (length (LegacySpriteBatch.m_Vertices t'))
      (LegacySpriteBatch.m_VertexBuffer t') = LegacySpriteBatch.m_Vertices t' /\
    take (length (LegacySpriteBatch.m_Indices t'))
      (LegacySpriteBatch.m_IndexBuffer t') = LegacySpriteBatch.m_Indices t'.
Proof.
  intros Hidle Hw Hcap Hlen w textures.
  destruct (legacy_drawn_keeps_all camera ds t Hidle)
    as (s0 & Hd0 & _ & Hm0 & _ & Hv0 & Hi0 & _).
  unfold LegacySpriteBatch.frame. rewrite Hd0.
  destruct (upload_fits (LegacySpriteBatch.vertex_buffer_slots s0)
              (LegacySpriteBatch.m_VertexBuffer s0)
              (LegacySpriteBatch.m_Vertices s0)) as (vb & Hvb & Hvbt).
  { unfold LegacySpriteBatch.vertex_buffer_slots. rewrite Hm0, Hv0. lia. }
  destruct (upload_fits (LegacySpriteBatch.index_buffer_slots s0)
              (LegacySpriteBatch.m_IndexBuffer s0)
              (LegacySpriteBatch.m_Indices s0)) as (ib & Hib & Hibt).
  { unfold LegacySpriteBatch.index_buffer_slots. rewrite Hm0, Hi0. lia. }
  revert Hd0.
  unfold LegacySpriteBatch.drawn, LegacySpriteBatch.Begin. rewrite Hidle.
  cbn [and_then]. destruct ds as [| a l].
  - cbn [LegacySpriteBatch.draw_all and_then]. intros Hd0.
    injection Hd0 as <-. cbn in Hvb, Hib. injection Hvb as <-.
    injection Hib as <-. eexists. split; [reflexivity |]. repeat split.
  - cbn [LegacySpriteBatch.draw_all]. unfold LegacySpriteBatch.Draw at 1.
    cbn [LegacySpriteBatch.m_IsBatching negb and_then
         LegacySpriteBatch.m_MaxSprites LegacySpriteBatch.m_SpriteCount].
    match goal with |- context [if ?c then LegacySpriteBatch.Flush ?st else _] =>
      assert (Hflush : (if c then LegacySpriteBatch.Flush st else st) = st)
        by (destruct c; reflexivity); rewrite Hflush; clear Hflush end.
    cbn [LegacySpriteBatch.m_WhiteTexture LegacySpriteBatch.m_CurrentTexture
         LegacySpriteBatch.m_Batches LegacySpriteBatch.m_Vertices
         LegacySpriteBatch.m_Indices LegacySpriteBatch.m_CurrentCamera
         LegacySpriteBatch.m_DrawCallCount LegacySpriteBatch.m_IsBatching
         LegacySpriteBatch.m_MaxSprites LegacySpriteBatch.m_SpriteCount
         LegacySpriteBatch.m_VertexBuffer LegacySpriteBatch.m_IndexBuffer
         app length].
    fold w.
    set (tex := if SpriteBatch.d_texture a =? nullptr then w
                else SpriteBatch.d_texture a).
    assert (Htex : tex = SpriteBatch.d_texture (resolve w a)).
    { unfold tex, resolve, with_texture.
      destruct (SpriteBatch.d_texture a =? nullptr); reflexivity. }
    assert (Htexnn : tex <> nullptr).
    { unfold tex. destruct (SpriteBatch.d_texture a =? nullptr) eqn:E;
        [exact Hw | apply Z.eqb_neq; exact E]. }
    assert (Hbranch : (if negb (tex =? nullptr)
                       then if negb (nullptr =? nullptr)
                            then LegacySpriteBatch.record_batch
                                   (LegacySpriteBatch.Mk [] [] [] nullptr camera
                                      (LegacySpriteBatch.m_MaxSprites t) 0 0 true w
                                      (LegacySpriteBatch.m_VertexBuffer t)
                                      (LegacySpriteBatch.m_IndexBuffer t))
                            else []
                       else []) = @nil LegacySpriteBatch.BatchInfo)
      by (destruct (negb (tex =? nullptr)); reflexivity).
    rewrite Hbranch. clear Hbranch.
    match goal with |- context [LegacySpriteBatch.draw_all l ?st] =>
      set (st1 := st) end.
    cbn [length] in Hlen.
    destruct (legacy_draw_all_exact l st1 0 1 eq_refl Hw Htexnn eq_refl
                eq_refl eq_refl ltac:(lia) ltac:(lia))
      as (s' & Hd & Hb' & Hc' & Hv' & Hr' & Hvs & His).
    rewrite Hd. intros Hd0. injection Hd0 as <-.
    unfold LegacySpriteBatch.End. rewrite Hb', Hvb, Hib.
    cbn [negb].
    assert (Hcur : (LegacySpriteBatch.m_CurrentTexture s' =? nullptr) = false)
      by (apply Z.eqb_neq; exact Hc').
    rewrite Hcur, (bool_decide_eq_false_2 _ Hv'). cbn [negb andb].
    eexists. split; [reflexivity |].
    cbn [LegacySpriteBatch.m_IsBatching LegacySpriteBatch.m_Batches
         LegacySpriteBatch.m_DrawCallCount LegacySpriteBatch.m_Vertices
         LegacySpriteBatch.m_Indices LegacySpriteBatch.m_VertexBuffer
         LegacySpriteBatch.m_IndexBuffer].
    unfold st1 in Hr', Hvs, His.
    cbn [LegacySpriteBatch.m_Batches LegacySpriteBatch.m_CurrentTexture
         LegacySpriteBatch.m_WhiteTexture LegacySpriteBatch.m_Vertices
         LegacySpriteBatch.m_Indices app] in Hr', Hvs, His.
    fold w in Hvs.
    assert (Hgroups : LegacySpriteBatch.record_batch s'
                      = map as_index_batch (group_runs textures)).
    { rewrite Hr'. unfold textures. cbn [map group_runs]. rewrite <- Htex.
      reflexivity. }
    split; [reflexivity |]. split; [exact Hgroups |].
    split; [| split; [| split; [| split]]].
    + rewrite Hgroups, length_map, group_runs_length.
      apply u32_small.
      pose proof (runs_le_length textures) as Hr. unfold textures in Hr at 2.
      rewrite length_map in Hr. cbn [length] in Hr. lia.
    + rewrite Hvs. reflexivity.
    + rewrite His. reflexivity.
    + exact Hvbt.
    + exact Hibt.
Qed.

(** X9. The older implementation, which builds its batches while
    drawing.  For a frame within capacity whose indices fit 32 bits, on
    an engine whose white texture exists, [End] returns; its batches are
    the maximal runs of equal textures among neighbouring submissions,
    each recorded as the range of its indices (six per sprite, first
    index six times the first sprite); the draw-call count is the number
    of those runs; and the two mapped buffers start with the vertices and
    the indices of the frame. *)
Theorem X9_legacy_batches_are_runs (camera : Z)
    (ds : list SpriteBatch.DrawArgs) (t : LegacySpriteBatch.t) :
  LegacySpriteBatch.m_IsBatching t = false ->
  LegacySpriteBatch.m_WhiteTexture t <> nullptr ->
  Z.of_nat (length ds) <= LegacySpriteBatch.m_MaxSprites t ->
  6 * Z.of_nat (length ds) < 2 ^ 32 ->
  exists t',
    LegacySpriteBatch.frame camera ds t = Some (Ok t') /\
    LegacySpriteBatch.m_Batches t'
    = map as_index_batch
        (group_runs
           (map (fun a => SpriteBatch.d_texture
                            (resolve (LegacySpriteBatch.m_WhiteTexture t) a)) ds)) /\
    LegacySpriteBatch.m_DrawCallCount t'
    = Z.of_nat
        (runs (map (fun a => SpriteBatch.d_texture
                               (resolve (LegacySpriteBatch.m_WhiteTexture t) a)) ds)) /\
    take (length (LegacySpriteBatch.m_Vertices t'))
      (LegacySpriteBatch.m_VertexBuffer t') = LegacySpriteBatch.m_Vertices t' /\
    take (length (LegacySpriteBatch.m_Indices t'))
      (LegacySpriteBatch.m_IndexBuffer t') = LegacySpriteBatch.m_Indices t'.
Proof.
  intros Hidle Hw Hcap Hlen.
  destruct (legacy_frame_exact camera ds t Hidle Hw Hcap Hlen)
    as (t' & Hf & _ & Hb & Hc & _ & _ & Hvb & Hib).
  exists t'. split; [exact Hf |]. split; [exact Hb |].
  split; [exact Hc |]. split; [exact Hvb | exact Hib].
Qed.

(** X10. The two implementations agree.  With sorting switched off, the
    same white texture, the requests within the capacity of both engines
    and their indices within 32 bits, the implementation with instance
    records produces the same vertices, the same indices and the same
    number of draw calls as the older one, and its batches are the older
    one's batches counted in instances instead of indices. *)
Theorem X10_implementations_agree (camera : Z)
    (ds : list SpriteBatch.DrawArgs) (elapsed : float)
    (s : SpriteBatch.t) (t : LegacySpriteBatch.t) :
  wf s -> SpriteBatch.m_IsBatching s = false ->
  SpriteBatch.m_EnableTextureSorting s = false ->
  LegacySpriteBatch.m_IsBatching t = false ->
  LegacySpriteBatch.m_WhiteTexture t = SpriteBatch.m_WhiteTexture s ->
  Z.of_nat (length ds) <= SpriteBatch.m_MaxSprites s ->
  Z.of_nat (length ds) <= LegacySpriteBatch.m_MaxSprites t ->
  6 * Z.of_nat (length ds) < 2 ^ 32 ->
  exists s' t',
    SpriteBatch.frame camera ds elapsed s = Ok s' /\
    LegacySpriteBatch.frame camera ds t = Some (Ok t') /\
    LegacySpriteBatch.m_Vertices t' = SpriteBatch.m_Vertices s' /\
    LegacySpriteBatch.m_Indices t' = SpriteBatch.m_Indices s' /\
    LegacySpriteBatch.m_Batches t'
    = map as_index_batch (SpriteBatch.m_Batches s') /\
    LegacySpriteBatch.m_DrawCallCount t' = SpriteBatch.GetDrawCallCount s'.
Proof.
  intros Hwf Hidle Hsort Hidle_t Hwt Hlen Hcap H6.
  assert (Hw : LegacySpriteBatch.m_WhiteTexture t <> nullptr)
    by (rewrite Hwt; apply Hwf).
  destruct (legacy_frame_exact camera ds t Hidle_t Hw Hcap H6)
    as (t' & Hft & _ & Hbt & Hct & Hvt & Hit & _).
  cbv zeta in Hbt, Hct, Hvt. rewrite Hwt in Hbt, Hct, Hvt.
  destruct (frame_batches_exact camera ds elapsed s Hwf Hidle)
    as (s' & Hf & Hl & Hb).
  destruct (frame_ok camera ds elapsed s Hwf Hidle)
    as (s2 & Hf2 & _ & _ & _ & Hruns & _ & Hst & Hv & Hi & _).
  rewrite Hf in Hf2. injection Hf2 as <-.
  assert (Hreq : sorted_requests s ds
                 = map (SpriteBatch.make_SpriteData (SpriteBatch.m_WhiteTexture s)) ds).
  { unfold sorted_requests. rewrite Hsort. apply accept_all. exact Hlen. }
  rewrite Hreq in *. rewrite resolved_textures in Hb, Hruns.
  rewrite (generate_vertices_exact _ [] [] 0) in Hv, Hi;
    try reflexivity; try (rewrite length_map; simpl; lia).
  rewrite length_map in Hi. cbn [app] in Hv, Hi. rewrite map_map in Hv.
  exists s', t'. split; [exact Hf |]. split; [exact Hft |].
  split; [rewrite Hvt, Hv; reflexivity |].
  split; [rewrite Hit, Hi; reflexivity |].
  split; [rewrite Hbt, Hb; reflexivity |].
  rewrite Hct. unfold SpriteBatch.GetDrawCallCount. rewrite Hst. simpl.
  rewrite Hruns. symmetry. apply u32_small. destruct Hwf as [Hmax _].
  pose proof (runs_le_length
                (map (fun a => SpriteBatch.d_texture
                                 (resolve (SpriteBatch.m_WhiteTexture s) a)) ds)) as Hr.
  rewrite length_map in Hr. lia.
Qed.

End LegacyClaims.

(** ** The camera through any sequence of calls *)

Section CameraSequence.
Context `{ExternMath}.
Import Spec.

Lemma create_cache_valid (width height : float) :
  camera_cache_valid (Camera2D.create width height).
Proof. split; intros _; reflexivity. Qed.

Lemma camera_call_cache_valid (c : Camera2D.t) (call : CameraCall) :
  camera_cache_valid c -> camera_cache_valid (camera_call c call).
Proof.
  intros [Hv Hp]. destruct c as [pos rot zoom w h vm pm vd pd].
  cbn [Camera2D.m_ViewDirty Camera2D.m_ProjectionDirty Camera2D.m_ViewMatrix
       Camera2D.m_ProjectionMatrix Camera2D.m_Zoom Camera2D.m_Rotation
       Camera2D.m_Position Camera2D.m_ViewportWidth Camera2D.m_ViewportHeight]
    in Hv, Hp.
  destruct call;
    cbv [camera_call camera_cache_valid
         Camera2D.GetViewProjectionMatrix Camera2D.GetViewMatrix
         Camera2D.GetProjectionMatrix Camera2D.SetPosition
         Camera2D.SetRotation Camera2D.SetZoom Camera2D.SetViewport
         Camera2D.Move Camera2D.Rotate Camera2D.Zoom
         Camera2D.UpdateViewMatrix Camera2D.UpdateProjectionMatrix
         Camera2D.set_zoom Camera2D.set_view_dirty
         Camera2D.m_ViewDirty Camera2D.m_ProjectionDirty Camera2D.m_ViewMatrix
         Camera2D.m_ProjectionMatrix Camera2D.m_Zoom Camera2D.m_Rotation
         Camera2D.m_Position Camera2D.m_ViewportWidth
         Camera2D.m_ViewportHeight fst snd];
    repeat match goal with
           | |- context [if ?b then _ else _] => destruct b
           end;
    split; intros Hd; try discriminate Hd; try reflexivity;
    try (apply Hv; reflexivity); try (apply Hp; reflexivity);
    try (apply Hv; exact Hd); try (apply Hp; exact Hd).
Qed.

Lemma camera_calls_cache_valid (calls : list CameraCall) :
  forall c, camera_cache_valid c -> camera_cache_valid (camera_calls calls c).
Proof.
  induction calls as [| call rest IH]; intros c Hc; [exact Hc |].
  apply IH, camera_call_cache_valid, Hc.
Qed.

Lemma camera_call_zoom (c : Camera2D.t) (call : CameraCall) :
  F32.ltb (Camera2D.m_Zoom c) F32.tenth = false ->
  F32.ltb (Camera2D.m_Zoom (camera_call c call)) F32.tenth = false.
Proof.
  intros Hz. destruct call; try exact Hz.
  - unfold camera_call. rewrite SetZoom_zoom. apply clamped_not_below.
  - unfold camera_call. rewrite Zoom_zoom. apply clamped_not_below.
  - destruct c as [pos rot zoom w h vm pm [] pd]; exact Hz.
  - destruct c as [pos rot zoom w h vm pm vd []]; exact Hz.
  - destruct c as [pos rot zoom w h vm pm [] []]; exact Hz.
Qed.

Lemma camera_calls_zoom (calls : list CameraCall) :
  forall c, F32.ltb (Camera2D.m_Zoom c) F32.tenth = false ->
  F32.ltb (Camera2D.m_Zoom (camera_calls calls c)) F32.tenth = false.
Proof.
  induction calls as [| call rest IH]; intros c Hc; [exact Hc |].
  apply IH, camera_call_zoom, Hc.
Qed.

Lemma GetViewProjectionMatrix_valid (c : Camera2D.t) :
  camera_cache_valid c ->
  snd (Camera2D.GetViewProjectionMatrix c)
  = mat4_mul
      (glm_ortho F32.zero (Camera2D.m_ViewportWidth c) F32.zero
         (Camera2D.m_ViewportHeight c) (F32.neg F32.one) F32.one)
      (Camera2D.view_transform (Camera2D.m_Zoom c) (Camera2D.m_Rotation c)
         (Camera2D.m_Position c)).
Proof.
  intros [Hv Hp]. destruct c as [pos rot zoom w h vm pm vd pd].
  cbn [Camera2D.m_ViewDirty Camera2D.m_ProjectionDirty Camera2D.m_ViewMatrix
       Camera2D.m_ProjectionMatrix Camera2D.m_Zoom Camera2D.m_Rotation
       Camera2D.m_Position Camera2D.m_ViewportWidth Camera2D.m_ViewportHeight]
    in *.
  destruct vd, pd; cbn; rewrite ?Hv, ?Hp by reflexivity; reflexivity.
Qed.

(** X11. The lazily cached matrices are never stale.  After any sequence
    of calls of the public interface on a freshly constructed camera
    (setters, relative moves, and the getters that refresh the caches),
    the view-projection matrix handed out is the product of the
    orthographic projection of the current viewport and the view
    transform of the current zoom, rotation and position; and the zoom
    never compares below 0.1f. *)
Theorem X11_camera_never_stale (width height : float)
    (calls : list CameraCall) :
  let c := camera_calls calls (Camera2D.create width height) in
  snd (Camera2D.GetViewProjectionMatrix c)
  = mat4_mul
      (glm_ortho F32.zero (Camera2D.m_ViewportWidth c) F32.zero
         (Camera2D.m_ViewportHeight c) (F32.neg F32.one) F32.one)
      (Camera2D.view_transform (Camera2D.m_Zoom c) (Camera2D.m_Rotation c)
         (Camera2D.m_Position c)) /\
  F32.ltb (Camera2D.m_Zoom c) F32.tenth = false.
Proof.
  cbv zeta. split.
  - apply GetViewProjectionMatrix_valid, camera_calls_cache_valid,
      create_cache_valid.
  - apply camera_calls_zoom. reflexivity.
Qed.

End CameraSequence.

(** ** The UTF-8 decoder *)

Section Utf8Facts.
Import Spec.
Import TextRenderer.

Lemma decode_utf8_cons (c : Z) (rest : list Z) :
  decode_utf8 (c :: rest)
  = if Z.land c 0x80 =? 0 then
      push_codepoint c (decode_utf8 rest)
    else if Z.land c 0xE0 =? 0xC0 then
      match rest with
      | b1 :: rest1 =>
          push_codepoint
            (Z.lor (Z.shiftl (Z.land c 0x1F) 6) (Z.land b1 0x3F))
            (decode_utf8 rest1)
      | _ => decode_utf8 rest
      end
    else if Z.land c 0xF0 =? 0xE0 then
      match rest with
      | b1 :: b2 :: rest2 =>
          push_codepoint
            (Z.lor (Z.lor (Z.shiftl (Z.land c 0x0F) 12)
                          (Z.shiftl (Z.land b1 0x3F) 6))
                   (Z.land b2 0x3F))
            (decode_utf8 rest2)
      | _ => decode_utf8 rest
      end
    else if Z.land c 0xF8 =? 0xF0 then
      match rest with
      | b1 :: b2 :: b3 :: rest3 =>
          push_codepoint
            (Z.lor (Z.lor (Z.lor (Z.shiftl (Z.land c 0x07) 18)
                                 (Z.shiftl (Z.land b1 0x3F) 12))
                          (Z.shiftl (Z.land b2 0x3F) 6))
                   (Z.land b3 0x3F))
            (decode_utf8 rest3)
      | _ => decode_utf8 rest
      end
    else decode_utf8 rest.
Proof. reflexivity. Qed.

(** A check that holds on every element of a range holds on the range. *)
Lemma range_check (p : Z -> bool) (lo : Z) (n : nat) :
  forallb p (map (fun i => lo + Z.of_nat i) (seq 0 n)) = true ->
  forall b, lo <= b < lo + Z.of_nat n -> p b = true.
Proof.
  intros Hall b Hb. rewrite forallb_forall in Hall. apply Hall.
  apply in_map_iff. exists (Z.to_nat (b - lo)). split; [lia |].
  apply in_seq. lia.
Qed.

Lemma land_shiftl_low (x y n : Z) :
  0 <= n -> 0 <= y < 2 ^ n -> Z.land (Z.shiftl x n) y = 0.
Proof.
  intros Hn Hy. apply Z.bits_inj'. intros i Hi.
  rewrite Z.land_spec, Z.bits_0.
  destruct (Z.lt_ge_cases i n) as [Hlt | Hge].
  - rewrite Z.shiftl_spec_low by exact Hlt. reflexivity.
  - rewrite <- (Z.mod_small y (2 ^ n)) by exact Hy.
    rewrite Z.mod_pow2_bits_high by lia. apply andb_false_r.
Qed.

Lemma lor_shiftl_add (x y n : Z) :
  0 <= n -> 0 <= y < 2 ^ n -> Z.lor (Z.shiftl x n) y = x * 2 ^ n + y.
Proof.
  intros Hn Hy. pose proof (Z.add_lor_land (Z.shiftl x n) y) as Hadd.
  rewrite (land_shiftl_low x y n Hn Hy) in Hadd.
  rewrite Z.shiftl_mul_pow2 in Hadd |- * by exact Hn. lia.
Qed.

Lemma pack2 (a b : Z) :
  0 <= b < 64 -> Z.lor (Z.shiftl a 6) b = 64 * a + b.
Proof.
  intros Hb. rewrite (lor_shiftl_add a b 6) by (simpl; lia). simpl. lia.
Qed.

Lemma pack3 (a b c : Z) :
  0 <= b < 64 -> 0 <= c < 64 ->
  Z.lor (Z.lor (Z.shiftl a 12) (Z.shiftl b 6)) c = 4096 * a + 64 * b + c.
Proof.
  intros Hb Hc.
  replace (Z.shiftl a 12) with (Z.shiftl (Z.shiftl a 6) 6)
    by (rewrite Z.shiftl_shiftl by lia; reflexivity).
  rewrite <- Z.shiftl_lor, (pack2 a b Hb), (pack2 _ c Hc). lia.
Qed.

Lemma pack4 (a b c d : Z) :
  0 <= b < 64 -> 0 <= c < 64 -> 0 <= d < 64 ->
  Z.lor (Z.lor (Z.lor (Z.shiftl a 18) (Z.shiftl b 12)) (Z.shiftl c 6)) d
  = 262144 * a + 4096 * b + 64 * c + d.
Proof.
  intros Hb Hc Hd.
  replace (Z.shiftl a 18) with (Z.shiftl (Z.shiftl a 12) 6)
    by (rewrite Z.shiftl_shiftl by lia; reflexivity).
  replace (Z.shiftl b 12) with (Z.shiftl (Z.shiftl b 6) 6)
    by (rewrite Z.shiftl_shiftl by lia; reflexivity).
  rewrite <- !Z.shiftl_lor, (pack3 a b c Hb Hc), (pack2 _ d Hd). lia.
Qed.

Lemma mask_1F (c : Z) : Z.land c 0x1F = c mod 32.
Proof. exact (Z.land_ones c 5 ltac:(lia)). Qed.

Lemma mask_0F (c : Z) : Z.land c 0x0F = c mod 16.
Proof. exact (Z.land_ones c 4 ltac:(lia)). Qed.

Lemma mask_07 (c : Z) : Z.land c 0x07 = c mod 8.
Proof. exact (Z.land_ones c 3 ltac:(lia)). Qed.

Lemma mask_3F (c : Z) : Z.land c 0x3F = c mod 64.
Proof. exact (Z.land_ones c 6 ltac:(lia)). Qed.

Lemma lead1 (b : Z) : 0 <= b < 0x80 -> (Z.land b 0x80 =? 0) = true.
Proof.
  intros Hb.
  apply (range_check (fun b => Z.land b 0x80 =? 0) 0 128);
    [vm_compute; reflexivity | simpl; lia].
Qed.

Lemma lead2 (b : Z) :
  0xC0 <= b < 0xE0 ->
  (Z.land b 0x80 =? 0) = false /\ (Z.land b 0xE0 =? 0xC0) = true.
Proof.
  intros Hb.
  assert (Hp : negb (Z.land b 0x80 =? 0) && (Z.land b 0xE0 =? 0xC0) = true).
  { apply (range_check
             (fun b => negb (Z.land b 0x80 =? 0) && (Z.land b 0xE0 =? 0xC0))
             0xC0 32); [vm_compute; reflexivity | simpl; lia]. }
  apply andb_prop in Hp. destruct Hp as [H1 H2].
  apply negb_true_iff in H1. split; assumption.
Qed.

Lemma lead3 (b : Z) :
  0xE0 <= b < 0xF0 ->
  (Z.land b 0x80 =? 0) = false /\ (Z.land b 0xE0 =? 0xC0) = false /\
  (Z.land b 0xF0 =? 0xE0) = true.
Proof.
  intros Hb.
  assert (Hp : negb (Z.land b 0x80 =? 0)
               && (negb (Z.land b 0xE0 =? 0xC0) && (Z.land b 0xF0 =? 0xE0))
               = true).
  { apply (range_check
             (fun b => negb (Z.land b 0x80 =? 0)
                       && (negb (Z.land b 0xE0 =? 0xC0)
                           && (Z.land b 0xF0 =? 0xE0)))
             0xE0 16); [vm_compute; reflexivity | simpl; lia]. }
  apply andb_prop in Hp. destruct Hp as [H1 Hp].
  apply andb_prop in Hp. destruct Hp as [H2 H3].
  apply negb_true_iff in H1, H2. repeat split; assumption.
Qed.

Lemma lead4 (b : Z) :
  0xF0 <= b < 0xF8 ->
  (Z.land b 0x80 =? 0) = false /\ (Z.land b 0xE0 =? 0xC0) = false /\
  (Z.land b 0xF0 =? 0xE0) = false /\ (Z.land b 0xF8 =? 0xF0) = true.
Proof.
  intros Hb.
  assert (Hp : negb (Z.land b 0x80 =? 0)
               && (negb (Z.land b 0xE0 =? 0xC0)
                   && (negb (Z.land b 0xF0 =? 0xE0)
                       && (Z.land b 0xF8 =? 0xF0)))
               = true).
  { apply (range_check
             (fun b => negb (Z.land b 0x80 =? 0)
                       && (negb (Z.land b 0xE0 =? 0xC0)
                           && (negb (Z.land b 0xF0 =? 0xE0)
                               && (Z.land b 0xF8 =? 0xF0))))
             0xF0 8); [vm_compute; reflexivity | simpl; lia]. }
  apply andb_prop in Hp. destruct Hp as [H1 Hp].
  apply andb_prop in Hp. destruct Hp as [H2 Hp].
  apply andb_prop in Hp. destruct Hp as [H3 H4].
  apply negb_true_iff in H1, H2, H3. repeat split; assumption.
Qed.

Lemma push_codepoint_pos (c : Z) (l : list Z) :
  0 < c -> push_codepoint c l = c :: l.
Proof.
  intros Hc. unfold push_codepoint.
  destruct (0 <? c) eqn:E; [reflexivity | apply Z.ltb_ge in E; lia].
Qed.

(** One encoded code point at the head of the bytes is decoded to itself
    and the decoder goes on behind it. *)
Lemma decode_utf8_encode (c : Z) (rest : list Z) :
  0 < c <= 0x10FFFF ->
  decode_utf8 (utf8_encode c ++ rest) = c :: decode_utf8 rest.
Proof.
  intros Hc. unfold utf8_encode.
  destruct (c <? 0x80) eqn:E1; [| destruct (c <? 0x800) eqn:E2;
    [| destruct (c <? 0x10000) eqn:E3]];
    rewrite ?Z.ltb_lt, ?Z.ltb_ge in *; cbn [app]; rewrite decode_utf8_cons.
  - rewrite lead1 by lia. apply push_codepoint_pos. lia.
  - assert (Hb : 0xC0 <= 0xC0 + c / 64 < 0xE0)
      by (Z.div_mod_to_equations; lia).
    destruct (lead2 _ Hb) as [-> ->].
    rewrite mask_1F, mask_3F, pack2 by (apply Z.mod_pos_bound; lia).
    rewrite <- push_codepoint_pos with (l := decode_utf8 rest) by lia.
    f_equal. Z.div_mod_to_equations. lia.
  - assert (Hb : 0xE0 <= 0xE0 + c / 4096 < 0xF0)
      by (Z.div_mod_to_equations; lia).
    destruct (lead3 _ Hb) as (-> & -> & ->).
    rewrite mask_0F, !mask_3F, pack3 by (apply Z.mod_pos_bound; lia).
    rewrite <- push_codepoint_pos with (l := decode_utf8 rest) by lia.
    f_equal. Z.div_mod_to_equations. lia.
  - assert (Hb : 0xF0 <= 0xF0 + c / 262144 < 0xF8)
      by (Z.div_mod_to_equations; lia).
    destruct (lead4 _ Hb) as (-> & -> & -> & ->).
    rewrite mask_07, !mask_3F, pack4 by (apply Z.mod_pos_bound; lia).
    rewrite <- push_codepoint_pos with (l := decode_utf8 rest) by lia.
    f_equal. Z.div_mod_to_equations. lia.
Qed.

Lemma decode_utf8_encode_all (cps : list Z) :
  Forall (fun c => 0 < c <= 0x10FFFF) cps ->
  decode_utf8 (concat (map utf8_encode cps)) = cps.
Proof.
  induction 1 as [| c cps Hc _ IH]; [reflexivity |].
  cbn [map concat]. rewrite decode_utf8_encode by exact Hc. rewrite IH.
  reflexivity.
Qed.

(** X12. The decoder reads well-formed UTF-8 correctly: a string whose
    bytes are the RFC 3629 encodings of a sequence of code points between
    1 and U+10FFFF, one after the other, is decoded to exactly that
    sequence. *)
Theorem X12_utf8_round_trip (text : string) (cps : list Z) :
  Forall (fun c => 0 < c <= 0x10FFFF) cps ->
  bytes_of text = concat (map utf8_encode cps) ->
  Utf8ToCodepoints text = cps.
Proof.
  intros Hcps Hbytes. unfold Utf8ToCodepoints. rewrite Hbytes.
  apply decode_utf8_encode_all. exact Hcps.
Qed.

Lemma bytes_of_bounds (text : string) :
  Forall (fun b => 0 <= b < 256) (bytes_of text).
Proof.
  induction text as [| a rest IH]; [constructor |].
  cbn [bytes_of]. constructor; [| exact IH].
  pose proof (Ascii.N_ascii_bounded a). lia.
Qed.

Lemma bytes_of_length (text : string) :
  length (bytes_of text) = String.length text.
Proof.
  induction text as [| a rest IH]; [reflexivity |].
  cbn [bytes_of length String.length]. rewrite IH. reflexivity.
Qed.

Lemma low_byte (b : Z) :
  0 <= b < 256 -> (Z.land b 0x80 =? 0) = true -> b < 128.
Proof.
  intros Hb Hl.
  assert (Hp : implb (Z.land b 0x80 =? 0) (b <? 128) = true).
  { apply (range_check (fun b => implb (Z.land b 0x80 =? 0) (b <? 128))
             0 256); [vm_compute; reflexivity | simpl; lia]. }
  rewrite Hl in Hp. apply Z.ltb_lt. exact Hp.
Qed.

Lemma push_codepoint_bounds (c : Z) (l : list Z) (n : nat) :
  c < 2 ^ 21 ->
  Forall (fun cp => 0 < cp < 2 ^ 21) l /\ (length l <= n)%nat ->
  Forall (fun cp => 0 < cp < 2 ^ 21) (push_codepoint c l) /\
  (length (push_codepoint c l) <= S n)%nat.
Proof.
  intros Hc [Hl Hn]. unfold push_codepoint. destruct (0 <? c) eqn:E.
  - apply Z.ltb_lt in E. split; [constructor; [lia | exact Hl] |].
    cbn [length]. lia.
  - split; [exact Hl | lia].
Qed.

Lemma decode_utf8_bounds (n : nat) :
  forall s : list Z, (length s <= n)%nat ->
  Forall (fun b => 0 <= b < 256) s ->
  Forall (fun cp => 0 < cp < 2 ^ 21) (decode_utf8 s) /\
  (length (decode_utf8 s) <= length s)%nat.
Proof.
  induction n as [| n IH]; intros s Hn Hs.
  - destruct s; [split; [constructor | cbn; lia] | cbn [length] in Hn; lia].
  - destruct s as [| c rest]; [split; [constructor | cbn; lia] |].
    cbn [length] in Hn. inversion Hs as [| ? ? Hc Hrest]; subst.
    assert (Hskip : Forall (fun cp => 0 < cp < 2 ^ 21) (decode_utf8 rest) /\
                    (length (decode_utf8 rest) <= length (c :: rest))%nat).
    { destruct (IH rest ltac:(lia) Hrest) as [Hf Hl].
      split; [exact Hf | cbn [length]; lia]. }
    rewrite decode_utf8_cons.
    destruct (Z.land c 0x80 =? 0) eqn:E1.
    { cbn [length]. apply push_codepoint_bounds;
        [pose proof (low_byte c Hc E1); lia | apply IH; [lia | exact Hrest]]. }
    destruct (Z.land c 0xE0 =? 0xC0) eqn:E2.
    { destruct rest as [| b1 rest1]; [exact Hskip |].
      inversion Hrest as [| ? ? Hb1 Hrest1]; subst.
      cbn [length] in Hn |- *.
      destruct (IH rest1 ltac:(lia) Hrest1) as [Hf Hl].
      apply push_codepoint_bounds; [| split; [exact Hf | lia]].
      rewrite mask_1F, mask_3F, pack2 by (apply Z.mod_pos_bound; lia).
      Z.div_mod_to_equations. lia. }
    destruct (Z.land c 0xF0 =? 0xE0) eqn:E3.
    { destruct rest as [| b1 [| b2 rest2]]; try exact Hskip.
      inversion Hrest as [| ? ? Hb1 Hrest1]; subst.
      inversion Hrest1 as [| ? ? Hb2 Hrest2]; subst.
      cbn [length] in Hn |- *.
      destruct (IH rest2 ltac:(lia) Hrest2) as [Hf Hl].
      apply push_codepoint_bounds; [| split; [exact Hf | lia]].
      rewrite mask_0F, !mask_3F, pack3 by (apply Z.mod_pos_bound; lia).
      Z.div_mod_to_equations. lia. }
    destruct (Z.land c 0xF8 =? 0xF0) eqn:E4.
    { destruct rest as [| b1 [| b2 [| b3 rest3]]]; try exact Hskip.
      inversion Hrest as [| ? ? Hb1 Hrest1]; subst.
      inversion Hrest1 as [| ? ? Hb2 Hrest2]; subst.
      inversion Hrest2 as [| ? ? Hb3 Hrest3]; subst.
      cbn [length] in Hn |- *.
      destruct (IH rest3 ltac:(lia) Hrest3) as [Hf Hl].
      apply push_codepoint_bounds; [| split; [exact Hf | lia]].
      rewrite mask_07, !mask_3F, pack4 by (apply Z.mod_pos_bound; lia).
      Z.div_mod_to_equations. lia. }
    exact Hskip.
Qed.

(** X13. Whatever the bytes of the string, well-formed or not, the
    decoder yields no more code points than the string has bytes, never
    the code point 0, and never a value of more than 21 bits. *)
Theorem X13_utf8_output_bounds (text : string) :
  (length (Utf8ToCodepoints text) <= String.length text)%nat /\
  Forall (fun cp => 0 < cp < 2 ^ 21) (Utf8ToCodepoints text).
Proof.
  unfold Utf8ToCodepoints.
  destruct (decode_utf8_bounds (length (bytes_of text)) (bytes_of text)
              (Nat.le_refl _) (bytes_of_bounds text)) as [Hf Hl].
  rewrite bytes_of_length in Hl. split; assumption.
Qed.

End Utf8Facts.

(** ** Text inside a frame *)

Section TextFrames.
Context `{ExternMath}.
Import Spec.
Import TextRenderer.

Lemma stable_sort_one_texture (t : Z) (l : list SpriteBatch.SpriteData) :
  Forall (fun d => SpriteBatch.texture d = t) l ->
  SpriteBatch.stable_sort SpriteBatch.texture_lt l = l.
Proof.
  induction 1 as [| x l Hx Hl IH]; [reflexivity |].
  cbn [SpriteBatch.stable_sort]. rewrite IH.
  destruct Hl as [| y l' Hy Hl']; [reflexivity |].
  cbn [SpriteBatch.stable_insert]. unfold SpriteBatch.texture_lt.
  rewrite Hx, Hy, Z.ltb_irrefl. reflexivity.
Qed.

Lemma runs_from_one_texture (cur : Z) (l : list Z) :
  Forall (fun t => t = cur) l ->
  forall start i : Z,
  runs_from cur start i l
  = [SpriteBatch.MkBatch cur start (i + Z.of_nat (length l) - start)].
Proof.
  induction 1 as [| t l Ht _ IH]; intros start i.
  - cbn [runs_from length]. do 2 f_equal. lia.
  - cbn [runs_from]. rewrite Ht, Z.eqb_refl, IH. cbn [length].
    do 2 f_equal. lia.
Qed.

Lemma group_runs_one_texture (cur : Z) (l : list Z) :
  Forall (fun t => t = cur) l -> l <> [] ->
  group_runs l = [SpriteBatch.MkBatch cur 0 (Z.of_nat (length l))].
Proof.
  intros Hl Hne. destruct l as [| t rest]; [congruence |].
  inversion Hl as [| ? ? Ht Hrest]; subst.
  cbn [group_runs]. rewrite (runs_from_one_texture _ rest Hrest).
  cbn [length]. do 2 f_equal. lia.
Qed.

Lemma draw_all_app (l1 l2 : list SpriteBatch.DrawArgs) :
  forall s : SpriteBatch.t,
  SpriteBatch.draw_all (l1 ++ l2) s
  = and_then (SpriteBatch.draw_all l1 s) (SpriteBatch.draw_all l2).
Proof.
  induction l1 as [| a l1 IH]; intros s; [reflexivity |].
  cbn [app SpriteBatch.draw_all].
  destruct (SpriteBatch.Draw a s) as [s1 | w s1]; cbn [and_then];
    [apply IH | reflexivity].
Qed.

(** A frame whose requests all name one texture: the requests keep their
    order and form one batch. *)
Lemma frame_one_texture (camera : Z) (ds : list SpriteBatch.DrawArgs)
    (elapsed : float) (s : SpriteBatch.t) (t : Z) :
  wf s -> SpriteBatch.m_IsBatching s = false ->
  Forall (fun a => SpriteBatch.d_texture a = t) ds -> ds <> [] ->
  Z.of_nat (length ds) <= SpriteBatch.m_MaxSprites s ->
  let white := SpriteBatch.m_WhiteTexture s in
  let tex := if t =? nullptr then white else t in
  exists s',
    SpriteBatch.frame camera ds elapsed s = Ok s' /\
    SpriteBatch.m_Instances s'
    = map (fun a => SpriteBatch.instance (SpriteBatch.make_SpriteData white a))
        ds /\
    SpriteBatch.m_Batches s'
    = [SpriteBatch.MkBatch tex 0 (Z.of_nat (length ds))] /\
    SpriteBatch.GetSpriteCount s' = Z.of_nat (length ds) /\
    SpriteBatch.GetDrawCallCount s' = 1.
Proof.
  intros Hwf Hidle Hds Hne Hlen white tex.
  destruct (frame_batches_exact camera ds elapsed s Hwf Hidle)
    as (s' & Hf & Hl & Hb).
  destruct (frame_ok camera ds elapsed s Hwf Hidle)
    as (s2 & Hf2 & _ & Hi & _ & _ & _ & Hst & _).
  rewrite Hf in Hf2. injection Hf2 as <-.
  assert (Hacc : accept (SpriteBatch.m_MaxSprites s) white [] ds
                 = map (SpriteBatch.make_SpriteData white) ds)
    by (apply accept_all; exact Hlen).
  assert (Htex : Forall (fun d => SpriteBatch.texture d = tex)
                   (map (SpriteBatch.make_SpriteData white) ds)).
  { apply List.Forall_map. eapply List.Forall_impl; [| exact Hds].
    intros a Ha. cbn in Ha |- *. rewrite Ha. reflexivity. }
  assert (Hreq : sorted_requests s ds
                 = map (SpriteBatch.make_SpriteData white) ds).
  { unfold sorted_requests. fold white. rewrite Hacc.
    destruct (SpriteBatch.m_EnableTextureSorting s); [| reflexivity].
    apply (stable_sort_one_texture tex). exact Htex. }
  rewrite Hreq in Hb, Hi, Hst.
  assert (Hgroup : SpriteBatch.m_Batches s'
                   = [SpriteBatch.MkBatch tex 0 (Z.of_nat (length ds))]).
  { rewrite Hb, (group_runs_one_texture tex).
    - rewrite !length_map. reflexivity.
    - apply List.Forall_map. apply List.Forall_map in Htex.
      apply List.Forall_map. exact Htex.
    - destruct ds; [congruence | discriminate]. }
  exists s'. split; [exact Hf |]. split; [rewrite Hi, map_map; reflexivity |].
  split; [exact Hgroup |].
  unfold SpriteBatch.GetSpriteCount, SpriteBatch.GetDrawCallCount.
  rewrite Hst, Hgroup, length_map. cbn [SpriteBatch.spriteCount
    SpriteBatch.drawCallCount length].
  destruct Hwf as [Hmax _]. split; [apply u32_small; lia | reflexivity].
Qed.

Lemma DrawText_requests_atlas (font : Font) (text : string) (position : vec2)
    (color : vec4) (scale : float) (align : TextAlign) :
  Forall (fun a => SpriteBatch.d_texture a = m_AtlasTexture font)
    (DrawText_requests (Some font) text position color scale align).
Proof.
  unfold DrawText_requests.
  destruct (bool_decide (text = EmptyString)); [constructor |].
  apply layout_glyphs_atlas.
Qed.

Lemma DrawText_requests_length (font : Font) (text : string) (position : vec2)
    (color : vec4) (scale : float) (align : TextAlign) :
  length (DrawText_requests (Some font) text position color scale align)
  = length (List.filter (draws_quad font) (Utf8ToCodepoints text)).
Proof.
  unfold DrawText_requests.
  destruct (bool_decide (text = EmptyString)) eqn:E.
  - apply bool_decide_eq_true_1 in E. subst text. reflexivity.
  - apply layout_glyphs_length.
Qed.

(** X14. A line of text costs one draw call.  [Begin], [DrawText] and
    [End] on a text with n > 0 code points that have a non-empty glyph,
    n within the capacity, leave exactly one batch: the n instances from
    0 on, keyed on the font's atlas (on the white texture when the font
    has no atlas), whether or not sorting is enabled. *)
Theorem X14_text_is_one_batch (camera : Z) (font : Font) (text : string)
    (position : vec2) (color : vec4) (scale : float) (align : TextAlign)
    (elapsed : float) (s : SpriteBatch.t) :
  let n := length (List.filter (draws_quad font) (Utf8ToCodepoints text)) in
  wf s -> SpriteBatch.m_IsBatching s = false ->
  (0 < n)%nat -> Z.of_nat n <= SpriteBatch.m_MaxSprites s ->
  exists s',
    and_then
      (and_then (SpriteBatch.Begin camera s)
         (fun batch =>
            DrawText batch (Some font) text position color scale align))
      (SpriteBatch.End elapsed) = Ok s' /\
    SpriteBatch.m_Batches s'
    = [SpriteBatch.MkBatch
         (if m_AtlasTexture font =? nullptr then SpriteBatch.m_WhiteTexture s
          else m_AtlasTexture font) 0 (Z.of_nat n)] /\
    SpriteBatch.GetSpriteCount s' = Z.of_nat n /\
    SpriteBatch.GetDrawCallCount s' = 1.
Proof.
  intros n Hwf Hidle Hpos Hlen.
  pose proof (DrawText_requests_length font text position color scale align)
    as Hn. fold n in Hn.
  destruct (frame_one_texture camera
              (DrawText_requests (Some font) text position color scale align)
              elapsed s (m_AtlasTexture font) Hwf Hidle
              (DrawText_requests_atlas font text position color scale align))
    as (s' & Hf & _ & Hb & Hc & Hd).
  - intros Hnil. rewrite Hnil in Hn. cbn [length] in Hn. lia.
  - rewrite Hn. exact Hlen.
  - rewrite Hn in Hb, Hc. exists s'. split; [exact Hf |].
    split; [exact Hb |]. split; [exact Hc | exact Hd].
Qed.

Lemma and_then_ext {A} (r : result A) (f g : A -> result A) :
  (forall s, f s = g s) -> and_then r f = and_then r g.
Proof. intros Hfg. destruct r; [apply Hfg | reflexivity]. Qed.

Lemma DrawTextWithShadow_requests (batch : SpriteBatch.t) (font : option Font)
    (text : string) (position : vec2) (color shadowColor : vec4)
    (shadowOffset : vec2) (scale : float) (align : TextAlign) :
  DrawTextWithShadow batch font text position color shadowColor shadowOffset
    scale align
  = SpriteBatch.draw_all
      (DrawText_requests font text (vec2_add position shadowOffset)
         shadowColor scale align
       ++ DrawText_requests font text position color scale align) batch.
Proof. unfold DrawTextWithShadow, DrawText. symmetry. apply draw_all_app. Qed.

(** Where the pen starts and the colour change neither which glyphs are
    drawn nor their sizes and atlas rectangles. *)
Lemma layout_glyphs_shape (font : Font) (atlas : Z) (c1 c2 : vec4)
    (scale y1 y2 : float) (codepoints : list Z) :
  forall x1 x2 : float,
  map (fun a => (SpriteBatch.d_size a, SpriteBatch.d_uvMin a,
                 SpriteBatch.d_uvMax a))
    (layout_glyphs font atlas c1 scale y1 codepoints x1)
  = map (fun a => (SpriteBatch.d_size a, SpriteBatch.d_uvMin a,
                   SpriteBatch.d_uvMax a))
      (layout_glyphs font atlas c2 scale y2 codepoints x2).
Proof.
  induction codepoints as [| cp rest IH]; intros x1 x2; [reflexivity |].
  cbn [layout_glyphs]. destruct (GetGlyph font cp) as [glyph |]; [| apply IH].
  cbv zeta.
  destruct ((0 <? ivx (g_size glyph)) && (0 <? ivy (g_size glyph)));
    [| apply IH].
  cbn [map SpriteBatch.d_size SpriteBatch.d_uvMin SpriteBatch.d_uvMax].
  f_equal. apply IH.
Qed.

Lemma layout_glyphs_color (font : Font) (atlas : Z) (color : vec4)
    (scale y : float) (codepoints : list Z) :
  forall x : float,
  Forall (fun a => SpriteBatch.d_color a = color)
    (layout_glyphs font atlas color scale y codepoints x).
Proof.
  induction codepoints as [| cp rest IH]; intros x; [constructor |].
  cbn [layout_glyphs]. destruct (GetGlyph font cp) as [glyph |]; [| apply IH].
  cbv zeta.
  destruct ((0 <? ivx (g_size glyph)) && (0 <? ivy (g_size glyph)));
    [| apply IH].
  constructor; [reflexivity | apply IH].
Qed.

(** X15. The shadow lies under the text.  [Begin], [DrawTextWithShadow]
    and [End] on a text with n > 0 drawn glyphs, 2n within the capacity,
    leave 2n instances in one batch: first the n quads of the shadow in
    the shadow colour, then the n quads of the text in the text colour,
    glyph for glyph of the same size and the same atlas rectangle,
    whether or not sorting is enabled. *)
Theorem X15_shadow_under_text (camera : Z) (font : Font) (text : string)
    (position : vec2) (color shadowColor : vec4) (shadowOffset : vec2)
    (scale : float) (align : TextAlign) (elapsed : float)
    (s : SpriteBatch.t) :
  let n := length (List.filter (draws_quad font) (Utf8ToCodepoints text)) in
  let shadow :=
    DrawText_requests (Some font) text (vec2_add position shadowOffset)
      shadowColor scale align in
  let glyphs :=
    DrawText_requests (Some font) text position color scale align in
  let to_instance := fun a =>
    SpriteBatch.instance
      (SpriteBatch.make_SpriteData (SpriteBatch.m_WhiteTexture s) a) in
  wf s -> SpriteBatch.m_IsBatching s = false ->
  (0 < n)%nat -> 2 * Z.of_nat n <= SpriteBatch.m_MaxSprites s ->
  exists s',
    and_then
      (and_then (SpriteBatch.Begin camera s)
         (fun batch =>
            DrawTextWithShadow batch (Some font) text position color
              shadowColor shadowOffset scale align))
      (SpriteBatch.End elapsed) = Ok s' /\
    SpriteBatch.m_Instances s'
    = map to_instance shadow ++ map to_instance glyphs /\
    SpriteBatch.GetDrawCallCount s' = 1 /\
    length shadow = n /\ length glyphs = n /\
    Forall (fun a => SpriteBatch.d_color a = shadowColor) shadow /\
    Forall (fun a => SpriteBatch.d_color a = color) glyphs /\
    map (fun a => (SpriteBatch.d_size a, SpriteBatch.d_uvMin a,
                   SpriteBatch.d_uvMax a)) shadow
    = map (fun a => (SpriteBatch.d_size a, SpriteBatch.d_uvMin a,
                     SpriteBatch.d_uvMax a)) glyphs.
Proof.
  intros n shadow glyphs to_instance Hwf Hidle Hpos Hlen.
  assert (Hns : length shadow = n) by apply DrawText_requests_length.
  assert (Hng : length glyphs = n) by apply DrawText_requests_length.
  assert (Hframe :
    and_then
      (and_then (SpriteBatch.Begin camera s)
         (fun batch =>
            DrawTextWithShadow batch (Some font) text position color
              shadowColor shadowOffset scale align))
      (SpriteBatch.End elapsed)
    = SpriteBatch.frame camera (shadow ++ glyphs) elapsed s).
  { unfold SpriteBatch.frame. f_equal. apply and_then_ext. intros batch.
    apply DrawTextWithShadow_requests. }
  destruct (frame_one_texture camera (shadow ++ glyphs) elapsed s
              (m_AtlasTexture font) Hwf Hidle)
    as (s' & Hf & Hi & _ & _ & Hd).
  - apply Forall_app. split; apply DrawText_requests_atlas.
  - intros Hnil. apply (f_equal (@length _)) in Hnil.
    rewrite length_app, Hns, Hng in Hnil. cbn [length] in Hnil. lia.
  - rewrite length_app, Hns, Hng. lia.
  - exists s'. rewrite Hframe. split; [exact Hf |].
    split; [rewrite Hi; apply map_app |]. split; [exact Hd |].
    split; [exact Hns |]. split; [exact Hng |].
    unfold shadow, glyphs, DrawText_requests.
    destruct (bool_decide (text = EmptyString)).
    + repeat split; constructor.
    + split; [apply layout_glyphs_color |].
      split; [apply layout_glyphs_color | apply layout_glyphs_shape].
Qed.

End TextFrames.

(** ** Colours *)

Section ColorFacts.
Import Spec.

Lemma clamp_range (v : Z) : 0 <= Color.clamp v 0 255 <= 255.
Proof.
  unfold Color.clamp.
  destruct (v <? 0) eqn:E1; [lia |]. destruct (255 <? v) eqn:E2; [lia |].
  apply Z.ltb_ge in E1, E2. lia.
Qed.

Lemma u8_small (n : Z) : 0 <= n <= 255 -> Color.u8 n = n.
Proof. intros Hn. unfold Color.u8. apply Z.mod_small. lia. Qed.

(** A byte scaled to the unit interval and back is the same byte, in
    binary32 arithmetic. *)
Lemma byte_round_trip (n : Z) :
  0 <= n <= 255 ->
  Color.to_uint8 (F32.mul (Color.unit_of_byte n) (F32.of_Z 255)) = Some n.
Proof.
  intros Hn.
  pose proof (range_check
                (fun n =>
                   match Color.to_uint8
                           (F32.mul (Color.unit_of_byte n) (F32.of_Z 255)) with
                   | Some m => m =? n
                   | None => false
                   end) 0 256 ltac:(vm_compute; reflexivity) n
                ltac:(simpl; lia)) as Hp.
  cbv beta in Hp.
  destruct (Color.to_uint8 (F32.mul (Color.unit_of_byte n) (F32.of_Z 255)));
    [| discriminate]. apply Z.eqb_eq in Hp. subst. reflexivity.
Qed.

(** X16. A colour made from bytes gives the same bytes back.  The
    factories on [int] clamp each component to 0..255 and store it
    divided by 255.0f; the accessors multiply by 255.0f and cut to a
    [uint8_t]; in binary32 arithmetic the result is the clamped
    component, for every input.  [RGB] is opaque. *)
Theorem X16_color_bytes_round_trip (r g b a : Z) :
  let c := Color.RGBA_int r g b a in
  Color.R255 c = Some (Color.clamp r 0 255) /\
  Color.G255 c = Some (Color.clamp g 0 255) /\
  Color.B255 c = Some (Color.clamp b 0 255) /\
  Color.A255 c = Some (Color.clamp a 0 255) /\
  Color.R255 (Color.RGB_int r g b) = Some (Color.clamp r 0 255) /\
  Color.A255 (Color.RGB_int r g b) = Some 255.
Proof.
  cbv zeta.
  unfold Color.R255, Color.G255, Color.B255, Color.A255, Color.RGBA_int,
    Color.RGB_int, Color.RGBA, Color.RGB.
  cbn [v4x v4y v4z v4w].
  rewrite !u8_small by apply clamp_range.
  rewrite !byte_round_trip by apply clamp_range.
  repeat split.
Qed.

(** A check that holds on each of the 256 characters holds on all. *)
Lemma ascii_check (p : ascii -> bool) :
  forallb p all_ascii = true -> forall c, p c = true.
Proof.
  intros Hall c. rewrite forallb_forall in Hall. apply Hall.
  unfold all_ascii. apply in_map_iff. exists (nat_of_ascii c).
  split; [apply ascii_nat_embedding |].
  apply in_seq. pose proof (nat_ascii_bounded c). lia.
Qed.

Lemma hex_value_facts (c : ascii) (v : Z) :
  Color.hex_value c = Some v ->
  0 <= v < 16 /\ Ascii.eqb c "#"%char = false.
Proof.
  intros Hv.
  pose proof (ascii_check
                (fun c => match Color.hex_value c with
                          | Some v => (0 <=? v) && (v <? 16)
                                      && negb (Ascii.eqb c "#"%char)
                          | None => true
                          end) ltac:(vm_compute; reflexivity) c) as Hp.
  cbv beta in Hp. rewrite Hv in Hp.
  apply andb_prop in Hp. destruct Hp as [Hp H3].
  apply andb_prop in Hp. destruct Hp as [H1 H2].
  apply negb_true_iff in H3. split; [lia | exact H3].
Qed.

(** [std::stoi] on two hexadecimal digits. *)
Lemma stoi16_two_digits (c0 c1 : ascii) (v0 v1 : Z) :
  Color.hex_value c0 = Some v0 -> Color.hex_value c1 = Some v1 ->
  Color.stoi16 (String c0 (String c1 EmptyString)) = Some (16 * v0 + v1).
Proof.
  intros H0 H1.
  pose proof (ascii_check
    (fun c0 =>
       forallb
         (fun c1 =>
            match Color.hex_value c0, Color.hex_value c1 with
            | Some v0, Some v1 =>
                match Color.stoi16 (String c0 (String c1 EmptyString)) with
                | Some n => n =? 16 * v0 + v1
                | None => false
                end
            | _, _ => true
            end) all_ascii) ltac:(vm_compute; reflexivity) c0) as Hp.
  cbv beta in Hp.
  pose proof (ascii_check _ Hp c1) as Hq. cbv beta in Hq.
  rewrite H0, H1 in Hq.
  destruct (Color.stoi16 (String c0 (String c1 EmptyString)));
    [| discriminate]. apply Z.eqb_eq in Hq. subst. reflexivity.
Qed.

Lemma format_02X_digits (v0 v1 : Z) :
  0 <= v0 < 16 -> 0 <= v1 < 16 ->
  Color.format_02X (16 * v0 + v1)
  = String (Color.hex_digit v0) (String (Color.hex_digit v1) EmptyString).
Proof.
  intros H0 H1. unfold Color.format_02X.
  replace ((16 * v0 + v1) / 16) with v0 by (Z.div_mod_to_equations; lia).
  replace ((16 * v0 + v1) mod 16) with v1 by (Z.div_mod_to_equations; lia).
  reflexivity.
Qed.

Lemma ToHex_RGBA (r g b a : Z) (includeAlpha : bool) :
  0 <= r <= 255 -> 0 <= g <= 255 -> 0 <= b <= 255 -> 0 <= a <= 255 ->
  Color.ToHex includeAlpha (Color.RGBA r g b a)
  = Some (String "#"%char
            (String.append (Color.format_02X r)
               (String.append (Color.format_02X g)
                  (String.append (Color.format_02X b)
                     (if includeAlpha then Color.format_02X a
                      else EmptyString))))).
Proof.
  intros Hr Hg Hb Ha.
  unfold Color.ToHex, Color.R255, Color.G255, Color.B255, Color.A255,
    Color.RGBA.
  cbn [v4x v4y v4z v4w].
  rewrite !byte_round_trip by assumption.
  unfold Color.format_02X. destruct includeAlpha; reflexivity.
Qed.

(** A string that does not begin with [#] is read the same with the [#]
    put before it. *)
Lemma Hex_hash (c : ascii) (rest : string) :
  Ascii.eqb c "#"%char = false ->
  Color.Hex (String "#"%char (String c rest)) = Color.Hex (String c rest).
Proof. intros Hc. unfold Color.Hex. rewrite Hc. reflexivity. Qed.

Lemma Hex_six_digits (c0 c1 c2 c3 c4 c5 : ascii) (v0 v1 v2 v3 v4 v5 : Z) :
  Color.hex_value c0 = Some v0 -> Color.hex_value c1 = Some v1 ->
  Color.hex_value c2 = Some v2 -> Color.hex_value c3 = Some v3 ->
  Color.hex_value c4 = Some v4 -> Color.hex_value c5 = Some v5 ->
  Color.Hex
    (String c0 (String c1 (String c2 (String c3 (String c4 (String c5
       EmptyString))))))
  = Some (Color.RGBA (16 * v0 + v1) (16 * v2 + v3) (16 * v4 + v5) 255).
Proof.
  intros H0 H1 H2 H3 H4 H5.
  destruct (hex_value_facts _ _ H0) as [B0 N0].
  destruct (hex_value_facts _ _ H1) as [B1 _].
  destruct (hex_value_facts _ _ H2) as [B2 _].
  destruct (hex_value_facts _ _ H3) as [B3 _].
  destruct (hex_value_facts _ _ H4) as [B4 _].
  destruct (hex_value_facts _ _ H5) as [B5 _].
  unfold Color.Hex. rewrite N0.
  cbn [String.length Nat.leb substring].
  rewrite (stoi16_two_digits _ _ _ _ H0 H1), (stoi16_two_digits _ _ _ _ H2 H3),
    (stoi16_two_digits _ _ _ _ H4 H5).
  rewrite !u8_small by lia. reflexivity.
Qed.

Lemma Hex_eight_digits (c0 c1 c2 c3 c4 c5 c6 c7 : ascii)
    (v0 v1 v2 v3 v4 v5 v6 v7 : Z) :
  Color.hex_value c0 = Some v0 -> Color.hex_value c1 = Some v1 ->
  Color.hex_value c2 = Some v2 -> Color.hex_value c3 = Some v3 ->
  Color.hex_value c4 = Some v4 -> Color.hex_value c5 = Some v5 ->
  Color.hex_value c6 = Some v6 -> Color.hex_value c7 = Some v7 ->
  Color.Hex
    (String c0 (String c1 (String c2 (String c3 (String c4 (String c5
       (String c6 (String c7 EmptyString))))))))
  = Some (Color.RGBA (16 * v0 + v1) (16 * v2 + v3) (16 * v4 + v5)
            (16 * v6 + v7)).
Proof.
  intros H0 H1 H2 H3 H4 H5 H6 H7.
  destruct (hex_value_facts _ _ H0) as [B0 N0].
  destruct (hex_value_facts _ _ H1) as [B1 _].
  destruct (hex_value_facts _ _ H2) as [B2 _].
  destruct (hex_value_facts _ _ H3) as [B3 _].
  destruct (hex_value_facts _ _ H4) as [B4 _].
  destruct (hex_value_facts _ _ H5) as [B5 _].
  destruct (hex_value_facts _ _ H6) as [B6 _].
  destruct (hex_value_facts _ _ H7) as [B7 _].
  unfold Color.Hex. rewrite N0.
  cbn [String.length Nat.leb substring].
  rewrite (stoi16_two_digits _ _ _ _ H0 H1), (stoi16_two_digits _ _ _ _ H2 H3),
    (stoi16_two_digits _ _ _ _ H4 H5), (stoi16_two_digits _ _ _ _ H6 H7).
  rewrite !u8_small by lia. reflexivity.
Qed.

Lemma all_hex_cons (c : ascii) (rest : string) :
  all_hex (String c rest) = true ->
  (exists v, Color.hex_value c = Some v) /\ all_hex rest = true.
Proof.
  cbn [all_hex]. intros Hc. apply andb_prop in Hc. destruct Hc as [Hc Hr].
  apply bool_decide_eq_true_1 in Hc. destruct Hc as [v Hv].
  split; [exists v; exact Hv | exact Hr].
Qed.

(** X17. HTML colour codes survive the round trip.  A string of six
    hexadecimal digits, or of eight when the alpha is asked for, is read
    by [Hex] without an exception, with or without a leading [#], and
    [ToHex] of the colour read is [#] followed by the same digits in
    upper case. *)
Theorem X17_hex_round_trip (s : string) (includeAlpha : bool) :
  all_hex s = true ->
  String.length s = (if includeAlpha then 8 else 6)%nat ->
  exists c : vec4,
    Color.Hex s = Some c /\
    Color.Hex (String "#"%char s) = Some c /\
    Color.ToHex includeAlpha c
    = Some (String "#"%char (string_map hex_upper s)).
Proof.
  intros Hhex Hlen.
  destruct s as [| c0 [| c1 [| c2 [| c3 [| c4 [| c5 s]]]]]];
    try (destruct includeAlpha; discriminate Hlen).
  apply all_hex_cons in Hhex. destruct Hhex as [[v0 H0] Hhex].
  apply all_hex_cons in Hhex. destruct Hhex as [[v1 H1] Hhex].
  apply all_hex_cons in Hhex. destruct Hhex as [[v2 H2] Hhex].
  apply all_hex_cons in Hhex. destruct Hhex as [[v3 H3] Hhex].
  apply all_hex_cons in Hhex. destruct Hhex as [[v4 H4] Hhex].
  apply all_hex_cons in Hhex. destruct Hhex as [[v5 H5] Hhex].
  destruct (hex_value_facts _ _ H0) as [B0 N0].
  destruct (hex_value_facts _ _ H1) as [B1 _].
  destruct (hex_value_facts _ _ H2) as [B2 _].
  destruct (hex_value_facts _ _ H3) as [B3 _].
  destruct (hex_value_facts _ _ H4) as [B4 _].
  destruct (hex_value_facts _ _ H5) as [B5 _].
  destruct includeAlpha.
  - destruct s as [| c6 [| c7 [| c8 s]]]; try discriminate Hlen.
    apply all_hex_cons in Hhex. destruct Hhex as [[v6 H6] Hhex].
    apply all_hex_cons in Hhex. destruct Hhex as [[v7 H7] _].
    destruct (hex_value_facts _ _ H6) as [B6 _].
    destruct (hex_value_facts _ _ H7) as [B7 _].
    eexists. split;
      [exact (Hex_eight_digits _ _ _ _ _ _ _ _ _ _ _ _ _ _ _ _
                H0 H1 H2 H3 H4 H5 H6 H7) |].
    split; [rewrite (Hex_hash _ _ N0);
            exact (Hex_eight_digits _ _ _ _ _ _ _ _ _ _ _ _ _ _ _ _
                     H0 H1 H2 H3 H4 H5 H6 H7) |].
    rewrite ToHex_RGBA by lia.
    rewrite !format_02X_digits by assumption.
    cbn [string_map String.append]. unfold hex_upper.
    rewrite H0, H1, H2, H3, H4, H5, H6, H7. reflexivity.
  - destruct s as [| c6 s]; try discriminate Hlen.
    eexists. split;
      [exact (Hex_six_digits _ _ _ _ _ _ _ _ _ _ _ _ H0 H1 H2 H3 H4 H5) |].
    split; [rewrite (Hex_hash _ _ N0);
            exact (Hex_six_digits _ _ _ _ _ _ _ _ _ _ _ _
                     H0 H1 H2 H3 H4 H5) |].
    rewrite ToHex_RGBA by lia.
    rewrite !format_02X_digits by assumption.
    cbn [string_map String.append]. unfold hex_upper.
    rewrite H0, H1, H2, H3, H4, H5. reflexivity.
Qed.

Lemma fmin_not_above (x bound : float) :
  F32.ltb bound (Color.fmin x bound) = false.
Proof.
  unfold Color.fmin. destruct (F32.ltb bound x) eqn:E; [| exact E].
  unfold F32.ltb, SFltb in *.
  destruct (SFcompare bound bound) as [[] |] eqn:Ec; try reflexivity.
  exfalso. revert Ec. unfold SFcompare.
  destruct bound as [[] | [] | | [] m e]; try discriminate;
    rewrite ?Z.compare_refl, ?Pos.compare_cont_refl; discriminate.
Qed.

Lemma fmax_not_below (x bound : float) :
  F32.ltb (Color.fmax x bound) bound = false.
Proof.
  unfold Color.fmax. destruct (F32.ltb x bound) eqn:E; [| exact E].
  unfold F32.ltb, SFltb in *.
  destruct (SFcompare bound bound) as [[] |] eqn:Ec; try reflexivity.
  exfalso. revert Ec. unfold SFcompare.
  destruct bound as [[] | [] | | [] m e]; try discriminate;
    rewrite ?Z.compare_refl, ?Pos.compare_cont_refl; discriminate.
Qed.

(** X23. [Lighten] never takes a colour component above 1.0f and
    [Darken] never below 0.0f, whatever the colour and the amount, and
    neither touches the alpha. *)
Theorem X23_lighten_darken_stay_in_range (amount : float) (c : vec4) :
  let light := Color.Lighten amount c in
  let dark := Color.Darken amount c in
  F32.ltb F32.one (v4x light) = false /\
  F32.ltb F32.one (v4y light) = false /\
  F32.ltb F32.one (v4z light) = false /\
  F32.ltb (v4x dark) F32.zero = false /\
  F32.ltb (v4y dark) F32.zero = false /\
  F32.ltb (v4z dark) F32.zero = false /\
  v4w light = v4w c /\ v4w dark = v4w c.
Proof.
  cbv zeta. unfold Color.Lighten, Color.Darken. cbn [v4x v4y v4z v4w].
  repeat split; first [apply fmin_not_above | apply fmax_not_below].
Qed.

End ColorFacts.

(** ** The size of the glyph atlas *)

Section AtlasSize.
Variable FT_Load_Char : Z -> option Font.GlyphSlot.

Lemma atlas_size_loop_step (fuel : nat) (atlasSize need : Z) :
  Font.atlas_size_loop (S fuel) atlasSize need
  = if u32 (atlasSize * atlasSize) <? need
    then Font.atlas_size_loop fuel (u32 (atlasSize * 2)) need
    else Some atlasSize.
Proof. reflexivity. Qed.

Lemma atlas_size_loop_exit (need : Z) (fuel : nat) :
  need <= 2 ^ 30 -> (7 <= fuel)%nat ->
  exists atlasSize : Z,
    Font.atlas_size_loop fuel 512 need = Some atlasSize /\
    In atlasSize [512; 1024; 2048; 4096; 8192; 16384; 32768] /\
    need <= atlasSize * atlasSize /\
    (atlasSize = 512 \/ (atlasSize / 2) * (atlasSize / 2) < need).
Proof.
  intros Hneed Hfuel.
  do 7 (destruct fuel as [| fuel]; [lia |]).
  repeat (rewrite atlas_size_loop_step;
          match goal with
          | |- context [u32 (?a * ?a) <? need] =>
              let v := eval vm_compute in (u32 (a * a)) in
              change (u32 (a * a)) with v;
              let w := eval vm_compute in (u32 (a * 2)) in
              change (u32 (a * 2)) with w;
              destruct (Z.ltb_spec v need);
              [| eexists; split; [reflexivity |];
                 split; [cbn [In]; tauto |];
                 split; [lia | first [left; reflexivity
                                     | right; vm_compute (_ / _); lia]]]
          end).
  change (2 ^ 30) with 1073741824 in Hneed. lia.
Qed.

(** X18. The atlas is sized to the glyphs.  When the area asked for,
    [totalWidth * (maxHeight + 2)] in [uint32_t] arithmetic, is at most
    2^30, the loop of [LoadGlyphs] ends within seven rounds with a square
    atlas whose side is a power of two from 512 to 32768, whose area is
    at least the area asked for, and which is the smallest such: it is
    512, or half the side would be too small. *)
Theorem X18_atlas_size_fits (fuel : nat) :
  Font.atlas_need FT_Load_Char <= 2 ^ 30 -> (7 <= fuel)%nat ->
  exists atlasSize : Z,
    Font.LoadGlyphs FT_Load_Char fuel = Some (atlasSize, atlasSize) /\
    In atlasSize [512; 1024; 2048; 4096; 8192; 16384; 32768] /\
    Font.atlas_need FT_Load_Char <= atlasSize * atlasSize /\
    (atlasSize = 512 \/
     (atlasSize / 2) * (atlasSize / 2) < Font.atlas_need FT_Load_Char).
Proof.
  intros Hneed Hfuel.
  destruct (atlas_size_loop_exit _ fuel Hneed Hfuel)
    as (atlasSize & Hloop & Hin & Hfit & Hmin).
  exists atlasSize. unfold Font.LoadGlyphs. rewrite Hloop.
  split; [reflexivity |]. split; [exact Hin |]. split; assumption.
Qed.

(** The square of the side, in [uint32_t], never gets past 2^30: the
    sides are 512 doubled, and from 65536 on the square wraps to 0. *)
Lemma atlas_square_wraps (i : nat) :
  u32 (u32 (512 * 2 ^ Z.of_nat i) * u32 (512 * 2 ^ Z.of_nat i)) <= 2 ^ 30.
Proof.
  unfold u32. rewrite <- Z.mul_mod by lia.
  destruct (Nat.le_gt_cases 7 i) as [Hbig | Hsmall].
  - replace (512 * 2 ^ Z.of_nat i * (512 * 2 ^ Z.of_nat i))
      with (2 ^ (2 * Z.of_nat i - 14) * 2 ^ 32).
    + rewrite Z.mod_mul by lia. lia.
    + change 512 with (2 ^ 9). rewrite <- !Z.pow_add_r by lia.
      f_equal. lia.
  - do 7 (destruct i as [| i]; [vm_compute; discriminate |]). lia.
Qed.

Lemma atlas_size_loop_forever (need : Z) (fuel : nat) :
  2 ^ 30 < need ->
  forall i : nat,
  Font.atlas_size_loop fuel (u32 (512 * 2 ^ Z.of_nat i)) need = None.
Proof.
  intros Hneed. induction fuel as [| fuel IH]; intros i; [reflexivity |].
  rewrite atlas_size_loop_step.
  pose proof (atlas_square_wraps i) as Hsq.
  destruct (Z.ltb_spec
              (u32 (u32 (512 * 2 ^ Z.of_nat i) * u32 (512 * 2 ^ Z.of_nat i)))
              need) as [_ | Hge]; [| lia].
  replace (u32 (u32 (512 * 2 ^ Z.of_nat i) * 2))
    with (u32 (512 * 2 ^ Z.of_nat (S i))); [apply IH |].
  unfold u32. rewrite Z.mul_mod_idemp_l by lia. f_equal.
  rewrite Nat2Z.inj_succ, Z.pow_succ_r by lia. lia.
Qed.

(** X19. The loop of [LoadGlyphs] has no exit for large fonts.  When the
    area asked for is more than 2^30, the square of the side, computed in
    [uint32_t], is never as large: it is at most 2^30 up to the side
    32768 and wraps to 0 from 65536 on, so the condition of the loop
    holds in every round and no number of rounds leaves it. *)
Theorem X19_atlas_size_no_exit (fuel : nat) :
  2 ^ 30 < Font.atlas_need FT_Load_Char ->
  Font.LoadGlyphs FT_Load_Char fuel = None.
Proof.
  intros Hneed. unfold Font.LoadGlyphs.
  change 512 with (u32 (512 * 2 ^ Z.of_nat 0)).
  rewrite (atlas_size_loop_forever _ fuel Hneed 0). reflexivity.
Qed.

End AtlasSize.

(** ** Keyboard and mouse edges *)

Section InputFacts.
Import Spec.

Lemma at_index_insert (array : list bool) (i j : Z) (v : bool) :
  0 <= i -> 0 <= j -> (Z.to_nat i < length array)%nat ->
  InputManager.at_index (<[Z.to_nat i := v]> array) j
  = if i =? j then v else InputManager.at_index array j.
Proof.
  intros Hi Hj Hlen. unfold InputManager.at_index.
  destruct (Z.eqb_spec i j) as [-> | Hne].
  - rewrite list_lookup_insert_eq by exact Hlen. reflexivity.
  - rewrite list_lookup_insert_ne by lia. reflexivity.
Qed.

Lemma deliver_keeps (s : InputManager.t) (ev : InputManager.Event) :
  input_wf s ->
  input_wf (InputManager.deliver s ev) /\
  InputManager.m_PreviousKeys (InputManager.deliver s ev) = InputManager.m_PreviousKeys s /\
  InputManager.m_PreviousMouseButtons (InputManager.deliver s ev)
  = InputManager.m_PreviousMouseButtons s.
Proof.
  intros [Hk Hb].
  destruct ev as [key action | button action | x y | x y]; cbn [InputManager.deliver].
  - unfold InputManager.KeyCallbackGLFW.
    destruct ((0 <=? key) && (key <=? InputManager.GLFW_KEY_LAST));
      [| repeat split; assumption].
    repeat split; cbn; [rewrite length_insert; exact Hk | exact Hb].
  - unfold InputManager.MouseButtonCallbackGLFW.
    destruct ((0 <=? button)
              && (button <=? InputManager.GLFW_MOUSE_BUTTON_LAST));
      [| repeat split; assumption].
    repeat split; cbn; [exact Hk | rewrite length_insert; exact Hb].
  - repeat split; assumption.
  - repeat split; assumption.
Qed.

Lemma deliver_key (s : InputManager.t) (ev : InputManager.Event) (key : Z) :
  input_wf s -> 0 <= key <= InputManager.GLFW_KEY_LAST ->
  InputManager.IsKeyDown key (InputManager.deliver s ev)
  = key_held_after key [ev] (InputManager.IsKeyDown key s).
Proof.
  intros [Hk _] Hkey. unfold InputManager.IsKeyDown.
  destruct ev as [k action | button action | x y | x y];
    cbn [InputManager.deliver key_held_after fold_left]; try reflexivity.
  - unfold InputManager.KeyCallbackGLFW.
    destruct ((0 <=? k) && (k <=? InputManager.GLFW_KEY_LAST)) eqn:E.
    + apply andb_prop in E. destruct E as [E1 E2].
      apply Z.leb_le in E1, E2. unfold InputManager.GLFW_KEY_LAST in *.
      cbn [InputManager.m_CurrentKeys].
      apply at_index_insert; [exact E1 | lia |].
      rewrite Hk. lia.
    + destruct (Z.eqb_spec k key) as [-> | Hne]; [| reflexivity].
      apply andb_false_iff in E.
      destruct E as [E | E]; apply Z.leb_gt in E; lia.
  - unfold InputManager.MouseButtonCallbackGLFW.
    destruct ((0 <=? button)
              && (button <=? InputManager.GLFW_MOUSE_BUTTON_LAST));
      reflexivity.
Qed.

Lemma deliver_button (s : InputManager.t) (ev : InputManager.Event) (button : Z) :
  input_wf s -> 0 <= button <= InputManager.GLFW_MOUSE_BUTTON_LAST ->
  InputManager.IsMouseButtonDown button (InputManager.deliver s ev)
  = button_held_after button [ev] (InputManager.IsMouseButtonDown button s).
Proof.
  intros [_ Hb] Hbutton. unfold InputManager.IsMouseButtonDown.
  destruct ev as [k action | b action | x y | x y];
    cbn [InputManager.deliver button_held_after fold_left]; try reflexivity.
  - unfold InputManager.KeyCallbackGLFW.
    destruct ((0 <=? k) && (k <=? InputManager.GLFW_KEY_LAST)); reflexivity.
  - unfold InputManager.MouseButtonCallbackGLFW.
    destruct ((0 <=? b) && (b <=? InputManager.GLFW_MOUSE_BUTTON_LAST)) eqn:E.
    + apply andb_prop in E. destruct E as [E1 E2].
      apply Z.leb_le in E1, E2.
      unfold InputManager.GLFW_MOUSE_BUTTON_LAST in *.
      cbn [InputManager.m_CurrentMouseButtons].
      apply at_index_insert; [exact E1 | lia |].
      rewrite Hb. lia.
    + destruct (Z.eqb_spec b button) as [-> | Hne]; [| reflexivity].
      apply andb_false_iff in E.
      destruct E as [E | E]; apply Z.leb_gt in E; lia.
Qed.

Lemma deliver_all_held (evs : list InputManager.Event) (key button : Z) :
  0 <= key <= InputManager.GLFW_KEY_LAST ->
  0 <= button <= InputManager.GLFW_MOUSE_BUTTON_LAST ->
  forall s : InputManager.t, input_wf s ->
  input_wf (InputManager.deliver_all evs s) /\
  InputManager.m_PreviousKeys (InputManager.deliver_all evs s)
  = InputManager.m_PreviousKeys s /\
  InputManager.m_PreviousMouseButtons (InputManager.deliver_all evs s)
  = InputManager.m_PreviousMouseButtons s /\
  InputManager.IsKeyDown key (InputManager.deliver_all evs s)
  = key_held_after key evs (InputManager.IsKeyDown key s) /\
  InputManager.IsMouseButtonDown button (InputManager.deliver_all evs s)
  = button_held_after button evs (InputManager.IsMouseButtonDown button s).
Proof.
  intros Hkey Hbutton.
  induction evs as [| ev evs IH]; intros s Hwf; [repeat split; apply Hwf |].
  destruct (deliver_keeps s ev Hwf) as (Hwf1 & Hpk & Hpb).
  destruct (IH (InputManager.deliver s ev) Hwf1) as (Hwf' & Hpk' & Hpb' & Hk' & Hb').
  unfold InputManager.deliver_all in *. cbn [fold_left].
  split; [exact Hwf' |]. split; [rewrite Hpk'; exact Hpk |].
  split; [rewrite Hpb'; exact Hpb |].
  split.
  - rewrite Hk', (deliver_key s ev key Hwf Hkey). reflexivity.
  - rewrite Hb', (deliver_button s ev button Hwf Hbutton). reflexivity.
Qed.

Lemma create_input_wf (x y : InputManager.double) :
  input_wf (InputManager.create x y).
Proof. split; cbn; rewrite length_replicate; reflexivity. Qed.

(** X20. Edges are those of the frame.  After [Update] and then any
    events delivered by GLFW, a key of the [Key] range is down exactly
    when the last event that named it was a press or a repeat (or, with
    no such event, when it was down at [Update]); events that name other
    keys or keys outside the array do not touch it.  It is reported
    pressed exactly when it is down and was up at [Update], released
    exactly when it is up and was down at [Update]; so without events
    nothing is reported pressed or released. *)
Theorem X20_key_edges (s : InputManager.t) (evs : list InputManager.Event)
    (key : Z) :
  input_wf s -> 0 <= key <= InputManager.GLFW_KEY_LAST ->
  let before := InputManager.IsKeyDown key s in
  let now := key_held_after key evs before in
  let s' := InputManager.deliver_all evs (InputManager.Update s) in
  InputManager.IsKeyDown key s' = now /\
  InputManager.IsKeyPressed key s' = now && negb before /\
  InputManager.IsKeyReleased key s' = negb now && before /\
  InputManager.IsKeyPressed key (InputManager.Update s') = false /\
  InputManager.IsKeyReleased key (InputManager.Update s') = false.
Proof.
  intros Hwf Hkey before now s'.
  assert (Hwf0 : input_wf (InputManager.Update s)) by exact Hwf.
  destruct (deliver_all_held evs key 0 Hkey ltac:(vm_compute; split; discriminate)
              (InputManager.Update s) Hwf0) as (_ & Hpk & _ & Hk & _).
  fold s' in Hpk, Hk.
  change (InputManager.IsKeyDown key (InputManager.Update s)) with before in Hk.
  fold now in Hk.
  assert (Hprev : InputManager.at_index (InputManager.m_PreviousKeys s') key
                  = before) by (rewrite Hpk; reflexivity).
  unfold InputManager.IsKeyPressed, InputManager.IsKeyReleased.
  unfold InputManager.IsKeyDown in Hk |- *. rewrite Hprev, Hk.
  repeat split; cbn [InputManager.Update InputManager.m_CurrentKeys
                     InputManager.m_PreviousKeys]; rewrite ?Hk;
    destruct now; reflexivity.
Qed.

(** X21. The same for the mouse buttons, where only a press counts as
    held; and [Update] clears the scroll offset, which is otherwise the
    offset of the last scroll event. *)
Theorem X21_mouse_button_edges (s : InputManager.t) (evs : list InputManager.Event)
    (button : Z) :
  input_wf s -> 0 <= button <= InputManager.GLFW_MOUSE_BUTTON_LAST ->
  let before := InputManager.IsMouseButtonDown button s in
  let now := button_held_after button evs before in
  let s' := InputManager.deliver_all evs (InputManager.Update s) in
  InputManager.IsMouseButtonDown button s' = now /\
  InputManager.IsMouseButtonPressed button s' = now && negb before /\
  InputManager.IsMouseButtonReleased button s' = negb now && before /\
  InputManager.IsMouseButtonPressed button (InputManager.Update s') = false /\
  InputManager.IsMouseButtonReleased button (InputManager.Update s') = false /\
  InputManager.GetScrollDelta (InputManager.Update s') = F32.zero.
Proof.
  intros Hwf Hbutton before now s'.
  assert (Hwf0 : input_wf (InputManager.Update s)) by exact Hwf.
  destruct (deliver_all_held evs 0 button ltac:(vm_compute; split; discriminate)
              Hbutton (InputManager.Update s) Hwf0) as (_ & _ & Hpb & _ & Hb).
  fold s' in Hpb, Hb.
  change (InputManager.IsMouseButtonDown button (InputManager.Update s))
    with before in Hb.
  fold now in Hb.
  assert (Hprev : InputManager.at_index
                    (InputManager.m_PreviousMouseButtons s') button = before)
    by (rewrite Hpb; reflexivity).
  unfold InputManager.IsMouseButtonPressed, InputManager.IsMouseButtonReleased.
  unfold InputManager.IsMouseButtonDown in Hb |- *. rewrite Hprev, Hb.
  repeat split; cbn [InputManager.Update InputManager.m_CurrentMouseButtons
                     InputManager.m_PreviousMouseButtons
                     InputManager.GetScrollDelta InputManager.m_ScrollDelta];
    rewrite ?Hb; try reflexivity; destruct now; reflexivity.
Qed.

(** X24. In the order of [Engine::Run] the update callback never sees an
    edge.  A round of [Run] polls the pending events and then calls
    [InputManager::Update] before the user's [onUpdate]; whatever events
    were pending and whatever the state before, in the state [onUpdate]
    sees no key and no mouse button is reported as just pressed or just
    released, the scroll offset is 0, and the previous mouse position is
    the current one. *)
Theorem X24_run_hides_edges (pending : list InputManager.Event)
    (m_Input : InputManager.t) (key button : Z) :
  let seen := Engine.poll_and_update pending m_Input in
  InputManager.IsKeyPressed key seen = false /\
  InputManager.IsKeyReleased key seen = false /\
  InputManager.IsMouseButtonPressed button seen = false /\
  InputManager.IsMouseButtonReleased button seen = false /\
  InputManager.GetScrollDelta seen = F32.zero /\
  InputManager.m_PreviousMousePosition seen
  = InputManager.GetMousePosition seen.
Proof.
  cbv zeta. unfold Engine.poll_and_update, InputManager.Update,
    InputManager.IsKeyPressed, InputManager.IsKeyReleased,
    InputManager.IsMouseButtonPressed, InputManager.IsMouseButtonReleased,
    InputManager.GetScrollDelta, InputManager.GetMousePosition.
  cbn [InputManager.m_CurrentKeys InputManager.m_PreviousKeys
       InputManager.m_CurrentMouseButtons InputManager.m_PreviousMouseButtons
       InputManager.m_ScrollDelta InputManager.m_MousePosition
       InputManager.m_PreviousMousePosition].
  split; [apply andb_negb_r |]. split; [apply andb_negb_l |].
  split; [apply andb_negb_r |]. split; [apply andb_negb_l |].
  split; reflexivity.
Qed.

End InputFacts.

(** ** The glyph atlas *)

Section AtlasStores.
Import Spec.

Lemma upto_in (n x : Z) : In x (Font.upto n) <-> 0 <= x < n.
Proof.
  unfold Font.upto. rewrite in_map_iff. split.
  - intros (k & <- & Hk). apply in_seq in Hk. lia.
  - intros Hx. exists (Z.to_nat x). split; [lia | apply in_seq; lia].
Qed.

Lemma fold_store_snoc (stores : list (Z * Z)) (s : Z * Z) (data : gmap Z Z) :
  fold_left Font.store (stores ++ [s]) data
  = <[fst s := snd s]> (fold_left Font.store stores data).
Proof. rewrite fold_left_app. reflexivity. Qed.

(** A byte no store names is left as it was. *)
Lemma fold_store_other (stores : list (Z * Z)) (data : gmap Z Z) (i : Z) :
  (forall v, ~ In (i, v) stores) ->
  fold_left Font.store stores data !! i = data !! i.
Proof.
  induction stores as [| [j w] stores IH] using rev_ind; intros Hout;
    [reflexivity |].
  rewrite fold_store_snoc. cbn [fst snd].
  destruct (Z.eq_dec j i) as [-> | Hne].
  - exfalso. apply (Hout w). apply in_or_app. right. left. reflexivity.
  - rewrite lookup_insert_ne by exact Hne. apply IH.
    intros v Hin. apply (Hout v). apply in_or_app. left. exact Hin.
Qed.

(** A byte the stores name, always with one value, ends up with it. *)
Lemma fold_store_in (stores : list (Z * Z)) (data : gmap Z Z) (i v : Z) :
  In (i, v) stores -> (forall v', In (i, v') stores -> v' = v) ->
  fold_left Font.store stores data !! i = Some v.
Proof.
  induction stores as [| [j w] stores IH] using rev_ind; intros Hin Hfun;
    [destruct Hin |].
  rewrite fold_store_snoc. cbn [fst snd].
  destruct (Z.eq_dec j i) as [-> | Hne].
  - rewrite lookup_insert_eq. f_equal. apply Hfun.
    apply in_or_app. right. left. reflexivity.
  - rewrite lookup_insert_ne by exact Hne. apply IH.
    + apply in_app_or in Hin. destruct Hin as [Hin | [Heq | []]];
        [exact Hin | congruence].
    + intros v' Hin'. apply Hfun. apply in_or_app. left. exact Hin'.
Qed.

(** A byte that is set afterwards was set before or is named by a
    store. *)
Lemma fold_store_keys (stores : list (Z * Z)) (data : gmap Z Z) (i : Z) :
  is_Some (fold_left Font.store stores data !! i) ->
  is_Some (data !! i) \/ exists v, In (i, v) stores.
Proof.
  induction stores as [| [j w] stores IH] using rev_ind; intros Hset;
    [left; exact Hset |].
  rewrite fold_store_snoc in Hset. cbn [fst snd] in Hset.
  destruct (Z.eq_dec j i) as [-> | Hne].
  - right. exists w. apply in_or_app. right. left. reflexivity.
  - rewrite lookup_insert_ne in Hset by exact Hne.
    destruct (IH Hset) as [Hold | [v Hin]]; [left; exact Hold |].
    right. exists v. apply in_or_app. left. exact Hin.
Qed.

(** A pixel index names one pixel and one channel. *)
Lemma pixel_index_inj (W col1 row1 ch1 col2 row2 ch2 : Z) :
  0 <= col1 < W -> 0 <= col2 < W -> 0 <= row1 -> 0 <= row2 ->
  0 <= ch1 < 4 -> 0 <= ch2 < 4 ->
  pixel_index W col1 row1 ch1 = pixel_index W col2 row2 ch2 ->
  col1 = col2 /\ row1 = row2 /\ ch1 = ch2.
Proof.
  unfold pixel_index. intros Hc1 Hc2 Hr1 Hr2 Hh1 Hh2 Heq.
  assert (Hpix : row1 * W + col1 = row2 * W + col2) by lia.
  assert (Hch : ch1 = ch2) by lia.
  assert (Hrow : row1 = row2) by nia.
  subst. repeat split. lia.
Qed.

Lemma pixel_index_bound (W H col row ch : Z) :
  0 < W <= 16384 -> 0 < H <= 16384 ->
  0 <= col < W -> 0 <= row < H -> 0 <= ch < 4 ->
  0 <= pixel_index W col row ch < Font.atlas_bytes W H.
Proof.
  intros HW HH Hc Hr Hh. unfold pixel_index, Font.atlas_bytes.
  assert (Harea : 0 < W * H <= 16384 * 16384) by nia.
  rewrite (u32_small (W * H)) by (change (2 ^ 32) with 4294967296; lia).
  rewrite u32_small by (change (2 ^ 32) with 4294967296; lia).
  assert (Hpix : 0 <= row * W + col < W * H) by nia.
  lia.
Qed.

(** The stores of one glyph, with the [uint32_t] arithmetic resolved:
    each names a channel of a pixel of the glyph's rectangle and carries
    white or the coverage. *)
Lemma pixel_stores_in (W H px py : Z) (g : Font.GlyphSlot) (i v : Z) :
  0 < W <= 16384 -> 0 < H <= 16384 ->
  0 <= px -> px + Font.bitmap_width g < W ->
  0 <= py -> py + Font.bitmap_rows g < H ->
  In (i, v) (Font.pixel_stores W px py g) <->
  exists x y ch : Z,
    0 <= x < Font.bitmap_width g /\ 0 <= y < Font.bitmap_rows g /\
    0 <= ch < 4 /\
    i = pixel_index W (px + x) (py + y) ch /\
    v = if ch =? 3 then Font.bitmap_buffer g (y * Font.bitmap_width g + x)
        else 255.
Proof.
  intros HW HH Hpx Hfitx Hpy Hfity.
  assert (Hidx : forall x y ch : Z,
            0 <= x < Font.bitmap_width g -> 0 <= y < Font.bitmap_rows g ->
            0 <= ch < 4 ->
            u32 (u32 (u32 (u32 (u32 (py + y) * W) + u32 (px + x)) * 4) + ch)
            = pixel_index W (px + x) (py + y) ch).
  { intros x y ch Hx Hy Hch. unfold pixel_index.
    assert (Hrow : 0 <= (py + y) * W <= 16384 * 16384) by nia.
    change (2 ^ 32) with 4294967296 in *.
    rewrite (u32_small (py + y)) by (change (2 ^ 32) with 4294967296; lia).
    rewrite (u32_small (px + x)) by (change (2 ^ 32) with 4294967296; lia).
    rewrite (u32_small ((py + y) * W))
      by (change (2 ^ 32) with 4294967296; lia).
    rewrite (u32_small ((py + y) * W + (px + x)))
      by (change (2 ^ 32) with 4294967296; lia).
    rewrite (u32_small (((py + y) * W + (px + x)) * 4))
      by (change (2 ^ 32) with 4294967296; lia).
    rewrite u32_small by (change (2 ^ 32) with 4294967296; lia). lia. }
  assert (Hbuf : forall x y : Z,
            0 <= x < Font.bitmap_width g -> 0 <= y < Font.bitmap_rows g ->
            u32 (u32 (y * Font.bitmap_width g) + x)
            = y * Font.bitmap_width g + x).
  { intros x y Hx Hy.
    assert (Hrow : 0 <= y * Font.bitmap_width g <= 16384 * 16384) by nia.
    rewrite (u32_small (y * Font.bitmap_width g))
      by (change (2 ^ 32) with 4294967296; lia).
    apply u32_small. change (2 ^ 32) with 4294967296. lia. }
  unfold Font.pixel_stores. rewrite in_flat_map. split.
  - intros (y & Hy & Hin). apply upto_in in Hy.
    apply in_flat_map in Hin. destruct Hin as (x & Hx & Hin).
    apply upto_in in Hx. cbv zeta in Hin.
    rewrite (Hbuf x y Hx Hy) in Hin.
    destruct Hin as [Heq | [Heq | [Heq | [Heq | []]]]];
      injection Heq as <- <-.
    + exists x, y, 0. rewrite (Hidx x y 0) by lia. repeat split; lia.
    + exists x, y, 1. rewrite (Hidx x y 1) by lia. repeat split; lia.
    + exists x, y, 2. rewrite (Hidx x y 2) by lia. repeat split; lia.
    + exists x, y, 3. rewrite (Hidx x y 3) by lia. repeat split; lia.
  - intros (x & y & ch & Hx & Hy & Hch & -> & ->).
    exists y. split; [apply upto_in; exact Hy |].
    apply in_flat_map. exists x. split; [apply upto_in; exact Hx |].
    cbv zeta. rewrite (Hbuf x y Hx Hy).
    rewrite (Hidx x y 0), (Hidx x y 1), (Hidx x y 2), (Hidx x y 3) by lia.
    assert (Hcases : ch = 0 \/ ch = 1 \/ ch = 2 \/ ch = 3) by lia.
    destruct Hcases as [-> | [-> | [-> | ->]]]; cbn [In Z.eqb];
      [left | right; left | right; right; left | right; right; right; left];
      reflexivity.
Qed.

End AtlasStores.

Section AtlasPacking.
Import Spec.
Variable FT_Load_Char : Z -> option Font.GlyphSlot.
Variables W H : Z.
Hypothesis HW : 0 < W <= 16384.
Hypothesis HH : 0 < H <= 16384.
Hypothesis Hface : forall (c : Z) (g : Font.GlyphSlot),
  FT_Load_Char c = Some g ->
  0 <= Font.bitmap_width g /\ Font.bitmap_width g + 2 < W /\
  0 <= Font.bitmap_rows g < 2 ^ 31.

(** After the copy loops the atlas holds the glyph. *)
Lemma copy_new (data : gmap Z Z) (px py : Z) (g : Font.GlyphSlot) :
  0 <= px -> px + Font.bitmap_width g < W ->
  0 <= py -> py + Font.bitmap_rows g < H ->
  glyph_in_atlas W (fold_left Font.store (Font.pixel_stores W px py g) data)
    px py g.
Proof.
  intros Hpx Hfitx Hpy Hfity x y Hx Hy.
  assert (Hch : forall ch : Z, 0 <= ch < 4 ->
            fold_left Font.store (Font.pixel_stores W px py g) data
              !! pixel_index W (px + x) (py + y) ch
            = Some (if ch =? 3
                    then Font.bitmap_buffer g (y * Font.bitmap_width g + x)
                    else 255)).
  { intros ch Hch. apply fold_store_in.
    - apply (pixel_stores_in W H); try assumption.
      exists x, y, ch. repeat split; lia.
    - intros v' Hin.
      apply (pixel_stores_in W H) in Hin; try assumption.
      destruct Hin as (x' & y' & ch' & Hx' & Hy' & Hch' & Hidx & ->).
      apply pixel_index_inj in Hidx; try lia.
      destruct Hidx as (Hcol & Hrow & <-).
      assert (x' = x) by lia. assert (y' = y) by lia. subst.
      reflexivity. }
  split; [exact (Hch 0 ltac:(lia)) |].
  split; [exact (Hch 1 ltac:(lia)) |].
  split; [exact (Hch 2 ltac:(lia)) | exact (Hch 3 ltac:(lia))].
Qed.

(** The copy loops leave a glyph apart from the new one as it was. *)
Lemma copy_old (data : gmap Z Z) (px py : Z) (g : Font.GlyphSlot)
    (px0 py0 : Z) (g0 : Font.GlyphSlot) :
  0 <= px -> px + Font.bitmap_width g < W ->
  0 <= py -> py + Font.bitmap_rows g < H ->
  0 <= px0 -> px0 + Font.bitmap_width g0 < W -> 0 <= py0 ->
  rect_disjoint (px0, py0) g0 (px, py) g ->
  glyph_in_atlas W data px0 py0 g0 ->
  glyph_in_atlas W (fold_left Font.store (Font.pixel_stores W px py g) data)
    px0 py0 g0.
Proof.
  intros Hpx Hfitx Hpy Hfity Hpx0 Hfitx0 Hpy0 Hapart Hold x y Hx Hy.
  assert (Hch : forall ch : Z, 0 <= ch < 4 ->
            fold_left Font.store (Font.pixel_stores W px py g) data
              !! pixel_index W (px0 + x) (py0 + y) ch
            = data !! pixel_index W (px0 + x) (py0 + y) ch).
  { intros ch Hch. apply fold_store_other. intros v Hin.
    apply (pixel_stores_in W H) in Hin; try assumption.
    destruct Hin as (x' & y' & ch' & Hx' & Hy' & Hch' & Hidx & _).
    apply pixel_index_inj in Hidx; try lia.
    destruct Hidx as (Hcol & Hrow & _).
    unfold rect_disjoint in Hapart. cbn [fst snd] in Hapart. lia. }
  rewrite !Hch by lia. apply Hold; assumption.
Qed.

Lemma copy_bounds (data : gmap Z Z) (px py : Z) (g : Font.GlyphSlot) :
  0 <= px -> px + Font.bitmap_width g < W ->
  0 <= py -> py + Font.bitmap_rows g < H ->
  (forall i, is_Some (data !! i) -> 0 <= i < Font.atlas_bytes W H) ->
  forall i,
    is_Some (fold_left Font.store (Font.pixel_stores W px py g) data !! i) ->
    0 <= i < Font.atlas_bytes W H.
Proof.
  intros Hpx Hfitx Hpy Hfity Hold i Hset.
  destruct (fold_store_keys _ _ _ Hset) as [Hbefore | [v Hin]];
    [apply Hold; exact Hbefore |].
  apply (pixel_stores_in W H) in Hin; try assumption.
  destruct Hin as (x & y & ch & Hx & Hy & Hch & -> & _).
  apply pixel_index_bound; try assumption; lia.
Qed.

(** A glyph behind the pen is apart from a glyph put at the pen. *)
Lemma behind_pen_apart (st : Font.AtlasState) (px py : Z)
    (g0 g : Font.GlyphSlot) :
  behind_pen st px py g0 ->
  rect_disjoint (px, py) g0 (Font.penX st, Font.penY st) g.
Proof.
  unfold behind_pen, rect_disjoint. cbn [fst snd].
  intros [Hrow | (Hy & Hx & _)]; lia.
Qed.

(** Starting a new row keeps the invariant, if the next glyph fits. *)
Lemma wrap_keeps (st : Font.AtlasState) (place : gmap Z (Z * Z)) :
  atlas_inv FT_Load_Char W H st place ->
  Font.penY st + Font.rowHeight st + 2 < H ->
  atlas_inv FT_Load_Char W H
    (Font.MkAtlas 0 (Font.penY st + Font.rowHeight st + 2) 0
       (Font.m_Glyphs st) (Font.atlasData st)) place.
Proof.
  intros (Hok & HpenX & HpenY & Hrh & Hroom & Hbehind) Hfits.
  split; [exact Hok |]. cbn [Font.penX Font.penY Font.rowHeight Font.m_Glyphs].
  split; [lia |]. split; [lia |]. split; [lia |]. split; [lia |].
  intros c g px py Hc Hp Hg. left.
  destruct (Hbehind c g px py Hc Hp Hg) as [Hrow | (Hy & _ & Hh)];
    cbn [Font.penY]; lia.
Qed.

(** Copying a glyph at the pen and moving the pen keeps the invariant. *)
Lemma place_glyph (st : Font.AtlasState) (place : gmap Z (Z * Z)) (c : Z)
    (g : Font.GlyphSlot) :
  atlas_inv FT_Load_Char W H st place ->
  FT_Load_Char c = Some g ->
  Font.penX st + Font.bitmap_width g + 2 < W ->
  Font.penY st + Font.bitmap_rows g < H ->
  atlas_inv FT_Load_Char W H
    (Font.MkAtlas (Font.penX st + (Font.bitmap_width g + 2)) (Font.penY st)
       (Z.max (Font.rowHeight st) (Font.bitmap_rows g))
       (<[c := Font.glyph_info W H (Font.penX st) (Font.penY st) g]>
          (Font.m_Glyphs st))
       (fold_left Font.store
          (Font.pixel_stores W (Font.penX st) (Font.penY st) g)
          (Font.atlasData st)))
    (<[c := (Font.penX st, Font.penY st)]> place).
Proof.
  intros ((Hbytes & Hstored & Hapart) & HpenX & HpenY & Hrh & Hroom & Hbehind)
    Hg Hfitx Hfity.
  destruct (Hface c g Hg) as (Hw & _ & Hh).
  assert (Hold : forall c', c' <> c ->
            is_Some (Font.m_Glyphs st !! c') ->
            exists g0 px py,
              place !! c' = Some (px, py) /\ FT_Load_Char c' = Some g0 /\
              Font.m_Glyphs st !! c' = Some (Font.glyph_info W H px py g0) /\
              0 <= px /\ px + Font.bitmap_width g0 < W /\
              0 <= py /\ py + Font.bitmap_rows g0 < H /\
              glyph_in_atlas W (Font.atlasData st) px py g0 /\
              behind_pen st px py g0).
  { intros c' Hne Hc'.
    destruct (Hstored c' Hc')
      as (g0 & px & py & Hp & Hg0 & Hinfo & B1 & B2 & B3 & B4 & Hin).
    exists g0, px, py. repeat (split; [assumption |]).
    apply (Hbehind c' g0 px py Hc' Hp Hg0). }
  split; [split; [| split] |].
  - cbn [Font.atlasData]. apply copy_bounds; try assumption; lia.
  - intros c' Hc'. cbn [Font.m_Glyphs] in Hc'.
    destruct (Z.eq_dec c' c) as [-> | Hne].
    + exists g, (Font.penX st), (Font.penY st).
      cbn [Font.m_Glyphs Font.atlasData]. rewrite !lookup_insert_eq.
      repeat (split; [first [assumption | reflexivity | lia] |]).
      apply copy_new; try assumption; lia.
    + rewrite lookup_insert_ne in Hc' by congruence.
      destruct (Hold c' Hne Hc')
        as (g0 & px & py & Hp & Hg0 & Hinfo & B1 & B2 & B3 & B4 & Hin & Hb).
      exists g0, px, py. cbn [Font.m_Glyphs Font.atlasData].
      rewrite !lookup_insert_ne by congruence.
      repeat (split; [assumption |]).
      apply copy_old; try assumption; try lia.
      apply behind_pen_apart. exact Hb.
  - intros c1 c2 p1 p2 g1 g2 Hne H1 H2 Hp1 Hp2 Hg1 Hg2.
    cbn [Font.m_Glyphs] in H1, H2.
    destruct (Z.eq_dec c1 c) as [-> | Hne1];
      [| destruct (Z.eq_dec c2 c) as [-> | Hne2]].
    + rewrite lookup_insert_eq in Hp1. injection Hp1 as <-.
      rewrite lookup_insert_ne in Hp2 by congruence.
      rewrite lookup_insert_ne in H2 by congruence.
      destruct (Hold c2 ltac:(congruence) H2)
        as (g0 & px & py & Hp & Hg0 & _ & _ & _ & _ & _ & _ & Hb).
      assert (g0 = g2) by congruence. assert (g1 = g) by congruence.
      assert (p2 = (px, py)) by congruence. subst.
      pose proof (behind_pen_apart st px py g2 g Hb) as Hd.
      unfold rect_disjoint in *. cbn [fst snd] in *. lia.
    + rewrite lookup_insert_eq in Hp2. injection Hp2 as <-.
      rewrite lookup_insert_ne in Hp1 by congruence.
      rewrite lookup_insert_ne in H1 by congruence.
      destruct (Hold c1 Hne1 H1)
        as (g0 & px & py & Hp & Hg0 & _ & _ & _ & _ & _ & _ & Hb).
      assert (g0 = g1) by congruence. assert (g2 = g) by congruence.
      assert (p1 = (px, py)) by congruence. subst.
      apply behind_pen_apart. exact Hb.
    + rewrite lookup_insert_ne in Hp1 by congruence.
      rewrite lookup_insert_ne in Hp2 by congruence.
      rewrite lookup_insert_ne in H1 by congruence.
      rewrite lookup_insert_ne in H2 by congruence.
      apply (Hapart c1 c2 p1 p2 g1 g2); assumption.
  - cbn [Font.penX Font.penY Font.rowHeight Font.m_Glyphs].
    split; [lia |]. split; [lia |]. split; [lia |]. split; [lia |].
    intros c' g' px py Hc' Hp Hg'. unfold behind_pen.
    cbn [Font.penX Font.penY Font.rowHeight].
    destruct (Z.eq_dec c' c) as [-> | Hne].
    + rewrite lookup_insert_eq in Hp. injection Hp as <- <-.
      assert (g' = g) by congruence. subst. right. lia.
    + rewrite lookup_insert_ne in Hp by congruence.
      rewrite lookup_insert_ne in Hc' by congruence.
      destruct (Hbehind c' g' px py Hc' Hp Hg') as [Hrow | (Hy & Hx & Hr)];
        [left; exact Hrow | right; lia].
Qed.

Lemma pack_ok (cs : list Z) :
  forall (st : Font.AtlasState) (place : gmap Z (Z * Z)),
  atlas_inv FT_Load_Char W H st place ->
  exists place' : gmap Z (Z * Z),
    atlas_ok FT_Load_Char W H (Font.pack FT_Load_Char W H cs st) place'.
Proof.
  induction cs as [| c rest IH]; intros st place Hinv;
    [exists place; apply Hinv |].
  cbn [Font.pack]. destruct (FT_Load_Char c) as [g |] eqn:Hg;
    [| apply (IH st place Hinv)].
  destruct (Hface c g Hg) as (Hw & Hfit & Hrows).
  pose proof Hinv as (Hok & HpenX & HpenY & Hrh & Hroom & _).
  change (2 ^ 31) with 2147483648 in Hrows.
  assert (E1 : u32 (u32 (Font.penX st + Font.bitmap_width g) + 2)
               = Font.penX st + Font.bitmap_width g + 2).
  { rewrite (u32_small (Font.penX st + Font.bitmap_width g))
      by (change (2 ^ 32) with 4294967296; lia).
    apply u32_small. change (2 ^ 32) with 4294967296. lia. }
  assert (E2 : u32 (Font.penY st + u32 (Font.rowHeight st + 2))
               = Font.penY st + Font.rowHeight st + 2).
  { rewrite (u32_small (Font.rowHeight st + 2))
      by (change (2 ^ 32) with 4294967296; lia).
    rewrite u32_small by (change (2 ^ 32) with 4294967296; lia). lia. }
  rewrite E1, E2. cbv zeta.
  destruct (W <=? Font.penX st + Font.bitmap_width g + 2) eqn:Ewrap.
  - cbn [Font.penX Font.penY Font.rowHeight Font.m_Glyphs Font.atlasData].
    rewrite (u32_small (Font.penY st + Font.rowHeight st + 2
                        + Font.bitmap_rows g))
      by (change (2 ^ 32) with 4294967296; lia).
    destruct (H <=? Font.penY st + Font.rowHeight st + 2
                    + Font.bitmap_rows g) eqn:Ebreak;
      [exists place; exact Hok |].
    apply Z.leb_gt in Ebreak.
    rewrite (u32_small (Font.bitmap_width g + 2))
      by (change (2 ^ 32) with 4294967296; lia).
    rewrite (u32_small (0 + (Font.bitmap_width g + 2)))
      by (change (2 ^ 32) with 4294967296; lia).
    pose proof (wrap_keeps st place Hinv ltac:(lia)) as Hinv1.
    apply (IH _ (<[c := (0, Font.penY st + Font.rowHeight st + 2)]> place)).
    apply (place_glyph _ place c g Hinv1 Hg);
      cbn [Font.penX Font.penY]; lia.
  - apply Z.leb_gt in Ewrap.
    rewrite (u32_small (Font.penY st + Font.bitmap_rows g))
      by (change (2 ^ 32) with 4294967296; lia).
    destruct (H <=? Font.penY st + Font.bitmap_rows g) eqn:Ebreak;
      [exists place; exact Hok |].
    apply Z.leb_gt in Ebreak.
    rewrite (u32_small (Font.bitmap_width g + 2))
      by (change (2 ^ 32) with 4294967296; lia).
    rewrite (u32_small (Font.penX st + (Font.bitmap_width g + 2)))
      by (change (2 ^ 32) with 4294967296; lia).
    apply (IH _ (<[c := (Font.penX st, Font.penY st)]> place)).
    apply (place_glyph st place c g Hinv Hg); lia.
Qed.

Lemma empty_atlas_inv :
  atlas_inv FT_Load_Char W H (Font.MkAtlas 0 0 0 ∅ ∅) ∅.
Proof.
  split; [split; [| split] |].
  - intros i Hi. cbn [Font.atlasData] in Hi. rewrite lookup_empty in Hi.
    destruct Hi as [v Hv]. discriminate.
  - intros c Hc. cbn [Font.m_Glyphs] in Hc. rewrite lookup_empty in Hc.
    destruct Hc as [v Hv]. discriminate.
  - intros c1 c2 p1 p2 g1 g2 _ Hc. cbn [Font.m_Glyphs] in Hc.
    rewrite lookup_empty in Hc. destruct Hc as [v Hv]. discriminate.
  - cbn [Font.penX Font.penY Font.rowHeight Font.m_Glyphs].
    split; [lia |]. split; [lia |]. split; [lia |]. split; [lia |].
    intros c g px py Hc. rewrite lookup_empty in Hc.
    destruct Hc as [v Hv]. discriminate.
Qed.

(** X22. The atlas holds every glyph it lists, intact.  For an atlas of
    at most 16384 by 16384 pixels and a face whose bitmaps are narrower
    than the atlas by more than two pixels and have fewer than 2^31
    rows, [CreateAtlas] stores bytes only inside the atlas buffer, and
    there is a place for each
    character of [m_Glyphs] such that: the glyph is the one FreeType
    rendered, its rectangle lies inside the atlas, its [GlyphInfo] is
    computed from that rectangle, the atlas holds white pixels with the
    glyph's coverage as alpha all over it, and the rectangles of two
    different characters have no pixel in common. *)
Theorem X22_atlas_keeps_glyphs :
  exists place : gmap Z (Z * Z),
    atlas_ok FT_Load_Char W H (Font.CreateAtlas FT_Load_Char W H) place.
Proof. exact (pack_ok Font.characters _ ∅ empty_atlas_inv). Qed.

End AtlasPacking.

(** ** The sounds being played *)

Section AudioFacts.
Import Spec.
Variable IsLoaded : Z -> bool.

Lemma modify_inv (i : Z) (f : AudioManager.PlayingSound -> AudioManager.PlayingSound)
    (s : AudioManager.t) (n : Z) :
  audio_inv s n -> audio_inv (AudioManager.modify i f s) n.
Proof.
  intros Hinv. pose proof Hinv as (Hn & Hnext & Hkeys & Hbgm).
  unfold AudioManager.modify.
  destruct (i =? 0); [exact Hinv |].
  destruct (AudioManager.playingSounds s !! i) as [p |] eqn:Ep;
    [| exact Hinv].
  split; [exact Hn |]. split; [exact Hnext |]. split; [| exact Hbgm].
  intros j Hj. cbn [AudioManager.set_playingSounds AudioManager.playingSounds] in Hj.
  apply lookup_insert_is_Some in Hj. destruct Hj as [<- | [_ Hj]];
    [apply Hkeys; rewrite Ep; eexists; reflexivity | apply Hkeys; exact Hj].
Qed.

Lemma Stop_inv (i : Z) (fadeOutTime : float) (s : AudioManager.t) (n : Z) :
  audio_inv s n -> audio_inv (AudioManager.Stop i fadeOutTime s) n.
Proof.
  intros Hinv. pose proof Hinv as (Hn & Hnext & Hkeys & Hbgm).
  unfold AudioManager.Stop.
  destruct (i =? 0); [exact Hinv |].
  destruct (AudioManager.playingSounds s !! i) as [p |] eqn:Ep;
    [| exact Hinv].
  destruct (F32.ltb F32.zero fadeOutTime);
    (split; [exact Hn |]; split; [exact Hnext |]; split; [| exact Hbgm]);
    intros j Hj;
    cbn [AudioManager.set_playingSounds AudioManager.playingSounds] in Hj.
  - apply lookup_insert_is_Some in Hj. destruct Hj as [<- | [_ Hj]];
      [apply Hkeys; rewrite Ep; eexists; reflexivity | apply Hkeys; exact Hj].
  - apply lookup_delete_is_Some in Hj. apply Hkeys, Hj.
Qed.

Lemma StopBGM_inv (fadeOutTime : float) (s : AudioManager.t) (n : Z) :
  audio_inv s n -> audio_inv (AudioManager.StopBGM fadeOutTime s) n.
Proof.
  intros Hinv. unfold AudioManager.StopBGM.
  destruct (AudioManager.m_CurrentBGM s =? 0); [exact Hinv |].
  destruct (Stop_inv (AudioManager.m_CurrentBGM s) fadeOutTime s n Hinv)
    as (Hn & Hnext & Hkeys & _).
  split; [exact Hn |]. split; [exact Hnext |]. split; [exact Hkeys |].
  left. reflexivity.
Qed.

Lemma fmap_inv (f : AudioManager.PlayingSound -> AudioManager.PlayingSound)
    (s : AudioManager.t) (n : Z) :
  audio_inv s n ->
  audio_inv
    (AudioManager.set_playingSounds (f <$> AudioManager.playingSounds s) s) n.
Proof.
  intros (Hn & Hnext & Hkeys & Hbgm).
  split; [exact Hn |]. split; [exact Hnext |]. split; [| exact Hbgm].
  intros j Hj. cbn [AudioManager.set_playingSounds AudioManager.playingSounds] in Hj.
  rewrite lookup_fmap in Hj. apply fmap_is_Some in Hj. apply Hkeys, Hj.
Qed.

Lemma Update_inv (deltaTime : float) (s : AudioManager.t) (n : Z) :
  audio_inv s n -> audio_inv (AudioManager.Update deltaTime s) n.
Proof.
  intros (Hn & Hnext & Hkeys & Hbgm).
  split; [exact Hn |]. split; [exact Hnext |]. split; [| exact Hbgm].
  intros j [p Hj]. cbn [AudioManager.Update AudioManager.set_playingSounds
                        AudioManager.playingSounds] in Hj.
  rewrite lookup_omap in Hj. apply bind_Some in Hj.
  destruct Hj as (q & Hq & _). apply Hkeys. rewrite Hq. eexists. reflexivity.
Qed.

(** [Play] of a sound that is there returns the next id, which is new. *)
Lemma Play_inv (sound : Z) (options : AudioManager.PlayOptions)
    (s : AudioManager.t) (n : Z) :
  audio_inv s n -> n + 1 < 2 ^ 64 - 1 ->
  let '(s', h) := AudioManager.Play IsLoaded sound options s in
  (h = 0 /\ audio_inv s' n) \/ (h = n + 1 /\ audio_inv s' (n + 1)).
Proof.
  intros Hinv Hroom. pose proof Hinv as (Hn & Hnext & Hkeys & Hbgm).
  unfold AudioManager.Play.
  destruct ((sound =? nullptr) || negb (IsLoaded sound));
    [left; split; [reflexivity | exact Hinv] |].
  right. rewrite Hnext. split; [lia |].
  split; [lia |]. cbn [AudioManager.nextInstanceId AudioManager.playingSounds
                      AudioManager.m_CurrentBGM].
  split; [unfold AudioManager.u64; rewrite Z.mod_small; lia |].
  split; [| destruct Hbgm; [left; assumption | right; lia]].
  intros j Hj. apply lookup_insert_is_Some in Hj.
  destruct Hj as [<- | [_ Hj]]; [lia |]. apply Hkeys in Hj. lia.
Qed.

Lemma PlayBGM_inv (sound : Z) (volume fadeInTime : float)
    (s : AudioManager.t) (n : Z) :
  audio_inv s n -> n + 1 < 2 ^ 64 - 1 ->
  let '(s', h) := AudioManager.PlayBGM IsLoaded sound volume fadeInTime s in
  (h = 0 /\ audio_inv s' n) \/ (h = n + 1 /\ audio_inv s' (n + 1)).
Proof.
  intros Hinv Hroom. unfold AudioManager.PlayBGM.
  pose proof (StopBGM_inv F32.half s n Hinv) as Hinv1.
  pose proof Hinv1 as (Hn & Hnext & Hkeys & Hbgm).
  destruct ((sound =? nullptr) || negb (IsLoaded sound));
    [left; split; [reflexivity | exact Hinv1] |].
  right. rewrite Hnext. split; [lia |].
  split; [lia |]. cbn [AudioManager.nextInstanceId AudioManager.playingSounds
                      AudioManager.m_CurrentBGM].
  split; [unfold AudioManager.u64; rewrite Z.mod_small; lia |].
  split; [| right; lia].
  intros j Hj. apply lookup_insert_is_Some in Hj.
  destruct Hj as [<- | [_ Hj]]; [lia |]. apply Hkeys in Hj. lia.
Qed.

Lemma audio_call_inv (call : AudioCall) (s : AudioManager.t) (n : Z) :
  audio_inv s n -> n + 1 < 2 ^ 64 - 1 ->
  let '(s', h) := audio_call IsLoaded s call in
  ((h = None \/ h = Some 0) /\ audio_inv s' n) \/
  (h = Some (n + 1) /\ audio_inv s' (n + 1)).
Proof.
  intros Hinv Hroom. destruct call; cbn [audio_call];
    try (left; split; [left; reflexivity |]).
  - pose proof (Play_inv sound options s n Hinv Hroom) as HP.
    destruct (AudioManager.Play IsLoaded sound options s) as [s' h].
    destruct HP as [[-> H1] | [-> H1]];
      [left; split; [right; reflexivity | exact H1]
      | right; split; [reflexivity | exact H1]].
  - pose proof (Play_inv sound
                  (AudioManager.MkOptions volume F32.one F32.zero loop false
                     F32.zero) s n Hinv Hroom) as HP.
    unfold AudioManager.Play_volume.
    destruct (AudioManager.Play IsLoaded sound _ s) as [s' h].
    destruct HP as [[-> H1] | [-> H1]];
      [left; split; [right; reflexivity | exact H1]
      | right; split; [reflexivity | exact H1]].
  - pose proof (PlayBGM_inv sound volume fadeInTime s n Hinv Hroom) as HP.
    destruct (AudioManager.PlayBGM IsLoaded sound volume fadeInTime s)
      as [s' h].
    destruct HP as [[-> H1] | [-> H1]];
      [left; split; [right; reflexivity | exact H1]
      | right; split; [reflexivity | exact H1]].
  - apply Stop_inv, Hinv.
  - apply modify_inv, Hinv.
  - apply modify_inv, Hinv.
  - unfold AudioManager.StopAll.
    destruct (F32.ltb F32.zero fadeOutTime).
    + destruct (fmap_inv
                  (fun p => AudioManager.set_fade (AudioManager.fadeVolume p)
                              F32.zero (F32.div F32.one fadeOutTime) true p)
                  s n Hinv) as (Hn & Hnext & Hkeys & _).
      split; [exact Hn |]. split; [exact Hnext |]. split; [exact Hkeys |].
      left. reflexivity.
    + destruct Hinv as (Hn & Hnext & _ & _).
      split; [exact Hn |]. split; [exact Hnext |].
      split; [| left; reflexivity].
      intros j Hj. cbn in Hj. rewrite lookup_empty in Hj.
      destruct Hj as [p Hp]. discriminate.
  - apply StopBGM_inv, Hinv.
  - apply fmap_inv, Hinv.
  - apply fmap_inv, Hinv.
  - apply modify_inv, Hinv.
  - exact Hinv.
  - exact Hinv.
  - exact Hinv.
  - apply modify_inv, Hinv.
  - apply modify_inv, Hinv.
  - apply Update_inv, Hinv.
Qed.

Lemma audio_calls_inv (calls : list AudioCall) :
  forall (s : AudioManager.t) (n : Z),
  audio_inv s n -> n + Z.of_nat (length calls) < 2 ^ 64 - 1 ->
  exists k : nat,
    (k <= length calls)%nat /\
    snd (audio_calls IsLoaded calls s)
    = map (fun i => n + 1 + Z.of_nat i) (seq 0 k) /\
    audio_inv (fst (audio_calls IsLoaded calls s)) (n + Z.of_nat k).
Proof.
  induction calls as [| call rest IH]; intros s n Hinv Hroom.
  - exists 0%nat. cbn [audio_calls fst snd length seq map].
    split; [lia |]. split; [reflexivity |]. rewrite Z.add_0_r. exact Hinv.
  - cbn [length] in Hroom. cbn [audio_calls].
    pose proof (audio_call_inv call s n Hinv ltac:(lia)) as Hstep.
    destruct (audio_call IsLoaded s call) as [s1 h].
    destruct Hstep as [[Hh Hinv1] | [-> Hinv1]].
    + destruct (IH s1 n Hinv1 ltac:(lia)) as (k & Hk & Hhs & Hinv2).
      destruct (audio_calls IsLoaded rest s1) as [s2 hs].
      cbn [fst snd] in *. exists k. split; [cbn [length]; lia |].
      split; [| exact Hinv2].
      destruct Hh as [-> | ->]; [exact Hhs | cbn; exact Hhs].
    + destruct (IH s1 (n + 1) Hinv1 ltac:(lia)) as (k & Hk & Hhs & Hinv2).
      destruct (audio_calls IsLoaded rest s1) as [s2 hs].
      cbn [fst snd] in *. exists (S k). split; [cbn [length]; lia |].
      split.
      * destruct (Z.eqb_spec (n + 1) 0) as [E | _];
          [destruct Hinv as (Hn & _); lia |].
        rewrite Hhs. cbn [seq map]. f_equal; [lia |].
        rewrite <- seq_shift, map_map. apply map_ext. intros i. lia.
      * replace (n + Z.of_nat (S k)) with (n + 1 + Z.of_nat k) by lia.
        exact Hinv2.
Qed.

Lemma create_audio_inv (masterVolume sfxVolume bgmVolume : float) :
  audio_inv (AudioManager.create masterVolume sfxVolume bgmVolume) 0.
Proof.
  split; [lia |]. split; [reflexivity |]. split; [| left; reflexivity].
  intros j Hj. cbn in Hj. rewrite lookup_empty in Hj.
  destruct Hj as [p Hp]. discriminate.
Qed.

(** X25. Instance ids are never reused.  In any sequence of fewer than
    2^64 - 1 calls of the audio manager's interface on a new manager,
    the valid ids that [Play] and [PlayBGM] return are pairwise
    different, also after the sounds they named were stopped or removed
    by [Update], and every sound being played and the current BGM are
    named by one of them: a stale id never names another sound. *)
Theorem X25_instance_ids_are_fresh (calls : list AudioCall)
    (masterVolume sfxVolume bgmVolume : float) :
  Z.of_nat (length calls) < 2 ^ 64 - 1 ->
  let result :=
    audio_calls IsLoaded calls
      (AudioManager.create masterVolume sfxVolume bgmVolume) in
  NoDup (snd result) /\
  Forall (fun id => id <> 0) (snd result) /\
  (forall id : Z,
     is_Some (AudioManager.playingSounds (fst result) !! id) ->
     In id (snd result)) /\
  (AudioManager.m_CurrentBGM (fst result) = 0 \/
   In (AudioManager.m_CurrentBGM (fst result)) (snd result)).
Proof.
  intros Hroom result.
  destruct (audio_calls_inv calls _ 0
              (create_audio_inv masterVolume sfxVolume bgmVolume)
              ltac:(lia)) as (k & _ & Hhs & _ & _ & Hkeys & Hbgm).
  fold result in Hhs, Hkeys, Hbgm. rewrite Hhs.
  assert (Hin : forall id : Z, 1 <= id <= 0 + Z.of_nat k ->
            In id (map (fun i => 0 + 1 + Z.of_nat i) (seq 0 k))).
  { intros id Hid. apply in_map_iff. exists (Z.to_nat (id - 1)).
    split; [lia | apply in_seq; lia]. }
  split; [| split; [| split]].
  - assert (Hinj : Inj eq eq (fun i : nat => 0 + 1 + Z.of_nat i))
      by (intros x y Hxy; lia).
    apply (NoDup_fmap_2 _), NoDup_seq.
  - apply List.Forall_forall. intros id Hid. apply in_map_iff in Hid.
    destruct Hid as (i & <- & _). lia.
  - intros id Hid. apply Hin, Hkeys, Hid.
  - destruct Hbgm as [H0 | Hb]; [left; exact H0 | right; apply Hin, Hb].
Qed.

(** A sound whose fade volume and fade target are both zero is left as
    it is by [Update]: neither branch of the fade applies. *)
Lemma update_sound_stuck (deltaTime : float) (p : AudioManager.PlayingSound) :
  AudioManager.IsActive p = true ->
  AudioManager.fadeVolume p = F32.zero ->
  AudioManager.fadeTarget p = F32.zero ->
  AudioManager.update_sound deltaTime p = Some p.
Proof.
  intros Hactive Hfv Hft. unfold AudioManager.update_sound.
  rewrite Hactive, Hfv, Hft. cbn [negb].
  destruct (F32.ltb F32.zero (AudioManager.fadeSpeed p)); reflexivity.
Qed.

Lemma Update_stuck (deltas : list float) :
  forall (s : AudioManager.t) (id : Z) (p : AudioManager.PlayingSound),
  AudioManager.playingSounds s !! id = Some p ->
  AudioManager.IsActive p = true ->
  AudioManager.fadeVolume p = F32.zero ->
  AudioManager.fadeTarget p = F32.zero ->
  AudioManager.playingSounds
    (fold_left (fun s dt => AudioManager.Update dt s) deltas s) !! id
  = Some p.
Proof.
  induction deltas as [| dt rest IH]; intros s id p Hp Hactive Hfv Hft;
    [exact Hp |].
  cbn [fold_left]. apply IH; try assumption.
  cbn [AudioManager.Update AudioManager.set_playingSounds
       AudioManager.playingSounds].
  rewrite lookup_omap, Hp. cbn [mbind option_bind].
  apply update_sound_stuck; assumption.
Qed.

(** X26. A background music that is replaced before its fade-in has
    begun is never removed.  [PlayBGM] with a fade-in starts the sound at
    fade volume 0; a second [PlayBGM] before any [Update] asks it to fade
    out to 0 and stop; [Update] then finds its fade volume neither below
    nor above the target, so whatever the times passed to [Update] the
    sound stays in [playingSounds], active, looping and at fade volume 0,
    and [IsPlaying] of its id stays true. *)
Theorem X26_replaced_bgm_is_never_removed (s : AudioManager.t)
    (sound_a sound_b : Z) (volume_a fade_a volume_b fade_b : float)
    (deltas : list float) :
  sound_a <> nullptr -> IsLoaded sound_a = true ->
  F32.ltb F32.zero fade_a = true ->
  0 < AudioManager.nextInstanceId s < 2 ^ 64 ->
  let first := AudioManager.PlayBGM IsLoaded sound_a volume_a fade_a s in
  let second :=
    AudioManager.PlayBGM IsLoaded sound_b volume_b fade_b (fst first) in
  let later :=
    fold_left (fun s dt => AudioManager.Update dt s) deltas (fst second) in
  exists p : AudioManager.PlayingSound,
    AudioManager.playingSounds later !! snd first = Some p /\
    AudioManager.sound p = sound_a /\
    AudioManager.loop p = true /\
    AudioManager.fadeVolume p = F32.zero /\
    AudioManager.fadeOutStop p = true /\
    AudioManager.IsPlaying (snd first) later = true.
Proof.
  intros Hsound Hloaded Hfade Hnext first second later.
  assert (Hnull : (sound_a =? nullptr) = false) by (apply Z.eqb_neq; exact Hsound).
  set (s0 := AudioManager.StopBGM F32.half s).
  assert (Hnext0 : AudioManager.nextInstanceId s0 = AudioManager.nextInstanceId s).
  { unfold s0, AudioManager.StopBGM, AudioManager.Stop.
    destruct (AudioManager.m_CurrentBGM s =? 0); [reflexivity |].
    destruct (AudioManager.playingSounds s !! AudioManager.m_CurrentBGM s);
      [| reflexivity].
    destruct (F32.ltb F32.zero F32.half); reflexivity. }
  set (a := AudioManager.nextInstanceId s) in *.
  set (pa := AudioManager.set_fade F32.zero F32.one (F32.div F32.one fade_a)
               false
               (AudioManager.MkPlaying sound_a a
                  (F32.mul (F32.mul volume_a (AudioManager.m_MasterVolume s0))
                     (AudioManager.m_BGMVolume s0))
                  F32.one F32.zero true false true F32.one F32.one F32.zero
                  false 0)).
  assert (Hfirst : first
                   = (AudioManager.Mk (<[a := pa]> (AudioManager.playingSounds s0))
                        (AudioManager.u64 (a + 1))
                        (AudioManager.m_MasterVolume s0)
                        (AudioManager.m_SFXVolume s0)
                        (AudioManager.m_BGMVolume s0) a, a)).
  { unfold first, AudioManager.PlayBGM. fold s0.
    rewrite Hnull, Hloaded, Hfade, Hnext0. reflexivity. }
  set (pa' := AudioManager.set_fade F32.zero F32.zero
                (F32.div F32.one F32.half) true pa).
  assert (Ha0 : (a =? 0) = false) by (apply Z.eqb_neq; lia).
  assert (Hsecond : AudioManager.playingSounds (fst second) !! a = Some pa').
  { unfold second. rewrite Hfirst. cbn [fst].
    unfold AudioManager.PlayBGM, AudioManager.StopBGM, AudioManager.Stop.
    cbn [AudioManager.m_CurrentBGM AudioManager.playingSounds].
    rewrite Ha0, lookup_insert_eq.
    change (F32.ltb F32.zero F32.half) with true. cbv iota.
    cbn [AudioManager.set_CurrentBGM AudioManager.set_playingSounds
         AudioManager.playingSounds AudioManager.nextInstanceId
         AudioManager.m_MasterVolume AudioManager.m_SFXVolume
         AudioManager.m_BGMVolume AudioManager.m_CurrentBGM].
    destruct ((sound_b =? nullptr) || negb (IsLoaded sound_b));
      cbn [fst AudioManager.playingSounds].
    - apply lookup_insert_eq.
    - rewrite lookup_insert_ne; [apply lookup_insert_eq |].
      unfold AudioManager.u64. intros Heq.
      destruct (Z.eq_dec (a + 1) (2 ^ 64)) as [E | E].
      + rewrite E, Z.mod_same in Heq by lia. lia.
      + rewrite Z.mod_small in Heq by lia. lia. }
  exists pa'.
  assert (Hlater : AudioManager.playingSounds later !! a = Some pa').
  { unfold later. apply Update_stuck; [exact Hsecond | | reflexivity ..].
    unfold AudioManager.IsActive. cbn. rewrite Hnull. reflexivity. }
  assert (Hid : snd first = a) by (rewrite Hfirst; reflexivity).
  rewrite Hid. split; [exact Hlater |].
  split; [reflexivity |]. split; [reflexivity |]. split; [reflexivity |].
  split; [reflexivity |].
  unfold AudioManager.IsPlaying. rewrite Ha0, Hlater.
  unfold AudioManager.IsActive. cbn. rewrite Hnull. reflexivity.
Qed.

End AudioFacts.

(** ** Mixing *)

Section AudioMixFacts.
Import Spec.
Variable GetData : Z -> option AudioManager.SoundData.
Variable channels : Z.

Lemma set_currentFrame_same (p : AudioManager.PlayingSound) :
  AudioManager.set_currentFrame (AudioManager.currentFrame p) p = p.
Proof. destruct p. reflexivity. Qed.

(** With a pitch whose cast is 0 the frame loop leaves the sound where it
    is. *)
Lemma mix_frames_frozen (data : AudioManager.SoundData) (volume : float)
    (p : AudioManager.PlayingSound) (frames : list Z) :
  AudioManager.size_t_of_float (AudioManager.pitch p) = Some 0 ->
  0 <= AudioManager.currentFrame p < AudioManager.totalFrames data ->
  AudioManager.currentFrame p < 2 ^ 64 ->
  forall out : list float,
  exists out' : list float,
    AudioManager.mix_frames channels data volume frames p out = Some (p, out').
Proof.
  intros Hpitch Hframe H64.
  induction frames as [| frame rest IH]; intros out;
    [exists out; reflexivity |].
  cbn [AudioManager.mix_frames].
  destruct (Z.leb_spec (AudioManager.totalFrames data)
              (AudioManager.currentFrame p)) as [Hover | _]; [lia |].
  cbn [andb]. rewrite Hpitch.
  replace (AudioManager.u64 (AudioManager.currentFrame p + 0))
    with (AudioManager.currentFrame p)
    by (unfold AudioManager.u64; rewrite Z.add_0_r, Z.mod_small; lia).
  rewrite set_currentFrame_same. apply IH.
Qed.

(** The frame loop is defined whenever the cast of the pitch is, and it
    changes neither the pitch nor anything but the position and the
    pointer to the sound. *)
Lemma mix_frames_defined (data : AudioManager.SoundData) (volume : float)
    (frames : list Z) :
  forall (p : AudioManager.PlayingSound) (out : list float),
  is_Some (AudioManager.size_t_of_float (AudioManager.pitch p)) ->
  exists (p' : AudioManager.PlayingSound) (out' : list float),
    AudioManager.mix_frames channels data volume frames p out
    = Some (p', out') /\
    AudioManager.pitch p' = AudioManager.pitch p.
Proof.
  induction frames as [| frame rest IH]; intros p out Hpitch;
    [exists p, out; split; reflexivity |].
  cbn [AudioManager.mix_frames].
  destruct ((AudioManager.totalFrames data <=? AudioManager.currentFrame p)
            && negb (AudioManager.loop p));
    [eexists _, _; split; reflexivity |].
  assert (Hsame : AudioManager.pitch
                    (if AudioManager.totalFrames data
                        <=? AudioManager.currentFrame p
                     then AudioManager.set_currentFrame 0 p else p)
                  = AudioManager.pitch p)
    by (destruct (AudioManager.totalFrames data
                  <=? AudioManager.currentFrame p); reflexivity).
  rewrite Hsame. destruct Hpitch as [step Hstep]. rewrite Hstep.
  match goal with
  | |- context [AudioManager.mix_frames _ _ _ rest ?q ?o] =>
      destruct (IH q o) as (p' & out' & Hmix & Hp');
        [cbn [AudioManager.set_currentFrame AudioManager.pitch];
         rewrite Hsame, Hstep; eexists; reflexivity |];
        exists p', out'; split; [exact Hmix |];
        rewrite Hp'; cbn [AudioManager.set_currentFrame AudioManager.pitch];
        exact Hsame
  end.
Qed.

(** At normal pitch a sound that does not loop is over once more frames
    are asked for than it has left. *)
Lemma mix_frames_ends (data : AudioManager.SoundData) (volume : float)
    (frames : list Z) :
  forall (p : AudioManager.PlayingSound) (out : list float),
  AudioManager.loop p = false ->
  AudioManager.size_t_of_float (AudioManager.pitch p) = Some 1 ->
  0 <= AudioManager.currentFrame p <= AudioManager.totalFrames data ->
  AudioManager.totalFrames data < 2 ^ 64 ->
  AudioManager.totalFrames data - AudioManager.currentFrame p
  < Z.of_nat (length frames) ->
  exists (p' : AudioManager.PlayingSound) (out' : list float),
    AudioManager.mix_frames channels data volume frames p out
    = Some (p', out') /\
    AudioManager.sound p' = nullptr /\
    AudioManager.pitch p' = AudioManager.pitch p.
Proof.
  induction frames as [| frame rest IH]; intros p out Hloop Hpitch H0 H64 Hlen.
  - cbn [length] in Hlen. lia.
  - cbn [AudioManager.mix_frames length] in *. rewrite Hloop. cbn [negb].
    destruct (Z.leb_spec (AudioManager.totalFrames data)
                (AudioManager.currentFrame p)) as [Hover | Hleft]; cbn [andb].
    + eexists _, _. split; [reflexivity |]. split; reflexivity.
    + rewrite Hpitch.
      assert (Hnext : AudioManager.u64 (AudioManager.currentFrame p + 1)
                      = AudioManager.currentFrame p + 1)
        by (unfold AudioManager.u64; rewrite Z.mod_small; lia).
      rewrite Hnext.
      set (q := AudioManager.set_currentFrame
                  (AudioManager.currentFrame p + 1) p).
      assert (Hq1 : AudioManager.loop q = false) by exact Hloop.
      assert (Hq2 : AudioManager.size_t_of_float (AudioManager.pitch q)
                    = Some 1) by exact Hpitch.
      assert (Hq3 : 0 <= AudioManager.currentFrame q
                    <= AudioManager.totalFrames data)
        by (unfold q; cbn [AudioManager.set_currentFrame
                           AudioManager.currentFrame]; lia).
      assert (Hq4 : AudioManager.totalFrames data
                    - AudioManager.currentFrame q < Z.of_nat (length rest))
        by (unfold q; cbn [AudioManager.set_currentFrame
                           AudioManager.currentFrame]; lia).
      match goal with
      | |- context [AudioManager.mix_frames _ _ _ rest q ?o] =>
          destruct (IH q o Hq1 Hq2 Hq3 H64 Hq4)
            as (p' & out' & Hmix & Hs & Hp')
      end.
      exists p', out'. split; [exact Hmix |]. split; [exact Hs |].
      rewrite Hp'. reflexivity.
Qed.

Lemma process_sound_defined (frameCount : Z) (p : AudioManager.PlayingSound)
    (out : list float) :
  is_Some (AudioManager.size_t_of_float (AudioManager.pitch p)) ->
  exists (p' : AudioManager.PlayingSound) (out' : list float),
    AudioManager.process_sound GetData channels frameCount p out
    = Some (p', out') /\
    AudioManager.pitch p' = AudioManager.pitch p.
Proof.
  intros Hpitch. unfold AudioManager.process_sound.
  destruct (negb (AudioManager.IsActive p) || AudioManager.paused p);
    [exists p, out; split; reflexivity |].
  destruct (GetData (AudioManager.sound p)) as [data |];
    [| exists p, out; split; reflexivity].
  destruct (bool_decide (AudioManager.pcmData data = []));
    [exists p, out; split; reflexivity |].
  apply mix_frames_defined. exact Hpitch.
Qed.

(** A sound that the loop body leaves as it is stays as it is through
    the loop over the sounds, whatever the order. *)
Lemma process_sounds_keeps (frameCount : Z) (i : Z)
    (p : AudioManager.PlayingSound) :
  (forall out : list float,
     exists out' : list float,
       AudioManager.process_sound GetData channels frameCount p out
       = Some (p, out')) ->
  forall (order : list Z) (sounds : gmap Z AudioManager.PlayingSound)
         (out : list float),
  pitches_defined sounds -> sounds !! i = Some p ->
  exists (sounds' : gmap Z AudioManager.PlayingSound) (out' : list float),
    AudioManager.process_sounds GetData channels order frameCount sounds out
    = Some (sounds', out') /\
    sounds' !! i = Some p /\ pitches_defined sounds'.
Proof.
  intros Hfixed.
  induction order as [| j rest IH]; intros sounds out Hdef Hi;
    [exists sounds, out; repeat split; assumption |].
  cbn [AudioManager.process_sounds].
  destruct (sounds !! j) as [q |] eqn:Hj; [| apply IH; assumption].
  destruct (Z.eq_dec j i) as [-> | Hne].
  - assert (q = p) by congruence. subst q.
    destruct (Hfixed out) as (out1 & ->).
    apply IH.
    + intros k r Hk. destruct (Z.eq_dec k i) as [-> | Hki].
      * rewrite lookup_insert_eq in Hk. injection Hk as <-.
        apply (Hdef i p Hi).
      * rewrite lookup_insert_ne in Hk by congruence. apply (Hdef k r Hk).
    + apply lookup_insert_eq.
  - destruct (process_sound_defined frameCount q out (Hdef j q Hj))
      as (q' & out1 & -> & Hq').
    apply IH.
    + intros k r Hk. destruct (Z.eq_dec k j) as [-> | Hkj].
      * rewrite lookup_insert_eq in Hk. injection Hk as <-.
        rewrite Hq'. apply (Hdef j q Hj).
      * rewrite lookup_insert_ne in Hk by congruence. apply (Hdef k r Hk).
    + rewrite lookup_insert_ne by exact Hne. exact Hi.
Qed.

Lemma process_sound_inactive (frameCount : Z) (p : AudioManager.PlayingSound)
    (out : list float) :
  AudioManager.sound p = nullptr ->
  AudioManager.process_sound GetData channels frameCount p out = Some (p, out).
Proof.
  intros Hnull. unfold AudioManager.process_sound, AudioManager.IsActive.
  rewrite Hnull. reflexivity.
Qed.

(** The mantissa of a float lies between the powers of two its digit
    count names. *)
Lemma digits2_pos_bound (m : positive) : Z.pos m < 2 ^ Z.pos (digits2_pos m).
Proof.
  induction m as [m IH | m IH |]; cbn [digits2_pos];
    try (rewrite Pos2Z.inj_succ, Z.pow_succ_r by lia; lia).
  reflexivity.
Qed.

Lemma digits2_pos_least (m : positive) :
  2 ^ (Z.pos (digits2_pos m) - 1) <= Z.pos m.
Proof.
  induction m as [m IH | m IH |]; cbn [digits2_pos];
    try (rewrite Pos2Z.inj_succ;
         replace (Z.succ (Z.pos (digits2_pos m)) - 1)
           with (Z.succ (Z.pos (digits2_pos m) - 1)) by lia;
         rewrite Z.pow_succ_r by lia; lia).
  reflexivity.
Qed.

(** A positive binary32 number that compares below 1 has an exponent of
    at most -24 and a mantissa below 2^24: its value is below 1. *)
Lemma finite_below_one (m : positive) (e : Z) :
  binary32 (S754_finite false m e) ->
  F32.ltb (S754_finite false m e) F32.one = true ->
  e <= -24 /\ Z.pos m < 2 ^ 24.
Proof.
  intros Hvalid Hlt.
  unfold binary32, valid_binary, bounded, canonical_mantissa, fexp, emin,
    F32.prec, F32.emax in Hvalid.
  apply andb_true_iff in Hvalid as [Hcanon _].
  apply Z.eqb_eq in Hcanon.
  pose proof (digits2_pos_bound m) as Hd.
  pose proof (digits2_pos_least m) as Hl.
  unfold F32.ltb, SFltb, SFcompare, F32.one in Hlt.
  destruct (Z.compare_spec e (-23)) as [He | He | He].
  - subst e. assert (Hdig : Z.pos (digits2_pos m) = 24) by lia.
    rewrite Hdig in Hl.
    rewrite Pos.compare_cont_spec in Hlt. cbn [Pos.switch_Eq] in Hlt.
    destruct (Pos.compare_spec m 8388608) as [Hm | Hm | Hm];
      try discriminate.
    exfalso. change (2 ^ (24 - 1)) with 8388608 in Hl.
    exact (Z.lt_irrefl _ (Z.le_lt_trans _ _ _ Hl (Pos2Z.pos_lt_pos _ _ Hm))).
  - split; [lia |].
    assert (Hdig : Z.pos (digits2_pos m) <= 24) by lia.
    eapply Z.lt_le_trans; [exact Hd |].
    apply Z.pow_le_mono_r; lia.
  - discriminate.
Qed.

(** The cast of every float from 0.1f up to 1 is 0, and none of them
    compares above 4. *)
Lemma cast_below_one (f : float) :
  binary32 f -> F32.ltb f F32.one = true -> F32.ltb f F32.tenth = false ->
  AudioManager.size_t_of_float f = Some 0 /\
  F32.ltb AudioManager.four f = false.
Proof.
  intros Hvalid Hone Hten. destruct f as [s | s | | s m e].
  - destruct s; discriminate.
  - destruct s; discriminate.
  - discriminate.
  - destruct s; [discriminate |].
    destruct (finite_below_one m e Hvalid Hone) as [He Hm].
    split.
    + unfold AudioManager.size_t_of_float, Color.truncate.
      destruct (Z.leb_spec 0 e) as [Hpos | _]; [lia |].
      rewrite Z.div_small; [reflexivity |].
      split; [lia |]. eapply Z.lt_le_trans; [exact Hm |].
      apply Z.pow_le_mono_r; lia.
    + unfold F32.ltb, SFltb, SFcompare, AudioManager.four.
      destruct (Z.compare_spec (-21) e) as [H1 | H1 | H1];
        try reflexivity; lia.
Qed.

(** [SetPitch] stores no pitch that compares below 0.1f. *)
Lemma clamped_pitch_not_below (v : float) :
  F32.ltb (AudioManager.fclamp v F32.tenth AudioManager.four) F32.tenth = false.
Proof.
  unfold AudioManager.fclamp. destruct (F32.ltb v F32.tenth) eqn:E1;
    [reflexivity |].
  destruct (F32.ltb AudioManager.four v) eqn:E2; [reflexivity | exact E1].
Qed.

(** For a pitch below 1 the pitch [SetPitch] stores has the cast 0. *)
Lemma clamped_pitch_cast (v : float) :
  binary32 v -> F32.ltb v F32.one = true ->
  AudioManager.size_t_of_float
    (AudioManager.fclamp v F32.tenth AudioManager.four) = Some 0.
Proof.
  intros Hvalid Hone. unfold AudioManager.fclamp.
  destruct (F32.ltb v F32.tenth) eqn:E1; [reflexivity |].
  destruct (cast_below_one v Hvalid Hone E1) as [Hcast Hfour].
  rewrite Hfour. exact Hcast.
Qed.

(** X27. A pitch below 1 freezes the sound.  [SetPitch] with a float
    below 1 stores a pitch that is not below 0.1f and whose cast to
    [size_t], the step by which [ProcessAudio] advances the position, is
    0.  A sound that is active, not paused and not yet over is then left
    by [ProcessAudio] exactly as [SetPitch] left it, whatever the number
    of frames and the order of the sounds, provided the cast is defined
    for the pitch of every other sound: it is still playing, and the
    manager meets the same conditions again. *)
Theorem X27_low_pitch_freezes_sound (order : list Z) (frameCount : Z)
    (s : AudioManager.t) (i : Z) (p : AudioManager.PlayingSound)
    (data : AudioManager.SoundData) (v : float) :
  pitches_defined (delete i (AudioManager.playingSounds s)) ->
  i <> 0 ->
  AudioManager.playingSounds s !! i = Some p ->
  AudioManager.IsActive p = true -> AudioManager.paused p = false ->
  GetData (AudioManager.sound p) = Some data ->
  AudioManager.pcmData data <> [] ->
  0 <= AudioManager.currentFrame p < AudioManager.totalFrames data ->
  AudioManager.currentFrame p < 2 ^ 64 ->
  binary32 v -> F32.ltb v F32.one = true ->
  let s1 := AudioManager.SetPitch i v s in
  let q := AudioManager.set_pitch
             (AudioManager.fclamp v F32.tenth AudioManager.four) p in
  AudioManager.playingSounds s1 !! i = Some q /\
  F32.ltb (AudioManager.pitch q) F32.tenth = false /\
  AudioManager.size_t_of_float (AudioManager.pitch q) = Some 0 /\
  exists (s' : AudioManager.t) (out : list float),
    AudioManager.ProcessAudio GetData channels order frameCount s1
    = Some (s', out) /\
    AudioManager.playingSounds s' !! i = Some q /\
    AudioManager.IsPlaying i s' = true /\
    pitches_defined (delete i (AudioManager.playingSounds s')).
Proof.
  intros Hdef Hi0 Hi Hactive Hpaused Hdata Hpcm Hframe H64 Hvalid Hone s1 q.
  assert (Hzero : (i =? 0) = false) by (apply Z.eqb_neq; exact Hi0).
  assert (Hcast : AudioManager.size_t_of_float (AudioManager.pitch q) = Some 0)
    by (apply clamped_pitch_cast; assumption).
  assert (Hs1 : AudioManager.playingSounds s1
                = <[i := q]> (AudioManager.playingSounds s)).
  { unfold s1, AudioManager.SetPitch, AudioManager.modify.
    rewrite Hzero, Hi. reflexivity. }
  split; [rewrite Hs1; apply lookup_insert_eq |].
  split; [apply clamped_pitch_not_below |]. split; [exact Hcast |].
  assert (Hfixed : forall out : list float,
            exists out' : list float,
              AudioManager.process_sound GetData channels frameCount q out
              = Some (q, out')).
  { intros out. unfold AudioManager.process_sound.
    change (AudioManager.IsActive q) with (AudioManager.IsActive p).
    change (AudioManager.paused q) with (AudioManager.paused p).
    change (AudioManager.sound q) with (AudioManager.sound p).
    rewrite Hactive, Hpaused, Hdata. cbn [negb orb].
    rewrite (bool_decide_eq_false_2 _ Hpcm).
    apply mix_frames_frozen; assumption. }
  assert (Hdef1 : pitches_defined (AudioManager.playingSounds s1)).
  { rewrite Hs1. intros k r Hk. destruct (Z.eq_dec k i) as [-> | Hki].
    - rewrite lookup_insert_eq in Hk. injection Hk as <-.
      rewrite Hcast. eexists. reflexivity.
    - rewrite lookup_insert_ne in Hk by congruence.
      apply (Hdef k r). rewrite lookup_delete_ne by congruence. exact Hk. }
  unfold AudioManager.ProcessAudio.
  destruct (process_sounds_keeps frameCount i q Hfixed order
              (AudioManager.playingSounds s1)
              (replicate (Z.to_nat (u32 (frameCount * channels))) F32.zero)
              Hdef1) as (sounds' & out' & -> & Hi' & Hdef').
  { rewrite Hs1. apply lookup_insert_eq. }
  eexists _, _. split; [reflexivity |].
  cbn [AudioManager.set_playingSounds AudioManager.playingSounds].
  split; [exact Hi' |]. split.
  - unfold AudioManager.IsPlaying.
    cbn [AudioManager.set_playingSounds AudioManager.playingSounds].
    rewrite Hzero, Hi'.
    change (AudioManager.IsActive q) with (AudioManager.IsActive p).
    change (AudioManager.paused q) with (AudioManager.paused p).
    rewrite Hactive, Hpaused. reflexivity.
  - intros k r Hk. apply lookup_delete_Some in Hk as [_ Hk].
    apply (Hdef' k r Hk).
Qed.

Lemma process_sounds_ends (frameCount : Z) (i : Z)
    (data : AudioManager.SoundData) :
  AudioManager.pcmData data <> [] ->
  0 <= AudioManager.totalFrames data < 2 ^ 64 ->
  AudioManager.totalFrames data < frameCount ->
  forall (order : list Z) (sounds : gmap Z AudioManager.PlayingSound)
         (out : list float) (p : AudioManager.PlayingSound),
  In i order -> pitches_defined sounds -> sounds !! i = Some p ->
  AudioManager.IsActive p = true -> AudioManager.paused p = false ->
  GetData (AudioManager.sound p) = Some data ->
  AudioManager.loop p = false ->
  AudioManager.size_t_of_float (AudioManager.pitch p) = Some 1 ->
  0 <= AudioManager.currentFrame p <= AudioManager.totalFrames data ->
  exists (sounds' : gmap Z AudioManager.PlayingSound) (out' : list float)
         (p' : AudioManager.PlayingSound),
    AudioManager.process_sounds GetData channels order frameCount sounds out
    = Some (sounds', out') /\
    sounds' !! i = Some p' /\ AudioManager.sound p' = nullptr.
Proof.
  intros Hpcm Htotal Hcount.
  induction order as [| j rest IH];
    intros sounds out p Hin Hdef Hi Hactive Hpaused Hdata Hloop Hpitch Hframe;
    [destruct Hin |].
  cbn [AudioManager.process_sounds].
  destruct (Z.eq_dec j i) as [-> | Hne].
  - rewrite Hi. unfold AudioManager.process_sound at 1.
    rewrite Hactive, Hpaused, Hdata. cbn [negb orb].
    rewrite (bool_decide_eq_false_2 _ Hpcm).
    destruct (mix_frames_ends data
                (F32.mul (AudioManager.volume p) (AudioManager.fadeVolume p))
                (AudioManager.counter frameCount) p out Hloop Hpitch Hframe
                ltac:(lia))
      as (p1 & out1 & -> & Hnull & Hp1).
    { unfold AudioManager.counter. rewrite length_map, length_seq. lia. }
    destruct (process_sounds_keeps frameCount i p1
                (fun o => ex_intro _ o (process_sound_inactive frameCount p1 o Hnull))
                rest (<[i := p1]> sounds) out1)
      as (sounds' & out' & -> & Hi' & _).
    + intros k r Hk. destruct (Z.eq_dec k i) as [-> | Hki].
      * rewrite lookup_insert_eq in Hk. injection Hk as <-.
        rewrite Hp1, Hpitch. eexists. reflexivity.
      * rewrite lookup_insert_ne in Hk by congruence. apply (Hdef k r Hk).
    + apply lookup_insert_eq.
    + exists sounds', out', p1. repeat split; assumption.
  - destruct Hin as [Heq | Hin]; [congruence |].
    destruct (sounds !! j) as [q |] eqn:Hj;
      [| apply (IH sounds out p); assumption].
    destruct (process_sound_defined frameCount q out (Hdef j q Hj))
      as (q' & out1 & -> & Hq').
    apply (IH (<[j := q']> sounds) out1 p); try assumption.
    + intros k r Hk. destruct (Z.eq_dec k j) as [-> | Hkj].
      * rewrite lookup_insert_eq in Hk. injection Hk as <-.
        rewrite Hq'. apply (Hdef j q Hj).
      * rewrite lookup_insert_ne in Hk by congruence. apply (Hdef k r Hk).
    + rewrite lookup_insert_ne by exact Hne. exact Hi.
Qed.

End AudioMixFacts.

Section AudioPlayback.
Import Spec.
Variable IsLoaded : Z -> bool.
Variable GetData : Z -> option AudioManager.SoundData.
Variable channels : Z.

(** X28. A sound played once ends and is removed.  [Play] of a loaded
    sound whose samples are in memory ([GetData] gives PCM data that is
    not empty), that does not loop, at a pitch whose cast is 1, gives an
    instance that is playing; once the device asks for more frames than
    the sound has and the loop over the sounds visits it, [ProcessAudio]
    marks it as over, [IsPlaying] of its id is false, and the next
    [Update] removes it from [playingSounds].  The manager is one whose
    next id is positive and whose sounds all have a pitch with a defined
    cast.  A sound without samples in memory is skipped by
    [ProcessAudio] and is not covered. *)
Theorem X28_sound_ends_and_is_removed (order : list Z) (frameCount : Z)
    (s : AudioManager.t) (sound : Z) (options : AudioManager.PlayOptions)
    (data : AudioManager.SoundData) (deltaTime : float) :
  pitches_defined (AudioManager.playingSounds s) ->
  0 < AudioManager.nextInstanceId s ->
  sound <> nullptr -> IsLoaded sound = true ->
  GetData sound = Some data -> AudioManager.pcmData data <> [] ->
  0 <= AudioManager.totalFrames data < 2 ^ 64 ->
  AudioManager.totalFrames data < frameCount ->
  AudioManager.o_loop options = false ->
  AudioManager.size_t_of_float (AudioManager.o_pitch options) = Some 1 ->
  let played := AudioManager.Play IsLoaded sound options s in
  In (snd played) order ->
  exists (s' : AudioManager.t) (out : list float),
    AudioManager.ProcessAudio GetData channels order frameCount (fst played)
    = Some (s', out) /\
    AudioManager.IsPlaying (snd played) (fst played) = true /\
    AudioManager.IsPlaying (snd played) s' = false /\
    AudioManager.playingSounds (AudioManager.Update deltaTime s')
      !! snd played = None.
Proof.
  intros Hdef Hnext Hsound Hloaded Hdata Hpcm Htotal Hcount Hloop Hpitch
    played Hin.
  assert (Hnull : (sound =? nullptr) = false) by (apply Z.eqb_neq; exact Hsound).
  set (i := AudioManager.nextInstanceId s) in *.
  set (p0 := AudioManager.MkPlaying sound i
               (F32.mul (F32.mul (AudioManager.o_volume options)
                           (AudioManager.m_MasterVolume s))
                  (AudioManager.m_SFXVolume s))
               (AudioManager.o_pitch options) (AudioManager.o_pan options)
               (AudioManager.o_loop options) false false F32.one F32.one
               F32.zero false 0).
  set (p := if AudioManager.o_fadeIn options
               && F32.ltb F32.zero (AudioManager.o_fadeInTime options)
            then AudioManager.set_fade F32.zero F32.one
                   (F32.div F32.one (AudioManager.o_fadeInTime options))
                   false p0
            else p0).
  assert (Hplayed : played
                    = (AudioManager.Mk (<[i := p]> (AudioManager.playingSounds s))
                         (AudioManager.u64 (i + 1))
                         (AudioManager.m_MasterVolume s)
                         (AudioManager.m_SFXVolume s)
                         (AudioManager.m_BGMVolume s)
                         (AudioManager.m_CurrentBGM s), i)).
  { unfold played, AudioManager.Play. rewrite Hnull, Hloaded. reflexivity. }
  assert (Hfields : AudioManager.sound p = sound /\
                    AudioManager.paused p = false /\
                    AudioManager.loop p = false /\
                    AudioManager.pitch p = AudioManager.o_pitch options /\
                    AudioManager.currentFrame p = 0).
  { unfold p. destruct (AudioManager.o_fadeIn options
                        && F32.ltb F32.zero (AudioManager.o_fadeInTime options));
      cbn; repeat split; exact Hloop. }
  destruct Hfields as (Fsound & Fpaused & Floop & Fpitch & Fframe).
  assert (Factive : AudioManager.IsActive p = true)
    by (unfold AudioManager.IsActive; rewrite Fsound, Hnull; reflexivity).
  assert (Hi0 : (i =? 0) = false) by (apply Z.eqb_neq; lia).
  rewrite Hplayed in Hin |- *. cbn [fst snd] in Hin |- *.
  unfold AudioManager.ProcessAudio.
  cbn [AudioManager.playingSounds AudioManager.set_playingSounds].
  destruct (process_sounds_ends GetData channels frameCount i data Hpcm Htotal
              Hcount order (<[i := p]> (AudioManager.playingSounds s))
              (replicate (Z.to_nat (u32 (frameCount * channels))) F32.zero)
              p Hin)
    as (sounds' & out' & p' & -> & Hi' & Hover).
  - intros k r Hk. destruct (Z.eq_dec k i) as [-> | Hki].
    + rewrite lookup_insert_eq in Hk. injection Hk as <-.
      rewrite Fpitch, Hpitch. eexists. reflexivity.
    + rewrite lookup_insert_ne in Hk by congruence. apply (Hdef k r Hk).
  - apply lookup_insert_eq.
  - exact Factive.
  - exact Fpaused.
  - rewrite Fsound. exact Hdata.
  - exact Floop.
  - rewrite Fpitch. exact Hpitch.
  - rewrite Fframe. lia.
  - eexists _, _. split; [reflexivity |].
    unfold AudioManager.IsPlaying.
    cbn [AudioManager.playingSounds AudioManager.set_playingSounds
         AudioManager.Update].
    rewrite Hi0, lookup_insert_eq, Hi', Factive, Fpaused.
    split; [reflexivity |].
    unfold AudioManager.IsActive. rewrite Hover.
    split; [reflexivity |].
    rewrite lookup_omap, Hi'. cbn [mbind option_bind].
    unfold AudioManager.update_sound, AudioManager.IsActive.
    rewrite Hover. reflexivity.
Qed.

(** [ProcessAudio] passes over a sound without samples in memory. *)
Lemma process_sound_skipped (frameCount : Z) (p : AudioManager.PlayingSound)
    (data : AudioManager.SoundData) (out : list float) :
  GetData (AudioManager.sound p) = Some data ->
  AudioManager.pcmData data = [] ->
  AudioManager.process_sound GetData channels frameCount p out = Some (p, out).
Proof.
  intros Hdata Hpcm. unfold AudioManager.process_sound.
  destruct (negb (AudioManager.IsActive p) || AudioManager.paused p);
    [reflexivity |].
  rewrite Hdata, Hpcm. reflexivity.
Qed.

(** A sound the loop body leaves as it is stays as it is, and the casts of
    the other sounds stay defined. *)
Lemma process_sounds_passes (frameCount : Z) (i : Z)
    (p : AudioManager.PlayingSound) :
  (forall out : list float,
     AudioManager.process_sound GetData channels frameCount p out
     = Some (p, out)) ->
  forall (order : list Z) (sounds : gmap Z AudioManager.PlayingSound)
         (out : list float),
  pitches_defined (delete i sounds) -> sounds !! i = Some p ->
  exists (sounds' : gmap Z AudioManager.PlayingSound) (out' : list float),
    AudioManager.process_sounds GetData channels order frameCount sounds out
    = Some (sounds', out') /\
    sounds' !! i = Some p /\ pitches_defined (delete i sounds').
Proof.
  intros Hfixed.
  induction order as [| j rest IH]; intros sounds out Hdef Hi;
    [exists sounds, out; repeat split; assumption |].
  cbn [AudioManager.process_sounds].
  destruct (sounds !! j) as [q |] eqn:Hj; [| apply IH; assumption].
  destruct (Z.eq_dec j i) as [-> | Hne].
  - assert (q = p) by congruence. subst q. rewrite Hfixed.
    rewrite insert_id by exact Hi. apply IH; assumption.
  - assert (Hq : is_Some (AudioManager.size_t_of_float (AudioManager.pitch q))).
    { apply (Hdef j q). rewrite lookup_delete_ne by congruence. exact Hj. }
    destruct (process_sound_defined GetData channels frameCount q out Hq)
      as (q' & out1 & -> & Hq').
    apply IH.
    + intros k r Hk. apply lookup_delete_Some in Hk as [Hki Hk].
      destruct (Z.eq_dec k j) as [-> | Hkj].
      * rewrite lookup_insert_eq in Hk. injection Hk as <-.
        rewrite Hq'. exact Hq.
      * rewrite lookup_insert_ne in Hk by congruence.
        apply (Hdef k r). rewrite lookup_delete_ne by congruence. exact Hk.
    + rewrite lookup_insert_ne by exact Hne. exact Hi.
Qed.

(** [Update] changes no pitch, and it keeps a sound that is active and
    was not asked to stop: only its fade may move. *)
Lemma update_sound_pitch (deltaTime : float)
    (p p' : AudioManager.PlayingSound) :
  AudioManager.update_sound deltaTime p = Some p' ->
  AudioManager.pitch p' = AudioManager.pitch p.
Proof.
  unfold AudioManager.update_sound.
  repeat match goal with
         | |- context [if ?c then _ else _] => destruct c
         end;
    intros Heq; try discriminate; injection Heq as <-; reflexivity.
Qed.

Lemma update_sound_kept (deltaTime : float) (p : AudioManager.PlayingSound) :
  AudioManager.IsActive p = true -> AudioManager.fadeOutStop p = false ->
  exists p' : AudioManager.PlayingSound,
    AudioManager.update_sound deltaTime p = Some p' /\
    AudioManager.sound p' = AudioManager.sound p /\
    AudioManager.paused p' = AudioManager.paused p /\
    AudioManager.fadeOutStop p' = false /\
    AudioManager.currentFrame p' = AudioManager.currentFrame p.
Proof.
  intros Hactive Hstop. unfold AudioManager.update_sound.
  rewrite Hactive, Hstop. cbn [negb andb].
  repeat match goal with
         | |- context [if ?c then _ else _] => destruct c
         end;
    eexists; (split; [reflexivity |]); cbn; repeat split; exact Hstop.
Qed.

Lemma waiting_step (sound i : Z) (data : AudioManager.SoundData)
    (step : DeviceStep) (s : AudioManager.t) :
  sound <> nullptr -> GetData sound = Some data ->
  AudioManager.pcmData data = [] ->
  waiting sound i s ->
  exists s' : AudioManager.t,
    device_steps GetData channels [step] s = Some s' /\ waiting sound i s'.
Proof.
  intros Hsound Hdata Hpcm (Hdef & p & Hi & Hs & Hpaused & Hstop & Hframe).
  destruct step as [order frameCount | deltaTime]; cbn [device_steps].
  - unfold AudioManager.ProcessAudio.
    destruct (process_sounds_passes frameCount i p) with
      (order := order) (sounds := AudioManager.playingSounds s)
      (out := replicate (Z.to_nat (u32 (frameCount * channels))) F32.zero)
      as (sounds' & out' & -> & Hi' & Hdef'); try assumption.
    { intros out. apply (process_sound_skipped frameCount p data);
        [rewrite Hs; exact Hdata | exact Hpcm]. }
    eexists. split; [reflexivity |].
    split; [exact Hdef' |]. exists p. repeat split; assumption.
  - eexists. split; [reflexivity |].
    assert (Hactive : AudioManager.IsActive p = true).
    { unfold AudioManager.IsActive. rewrite Hs.
      apply negb_true_iff, Z.eqb_neq. exact Hsound. }
    destruct (update_sound_kept deltaTime p Hactive Hstop)
      as (p' & Hup & Hs' & Hpaused' & Hstop' & Hframe').
    unfold waiting, AudioManager.Update.
    cbn [AudioManager.set_playingSounds AudioManager.playingSounds].
    split.
    + intros k r Hk. apply lookup_delete_Some in Hk as [Hki Hk].
      rewrite lookup_omap in Hk.
      destruct (AudioManager.playingSounds s !! k) as [r0 |] eqn:Hk0;
        [| discriminate].
      cbn [mbind option_bind] in Hk.
      rewrite (update_sound_pitch deltaTime r0 r Hk).
      apply (Hdef k r0). rewrite lookup_delete_ne by congruence. exact Hk0.
    + exists p'. rewrite lookup_omap, Hi. cbn [mbind option_bind].
      split; [exact Hup |]. split; [congruence |]. split; [congruence |].
      split; [exact Hstop' | congruence].
Qed.

Lemma waiting_steps (sound i : Z) (data : AudioManager.SoundData)
    (steps : list DeviceStep) :
  sound <> nullptr -> GetData sound = Some data ->
  AudioManager.pcmData data = [] ->
  forall s : AudioManager.t,
  waiting sound i s ->
  exists s' : AudioManager.t,
    device_steps GetData channels steps s = Some s' /\ waiting sound i s'.
Proof.
  intros Hsound Hdata Hpcm.
  induction steps as [| step rest IH]; intros s Hw;
    [exists s; split; [reflexivity | exact Hw] |].
  destruct (waiting_step sound i data step s Hsound Hdata Hpcm Hw)
    as (s1 & Hstep & Hw1).
  destruct (IH s1 Hw1) as (s' & Hrest & Hw').
  exists s'. split; [| exact Hw'].
  destruct step as [order frameCount | deltaTime];
    cbn [device_steps] in Hstep |- *.
  - destruct (AudioManager.ProcessAudio GetData channels order frameCount s)
      as [[s2 out] |]; [| discriminate].
    injection Hstep as ->. exact Hrest.
  - injection Hstep as ->. exact Hrest.
Qed.

(** X29. A sound without samples in memory never ends.  [Play] accepts a
    loaded sound whose [pcmData] is empty, as it is for a sound kept for
    streaming.  Through every sequence of [ProcessAudio] and [Update]
    calls the instance stays in [playingSounds] at its first frame,
    [IsPlaying] of its id stays true, and it is never marked as over:
    [ProcessAudio] passes over it and [Update] has no reason to remove
    it.  The manager is one whose next id is positive and whose sounds
    all have a pitch with a defined cast. *)
Theorem X29_sound_without_samples_never_ends (steps : list DeviceStep)
    (s : AudioManager.t) (sound : Z) (options : AudioManager.PlayOptions)
    (data : AudioManager.SoundData) :
  pitches_defined (AudioManager.playingSounds s) ->
  0 < AudioManager.nextInstanceId s ->
  sound <> nullptr -> IsLoaded sound = true ->
  GetData sound = Some data -> AudioManager.pcmData data = [] ->
  let played := AudioManager.Play IsLoaded sound options s in
  snd played <> 0 /\
  exists (s' : AudioManager.t) (p : AudioManager.PlayingSound),
    device_steps GetData channels steps (fst played) = Some s' /\
    AudioManager.playingSounds s' !! snd played = Some p /\
    AudioManager.sound p = sound /\
    AudioManager.currentFrame p = 0 /\
    AudioManager.IsPlaying (snd played) s' = true.
Proof.
  intros Hdef Hnext Hsound Hloaded Hdata Hpcm played.
  assert (Hnull : (sound =? nullptr) = false) by (apply Z.eqb_neq; exact Hsound).
  set (i := AudioManager.nextInstanceId s) in *.
  assert (Hplayed : snd played = i /\ waiting sound i (fst played)).
  { unfold played, AudioManager.Play. rewrite Hnull, Hloaded.
    cbn [orb negb fst snd]. fold i.
    split; [reflexivity |]. unfold waiting.
    cbn [AudioManager.playingSounds]. split.
    - rewrite delete_insert_eq. intros k r Hk.
      apply lookup_delete_Some in Hk as [_ Hk]. apply (Hdef k r Hk).
    - eexists. split; [apply lookup_insert_eq |].
      destruct (AudioManager.o_fadeIn options
                && F32.ltb F32.zero (AudioManager.o_fadeInTime options));
        cbn; repeat split. }
  destruct Hplayed as [Hid Hw]. rewrite Hid.
  split; [lia |].
  destruct (waiting_steps sound i data steps Hsound Hdata Hpcm (fst played) Hw)
    as (s' & Hsteps & _ & p & Hi & Hs & Hpaused & _ & Hframe).
  exists s', p. split; [exact Hsteps |]. split; [exact Hi |].
  split; [exact Hs |]. split; [exact Hframe |].
  unfold AudioManager.IsPlaying, AudioManager.IsActive.
  assert (Hi0 : (i =? 0) = false) by (apply Z.eqb_neq; lia).
  rewrite Hi0, Hi, Hs, Hnull, Hpaused. reflexivity.
Qed.

End AudioPlayback.

(** ** The further properties at the sample data *)

Section FurtherWitnesses.
Import Spec.

Lemma unsorted_engine_wf : wf Samples.unsorted_engine.
Proof.
  split; [change (0 <= 4 < 2 ^ 32) | change (7 <> 0)]; lia.
Defined.

Lemma X1_batches_are_maximal_runs_witness :
  exists s',
    @SpriteBatch.frame Samples.symbolic_math 0 Samples.aba F32.zero
      Samples.engine = Ok s' /\
    SpriteBatch.m_Batches s'
    = group_runs (map SpriteBatch.texture (SpriteBatch.m_SpriteDataList s')) /\
    labelled (SpriteBatch.m_SpriteDataList s') (SpriteBatch.m_Batches s') /\
    (forall (k : nat) (b b' : SpriteBatch.BatchInfo),
       SpriteBatch.m_Batches s' !! k = Some b ->
       SpriteBatch.m_Batches s' !! S k = Some b' ->
       SpriteBatch.b_texture b <> SpriteBatch.b_texture b').
Proof.
  exact (@X1_batches_are_maximal_runs Samples.symbolic_math 0 Samples.aba
           F32.zero Samples.engine sample_engine_wf eq_refl).
Defined.

Lemma X2_one_batch_per_texture_witness :
  exists s',
    @SpriteBatch.frame Samples.symbolic_math 0 Samples.aba F32.zero
      Samples.engine = Ok s' /\
    NoDup (map SpriteBatch.b_texture (SpriteBatch.m_Batches s')) /\
    (forall t : Z,
       t ∈ map SpriteBatch.b_texture (SpriteBatch.m_Batches s')
       <-> t ∈ map (fun a => SpriteBatch.d_texture
                               (resolve (SpriteBatch.m_WhiteTexture
                                           Samples.engine) a)) Samples.aba).
Proof.
  apply (@X2_one_batch_per_texture Samples.symbolic_math 0 Samples.aba
           F32.zero Samples.engine sample_engine_wf eq_refl eq_refl).
  vm_compute. discriminate.
Defined.

Lemma X3_unsorted_keeps_order_witness :
  exists s',
    @SpriteBatch.frame Samples.symbolic_math 0 Samples.aba F32.zero
      Samples.unsorted_engine = Ok s' /\
    SpriteBatch.m_Instances s'
    = map (fun a => SpriteBatch.instance
                      (SpriteBatch.make_SpriteData
                         (SpriteBatch.m_WhiteTexture Samples.unsorted_engine) a))
        Samples.aba /\
    SpriteBatch.m_Batches s'
    = group_runs
        (map (fun a => SpriteBatch.d_texture
                         (resolve (SpriteBatch.m_WhiteTexture
                                     Samples.unsorted_engine) a)) Samples.aba) /\
    SpriteBatch.GetDrawCallCount s'
    = Z.of_nat
        (runs (map (fun a => SpriteBatch.d_texture
                               (resolve (SpriteBatch.m_WhiteTexture
                                           Samples.unsorted_engine) a))
                 Samples.aba)).
Proof.
  apply (@X3_unsorted_keeps_order Samples.symbolic_math 0 Samples.aba
           F32.zero Samples.unsorted_engine unsorted_engine_wf eq_refl eq_refl).
  vm_compute. discriminate.
Defined.

Lemma X4_frames_are_independent_witness :
  exists s1 s2 s2',
    @SpriteBatch.frame Samples.symbolic_math 0 Samples.aba F32.zero
      Samples.engine = Ok s1 /\
    @SpriteBatch.frame Samples.symbolic_math 1 Samples.baa F32.one s1 = Ok s2 /\
    @SpriteBatch.frame Samples.symbolic_math 1 Samples.baa F32.one
      Samples.engine = Ok s2' /\
    frame_data s2 = frame_data s2'.
Proof.
  exact (@X4_frames_are_independent Samples.symbolic_math 0 1 Samples.aba
           Samples.baa F32.zero F32.one Samples.engine sample_engine_wf
           eq_refl).
Defined.

Lemma sample_engine_wf_slots : wf_slots Samples.engine.
Proof. split; [reflexivity | left; reflexivity]. Defined.

Lemma X5_staging_slots_alternate_witness :
  exists s' fd,
    @SpriteBatch.frame Samples.symbolic_math 0 Samples.aba F32.zero
      Samples.engine = Ok s' /\
    SpriteBatch.m_FrameData s' !! 0%nat = Some fd /\
    SpriteBatch.needsUpload fd = true /\
    take (length (SpriteBatch.m_Instances s'))
      (SpriteBatch.instanceStagingBuffer fd) = SpriteBatch.m_Instances s' /\
    SpriteBatch.m_FrameData s' !! 1%nat
    = SpriteBatch.m_FrameData Samples.engine !! 1%nat /\
    SpriteBatch.m_CurrentFrameIndex s' = 1 /\
    wf_slots s'.
Proof.
  apply (@X5_staging_slots_alternate Samples.symbolic_math 0 Samples.aba
           F32.zero Samples.engine sample_engine_wf sample_engine_wf_slots
           eq_refl).
  - discriminate.
  - vm_compute. discriminate.
Defined.

Lemma X6_empty_frame_witness :
  exists s',
    @SpriteBatch.frame Samples.symbolic_math 0 [] F32.zero Samples.engine
    = Ok s' /\
    frame_data s'
    = ([], [], [], [], [], SpriteBatch.MkStatistics 0 0 0 0 F32.zero) /\
    SpriteBatch.m_VertexBuffer s' = SpriteBatch.m_VertexBuffer Samples.engine /\
    SpriteBatch.m_IndexBuffer s' = SpriteBatch.m_IndexBuffer Samples.engine /\
    SpriteBatch.m_FrameData s' = SpriteBatch.m_FrameData Samples.engine /\
    SpriteBatch.m_DescriptorSets s'
    = SpriteBatch.m_DescriptorSets Samples.engine /\
    @SpriteBatch.Render Samples.symbolic_math (1280, 720) Samples.camera s'
    = (Ok s', Samples.camera, []).
Proof.
  exact (@X6_empty_frame Samples.symbolic_math 0 F32.zero (1280, 720)
           Samples.camera Samples.engine eq_refl).
Defined.

Lemma X7_fallback_geometry_exact_witness :
  exists s',
    @SpriteBatch.frame Samples.symbolic_math 0 Samples.aba F32.zero
      Samples.engine = Ok s' /\
    SpriteBatch.m_Vertices s'
    = concat (map (fun d => @SpriteBatch.quad_vertices Samples.symbolic_math
                              (SpriteBatch.instance d))
                (SpriteBatch.m_SpriteDataList s')) /\
    SpriteBatch.m_Indices s'
    = concat (map quad_index_pattern (seq 0 (length Samples.aba))).
Proof.
  apply (@X7_fallback_geometry_exact Samples.symbolic_math 0 Samples.aba
           F32.zero Samples.engine sample_engine_wf eq_refl).
  - vm_compute. discriminate.
  - vm_compute. discriminate.
Defined.

Lemma X8_render_draws_each_batch_witness :
  exists s',
    @SpriteBatch.frame Samples.symbolic_math 0 Samples.six F32.zero
      Samples.engine = Ok s' /\
    forall (s1 : SpriteBatch.t) (cam' : @Camera2D.t Samples.symbolic_math)
           (cmds : list (SpriteBatch.VkCmd (@mat4 Samples.symbolic_math))),
      @SpriteBatch.Render Samples.symbolic_math (1280, 720) Samples.camera s'
      = (Ok s1, cam', cmds) ->
      drop 6 cmds
      = concat (map (wrapped_batch_commands (SpriteBatch.m_DescriptorSets s1))
                  (SpriteBatch.m_Batches s')) /\
      Forall (fun b => is_Some (SpriteBatch.m_DescriptorSets s1
                                !! SpriteBatch.b_texture b))
        (SpriteBatch.m_Batches s') /\
      (6 * Z.of_nat (length (SpriteBatch.m_Instances s')) < 2 ^ 32 ->
       drop 6 cmds
       = concat (map (batch_commands (SpriteBatch.m_DescriptorSets s1))
                   (SpriteBatch.m_Batches s'))).
Proof.
  apply (@X8_render_draws_each_batch Samples.symbolic_math 0 Samples.six
           F32.zero (1280, 720) Samples.camera Samples.engine
           sample_engine_wf eq_refl).
Defined.

Lemma X9_legacy_batches_are_runs_witness :
  exists t',
    @LegacySpriteBatch.frame Samples.symbolic_math 0 Samples.aba
      Samples.roomy_legacy_engine = Some (Ok t') /\
    LegacySpriteBatch.m_Batches t'
    = map as_index_batch
        (group_runs
           (map (fun a => SpriteBatch.d_texture
                            (resolve (LegacySpriteBatch.m_WhiteTexture
                                        Samples.roomy_legacy_engine) a))
              Samples.aba)) /\
    LegacySpriteBatch.m_DrawCallCount t'
    = Z.of_nat
        (runs (map (fun a => SpriteBatch.d_texture
                               (resolve (LegacySpriteBatch.m_WhiteTexture
                                           Samples.roomy_legacy_engine) a))
                 Samples.aba)) /\
    take (length (LegacySpriteBatch.m_Vertices t'))
      (LegacySpriteBatch.m_VertexBuffer t') = LegacySpriteBatch.m_Vertices t' /\
    take (length (LegacySpriteBatch.m_Indices t'))
      (LegacySpriteBatch.m_IndexBuffer t') = LegacySpriteBatch.m_Indices t'.
Proof.
  apply (@X9_legacy_batches_are_runs Samples.symbolic_math 0 Samples.aba
           Samples.roomy_legacy_engine eq_refl).
  - change (7 <> 0). lia.
  - vm_compute. discriminate.
  - vm_compute. reflexivity.
Defined.

Lemma X10_implementations_agree_witness :
  exists s' t',
    @SpriteBatch.frame Samples.symbolic_math 0 Samples.aba F32.zero
      Samples.unsorted_engine = Ok s' /\
    @LegacySpriteBatch.frame Samples.symbolic_math 0 Samples.aba
      Samples.roomy_legacy_engine = Some (Ok t') /\
    LegacySpriteBatch.m_Vertices t' = SpriteBatch.m_Vertices s' /\
    LegacySpriteBatch.m_Indices t' = SpriteBatch.m_Indices s' /\
    LegacySpriteBatch.m_Batches t'
    = map as_index_batch (SpriteBatch.m_Batches s') /\
    LegacySpriteBatch.m_DrawCallCount t' = SpriteBatch.GetDrawCallCount s'.
Proof.
  apply (@X10_implementations_agree Samples.symbolic_math 0 Samples.aba
           F32.zero Samples.unsorted_engine Samples.roomy_legacy_engine
           unsorted_engine_wf eq_refl eq_refl eq_refl eq_refl).
  - vm_compute. discriminate.
  - vm_compute. discriminate.
  - vm_compute. reflexivity.
Defined.

Lemma X12_utf8_round_trip_witness :
  TextRenderer.Utf8ToCodepoints Samples.utf8_text = Samples.codepoints.
Proof.
  apply (X12_utf8_round_trip Samples.utf8_text Samples.codepoints).
  - unfold Samples.codepoints. repeat constructor; lia.
  - vm_compute. reflexivity.
Defined.

Lemma X14_text_is_one_batch_witness :
  exists s',
    and_then
      (and_then (SpriteBatch.Begin 0 Samples.engine)
         (fun batch =>
            TextRenderer.DrawText batch (Some Samples.font) "A A"
              Samples.origin Samples.white F32.one TextRenderer.Left))
      (@SpriteBatch.End Samples.symbolic_math F32.zero) = Ok s' /\
    SpriteBatch.m_Batches s' = [SpriteBatch.MkBatch 9 0 2] /\
    SpriteBatch.GetSpriteCount s' = 2 /\
    SpriteBatch.GetDrawCallCount s' = 1.
Proof.
  apply (@X14_text_is_one_batch Samples.symbolic_math 0 Samples.font "A A"
           Samples.origin Samples.white F32.one TextRenderer.Left F32.zero
           Samples.engine sample_engine_wf eq_refl).
  - vm_compute. lia.
  - vm_compute. discriminate.
Defined.

Lemma X15_shadow_under_text_witness :
  let shadow :=
    TextRenderer.DrawText_requests (Some Samples.font) "A A"
      (vec2_add Samples.origin (Vec2 F32.one F32.one)) Samples.black F32.one
      TextRenderer.Left in
  let glyphs :=
    TextRenderer.DrawText_requests (Some Samples.font) "A A" Samples.origin
      Samples.white F32.one TextRenderer.Left in
  let to_instance := fun a =>
    SpriteBatch.instance
      (SpriteBatch.make_SpriteData
         (SpriteBatch.m_WhiteTexture Samples.engine) a) in
  exists s',
    and_then
      (and_then (SpriteBatch.Begin 0 Samples.engine)
         (fun batch =>
            TextRenderer.DrawTextWithShadow batch (Some Samples.font) "A A"
              Samples.origin Samples.white Samples.black
              (Vec2 F32.one F32.one) F32.one TextRenderer.Left))
      (@SpriteBatch.End Samples.symbolic_math F32.zero) = Ok s' /\
    SpriteBatch.m_Instances s'
    = map to_instance shadow ++ map to_instance glyphs /\
    SpriteBatch.GetDrawCallCount s' = 1 /\
    length shadow = 2%nat /\ length glyphs = 2%nat /\
    Forall (fun a => SpriteBatch.d_color a = Samples.black) shadow /\
    Forall (fun a => SpriteBatch.d_color a = Samples.white) glyphs /\
    map (fun a => (SpriteBatch.d_size a, SpriteBatch.d_uvMin a,
                   SpriteBatch.d_uvMax a)) shadow
    = map (fun a => (SpriteBatch.d_size a, SpriteBatch.d_uvMin a,
                     SpriteBatch.d_uvMax a)) glyphs.
Proof.
  apply (@X15_shadow_under_text Samples.symbolic_math 0 Samples.font "A A"
           Samples.origin Samples.white Samples.black (Vec2 F32.one F32.one)
           F32.one TextRenderer.Left F32.zero Samples.engine
           sample_engine_wf eq_refl).
  - vm_compute. lia.
  - vm_compute. discriminate.
Defined.

Lemma X17_hex_round_trip_witness :
  exists c : vec4,
    Color.Hex "ff8000" = Some c /\
    Color.Hex "#ff8000" = Some c /\
    Color.ToHex false c = Some "#FF8000"%string.
Proof.
  apply (X17_hex_round_trip "ff8000" false); reflexivity.
Defined.

Lemma X18_atlas_size_fits_witness :
  exists atlasSize : Z,
    Font.LoadGlyphs Samples.small_face 7 = Some (atlasSize, atlasSize) /\
    In atlasSize [512; 1024; 2048; 4096; 8192; 16384; 32768] /\
    Font.atlas_need Samples.small_face <= atlasSize * atlasSize /\
    (atlasSize = 512 \/
     (atlasSize / 2) * (atlasSize / 2) < Font.atlas_need Samples.small_face).
Proof.
  apply (X18_atlas_size_fits Samples.small_face 7).
  - vm_compute. discriminate.
  - lia.
Defined.

Lemma X19_atlas_size_no_exit_witness :
  Font.LoadGlyphs Samples.huge_face 1000 = None.
Proof.
  apply (X19_atlas_size_no_exit Samples.huge_face 1000).
  vm_compute. reflexivity.
Defined.

Lemma sample_input_wf : input_wf Samples.input.
Proof. split; reflexivity. Defined.

Lemma X20_key_edges_witness :
  let s' := InputManager.deliver_all Samples.events (InputManager.Update Samples.input) in
  InputManager.IsKeyDown 66 s' = true /\
  InputManager.IsKeyPressed 66 s' = true && negb false /\
  InputManager.IsKeyReleased 66 s' = negb true && false /\
  InputManager.IsKeyPressed 66 (InputManager.Update s') = false /\
  InputManager.IsKeyReleased 66 (InputManager.Update s') = false.
Proof.
  apply (X20_key_edges Samples.input Samples.events 66 sample_input_wf).
  vm_compute. split; discriminate.
Defined.

Lemma X21_mouse_button_edges_witness :
  let s' := InputManager.deliver_all Samples.events (InputManager.Update Samples.input) in
  InputManager.IsMouseButtonDown 0 s' = true /\
  InputManager.IsMouseButtonPressed 0 s' = true && negb false /\
  InputManager.IsMouseButtonReleased 0 s' = negb true && false /\
  InputManager.IsMouseButtonPressed 0 (InputManager.Update s') = false /\
  InputManager.IsMouseButtonReleased 0 (InputManager.Update s') = false /\
  InputManager.GetScrollDelta (InputManager.Update s') = F32.zero.
Proof.
  apply (X21_mouse_button_edges Samples.input Samples.events 0
           sample_input_wf).
  vm_compute. split; discriminate.
Defined.

Lemma small_face_fits :
  forall (c : Z) (g : Font.GlyphSlot),
  Samples.small_face c = Some g ->
  0 <= Font.bitmap_width g /\ Font.bitmap_width g + 2 < 512 /\
  0 <= Font.bitmap_rows g < 2 ^ 31.
Proof.
  intros c g Hg. injection Hg as <-. cbn [Font.bitmap_width Font.bitmap_rows].
  change (2 ^ 31) with 2147483648. lia.
Defined.

Lemma X22_atlas_keeps_glyphs_witness :
  exists place : gmap Z (Z * Z),
    atlas_ok Samples.small_face 512 512
      (Font.CreateAtlas Samples.small_face 512 512) place.
Proof.
  apply (X22_atlas_keeps_glyphs Samples.small_face 512 512).
  - lia.
  - lia.
  - exact small_face_fits.
Defined.

Lemma X25_instance_ids_are_fresh_witness :
  let result :=
    audio_calls Samples.loaded Samples.audio_session Samples.audio in
  NoDup (snd result) /\
  Forall (fun id => id <> 0) (snd result) /\
  (forall id : Z,
     is_Some (AudioManager.playingSounds (fst result) !! id) ->
     In id (snd result)) /\
  (AudioManager.m_CurrentBGM (fst result) = 0 \/
   In (AudioManager.m_CurrentBGM (fst result)) (snd result)).
Proof.
  apply (X25_instance_ids_are_fresh Samples.loaded Samples.audio_session
           F32.one F32.one F32.one).
  vm_compute. reflexivity.
Defined.

Lemma X26_replaced_bgm_is_never_removed_witness :
  let first :=
    AudioManager.PlayBGM Samples.loaded 100 F32.one F32.one Samples.audio in
  let second :=
    AudioManager.PlayBGM Samples.loaded 200 F32.one F32.zero (fst first) in
  let later :=
    fold_left (fun s dt => AudioManager.Update dt s) [F32.one; F32.one]
      (fst second) in
  exists p : AudioManager.PlayingSound,
    AudioManager.playingSounds later !! snd first = Some p /\
    AudioManager.sound p = 100 /\
    AudioManager.loop p = true /\
    AudioManager.fadeVolume p = F32.zero /\
    AudioManager.fadeOutStop p = true /\
    AudioManager.IsPlaying (snd first) later = true.
Proof.
  apply (X26_replaced_bgm_is_never_removed Samples.loaded Samples.audio
           100 200 F32.one F32.one F32.one F32.zero [F32.one; F32.one]).
  - discriminate.
  - reflexivity.
  - reflexivity.
  - vm_compute. split; reflexivity.
Defined.

Lemma X27_low_pitch_freezes_sound_witness :
  let s1 := AudioManager.SetPitch 1 F32.half Samples.slow_audio in
  let q := AudioManager.set_pitch
             (AudioManager.fclamp F32.half F32.tenth AudioManager.four)
             Samples.slow_sound in
  AudioManager.playingSounds s1 !! 1 = Some q /\
  F32.ltb (AudioManager.pitch q) F32.tenth = false /\
  AudioManager.size_t_of_float (AudioManager.pitch q) = Some 0 /\
  exists (s' : AudioManager.t) (out : list float),
    AudioManager.ProcessAudio Samples.sound_data 2 [1] 8 s1 = Some (s', out) /\
    AudioManager.playingSounds s' !! 1 = Some q /\
    AudioManager.IsPlaying 1 s' = true /\
    pitches_defined (delete 1 (AudioManager.playingSounds s')).
Proof.
  apply (X27_low_pitch_freezes_sound Samples.sound_data 2 [1] 8
           Samples.slow_audio 1 Samples.slow_sound Samples.stereo_clip
           F32.half).
  - intros i p Hp.
    change (AudioManager.playingSounds Samples.slow_audio)
      with (<[1 := Samples.slow_sound]> (∅ : gmap Z AudioManager.PlayingSound))
      in Hp.
    rewrite delete_insert_eq, delete_empty, lookup_empty in Hp. discriminate.
  - discriminate.
  - reflexivity.
  - reflexivity.
  - reflexivity.
  - reflexivity.
  - discriminate.
  - vm_compute. split; [discriminate | reflexivity].
  - vm_compute. reflexivity.
  - reflexivity.
  - reflexivity.
Defined.

Lemma empty_audio_defined :
  pitches_defined (AudioManager.playingSounds Samples.audio).
Proof.
  intros i p Hp.
  change (AudioManager.playingSounds Samples.audio)
    with (∅ : gmap Z AudioManager.PlayingSound) in Hp.
  rewrite lookup_empty in Hp. discriminate.
Defined.

Lemma X28_sound_ends_and_is_removed_witness :
  let played :=
    AudioManager.Play Samples.loaded 100 AudioManager.default_options
      Samples.audio in
  exists (s' : AudioManager.t) (out : list float),
    AudioManager.ProcessAudio Samples.sound_data 2 [1] 8 (fst played)
    = Some (s', out) /\
    AudioManager.IsPlaying (snd played) (fst played) = true /\
    AudioManager.IsPlaying (snd played) s' = false /\
    AudioManager.playingSounds (AudioManager.Update F32.one s')
      !! snd played = None.
Proof.
  apply (X28_sound_ends_and_is_removed Samples.loaded Samples.sound_data 2
           [1] 8 Samples.audio 100 AudioManager.default_options
           Samples.stereo_clip F32.one empty_audio_defined).
  - reflexivity.
  - discriminate.
  - reflexivity.
  - reflexivity.
  - discriminate.
  - vm_compute. split; [discriminate | reflexivity].
  - reflexivity.
  - reflexivity.
  - reflexivity.
  - left. reflexivity.
Defined.

Lemma X29_sound_without_samples_never_ends_witness :
  let played :=
    AudioManager.Play Samples.loaded 100 AudioManager.default_options
      Samples.audio in
  snd played <> 0 /\
  exists (s' : AudioManager.t) (p : AudioManager.PlayingSound),
    device_steps Samples.streaming_data 2 Samples.two_rounds (fst played)
    = Some s' /\
    AudioManager.playingSounds s' !! snd played = Some p /\
    AudioManager.sound p = 100 /\
    AudioManager.currentFrame p = 0 /\
    AudioManager.IsPlaying (snd played) s' = true.
Proof.
  apply (X29_sound_without_samples_never_ends Samples.loaded
           Samples.streaming_data 2 Samples.two_rounds Samples.audio 100
           AudioManager.default_options Samples.streaming_clip
           empty_audio_defined).
  - reflexivity.
  - discriminate.
  - reflexivity.
  - reflexivity.
  - reflexivity.
Defined.

(** The session of the samples, run: the ids 1, 2 and 3 are handed out,
    the effect with id 1 is gone, the music and the second effect play. *)
Example scenario_audio_session :
  snd (audio_calls Samples.loaded Samples.audio_session Samples.audio)
  = [1; 2; 3] /\
  let s := fst (audio_calls Samples.loaded Samples.audio_session
                  Samples.audio) in
  AudioManager.IsPlaying 1 s = false /\
  AudioManager.IsPlaying 2 s = true /\
  AudioManager.IsPlaying 3 s = true /\
  AudioManager.IsBGMPlaying s = true.
Proof. vm_compute. repeat split. Qed.

(** A small atlas, run: the 40 glyphs that fit before the atlas is full
    are stored, and 40 times 10 by 12 pixels of four bytes are set. *)
Example scenario_small_atlas :
  size (Font.m_Glyphs (Font.CreateAtlas Samples.small_face 128 64)) = 40%nat /\
  size (Font.atlasData (Font.CreateAtlas Samples.small_face 128 64))
  = (40 * (10 * 12) * 4)%nat.
Proof. vm_compute. split; reflexivity. Qed.

End FurtherWitnesses.
